(* ===== verification/_CoqProject ===== *)
-Q . S2P
Prelude.v
Js.v
JsPartial.v
Rust.v
Ethers.v
DiamondCut.v
Diamond.v
DiamondUpgrade.v
Utils.v
World.v
DeployUtils.v
Deployer.v
DeployerContracts.v
DeployerBridges.v
DeployerChains.v
DeployProcess.v
DeployToken.v
Frames.v
DeployerProofs.v
CliScripts.v
RollupContracts.v
Bridge.v
BridgeProofs.v
BridgeSafety.v
RollupNode.v
RollupScripts.v
RollupProofs.v
TestnetProofs.v
TokenMigration.v
StorageReader.v
StorageProofs.v
StorageLayout.v
StorageTheorems.v
SequencerTypes.v
SequencerPool.v
SequencerPolicies.v
SequencerAdmission.v
SequencerBatch.v
ExecutorTypes.v
ExecutorState.v
ExecutorEngine.v
ProverCore.v
ProofArtifacts.v
ExecutorService.v
RollupPipeline.v
L1Listener.v
SubmitterSaga.v
SubmitterDa.v
SubmitterDaemon.v
SubmitterBridge.v
ProverHttp.v
UpgradeChecker.v
UpgradeProofs.v
SyncLayer.v
CostBreakdown.v
Governance.v
GovernedDeploy.v
