(* ===== verification/Prelude.v ===== *)
(** * Verification of the RollupX rollup: services, bridge and deployment tooling

    ** The program

    RollupX is a zero-knowledge rollup.  This library covers four parts of it.

    - The Rust services.  The sequencer ([src/sequencer]) admits transactions,
      orders them and seals batches; the executor ([src/executor/src]) runs a
      batch on the accounts and obtains a proof from the RISC Zero programs of
      [src/risc0_prover]; the submitter ([src/submitter]) sends the result to
      the bridge.  The L1 listener of the sequencer brings the events of the
      bridge back as forced transactions.
    - The rollup contracts of [src/contracts/contracts] (the bridge, the
      data-availability providers, the proof verifiers) and the Hardhat scripts
      of [src/contracts/scripts] that deploy and drive them.
    - The diamond library [Diamond.sol] and the contract [Governance.sol] of the
      vendored l1-contracts, and the TypeScript that computes the cuts applied
      to a diamond and drives governance.
    - The TypeScript deployment tooling of l1-contracts
      ([src/executor/lib/test_contracts/contract-libs/l1-contracts]): the class
      [Deployer], what it is built from, and command-line tools around it.

    The services exchange batches, the submitter and the scripts call the
    contracts, and the contracts call each other through interfaces.  The
    development has the same shape: a component is verified against the
    interface of what it calls.

    ** Files

    Foundations.
    - [Prelude]: outcomes of a JavaScript computation (return, throw, never
      settle), tactics, hints and generic lemmas.
    - [Js], [JsPartial]: strings, numbers and conversions of JavaScript; the
      monad [R] of computations with fuel.
    - [Ethers]: the ethers library as the class [EthersOps] with [EthersLaws],
      and the executable instance [model_ethers].
    - [Rust]: results with panics, machine integers, floating point, stable
      sorting, hash maps with an unspecified order of iteration.

    Sequencer.
    - [SequencerTypes]: types.rs, config.rs.  [SequencerPool]: tx_pool.rs and
      forced_queue.rs.  [SequencerPolicies]: policies.rs, scheduler.rs.
    - [SequencerAdmission]: cache.rs, validator.rs, server.rs; a handler as a
      function, and as steps that interleave with other handlers.
    - [SequencerBatch]: engine.rs, trigger.rs, database.rs, orchestrator.rs;
      [iteration] is one turn of the orchestrator.

    Executor and prover.
    - [ExecutorTypes]: types.rs.  [ExecutorState]: merkle.rs and state.rs, with
      the trait [StateManager] as a class and both managers as instances.
    - [ExecutorEngine]: tx_engine.rs, against that class.
    - [ProverCore]: rollup_core and the guest.  [ProofArtifacts]: proof.rs and
      the host program.
    - [ExecutorService]: service.rs, block_constructor.rs; requests and jobs as
      a step relation on the record [Service].
    - [RollupPipeline]: the sequencer and the executor together.
    - [L1Listener]: listener.rs, from the bridge to the executor.

    Submitter.
    - [SubmitterSaga]: saga.rs, the outbox as a map of rows.
    - [SubmitterDa]: compression.rs, the three strategies, domain/proof.rs.
    - [SubmitterDaemon]: daemon.rs, batch_source.rs, config.rs; a machine whose
      program points lie between the effects, with restarts anywhere.
    - [SubmitterBridge]: the daemon against the contract.
    - [ProverHttp]: prover_http.rs; [get_proof] for requests made in turn, and
      [task_step] for concurrent requests, whose program points are the places
      where one of the two locks is taken.
    - [CostBreakdown]: cost_breakdown.rs.

    Rollup contracts and scripts.
    - [RollupContracts]: CalldataDA, BlobDA, OffChainDA, TestBlobDA and the
      Mock, Plonky2, Halo2, Groth16 and Real verifiers, Pairing.sol.
    - [Bridge]: ZKRollupBridge.sol, storage as the record [bridge], one
      definition per external function in the monad [Tx].
    - [BridgeProofs], [BridgeSafety]: its lemmas and theorems.
    - [RollupNode], [RollupScripts]: deploy-local, deploy-test-net,
      verify-runtime, generate-mock-batch, verify-state, export-abis and the
      two small setup scripts, over a node with accounts and files.
    - [RollupProofs], [TestnetProofs]: runs of those scripts from end to end.

    Diamonds.
    - [DiamondCut]: src.ts/diamondCut.ts.  [Diamond]: Diamond.sol and
      [facets()].  [DiamondUpgrade]: the two together.

    Deployment tooling.
    - [Utils]: src.ts/utils.ts and the version helpers of scripts/utils.ts.
    - [World]: the network as seen by a wallet, the compiled artifacts, the
      state and the monad [M] of a script.
    - [DeployUtils]: deploy-utils.ts, deploy-utils-zk.ts.
    - [Deployer], [DeployerContracts], [DeployerBridges], [DeployerChains]:
      the class of deploy.ts.  [DeployProcess]: deploy-process.ts.
    - [DeployToken]: deploy-token.ts and the commands of deploy-erc20.ts.
    - [Frames], [DeployerProofs]: what the deployer does and cannot do.
    - [CliScripts]: deploy.ts, register-zk-chain.ts, initialize-validator.ts,
      initialize-erc20-bridge.ts, initialize-governance.ts of scripts/.
    - [SyncLayer]: the six commands of scripts/sync-layer.ts.
    - [UpgradeChecker]: scripts/upgrade-consistency-checker.ts.
      [UpgradeProofs]: what it accepts, down to the diamond.
    - [Governance]: governance/Governance.sol with Ownable2Step, storage as the
      record [gov]; a [message] carries the messages that the called contracts
      send back, so that [run] covers every reentrant call.
    - [GovernedDeploy]: the transactions of the deployer delivered to it.
    - [TokenMigration]: scripts/token-migration.ts.
    - [StorageReader]: scripts/read-variable.ts.  [StorageProofs],
      [StorageLayout], [StorageTheorems]: its correctness.

    ** What the theorems show

    - Admission and batching: requests handled in turn are charged exactly for
      what is pooled, and what survives when they interleave; policies permute
      their input, keep nonces in order and are greedy; blob packing respects
      its budget and is maximal; a batch loses and invents nothing, though its
      forced transactions are not limited in number, and the front of the pool
      is sealed at the timeout.
    - Execution: a batch implements a ledger and keeps every width; what is
      executed is not executed again in any later batch; a root determines its
      accounts unless two of the inputs hashed for it collide; a batch
      identifier completes at most once; admitted batches with plain signatures
      execute completely, and signatures bound to a chain id never do.  A
      deposit is locked on the bridge and credited to nobody.
    - Proofs: the guest accepts exactly the traces without transfers of an
      account to itself, and artifacts commit to the roots of the batch.
    - Submission: across crashes the outbox tells what was broadcast, at most one
      transaction is sent for a batch per start, the gas bumps of a legacy
      transaction are capped and end, and a polled batch commits on the bridge
      with the calldata and the off-chain strategy, and with blobs only where a
      test provider has the hash; the circuit breaker of the proof client is a failure counter for requests made in
      turn, and can deadlock concurrent ones; the cost breakdown adds up.
    - Bridge: over any history with re-entrant recipients a withdrawal is paid
      at most once, the ledger of batches stays exact, the state root moves only
      by an authorised batch, and each external function refines an abstract
      specification; what a missed forced-inclusion deadline does, and does not,
      to later batches.
    - Diamonds: a cut keeps the two-way index of selectors; the cuts computed
      for an upgrade install the new facets; the compiled initial cut,
      completed with the words the chain type manager writes, is the call that
      initialises a chain with them.
    - Governance: whatever the called contracts do, an operation is executed at
      most once, when it is due and after its predecessor, and delay and council
      change only within a call of the contract to itself; registering a gateway
      makes governance perform exactly the four calls intended, or only the
      first when the base token is not ether.
    - Upgrades: the consistency check returns exactly on consistent deployments,
      and the facet cuts it lets through work on a new diamond.
    - Rollup scripts: the local and the test-network pipelines complete and
      leave the contracts as the later steps need them.
    - Deployment: every outcome of a CREATE2 deployment, which is idempotent; hashes, aliases,
      addresses and versions are computed as specified; the nonce schedules of
      the deployer, including the paths that never return; the run of the token
      commands; that no modelled command-line script reaches a transaction.
    - Tools: token discovery ends and is complete, the migration operations
      move each token once, and the storage reader returns the value that the
      layout rules of Solidity store, whole or by parts, except the last slot of
      a byte string that fills it.

    Where the code does not do what it means to, the theorem states what it
    does.

    ** Assumptions, bounds and fuel

    Ethers, Hardhat, zksync-ethers, OpenZeppelin, the EVM opcodes and
    precompiles, the compiled artifacts and the network are classes or section
    variables, with their documented behaviour as laws; the witnesses
    instantiate them with executable models, whose hashes are placeholders of
    the right length.  For the services the same holds of SHA-256 and Keccak
    ([Hashing]), signature recovery, JSON, bincode, zlib, the Jellyfish Merkle
    tree and the zkVM; the models are in [SequencerTypes] and in the modules
    whose names end in [Samples].  RocksDB and SQLite are maps.  Words of the
    EVM are integers with their bounds and wrap-around written out.  JavaScript
    numbers are exact integers or NaN; in [R] an integer from [2^53 - 1] on is
    outside the model.  No hash and no random value is assumed to be injective:
    [collision_in] names two colliding inputs among those a run hashes, and
    [ready_for] asks that the identifiers of the operations of a run differ.

    Fuel bounds the nesting of types in [StorageReader] and the iterations in
    [TokenMigration].  The theorems on the loops of [TokenMigration] assume an
    explicit amount that suffices (pages of 50 tokens, ranges of 50000 blocks,
    one step per token) and conclude that the loop returns; [getValue_reads]
    uses the depth at which [holds] describes the value.  The mempool is
    flushed with its own length as fuel, since each step removes one element.
    In the services loops are structural or have the length of their list as
    fuel: draining the groups of a policy emits one transaction a step, and a
    level of the Merkle tree is shorter than the one below.  Sixteen starts of
    the daemon are enough for its gas bumps to reach the cap.

    ** Not modelled

    Of the services: start-up wiring, configuration files, tracing, the metric
    rows with their statistics and cost models, trace files, the gRPC and
    JSON-RPC envelopes and the endpoints that only report.  Of the submitter
    also the mock prover, the command-line tools, and storage_sqlite.rs,
    storage_postgres.rs and application/orchestrator.rs, which no module
    declares, so that they are not compiled.

    The Python benchmarks, shell orchestration, and the vendored Solidity other
    than the parts named above.  Of l1-contracts: generated bindings, the test
    fixtures of deploy-test-process.ts, the upgrade-system commands (they set
    fee fields that [World.tx] does not have), and the tools that query
    explorers, print or lint.  initialize-l2-weth-token.ts and
    migrate-governance.ts stop while they are loaded, because each reads an
    artifact that does not exist.  Of [Governance.sol] the ether balance is left
    out: a call without funds is one that fails.  The token of [depositERC20] is
    an outcome: what it calls on the bridge meanwhile is not part of the same
    transaction.  Ether reaches the bridge only through its functions.  The
    initializer a diamond cut delegates to is left out.  Option parsing, console colours, gas
    figures in messages and the JSON text of printed results are left out. *)

From stdpp Require Import base list strings.
From Stdlib Require Import ZArith Lia Strings.Byte.

#[global] Open Scope Z_scope.

(** ** Outcomes of a JavaScript computation *)

(** What a JavaScript [throw] carries.  [JsError] is [new Error(msg)],
    [JsTypeError] the engine's own TypeError (reading or writing a property
    of [undefined], calling a non-function), [JsRangeError] the engine's
    RangeError and [EthersError] an error raised inside the ethers library,
    with its documented code. *)
Inductive js_error : Type :=
| JsError (msg : string)
| JsTypeError (msg : string)
| JsRangeError (msg : string)
| EthersError (code : string).

(** A call either returns, throws, or (for a promise) never settles. *)
Inductive outcome (A : Type) : Type :=
| Done (a : A)
| Throw (e : js_error)
| Hang.
Arguments Done {A} a.
Arguments Throw {A} e.
Arguments Hang {A}.

#[export] Instance js_error_eq_dec : EqDecision js_error.
Proof. solve_decision. Defined.

#[export] Instance outcome_ret : MRet outcome := λ A, Done.
#[export] Instance outcome_bind : MBind outcome := λ A B k m,
  match m with
  | Done a => k a
  | Throw e => Throw e
  | Hang => Hang
  end.

Definition is_done {A} (o : outcome A) : bool := match o with Done _ => true | _ => false end.

(** Reading a library result that may be an error. *)
Definition or_throw {A} (e : js_error) (o : option A) : outcome A :=
  match o with Some a => Done a | None => Throw e end.

Lemma outcome_bind_done {A B} (m : outcome A) (k : A → outcome B) a :
  m = Done a → m ≫= k = k a.
Proof. by intros ->. Qed.

Lemma outcome_bind_inv {A B} (m : outcome A) (k : A → outcome B) b :
  m ≫= k = Done b → ∃ a, m = Done a ∧ k a = Done b.
Proof. destruct m; cbn; try discriminate; eauto. Qed.

(** ** Tactics and hints *)

Create HintDb rollupx.
Create HintDb rollupx_rw.

(** Splits the test of an [if] or [match] in the goal. *)
Ltac case_goal :=
  match goal with
  | |- context [match ?x with _ => _ end] => destruct x eqn:?
  end.

(** Splits the test of an [if] or [match] in a hypothesis. *)
Ltac case_hyp H :=
  match type of H with
  | context [match ?x with _ => _ end] => destruct x eqn:?
  end.

(** ** Bytes and big-endian numbers *)

Notation bytes := (list byte).

Definition byte_val (b : byte) : Z := Z.of_N (Byte.to_N b).

Definition byte_of (z : Z) : byte :=
  match Byte.of_N (Z.to_N (z mod 256)) with Some b => b | None => x00 end.

(** Value of a byte string read most significant byte first. *)
Definition be_val (l : bytes) : Z :=
  fold_left (λ acc b, acc * 256 + byte_val b) l 0.

(** The [n] low-order bytes of [z], most significant first. *)
Fixpoint be_enc (n : nat) (z : Z) : bytes :=
  match n with
  | O => []
  | S n' => be_enc n' (z / 256) ++ [byte_of z]
  end.

(** Shortest big-endian form of a non-negative number, one byte for zero. *)
Definition be_min (z : Z) : bytes := be_enc (Z.to_nat (Z.log2 z / 8 + 1)) z.

#[export] Instance byte_eq_dec : EqDecision byte.
Proof. intros a b. destruct (Byte.byte_eq_dec a b); [by left | by right]. Defined.

Lemma byte_val_range b : 0 ≤ byte_val b < 256.
Proof. unfold byte_val. pose proof (Byte.to_N_bounded b). lia. Qed.

Lemma byte_of_val b : byte_of (byte_val b) = b.
Proof.
  unfold byte_of. pose proof (byte_val_range b).
  rewrite Z.mod_small by lia. unfold byte_val.
  by rewrite N2Z.id, Byte.of_to_N.
Qed.

Lemma byte_val_of z : byte_val (byte_of z) = z mod 256.
Proof.
  unfold byte_of. pose proof (Z.mod_pos_bound z 256 ltac:(lia)).
  destruct (Byte.of_N _) eqn:E.
  - apply Byte.to_of_N in E. unfold byte_val. rewrite E. lia.
  - apply Byte.of_N_None_iff in E. lia.
Qed.

Lemma be_val_snoc l b : be_val (l ++ [b]) = be_val l * 256 + byte_val b.
Proof. unfold be_val. by rewrite fold_left_app. Qed.

Lemma be_val_app l1 l2 :
  be_val (l1 ++ l2) = be_val l1 * 256 ^ Z.of_nat (length l2) + be_val l2.
Proof.
  induction l2 as [|b l2 IH] using rev_ind.
  - rewrite app_nil_r. change (be_val []) with 0. cbn. lia.
  - rewrite app_assoc, !be_val_snoc, IH, length_app. cbn [length].
    rewrite Nat2Z.inj_add, Z.pow_add_r by lia. change (256 ^ Z.of_nat 1) with 256. ring.
Qed.

Lemma be_val_cons b l :
  be_val (b :: l) = byte_val b * 256 ^ Z.of_nat (length l) + be_val l.
Proof. exact (be_val_app [b] l). Qed.

Lemma be_val_range l : 0 ≤ be_val l < 256 ^ Z.of_nat (length l).
Proof.
  induction l as [|b l IH] using rev_ind; [cbn; lia|].
  rewrite be_val_snoc, length_app. cbn [length].
  rewrite Nat2Z.inj_add, Z.pow_add_r by lia. change (256 ^ Z.of_nat 1) with 256.
  pose proof (byte_val_range b). nia.
Qed.

Lemma be_enc_length n z : length (be_enc n z) = n.
Proof. revert z. induction n; intros z; cbn; [done|]. rewrite length_app, IHn. cbn. lia. Qed.

Lemma be_val_enc n z : be_val (be_enc n z) = z mod 256 ^ Z.of_nat n.
Proof.
  revert z. induction n as [|n IH]; intros z; [by rewrite Z.mod_1_r|].
  cbn [be_enc]. rewrite be_val_snoc, IH, byte_val_of, Nat2Z.inj_succ, Z.pow_succ_r by lia.
  rewrite (Z.rem_mul_r z 256) by lia. lia.
Qed.

Lemma be_enc_val l : be_enc (length l) (be_val l) = l.
Proof.
  induction l as [|b l IH] using rev_ind; [done|].
  rewrite length_app, Nat.add_1_r. cbn [be_enc]. rewrite be_val_snoc.
  pose proof (byte_val_range b).
  rewrite Z.div_add_l, (Z.div_small (byte_val b)), Z.add_0_r, IH by lia.
  f_equal. f_equal. rewrite <- (byte_of_val b) at 2. unfold byte_of at 1.
  rewrite Z.add_comm, Z.mod_add by lia. done.
Qed.

Lemma be_val_inj l1 l2 : length l1 = length l2 → be_val l1 = be_val l2 → l1 = l2.
Proof. intros Hl Hv. rewrite <- (be_enc_val l1), <- (be_enc_val l2). congruence. Qed.

Lemma be_enc_inj n x y :
  0 ≤ x < 256 ^ Z.of_nat n → 0 ≤ y < 256 ^ Z.of_nat n → be_enc n x = be_enc n y → x = y.
Proof.
  intros Hx Hy E. apply (f_equal be_val) in E. rewrite !be_val_enc, !Z.mod_small in E by done. done.
Qed.

Lemma be_val_zeros n : be_val (replicate n x00) = 0.
Proof. induction n; [done|]. cbn [replicate]. by rewrite be_val_cons, IHn. Qed.

Lemma be_val_pad n l : be_val (replicate n x00 ++ l) = be_val l.
Proof. rewrite be_val_app, be_val_zeros. lia. Qed.

#[export] Hint Rewrite be_enc_length @length_app @length_replicate @length_take @length_drop
  @length_map : rollupx_rw.

(** [256 ^ n] bounds used for [be_min]. *)
Lemma be_min_bounds z :
  0 ≤ z →
  let n := Z.of_nat (length (be_min z)) in
  1 ≤ n ∧ z < 256 ^ n ∧ (0 < z → 256 ^ (n - 1) ≤ z).
Proof.
  intros Hz. unfold be_min. rewrite be_enc_length.
  pose proof (Z.log2_nonneg z). pose proof (Z.div_pos (Z.log2 z) 8 ltac:(lia) ltac:(lia)).
  rewrite Z2Nat.id by lia. cbn zeta.
  change 256 with (2 ^ 8). rewrite <- !Z.pow_mul_r by lia.
  pose proof (Z.div_mod (Z.log2 z) 8). pose proof (Z.mod_pos_bound (Z.log2 z) 8).
  split_and!; [lia| |].
  - destruct (decide (z = 0)) as [->|]; [by vm_compute|].
    pose proof (Z.log2_spec z ltac:(lia)) as [_ ?].
    eapply Z.lt_le_trans; [done|]. apply Z.pow_le_mono_r; lia.
  - intros Hp. pose proof (Z.log2_spec z Hp) as [? _].
    eapply Z.le_trans; [|done]. apply Z.pow_le_mono_r; lia.
Qed.

Lemma be_val_min z : 0 ≤ z → be_val (be_min z) = z.
Proof.
  intros Hz. pose proof (be_min_bounds z Hz) as (_ & Hlt & _).
  unfold be_min in *. rewrite be_enc_length in Hlt. rewrite be_val_enc, Z.mod_small; lia.
Qed.

Lemma be_min_zero : be_min 0 = [x00].
Proof. done. Qed.

(** Which numbers take exactly [n] bytes. *)
Lemma be_min_length_iff (n : nat) z :
  (1 < n)%nat → 0 ≤ z < 256 ^ Z.of_nat n →
  length (be_min z) = n ↔ 256 ^ (Z.of_nat n - 1) ≤ z.
Proof.
  intros Hn Hz. destruct (be_min_bounds z ltac:(lia)) as (H1 & H2 & H3).
  set (k := length (be_min z)) in *. split; intros Hk.
  - rewrite Hk in H3. apply H3. destruct (decide (z = 0)) as [E|]; [|lia].
    subst k. rewrite E, be_min_zero in Hk. cbn in Hk. lia.
  - assert (¬ Z.of_nat k < Z.of_nat n); [intros Hlt|].
    { assert (256 ^ Z.of_nat k ≤ 256 ^ (Z.of_nat n - 1)) by (apply Z.pow_le_mono_r; lia). lia. }
    assert (¬ Z.of_nat n < Z.of_nat k); [intros Hlt|lia].
    assert (256 ^ Z.of_nat n ≤ 256 ^ (Z.of_nat k - 1)) by (apply Z.pow_le_mono_r; lia).
    assert (0 < 256 ^ (Z.of_nat n - 1)) by (apply Z.pow_pos_nonneg; lia). lia.
Qed.

(** ** Lists *)

Lemma filter_none {A} (P : A → Prop) `{∀ x, Decision (P x)} (l : list A) :
  (∀ x, x ∈ l → ¬ P x) → filter P l = [].
Proof.
  induction l as [|x l IH]; intros HP; [done|]. rewrite filter_cons_False.
  - apply IH. intros y Hy. apply HP. by constructor.
  - apply HP. by constructor.
Qed.

(** [UInt8Array.set(src, off)]: overwrites [dst] from index [off]; the engine
    throws a RangeError when the source does not fit. *)
Definition typed_set (dst src : bytes) (off : nat) : outcome bytes :=
  if (off + length src <=? length dst)%nat
  then Done (take off dst ++ src ++ drop (off + length src) dst)
  else Throw (JsRangeError "offset is out of bounds").

Lemma typed_set_fits dst src off :
  (off + length src ≤ length dst)%nat →
  typed_set dst src off = Done (take off dst ++ src ++ drop (off + length src) dst).
Proof. intros H. unfold typed_set. by rewrite (proj2 (Nat.leb_le _ _) H). Qed.
