(* ===== verification/Js.v ===== *)
(** * JavaScript values and the parts of its standard library the scripts use

    Strings with the operations applied to them ([slice], [split], regular
    expressions of the environment readers, [parseInt]), dynamically typed
    values ([val], for the arguments handed to the ABI coder) and numbers
    ([jsnum], where [None] is NaN).  JavaScript numbers are modelled as exact
    integers: every theorem that does arithmetic on them states the bound
    below which IEEE doubles are exact. *)

From stdpp Require Import base sets list strings pretty.
From Stdlib Require Import ZArith Lia Ascii.
From S2P Require Import Prelude.

#[global] Arguments String.append !_ _ : simpl nomatch.

(** ** Strings *)

(** [s.slice(n)] for a non-negative [n]. *)
Fixpoint js_slice (n : nat) (s : string) : string :=
  match n, s with
  | O, _ => s
  | S n', String _ s' => js_slice n' s'
  | S _, EmptyString => EmptyString
  end.

Fixpoint str_forallb (p : ascii → bool) (s : string) : bool :=
  match s with
  | EmptyString => true
  | String c s' => p c && str_forallb p s'
  end.

(** [s.split(c)] for a one-character separator. *)
Fixpoint js_split (sep : ascii) (s : string) : list string :=
  match s with
  | EmptyString => [EmptyString]
  | String c s' =>
      if decide (c = sep) then EmptyString :: js_split sep s'
      else match js_split sep s' with
           | w :: ws => String c w :: ws
           | [] => [String c EmptyString]
           end
  end.

(** [xs.join(c)] for a one-character separator. *)
Fixpoint js_join (sep : ascii) (ws : list string) : string :=
  match ws with
  | [] => EmptyString
  | [w] => w
  | w :: ws' => w +:+ String sep (js_join sep ws')
  end.

(** How a possibly undefined value is shown by a template literal. *)
Definition js_show (o : option string) : string :=
  match o with Some s => s | None => "undefined" end.

(** [a ?? b] and truthiness of a possibly undefined string. *)
Definition js_coalesce {A} (a : option A) (b : A) : A :=
  match a with Some x => x | None => b end.

Definition str_truthy (o : option string) : bool :=
  match o with Some EmptyString | None => false | Some _ => true end.

(** ** Character classes *)

Definition in_range (lo hi : ascii) (c : ascii) : bool :=
  (nat_of_ascii lo <=? nat_of_ascii c)%nat && (nat_of_ascii c <=? nat_of_ascii hi)%nat.

Definition is_digit (c : ascii) : bool := in_range "0" "9" c.
Definition is_hex_digit (c : ascii) : bool :=
  in_range "a" "f" c || in_range "A" "F" c || is_digit c.

(** [s.toLowerCase()] on ASCII text. *)
Definition lower (c : ascii) : ascii :=
  if in_range "A" "Z" c then ascii_of_nat (nat_of_ascii c + 32) else c.
Fixpoint toLowerCase (s : string) : string :=
  match s with
  | EmptyString => EmptyString
  | String c s' => String (lower c) (toLowerCase s')
  end.

(** [/^0x[a-fA-F0-9]{n}$/.test(s)], where [undefined] is tested as the string
    ["undefined"]. *)
Definition hex_regex (n : nat) (o : option string) : bool :=
  match js_show o with
  | String "0" (String "x" digits) =>
      (String.length digits =? n)%nat && str_forallb is_hex_digit digits
  | _ => false
  end.

(** [/^([1-9]\d*|0)$/.test(s)]. *)
Definition number_regex (o : option string) : bool :=
  match js_show o with
  | String "0" EmptyString => true
  | String c rest => in_range "1" "9" c && str_forallb is_digit rest
  | EmptyString => false
  end.

(** ** Numbers *)

(** A JavaScript number; [None] is NaN. *)
Notation jsnum := (option Z).

Definition digit_val (c : ascii) : Z :=
  if is_digit c then Z.of_nat (nat_of_ascii c) - 48
  else if in_range "a" "f" c then Z.of_nat (nat_of_ascii c) - 87
  else Z.of_nat (nat_of_ascii c) - 55.

(** Longest prefix of digits, folded into a number; [None] when there is none. *)
Fixpoint digits_prefix (is_d : ascii → bool) (base : Z) (acc : option Z) (s : string) : option Z :=
  match s with
  | String c s' =>
      if is_d c then digits_prefix is_d base (Some (default 0 acc * base + digit_val c)) s'
      else acc
  | EmptyString => acc
  end.

Definition is_space (c : ascii) : bool :=
  (nat_of_ascii c =? 32)%nat || in_range "009" "013" c.

Fixpoint trim_start (s : string) : string :=
  match s with
  | String c s' => if is_space c then trim_start s' else s
  | EmptyString => EmptyString
  end.

Definition parse_unsigned (s : string) : jsnum :=
  match s with
  | String "0" (String x rest) =>
      if bool_decide (x = "x"%char ∨ x = "X"%char) then digits_prefix is_hex_digit 16 None rest
      else digits_prefix is_digit 10 None s
  | _ => digits_prefix is_digit 10 None s
  end.

(** [parseInt(s)] with no radix; [parseInt(undefined)] is NaN. *)
Definition js_parseInt (o : option string) : jsnum :=
  match o with
  | None => None
  | Some s =>
      match trim_start s with
      | String "-" rest => Z.opp <$> parse_unsigned rest
      | String "+" rest => parse_unsigned rest
      | s' => parse_unsigned s'
      end
  end.

(** Arithmetic propagates NaN. *)
Definition num_add (a b : jsnum) : jsnum := x ← a; y ← b; Some (x + y).
Definition num_mul (a b : jsnum) : jsnum := x ← a; y ← b; Some (x * y).

(** ** Hexadecimal text *)

Definition hex_char (n : Z) : ascii :=
  if n <? 10 then ascii_of_nat (Z.to_nat (48 + n)) else ascii_of_nat (Z.to_nat (87 + n)).

(** Two lower-case digits per byte. *)
Fixpoint hex_digits (l : bytes) : string :=
  match l with
  | [] => EmptyString
  | b :: l' =>
      String (hex_char (byte_val b / 16)) (String (hex_char (byte_val b mod 16)) (hex_digits l'))
  end.

Fixpoint parse_digits (s : string) : option bytes :=
  match s with
  | EmptyString => Some []
  | String c1 (String c2 s') =>
      if is_hex_digit c1 && is_hex_digit c2
      then cons (byte_of (digit_val c1 * 16 + digit_val c2)) <$> parse_digits s'
      else None
  | String _ EmptyString => None
  end.

(** The bytes of a ["0x"]-prefixed string with an even number of digits. *)
Definition parse_hex (s : string) : option bytes :=
  match s with
  | String "0" (String "x" digits) => parse_digits digits
  | _ => None
  end.

(** ** Values handed to dynamically typed library calls *)

Inductive val : Type :=
| VUndef
| VBool (b : bool)
| VNum (n : Z)
| VStr (s : string)
| VArr (l : list val)
| VObj (l : list (string * val)).

(** Value of a string of decimal digits. *)
Fixpoint dec_value_from (acc : Z) (s : string) : Z :=
  match s with
  | EmptyString => acc
  | String c s' => dec_value_from (acc * 10 + digit_val c) s'
  end.
Definition dec_value : string → Z := dec_value_from 0.

(** ** Lemmas *)

Lemma str_forallb_app p s1 s2 :
  str_forallb p (s1 +:+ s2) = str_forallb p s1 && str_forallb p s2.
Proof. induction s1 as [|c s1 IH]; [done|]. cbn. rewrite IH. by destruct (p c). Qed.

Lemma js_slice_app s1 s2 : js_slice (String.length s1) (s1 +:+ s2) = s2.
Proof. by induction s1. Qed.

Lemma str_length_app s1 s2 :
  String.length (s1 +:+ s2) = (String.length s1 + String.length s2)%nat.
Proof. induction s1; cbn; [done|]. by rewrite <- IHs1. Qed.

Lemma js_split_nonempty sep s : js_split sep s ≠ [].
Proof. destruct s; cbn; [done|]. case_decide; [done|]. by case_goal. Qed.

(** Splitting a word with no separator leaves it whole. *)
Lemma js_split_word sep w :
  str_forallb (λ c, negb (bool_decide (c = sep))) w = true → js_split sep w = [w].
Proof.
  induction w as [|c w IH]; cbn; [done|]. case_bool_decide; [done|]. cbn. intros H1.
  rewrite decide_False by done. by rewrite IH.
Qed.

Lemma js_split_word_cons sep w s :
  str_forallb (λ c, negb (bool_decide (c = sep))) w = true →
  js_split sep (w +:+ String sep s) = w :: js_split sep s.
Proof.
  induction w as [|c w IH]; cbn.
  - intros _. by rewrite decide_True.
  - case_bool_decide; [done|]. cbn. intros H1. rewrite decide_False by done.
    by rewrite (IH H1).
Qed.

(** Joining the parts of a split gives back the string. *)
Lemma js_join_split sep s : js_join sep (js_split sep s) = s.
Proof.
  induction s as [|c s IH]; [done|]. cbn [js_split].
  pose proof (js_split_nonempty sep s). case_decide as E.
  - subst c. destruct (js_split sep s); [done|]. cbn. by rewrite <- IH.
  - destruct (js_split sep s) as [|w [|w2 ws]]; [done| |]; cbn in *; by rewrite <- IH.
Qed.

Lemma digits_prefix_all is_d base acc s :
  str_forallb is_d s = true → s ≠ "" ∨ is_Some acc →
  ∃ n, digits_prefix is_d base acc s = Some n.
Proof.
  revert acc. induction s as [|c s IH]; intros acc Hs Hne; cbn in *.
  - destruct Hne as [|[n ->]]; [done|]. eauto.
  - apply andb_prop in Hs as [-> Hs]. apply IH; eauto.
Qed.

Lemma hex_digits_app l1 l2 : hex_digits (l1 ++ l2) = hex_digits l1 +:+ hex_digits l2.
Proof. induction l1; cbn; [done|]. by rewrite IHl1. Qed.

Lemma hex_digits_length l : String.length (hex_digits l) = (2 * length l)%nat.
Proof. induction l; cbn; [done|]. rewrite IHl. lia. Qed.

Lemma hex_char_digit b :
  let hi := hex_char (byte_val b / 16) in
  let lo := hex_char (byte_val b mod 16) in
  is_hex_digit hi = true ∧ is_hex_digit lo = true ∧
  byte_of (digit_val hi * 16 + digit_val lo) = b.
Proof. by destruct b; vm_compute. Qed.

Lemma parse_hex_digits l : parse_digits (hex_digits l) = Some l.
Proof.
  induction l as [|b l IH]; [done|]. destruct (hex_char_digit b) as (H1 & H2 & H3).
  cbn [hex_digits parse_digits]. rewrite H1, H2, IH. cbn. by rewrite H3.
Qed.

Lemma parse_digits_length s l :
  parse_digits s = Some l → String.length s = (2 * length l)%nat ∧ str_forallb is_hex_digit s = true.
Proof.
  revert s. induction l as [|b l IH]; intros s H;
    destruct s as [|c1 [|c2 s]]; cbn in H; try done.
  - case_hyp H; [|done]. by destruct (parse_digits s).
  - destruct (is_hex_digit c1) eqn:E1, (is_hex_digit c2) eqn:E2; cbn in H; try done.
    destruct (parse_digits s) eqn:E; [|done]. injection H as ? ->.
    destruct (IH _ E) as [H1 H2]. cbn. rewrite E1, E2, H1, H2. split; [lia|done].
Qed.

Lemma parse_digits_total n s :
  String.length s = (2 * n)%nat → str_forallb is_hex_digit s = true →
  ∃ l, parse_digits s = Some l ∧ length l = n.
Proof.
  revert s. induction n as [|n IH]; intros s Hl Hd.
  - destruct s; [|done]. by exists [].
  - destruct s as [|c1 [|c2 s]]; cbn in Hl; try lia. cbn in Hd.
    apply andb_prop in Hd as [H1 Hd]. apply andb_prop in Hd as [H2 Hd].
    destruct (IH s ltac:(lia) Hd) as (l & Hp & Hlen).
    cbn. rewrite H1, H2, Hp. cbn. eexists; split; [done|]. cbn. lia.
Qed.

Lemma js_slice_slice n m s : js_slice (n + m) s = js_slice m (js_slice n s).
Proof. revert s. induction n; intros [|c s]; cbn; try done. by destruct m. Qed.

(** Dropping whole bytes from a hexadecimal text. *)
Lemma js_slice_hex l1 l2 :
  js_slice (2 * length l1) (hex_digits (l1 ++ l2)) = hex_digits l2.
Proof. rewrite hex_digits_app, <- (hex_digits_length l1). apply js_slice_app. Qed.

Lemma digits_prefix_value acc s :
  str_forallb is_digit s = true →
  digits_prefix is_digit 10 (Some acc) s = Some (dec_value_from acc s).
Proof.
  revert acc. induction s as [|c s IH]; intros acc Hs; cbn in *; [done|].
  apply andb_prop in Hs as [-> Hs]. by apply IH.
Qed.

Lemma is_digit_cases c :
  is_digit c = true → c ∈ ["0"; "1"; "2"; "3"; "4"; "5"; "6"; "7"; "8"; "9"]%char.
Proof.
  destruct c as [[] [] [] [] [] [] [] []]; cbn; intros Hd; try discriminate Hd;
    repeat (first [apply list_elem_of_here | apply list_elem_of_further]).
Qed.

(** [parseInt] of a string of decimal digits. *)
Lemma js_parseInt_digits s :
  s ≠ "" → str_forallb is_digit s = true → js_parseInt (Some s) = Some (dec_value s).
Proof.
  destruct s as [|c s]; [done|]. intros _ Hs. cbn in Hs. apply andb_prop in Hs as [Hc Hs].
  assert (Hp : digits_prefix is_digit 10 None (String c s) = Some (dec_value (String c s))).
  { cbn [digits_prefix]. rewrite Hc. by apply digits_prefix_value. }
  assert (Hu : parse_unsigned (String c s) = Some (dec_value (String c s))).
  { apply is_digit_cases in Hc. set_unfold in Hc. destruct_or! Hc; subst c; try exact Hp.
    destruct s as [|x s]; [exact Hp|]. unfold parse_unsigned. rewrite bool_decide_false; [exact Hp|].
    cbn in Hs. by intros [->| ->]. }
  apply is_digit_cases in Hc. set_unfold in Hc.
  by destruct_or! Hc; subst c.
Qed.
