(* ===== verification/JsPartial.v ===== *)
(** * More of the JavaScript library, and results outside the model

    String functions with index arguments, [parseInt] with a radix, coercion of
    text to numbers, and the monad [R] of the scripts that use them: [None]
    means that the fuel of a loop or recursion is used up, or that an input is
    outside the modelled syntax of numbers (fractions, exponents and integers
    from [2^53 - 1] on, where doubles are not exact). *)

From stdpp Require Import base list strings.
From Stdlib Require Import ZArith Lia Ascii.
From S2P Require Import Prelude Js.

(** ** Strings and numbers of JavaScript *)

Fixpoint str_take (n : nat) (s : string) : string :=
  match n, s with
  | S n', String c s' => String c (str_take n' s')
  | _, _ => EmptyString
  end.

(** [s.substr(start, len)]: a negative start counts from the end. *)
Definition js_substr (s : string) (start len : Z) : string :=
  let n := Z.of_nat (String.length s) in
  let from := if start <? 0 then Z.max 0 (n + start) else start in
  str_take (Z.to_nat len) (js_slice (Z.to_nat from) s).

(** [s.substring(a, b)]: the indices are clamped and put in order. *)
Definition js_substring (s : string) (a b : Z) : string :=
  let n := Z.of_nat (String.length s) in
  let a' := Z.max 0 (Z.min a n) in
  let b' := Z.max 0 (Z.min b n) in
  str_take (Z.to_nat (Z.max a' b' - Z.min a' b')) (js_slice (Z.to_nat (Z.min a' b')) s).

(** [s.indexOf(c)] and [s.lastIndexOf(c)], -1 when the character is absent. *)
Fixpoint js_indexOf (c : ascii) (s : string) : Z :=
  match s with
  | EmptyString => -1
  | String d s' =>
      if Ascii.eqb c d then 0 else let i := js_indexOf c s' in if i =? -1 then -1 else i + 1
  end.

Fixpoint js_lastIndexOf (c : ascii) (s : string) : Z :=
  match s with
  | EmptyString => -1
  | String d s' =>
      let i := js_lastIndexOf c s' in
      if i =? -1 then (if Ascii.eqb c d then 0 else -1) else i + 1
  end.

(** [s.padStart(n, "0")]. *)
Definition padStart0 (n : nat) (s : string) : string :=
  String.concat "" (replicate (n - String.length s) "0") +:+ s.

Definition starts_with (p s : string) : bool :=
  String.eqb (js_substr s 0 (Z.of_nat (String.length p))) p.

(** [Number.parseInt(s, 10)]; [None] is NaN. *)
Definition js_parseInt10 (s : string) : jsnum :=
  match trim_start s with
  | String "-" rest => Z.opp <$> digits_prefix is_digit 10 None rest
  | String "+" rest => digits_prefix is_digit 10 None rest
  | s' => digits_prefix is_digit 10 None s'
  end.

(** [Number.parseInt(s, 16)], whose text may carry a 0x prefix. *)
Definition js_parseInt16 (s : string) : jsnum :=
  let digits t := match t with
                  | String "0" (String "x" rest) | String "0" (String "X" rest) =>
                      digits_prefix is_hex_digit 16 None rest
                  | _ => digits_prefix is_hex_digit 16 None t
                  end in
  match trim_start s with
  | String "-" rest => Z.opp <$> digits rest
  | String "+" rest => digits rest
  | s' => digits s'
  end.

(** Results: [None] is outside the model. *)
Definition R (A : Type) : Type := option (outcome A).

#[export] Instance R_ret : MRet R := λ A a, Some (Done a).
#[export] Instance R_bind : MBind R := λ A B k m,
  match m with
  | Some (Done a) => k a
  | Some (Throw e) => Some (Throw e)
  | Some Hang => Some Hang
  | None => None
  end.

#[export] Instance R_fmap : FMap R := λ A B f m, m ≫= λ a, mret (f a).

Definition throws {A} (e : js_error) : R A := Some (Throw e).
Definition outside {A} : R A := None.
Definition lift {A} (o : outcome A) : R A := Some o.

(** Below this number the integers are exact doubles, and BigNumber.from
    accepts them. *)
Definition MAX_SAFE : Z := 2 ^ 53 - 1.

(** [+s] on a string of decimal digits, with an optional minus sign. *)
Definition to_number (s : string) : R Z :=
  let digits t := if str_forallb is_digit t && negb (String.eqb t "")
                     && (dec_value t <? MAX_SAFE)
                  then Some (dec_value t) else None in
  match (match s with
         | String "-" t => Z.opp <$> digits t
         | EmptyString => Some 0
         | _ => digits s
         end) with
  | Some z => mret z
  | None => outside
  end.

(** [slot.add(n)] for a JavaScript number. *)
Definition bn_add (slot : Z) (n : jsnum) : outcome Z :=
  match n with
  | None => Throw (EthersError "INVALID_ARGUMENT")
  | Some z => if Z.abs z <? MAX_SAFE then Done (slot + z) else Throw (EthersError "NUMERIC_FAULT")
  end.

(** ** Lemmas on the monad *)

Lemma R_bind_iff {A B} (m : R A) (k : A → R B) b :
  m ≫= k = Some (Done b) ↔ ∃ a, m = Some (Done a) ∧ k a = Some (Done b).
Proof. destruct m as [[]|]; cbn; naive_solver. Qed.

Lemma R_bind_run {A B} (m : R A) (k : A → R B) a : m = Some (Done a) → m ≫= k = k a.
Proof. by intros ->. Qed.

Lemma R_fmap_iff {A B} (f : A → B) (m : R A) b :
  f <$> m = Some (Done b) ↔ ∃ a, m = Some (Done a) ∧ b = f a.
Proof.
  unfold fmap, R_fmap. rewrite R_bind_iff. unfold mret, R_ret. naive_solver.
Qed.

Lemma R_fmap_run {A B} (f : A → B) (m : R A) a :
  m = Some (Done a) → f <$> m = Some (Done (f a)).
Proof. by intros ->. Qed.
