(* ===== verification/Rust.v ===== *)
(** * The parts of Rust the services use

    Results with panics, fixed-width integers with saturating and checked
    arithmetic, floating point, stable sorting and hash maps.  Integers are in [Z], kept at
    their width where the code relies on it; a [HashMap] is a [gmap] whose
    iteration order is unspecified ([HashIter]); a [BTreeMap] iterates in key
    order ([btree_iter]). *)

From stdpp Require Import base gmap list sorting strings pretty.
From Stdlib Require Import ZArith Lia Floats.SpecFloat.
From S2P Require Import Prelude.

(** ** Results *)

Inductive result (E A : Type) : Type :=
| Ok (a : A)
| Err (e : E)
| Panicked.
Arguments Ok {E A} a.
Arguments Err {E A} e.
Arguments Panicked {E A}.

#[export] Instance result_eq_dec {E A} `{!EqDecision E, !EqDecision A} : EqDecision (result E A).
Proof. solve_decision. Defined.

#[export] Instance result_ret E : MRet (result E) := λ A, Ok.
#[export] Instance result_bind E : MBind (result E) := λ A B k m,
  match m with Ok a => k a | Err e => Err e | Panicked => Panicked end.

(** [option.ok_or(e)?] *)
Definition ok_or {E A} (e : E) (o : option A) : result E A :=
  match o with Some a => Ok a | None => Err e end.

(** [option.unwrap()] and operations that panic. *)
Definition unwrap {E A} (o : option A) : result E A :=
  match o with Some a => Ok a | None => Panicked end.

Lemma result_bind_inv {E A B} (m : result E A) (k : A → result E B) b :
  m ≫= k = Ok b → ∃ a, m = Ok a ∧ k a = Ok b.
Proof. destruct m; cbn; naive_solver. Qed.

(** ** Integers *)

Definition u64_max : Z := 2 ^ 64 - 1.
Definition u128_max : Z := 2 ^ 128 - 1.
Definition u256_max : Z := 2 ^ 256 - 1.

Definition is_u64 (z : Z) : Prop := 0 ≤ z ≤ u64_max.
Definition is_u256 (z : Z) : Prop := 0 ≤ z ≤ u256_max.

Definition sat_add (max a b : Z) : Z := Z.min (a + b) max.
Definition sat_sub (a b : Z) : Z := Z.max 0 (a - b).
Definition sat_mul (max a b : Z) : Z := Z.min (a * b) max.

(** [+] on [u64] and [usize] in a release build. *)
Definition wrap64 (z : Z) : Z := z mod 2 ^ 64.

(** [+], [*] of the [U256] of ethers, which panic on overflow. *)
Definition u256_add (a b : Z) : option Z := if a + b <=? u256_max then Some (a + b) else None.
Definition u256_mul (a b : Z) : option Z := if a * b <=? u256_max then Some (a * b) else None.

(** [iter().sum()] on [u64]. *)
Definition sum64 (l : list Z) : Z := fold_left (λ acc x, wrap64 (acc + x)) l 0.

Lemma sum64_nonneg l : 0 ≤ sum64 l.
Proof.
  unfold sum64. destruct l as [|x l] using rev_ind; [done|].
  rewrite fold_left_app. apply Z.mod_pos_bound. lia.
Qed.

Definition sumZ (l : list Z) : Z := foldr Z.add 0 l.

Lemma sumZ_app l l' : sumZ (l ++ l') = sumZ l + sumZ l'.
Proof. induction l as [|x l IH]; cbn; [done|]. fold sumZ. unfold sumZ in *. lia. Qed.

Lemma sumZ_perm l l' : l ≡ₚ l' → sumZ l = sumZ l'.
Proof. induction 1; unfold sumZ in *; cbn in *; lia. Qed.

Lemma sumZ_nonneg l : Forall (λ x, 0 ≤ x) l → 0 ≤ sumZ l.
Proof. induction 1; unfold sumZ in *; cbn; lia. Qed.

(** As long as the total fits, [sum] is the mathematical sum. *)
Lemma sum64_exact l :
  Forall (λ x, 0 ≤ x) l → sumZ l ≤ u64_max → sum64 l = sumZ l.
Proof.
  intros Hl Hs. unfold sum64.
  enough (E : ∀ acc, 0 ≤ acc → acc + sumZ l ≤ u64_max →
    fold_left (λ a x, wrap64 (a + x)) l acc = acc + sumZ l) by (apply E; lia).
  clear Hs. induction Hl as [|x l Hx Hl IH]; intros acc Ha Hs; cbn in *.
  - unfold sumZ. cbn. lia.
  - pose proof (sumZ_nonneg l Hl). unfold sumZ in *. cbn in *.
    unfold wrap64. rewrite Z.mod_small by (unfold u64_max in *; lia).
    rewrite IH; lia.
Qed.

Lemma filter_all {A} (P : A → Prop) `{∀ x, Decision (P x)} (l : list A) :
  (∀ x, x ∈ l → P x) → filter P l = l.
Proof.
  induction l as [|x l IH]; intros HP; [done|]. rewrite filter_cons_True by (apply HP; left).
  f_equal. apply IH. intros y Hy. apply HP. by right.
Qed.

Lemma Forall_sublist_of {A} (P : A → Prop) (l k : list A) :
  l `sublist_of` k → Forall P k → Forall P l.
Proof.
  rewrite !Forall_forall. intros Hl HP x Hx. apply HP. eapply elem_of_submseteq; [exact Hx|].
  by apply sublist_submseteq.
Qed.

Lemma sublist_same_length {A} (l k : list A) :
  l `sublist_of` k → (length k ≤ length l)%nat → l = k.
Proof.
  induction 1 as [|x l k _ IH|x l k Hs IH]; cbn; intros Hl; [done|f_equal; apply IH; lia|].
  apply sublist_length in Hs. lia.
Qed.

(** ** Stable sorting ([sort_by], [sort_by_key]) *)

Section sort.
Context {A : Type} (le : A → A → bool).

Fixpoint insert_by (x : A) (l : list A) : list A :=
  match l with
  | [] => [x]
  | y :: l' => if le x y then x :: y :: l' else y :: insert_by x l'
  end.

Definition sort_by (l : list A) : list A := foldr insert_by [] l.

Lemma insert_by_perm x l : insert_by x l ≡ₚ x :: l.
Proof.
  induction l as [|y l IH]; cbn; [done|]. case_match; [done|]. rewrite IH. apply Permutation_swap.
Qed.

Lemma sort_by_perm l : sort_by l ≡ₚ l.
Proof. induction l as [|x l IH]; cbn; [done|]. by rewrite insert_by_perm, IH. Qed.

Lemma sort_by_length l : length (sort_by l) = length l.
Proof. by rewrite sort_by_perm. Qed.

Lemma elem_of_sort_by x l : x ∈ sort_by l ↔ x ∈ l.
Proof. by rewrite sort_by_perm. Qed.

(** The elements that are pairwise equal keep their order. *)
Lemma filter_insert_by (P : A → Prop) `{∀ x, Decision (P x)} x l :
  (∀ y z, P y → P z → le y z = true) →
  filter P (insert_by x l) = filter P (x :: l).
Proof.
  intros Hle. induction l as [|y l IH]; cbn [insert_by]; [done|].
  destruct (le x y) eqn:E; [done|].
  rewrite (filter_cons P y (insert_by x l)), IH, !filter_cons.
  repeat case_decide; try done. rewrite Hle in E by done. done.
Qed.

Lemma filter_sort_by (P : A → Prop) `{∀ x, Decision (P x)} l :
  (∀ y z, P y → P z → le y z = true) → filter P (sort_by l) = filter P l.
Proof.
  intros Hle. induction l as [|x l IH]; [done|]. cbn [sort_by foldr]. fold (sort_by l).
  rewrite filter_insert_by by done. by rewrite !filter_cons, IH.
Qed.

Section sorted.
Hypothesis le_total : ∀ x y, le x y = true ∨ le y x = true.
Hypothesis le_trans : ∀ x y z, le x y = true → le y z = true → le x z = true.

Definition sorted_by : list A → Prop := StronglySorted (λ x y, le x y = true).

Lemma insert_by_sorted x l : sorted_by l → sorted_by (insert_by x l).
Proof.
  unfold sorted_by. induction 1 as [|y l Hs IH Hy]; cbn; [repeat constructor|].
  destruct (le x y) eqn:E.
  - constructor; [by constructor|]. constructor; [done|].
    eapply Forall_impl; [exact Hy|]. cbn. eauto.
  - constructor; [done|]. rewrite insert_by_perm. constructor; [|done].
    destruct (le_total x y); congruence.
Qed.

Lemma filter_insert_sorted (P : A → Prop) `{∀ x, Decision (P x)} x l :
  sorted_by l → filter P (insert_by x l) = if decide (P x) then insert_by x (filter P l) else filter P l.
Proof.
  induction 1 as [|y l Hs IH Hy]; cbn [insert_by].
  { rewrite filter_cons. by case_decide. }
  destruct (le x y) eqn:E.
  - rewrite filter_cons. case_decide; [|done].
    destruct (filter P (y :: l)) as [|z r] eqn:Ef; [done|]. cbn.
    assert (Hz : z ∈ y :: l) by (eapply list_elem_of_filter; rewrite Ef; left).
    apply elem_of_cons in Hz as [->|Hz]; [by rewrite E|].
    rewrite Forall_forall in Hy. by rewrite (le_trans x y z E (Hy z Hz)).
  - rewrite !(filter_cons P y), IH. repeat case_decide; try done. cbn. by rewrite E.
Qed.

Lemma sort_by_sorted l : sorted_by (sort_by l).
Proof. induction l as [|x l IH]; cbn; [constructor|by apply insert_by_sorted]. Qed.

(** Sorting commutes with selecting. *)
Lemma filter_sort_by_comm (P : A → Prop) `{∀ x, Decision (P x)} l :
  filter P (sort_by l) = sort_by (filter P l).
Proof.
  induction l as [|x l IH]; [done|]. cbn [sort_by foldr]. fold (sort_by l).
  rewrite filter_insert_sorted by apply sort_by_sorted. rewrite IH, filter_cons. by case_decide.
Qed.

(** Where the order separates the elements, the result depends only on what is sorted. *)
Lemma sort_by_unique l l' :
  l ≡ₚ l' → (∀ x y, x ∈ l → y ∈ l → le x y = true → le y x = true → x = y) →
  sort_by l = sort_by l'.
Proof.
  intros Hp Ha. apply (StronglySorted_unique_strong (λ x y, le x y = true)).
  - intros x y. rewrite !elem_of_sort_by, <- Hp. apply Ha.
  - apply sort_by_sorted.
  - apply sort_by_sorted.
  - by rewrite !sort_by_perm.
Qed.

End sorted.

Lemma sort_by_id l : sorted_by l → sort_by l = l.
Proof.
  induction 1 as [|x l Hs IH Hx]; [done|]. cbn. fold (sort_by l). rewrite IH.
  destruct Hx as [|y l' Hy _]; [done|]. cbn. by rewrite Hy.
Qed.

End sort.

Lemma insert_by_fmap {A B} (f : A → B) (le : A → A → bool) (le' : B → B → bool) x l :
  (∀ y, y ∈ l → le x y = le' (f x) (f y)) → f <$> insert_by le x l = insert_by le' (f x) (f <$> l).
Proof.
  induction l as [|y l IH]; intros Hle; cbn; [done|]. rewrite <- Hle by left.
  destruct (le x y); [done|]. cbn. rewrite IH; [done|]. intros z Hz. apply Hle. by right.
Qed.

(** Sorting commutes with a function that respects the orders. *)
Lemma sort_by_fmap {A B} (f : A → B) (le : A → A → bool) (le' : B → B → bool) l :
  (∀ x y, x ∈ l → y ∈ l → le x y = le' (f x) (f y)) → f <$> sort_by le l = sort_by le' (f <$> l).
Proof.
  induction l as [|x l IH]; intros Hle; [done|].
  cbn [sort_by foldr fmap list_fmap]. fold (sort_by le l) (sort_by le' (f <$> l)).
  rewrite insert_by_fmap with (le' := le'); [|intros y Hy; rewrite elem_of_sort_by in Hy; apply Hle; [left|by right]].
  rewrite IH; [done|]. intros; apply Hle; by right.
Qed.

(** ** Maps *)

(** The order in which a [HashMap] is traversed is arbitrary, and may differ
    between maps: it is an operation of its own. *)
Class HashIter (V : Type) := hash_iter : gmap Z V → list (Z * V).
Class HashIterLaws (V : Type) `{HashIter V} : Prop :=
  hash_iter_perm : ∀ m : gmap Z V, hash_iter m ≡ₚ map_to_list m.

(** Some order, for evaluation. *)
Definition model_iter (V : Type) : HashIter V := λ m, map_to_list m.
Lemma model_iter_laws V : @HashIterLaws V (model_iter V).
Proof. by intros m. Qed.

(** [BTreeMap::iter]. *)
Definition btree_iter {V} (m : gmap Z V) : list (Z * V) :=
  sort_by (λ a b, a.1 <=? b.1) (map_to_list m).

Lemma btree_iter_perm {V} (m : gmap Z V) : btree_iter m ≡ₚ map_to_list m.
Proof. apply sort_by_perm. Qed.

Lemma elem_of_btree_iter {V} (m : gmap Z V) k v : (k, v) ∈ btree_iter m ↔ m !! k = Some v.
Proof. by rewrite btree_iter_perm, elem_of_map_to_list. Qed.

(** ** Floating point and ASCII

    [f64] is IEEE binary64, computed on the integers of its sign, mantissa and
    exponent; [x as usize] truncates, saturates, and sends NaN to zero. *)
Definition f64 := spec_float.
Definition f64_of_int (z : Z) : f64 := binary_normalize 53 1024 z 0 false.
Definition f64_mul : f64 → f64 → f64 := SFmul 53 1024.
Definition f64_ratio (m : positive) (k : Z) : f64 := S754_finite false m (- k).

Definition f64_to_u64 (x : f64) : Z :=
  match x with
  | S754_finite false m e =>
      Z.min u64_max (if 0 <=? e then Zpos m * 2 ^ e else Zpos m / 2 ^ (- e))
  | S754_infinity false => u64_max
  | _ => 0
  end.

Definition ascii_lower (c : Ascii.ascii) : Ascii.ascii :=
  let n := Ascii.nat_of_ascii c in
  if (65 <=? n)%nat && (n <=? 90)%nat then Ascii.ascii_of_nat (n + 32) else c.

Fixpoint ascii_lowercase (s : string) : string :=
  match s with
  | String.EmptyString => ""
  | String.String c s => String.String (ascii_lower c) (ascii_lowercase s)
  end.

Definition eq_ignore_ascii_case (s t : string) : bool :=
  bool_decide (ascii_lowercase s = ascii_lowercase t).
