(* ===== verification/Ethers.v ===== *)
(** * The ethers library as an interface

    The scripts call ethers v5 for hexadecimal conversion, hashing and ABI
    encoding.  [EthersOps] lists the calls, [EthersLaws] what its
    documentation says of them; every component is written against these two
    classes.  [model_ethers] is an executable instance in which the laws hold
    (its hash functions are placeholders that only have the right length); the
    witnesses are evaluated in it. *)

From stdpp Require Import base list strings pretty.
From Stdlib Require Import ZArith Lia Strings.Byte.
From S2P Require Import Prelude Js.

Class EthersOps := {
  (** [ethers.utils.arrayify(hexString)] *)
  arrayify : string → option bytes;
  (** [ethers.utils.hexlify(bytes)] *)
  hexlify : bytes → string;
  (** [ethers.utils.arrayify(number)] *)
  number_bytes : Z → bytes;
  (** [ethers.BigNumber.from(text)] of hexadecimal or decimal text *)
  bignum_from : string → option Z;
  (** [ethers.utils.hexlify(bigNumber)] *)
  bignum_hex : Z → string;
  (** [ethers.utils.zeroPad(bytes, n)] *)
  zeroPad : bytes → nat → option bytes;
  (** [ethers.utils.hexZeroPad(hexString, n)] *)
  hexZeroPad : string → nat → option string;
  keccak : bytes → bytes;
  sha256 : bytes → bytes;
  (** The 32-byte word of a value at an elementary static ABI type. *)
  abi_word : string → val → option bytes;
  (** [ethers.utils.defaultAbiCoder.encode(types, values)] *)
  abi_encode : list string → list val → option string;
  (** [new <Contract>Factory().interface.encodeFunctionData(method, args)] *)
  encodeFunctionData : string → string → list val → option string;
  (** [interface.getSighash(method)] *)
  selector : string → string → bytes;
  (** The ABI of a method whose one argument is a struct of static fields:
      the path and the type of each word, in declaration order. *)
  struct_abi : string → string → option (list (list string * string));
}.

(** Field of a nested object. *)
Fixpoint vpath (path : list string) (v : val) : option val :=
  match path with
  | [] => Some v
  | f :: path' =>
      match v with
      | VObj fields =>
          p ← head (filter (λ p : string * val, p.1 = f) fields);
          vpath path' p.2
      | _ => None
      end
  end.

(** Elementary types whose encoding is one word. *)
Definition static_type (t : string) : bool :=
  bool_decide (t ∈ ["uint"; "uint256"; "uint32"; "uint64"; "uint8"; "address"; "bytes32"]).

(** The words of a list of elementary values. *)
Definition abi_words `{EthersOps} (tys : list string) (vs : list val) : option bytes :=
  ws ← mapM (λ p : string * val, abi_word p.1 p.2) (zip tys vs); Some (concat ws).

(** The words of a struct, looked up by name and laid out in ABI order. *)
Definition struct_words `{EthersOps} (abi : list (list string * string)) (obj : val) : option bytes :=
  ws ← mapM (λ p : list string * string, v ← vpath p.1 obj; abi_word p.2 v) abi; Some (concat ws).

Class EthersLaws `{EthersOps} : Prop := {
  arrayify_spec s : arrayify s = parse_hex s;
  hexlify_spec b : hexlify b = "0x" +:+ hex_digits b;
  number_bytes_spec n : 0 ≤ n < 2 ^ 53 → number_bytes n = be_min n;
  bignum_from_spec s b : parse_hex s = Some b → b ≠ [] → bignum_from s = Some (be_val b);
  bignum_hex_spec n : 0 ≤ n → bignum_hex n = "0x" +:+ hex_digits (be_min n);
  zeroPad_spec b n : (length b ≤ n)%nat → zeroPad b n = Some (replicate (n - length b) x00 ++ b);
  hexZeroPad_spec s b n : parse_hex s = Some b → (length b ≤ n)%nat →
    ∃ s', hexZeroPad s n = Some s' ∧ parse_hex s' = Some (replicate (n - length b) x00 ++ b);
  hexZeroPad_long s b n : parse_hex s = Some b → (n < length b)%nat → hexZeroPad s n = None;
  keccak_length b : length (keccak b) = 32%nat;
  sha256_length b : length (sha256 b) = 32%nat;
  selector_length c m : length (selector c m) = 4%nat;
  abi_word_length t v w : abi_word t v = Some w → length w = 32%nat;
  abi_word_uint256 n : 0 ≤ n < 2 ^ 256 → abi_word "uint256" (VNum n) = Some (be_enc 32 n);
  abi_word_uint256_hex s b : parse_hex s = Some b → b ≠ [] → (length b ≤ 32)%nat →
    abi_word "uint256" (VStr s) = Some (replicate (32 - length b) x00 ++ b);
  abi_word_address s b : parse_hex s = Some b → length b = 20%nat →
    abi_word "address" (VStr s) = Some (replicate 12 x00 ++ b);
  abi_word_bytes32 s b : parse_hex s = Some b → length b = 32%nat →
    abi_word "bytes32" (VStr s) = Some b;
  (** A tuple of elementary values is the concatenation of their words. *)
  abi_encode_static tys vs ws :
    forallb static_type tys = true → length tys = length vs →
    abi_words tys vs = Some ws → abi_encode tys vs = Some (hexlify ws);
  (** "types/values length mismatch" *)
  abi_encode_mismatch tys vs : length tys ≠ length vs → abi_encode tys vs = None;
  (** A call whose argument is a static struct: the selector and its words. *)
  encode_struct_call c m abi obj ws :
    struct_abi c m = Some abi → struct_words abi obj = Some ws →
    encodeFunctionData c m [obj] = Some (hexlify (selector c m ++ ws));
}.

(** [InitializeData] of IDiamondInit.sol with its nested structs, one entry per word. *)
Definition InitializeData_fields : list (list string * string) :=
  [ (["chainId"], "uint256"); (["bridgehub"], "address"); (["chainTypeManager"], "address");
    (["protocolVersion"], "uint256"); (["admin"], "address"); (["validatorTimelock"], "address");
    (["baseTokenAssetId"], "bytes32"); (["storedBatchZero"], "bytes32");
    (["verifier"], "address");
    (["verifierParams"; "recursionNodeLevelVkHash"], "bytes32");
    (["verifierParams"; "recursionLeafLevelVkHash"], "bytes32");
    (["verifierParams"; "recursionCircuitsSetVksHash"], "bytes32");
    (["l2BootloaderBytecodeHash"], "bytes32"); (["l2DefaultAccountBytecodeHash"], "bytes32");
    (["l2EvmEmulatorBytecodeHash"], "bytes32"); (["priorityTxMaxGasLimit"], "uint256");
    (["feeParams"; "pubdataPricingMode"], "uint8"); (["feeParams"; "batchOverheadL1Gas"], "uint32");
    (["feeParams"; "maxPubdataPerBatch"], "uint32"); (["feeParams"; "maxL2GasPerBatch"], "uint32");
    (["feeParams"; "priorityTxMaxPubdata"], "uint32"); (["feeParams"; "minimalL2GasPrice"], "uint64") ].

(** ** An executable instance *)
Module ModelEthers.

Definition digest (tag : Z) (b : bytes) : bytes :=
  be_enc 32 (tag + 31 * be_val b + Z.of_nat (length b)).

Definition bignum_of_hex (s : string) : option Z :=
  match parse_hex s with
  | Some (b :: l) => Some (be_val (b :: l))
  | _ => if str_forallb is_digit s && negb (String.eqb s "") then Some (dec_value s) else None
  end.

Definition pad (b : bytes) (n : nat) : option bytes :=
  if (length b <=? n)%nat then Some (replicate (n - length b) x00 ++ b) else None.

Definition hex_pad (s : string) (n : nat) : option string :=
  b ← parse_hex s; p ← pad b n; Some ("0x" +:+ hex_digits p).

Definition word (t : string) (v : val) : option bytes :=
  match v with
  | VNum n => if (0 <=? n) && (n <? 2 ^ 256) then Some (be_enc 32 n) else None
  | VStr s =>
      b ← parse_hex s;
      if decide (t = "address") then (if decide (length b = 20%nat) then pad b 32 else None)
      else if decide (t = "bytes32") then (if decide (length b = 32%nat) then Some b else None)
      else pad b 32
  | _ => None
  end.

(** A readable serialization, used for everything that is not a static tuple. *)
Fixpoint show_val (v : val) : string :=
  match v with
  | VUndef => "u"
  | VBool b => if b then "t" else "f"
  | VNum n => pretty n
  | VStr s => s
  | VArr l => "[" +:+ fold_right (λ x acc, show_val x +:+ "," +:+ acc) "]" l
  | VObj l => "{" +:+ fold_right (λ x acc, x.1 +:+ ":" +:+ show_val x.2 +:+ "," +:+ acc) "}" l
  end.

Definition encode (tys : list string) (vs : list val) : option string :=
  if decide (length tys = length vs) then
    if forallb static_type tys then
      ws ← mapM (λ p : string * val, word p.1 p.2) (zip tys vs);
      Some ("0x" +:+ hex_digits (concat ws))
    else Some (show_val (VArr vs))
  else None.

Definition abi_of (c m : string) : option (list (list string * string)) :=
  if decide (c = "DiamondInit" ∧ m = "initialize") then Some InitializeData_fields else None.

Definition show_call (c m : string) (args : list val) : string :=
  c +:+ "." +:+ m +:+ show_val (VArr args).

Definition encode_call (c m : string) (args : list val) : option string :=
  match abi_of c m, args with
  | Some abi, [obj] =>
      match mapM (λ p : list string * string, v ← vpath p.1 obj; word p.2 v) abi with
      | Some ws =>
          Some ("0x" +:+ hex_digits (be_enc 4 (Z.of_nat (String.length (c +:+ m))) ++ concat ws))
      | None => Some (show_call c m args)
      end
  | _, _ => Some (show_call c m args)
  end.

End ModelEthers.

Definition model_ethers : EthersOps := {|
  arrayify := parse_hex;
  hexlify b := "0x" +:+ hex_digits b;
  number_bytes := be_min;
  bignum_from := ModelEthers.bignum_of_hex;
  bignum_hex n := "0x" +:+ hex_digits (be_min n);
  zeroPad := ModelEthers.pad;
  hexZeroPad := ModelEthers.hex_pad;
  keccak := ModelEthers.digest 1;
  sha256 := ModelEthers.digest 2;
  abi_word := ModelEthers.word;
  abi_encode := ModelEthers.encode;
  encodeFunctionData := ModelEthers.encode_call;
  selector c m := be_enc 4 (Z.of_nat (String.length (c +:+ m)));
  struct_abi := ModelEthers.abi_of;
|}.

(** ** Lemmas *)

Section laws.
Context `{EthersLaws}.

Lemma parse_hex_hexlify b : parse_hex (hexlify b) = Some b.
Proof. rewrite hexlify_spec. apply parse_hex_digits. Qed.

Lemma arrayify_hexlify b : arrayify (hexlify b) = Some b.
Proof. by rewrite arrayify_spec, parse_hex_hexlify. Qed.

Lemma hexlify_inj b1 b2 : hexlify b1 = hexlify b2 → b1 = b2.
Proof.
  intros E. pose proof (parse_hex_hexlify b1). pose proof (parse_hex_hexlify b2). congruence.
Qed.

Lemma number_bytes_length n :
  0 ≤ n < 2 ^ 53 → (length (number_bytes n) ≤ 2)%nat ↔ n < 2 ^ 16.
Proof.
  intros Hn. rewrite number_bytes_spec by done.
  destruct (be_min_bounds n ltac:(lia)) as (H1 & H2 & H3).
  set (k := length (be_min n)) in *. split; intros Hk.
  - assert (256 ^ Z.of_nat k ≤ 256 ^ 2) by (apply Z.pow_le_mono_r; lia).
    change (2 ^ 16) with (256 ^ 2). lia.
  - destruct (decide (0 < n)).
    + destruct (decide (k ≤ 2)%nat); [done|].
      assert (256 ^ 2 ≤ 256 ^ (Z.of_nat k - 1)) by (apply Z.pow_le_mono_r; lia).
      change (2 ^ 16) with (256 ^ 2) in Hk. specialize (H3 ltac:(lia)). lia.
    + assert (n = 0) as Hz by lia. subst k. rewrite Hz, be_min_zero. cbn. lia.
Qed.

Lemma struct_words_app a1 a2 obj w1 w2 :
  struct_words a1 obj = Some w1 → struct_words a2 obj = Some w2 →
  struct_words (a1 ++ a2) obj = Some (w1 ++ w2).
Proof.
  unfold struct_words. intros (ws1 & E1 & [= <-])%bind_Some (ws2 & E2 & [= <-])%bind_Some.
  apply bind_Some. exists (ws1 ++ ws2). rewrite concat_app. split; [|done].
  apply mapM_Some in E1, E2. apply mapM_Some. by apply Forall2_app.
Qed.

Lemma struct_words_length abi obj ws :
  struct_words abi obj = Some ws → length ws = (length abi * 32)%nat.
Proof.
  unfold struct_words. intros (l & E & [= <-])%bind_Some. apply mapM_Some in E.
  induction E as [|p w abi l Hw _ IH]; [done|]. apply bind_Some in Hw as (v & _ & Hw).
  cbn. rewrite length_app, IH, (abi_word_length _ _ _ Hw). lia.
Qed.

Lemma struct_words_total abi obj :
  Forall (λ p : list string * string, ∃ v, vpath p.1 obj = Some v ∧ is_Some (abi_word p.2 v)) abi →
  ∃ ws, struct_words abi obj = Some ws.
Proof.
  intros HF. unfold struct_words.
  destruct (mapM (λ p : list string * string, v ← vpath p.1 obj; abi_word p.2 v) abi) eqn:E;
    [by eexists|].
  exfalso. revert E. apply not_eq_None_Some, mapM_is_Some. eapply Forall_impl; [done|].
  intros p (v & Hv & Hw). cbn. by rewrite Hv.
Qed.

Lemma struct_words_ext abi obj obj' :
  Forall (λ p, vpath p.1 obj = vpath p.1 obj') abi → struct_words abi obj = struct_words abi obj'.
Proof.
  intros HF. unfold struct_words. f_equal.
  induction HF as [|p abi Hp _ IH]; [done|]. cbn. by rewrite Hp, IH.
Qed.

End laws.

(** A field is read from the part of an object that declares it. *)
Lemma vpath_app_l f path l1 l2 :
  f ∈ l1.*1 → vpath (f :: path) (VObj (l1 ++ l2)) = vpath (f :: path) (VObj l1).
Proof.
  intros Hf. cbn. rewrite filter_app.
  assert (Hne : filter (λ p : string * val, p.1 = f) l1 ≠ []).
  { apply list_elem_of_fmap in Hf as ([k v] & -> & Hin). intros E.
    assert (Hx : (k, v) ∈ filter (λ p : string * val, p.1 = k) l1) by (by apply list_elem_of_filter).
    cbn in E. rewrite E in Hx. by apply not_elem_of_nil in Hx. }
  by destruct (filter _ l1).
Qed.

Lemma vpath_app_r f path l1 l2 :
  f ∉ l1.*1 → vpath (f :: path) (VObj (l1 ++ l2)) = vpath (f :: path) (VObj l2).
Proof.
  intros Hf. cbn. rewrite filter_app.
  rewrite filter_none; [done|]. intros [k v] Hin Heq. cbn in Heq.
  subst k. apply Hf. apply list_elem_of_fmap. by exists (f, v).
Qed.

#[export] Hint Rewrite @keccak_length @sha256_length @selector_length : rollupx_rw.

#[export] Instance model_ethers_laws : @EthersLaws model_ethers.
Proof.
  split; cbn.
  - done.
  - done.
  - done.
  - intros s [|b l] E Hne; [done|]. unfold ModelEthers.bignum_of_hex. by rewrite E.
  - done.
  - intros b n Hn. unfold ModelEthers.pad. by rewrite (proj2 (Nat.leb_le _ _) Hn).
  - intros s b n E Hn. unfold ModelEthers.hex_pad, ModelEthers.pad. rewrite E. cbn.
    rewrite (proj2 (Nat.leb_le _ _) Hn). cbn. eexists; split; [done|]. apply parse_hex_digits.
  - intros s b n E Hn. unfold ModelEthers.hex_pad, ModelEthers.pad. rewrite E. cbn.
    by rewrite (proj2 (Nat.leb_gt _ _) Hn).
  - done.
  - done.
  - done.
  - intros t v w Hw. unfold ModelEthers.word, ModelEthers.pad in Hw.
    destruct v; try done.
    + case_hyp Hw; [|done]. by injection Hw as <-.
    + destruct (parse_hex s) as [b|]; [|done]. cbn in Hw.
      repeat case_decide; try done.
      all: try (injection Hw as <-; done).
      all: destruct (length b <=? 32)%nat eqn:E; [|done]; apply Nat.leb_le in E;
        injection Hw as <-; rewrite length_app, length_replicate; lia.
  - intros n Hn. rewrite (proj2 (Z.leb_le _ _)), (proj2 (Z.ltb_lt _ _)) by lia. done.
  - intros s b E Hne Hl. rewrite E. cbn. rewrite !decide_False by done.
    unfold ModelEthers.pad. by rewrite (proj2 (Nat.leb_le _ _) Hl).
  - intros s b E Hl. rewrite E. cbn. rewrite decide_True by done.
    unfold ModelEthers.pad. rewrite Hl. by rewrite decide_True.
  - intros s b E Hl. rewrite E. cbn. rewrite decide_False by done.
    by rewrite !decide_True by done.
  - intros tys vs ws Hs Hl Hw. unfold ModelEthers.encode. rewrite decide_True, Hs by done.
    unfold abi_words in Hw. cbn in Hw. destruct (mapM _ _); [|done]. by injection Hw as <-.
  - intros tys vs Hl. unfold ModelEthers.encode. by rewrite decide_False.
  - intros c m abi obj ws Ha Hw. unfold ModelEthers.encode_call. rewrite Ha.
    unfold struct_words in Hw. cbn in Hw. destruct (mapM _ _); [|done]. by injection Hw as <-.
Qed.
