(* ===== verification/DiamondCut.v ===== *)
(** * Diamond cuts ([l1-contracts/src.ts/diamondCut.ts])

    Facet cuts built from contract interfaces, and the cut list of an upgrade:
    the removals of the deployed facets followed by the additions of the new
    ones.  Interfaces come from compiled artifacts and the deployed facets
    from the chain, so both are arguments. *)

From stdpp Require Import base list strings.
From Stdlib Require Import ZArith Lia.
From S2P Require Import Prelude Js.

Inductive Action : Type := Add | Replace | Remove.

Record FacetCut : Type := mkFacetCut {
  facet : string;
  selectors : list string;
  action : Action;
  isFreezable : bool;
}.

Record DiamondCut : Type := mkDiamondCut {
  facetCuts : list FacetCut;
  initAddress : string;
  initCalldata : string;
}.

(** Compiled interfaces: the keys of [Interface.functions] for a contract
    name ([None] when hardhat knows no such artifact), and [getSighash]. *)
Class Interfaces := {
  iface_functions : string → option (list string);
  getSighash : string → string;
}.

Definition AddressZero : string := "0x0000000000000000000000000000000000000000".

Section diamondCut.
Context `{Interfaces}.

Definition getAllSelectors (functions : list string) : list string :=
  map getSighash (filter (λ signature, signature ≠ "getName()") functions).

Definition facetCut (address : string) (functions : list string) (act : Action) (freezable : bool)
  : FacetCut :=
  mkFacetCut address (getAllSelectors functions) act freezable.

Definition diamondCut (cuts : list FacetCut) (initAddr initData : string) : DiamondCut :=
  mkDiamondCut cuts initAddr initData.

(** One guarded entry [if (addr) { c = getContractAt(name, addr); cuts[name] = ... }]. *)
Definition add_facet (name : string) (address : option string) (freezable : bool)
    (cuts : list (string * FacetCut)) : outcome (list (string * FacetCut)) :=
  if str_truthy address then
    functions ← or_throw (JsError "HH700: artifact not found") (iface_functions name);
    mret (cuts ++ [(name, facetCut (default "" address) functions Add freezable)])
  else mret cuts.

(** The result is a JavaScript object: its keys in insertion order. *)
Definition getCurrentFacetCutsForAdd
    (adminAddress gettersAddress mailboxAddress executorAddress : option string)
  : outcome (list (string * FacetCut)) :=
  cuts ← add_facet "AdminFacet" adminAddress false [];
  cuts ← add_facet "GettersFacet" gettersAddress false cuts;
  cuts ← add_facet "MailboxFacet" mailboxAddress true cuts;
  add_facet "ExecutorFacet" executorAddress true cuts.

(** The deployed diamond: what [facets()] returns, and [getName()] of a facet. *)
Variable facets : outcome (list (string * list string)).
Variable getName : string → outcome string.

Fixpoint facet_removals (updatedFaceNames : list string) (l : list (string * list string))
  : outcome (list FacetCut) :=
  match l with
  | [] => mret []
  | (addr, sels) :: l' =>
      facetName ← getName addr;
      rest ← facet_removals updatedFaceNames l';
      mret (if bool_decide (facetName ∈ updatedFaceNames)
            then mkFacetCut AddressZero sels Remove false :: rest else rest)
  end.

Definition getDeployedFacetCutsForRemove (updatedFaceNames : list string) : outcome (list FacetCut) :=
  diamondCutFacets ← facets;
  facet_removals updatedFaceNames diamondCutFacets.

(** [namesOfFacetsToBeRemoved || Object.keys(newFacetCuts)]: an empty array is
    truthy, only [undefined] is replaced. *)
Definition getFacetCutsForUpgrade
    (adminAddress gettersAddress mailboxAddress executorAddress : option string)
    (namesOfFacetsToBeRemoved : option (list string)) : outcome (list FacetCut) :=
  newFacetCuts ← getCurrentFacetCutsForAdd adminAddress gettersAddress mailboxAddress executorAddress;
  oldFacetCuts ← getDeployedFacetCutsForRemove
    (js_coalesce namesOfFacetsToBeRemoved (newFacetCuts.*1));
  mret (oldFacetCuts ++ newFacetCuts.*2).

End diamondCut.
