(* ===== verification/Diamond.v ===== *)
(** * The diamond library ([state-transition/libraries/Diamond.sol])

    The storage that routes selectors to facets, with its two-way index: each
    selector knows its facet and its place in the facet's array, each facet its
    place in the array of facets, and removal moves the last element into the
    hole.  The cut lists of [DiamondCut] are what it consumes.

    [route] is the specification: the map from a selector to its facet and its
    freezability.  The theorems show that every cut keeps the index consistent
    and does to [route] what its name says, that no array access of a
    consistent diamond is out of bounds, and that the cut lists built by
    [getFacetCutsForUpgrade] are accepted and install the new facets.

    Whether an address has code is an argument; the delegatecall to the
    initializer at the end of [diamondCut] is not modelled. *)

From stdpp Require Import base list option gmap strings.
From Stdlib Require Import ZArith Lia.
From S2P Require Import Prelude Js DiamondCut.

(** ** Storage *)

Record SelectorToFacet : Type := mkSelector {
  facetAddress : string;
  selectorPosition : nat;
  selFreezable : bool;
}.

Record FacetToSelectors : Type := mkFacet {
  facetSelectors : list string;
  facetPosition : nat;
}.

Record DiamondStorage : Type := mkDiamond {
  selectorToFacet : gmap string SelectorToFacet;
  facetToSelectors : gmap string FacetToSelectors;
  dFacets : list string;
}.

Inductive cut_error : Type :=
| NoFunctionsForDiamondCut
| AddressHasNoCode (a : string)
| FacetExists (selector a : string)
| ReplaceFunctionFacetAddressZero
| RemoveFunctionFacetAddressNotZero (a : string)
| RemoveFunctionFacetAddressZero
| SelectorsMustAllHaveSameFreezability
| Uint16Overflow       (* toUint16 *)
| ArrayPanic.          (* index out of bounds, pop of an empty array *)

Definition res (A : Type) : Type := (cut_error + A)%type.
#[export] Instance res_ret : MRet res := λ A, inr.
#[export] Instance res_bind : MBind res := λ A B k m,
  match m with inl e => inl e | inr a => k a end.

Definition err {A} (e : cut_error) : res A := inl e.
Definition toUint16 (n : nat) : res nat :=
  if (Z.of_nat n <? 2 ^ 16) then mret n else err Uint16Overflow.
(** Reading and writing an array element, removing the last one. *)
Definition array_get (l : list string) (i : nat) : res string :=
  match l !! i with Some x => mret x | None => err ArrayPanic end.
Definition array_set (l : list string) (i : nat) (x : string) : res (list string) :=
  if (i <? length l)%nat then mret (<[i := x]> l) else err ArrayPanic.
Definition array_pop (l : list string) : res (list string) :=
  match l with [] => err ArrayPanic | _ => mret (take (length l - 1) l) end.
(** [length - 1] on an array, checked. *)
Definition last_position (l : list string) : res nat :=
  match l with [] => err ArrayPanic | _ => mret (length l - 1)%nat end.

(** Reading a mapping gives the zero struct where nothing was written. *)
Definition selector_info (ds : DiamondStorage) (s : string) : SelectorToFacet :=
  default (mkSelector AddressZero 0 false) (selectorToFacet ds !! s).
Definition facet_info (ds : DiamondStorage) (a : string) : FacetToSelectors :=
  default (mkFacet [] 0) (facetToSelectors ds !! a).

Fixpoint fold_res {A B} (f : A → B → res B) (l : list A) (b : B) : res B :=
  match l with
  | [] => mret b
  | x :: l' => b' ← f x b; fold_res f l' b'
  end.

(** ** Operations *)

Definition _saveFacetIfNew (_facet : string) (ds : DiamondStorage) : res DiamondStorage :=
  let info := facet_info ds _facet in
  match facetSelectors info with
  | [] =>
      pos ← toUint16 (length (dFacets ds));
      mret (mkDiamond (selectorToFacet ds) (<[_facet := mkFacet [] pos]> (facetToSelectors ds))
              (dFacets ds ++ [_facet]))
  | _ => mret ds
  end.

Definition _addOneFunction (_facet _selector : string) (_isSelectorFreezable : bool)
    (ds : DiamondStorage) : res DiamondStorage :=
  let info := facet_info ds _facet in
  pos ← toUint16 (length (facetSelectors info));
  (match facetSelectors info with
   | selector0 :: _ =>
       if Bool.eqb _isSelectorFreezable (selFreezable (selector_info ds selector0)) then mret tt
       else err SelectorsMustAllHaveSameFreezability
   | [] => mret tt
   end);;
  mret (mkDiamond (<[_selector := mkSelector _facet pos _isSelectorFreezable]> (selectorToFacet ds))
          (<[_facet := mkFacet (facetSelectors info ++ [_selector]) (facetPosition info)]>
             (facetToSelectors ds))
          (dFacets ds)).

Definition _removeFacet (_facet : string) (ds : DiamondStorage) : res DiamondStorage :=
  let pos := facetPosition (facet_info ds _facet) in
  last ← last_position (dFacets ds);
  moved ← (if (pos =? last)%nat then mret (facetToSelectors ds, dFacets ds)
           else
             lastFacet ← array_get (dFacets ds) last;
             l ← array_set (dFacets ds) pos lastFacet;
             p ← toUint16 pos;
             mret (<[lastFacet := mkFacet (facetSelectors (facet_info ds lastFacet)) p]>
                     (facetToSelectors ds), l));
  l ← array_pop moved.2;
  mret (mkDiamond (selectorToFacet ds) moved.1 l).

(** The selector leaves its facet's array and the mapping. *)
Definition detach (_facet _selector : string) (last : nat) (ds : DiamondStorage)
    : res DiamondStorage :=
  let pos := selectorPosition (selector_info ds _selector) in
  let info := facet_info ds _facet in
  moved ← (if (pos =? last)%nat then mret (selectorToFacet ds, facetSelectors info)
           else
             lastSelector ← array_get (facetSelectors info) last;
             l ← array_set (facetSelectors info) pos lastSelector;
             p ← toUint16 pos;
             let old := selector_info ds lastSelector in
             mret (<[lastSelector := mkSelector (facetAddress old) p (selFreezable old)]>
                     (selectorToFacet ds), l));
  l ← array_pop moved.2;
  mret (mkDiamond (delete _selector moved.1)
          (<[_facet := mkFacet l (facetPosition info)]> (facetToSelectors ds)) (dFacets ds)).

Definition _removeOneFunction (_facet _selector : string) (ds : DiamondStorage)
    : res DiamondStorage :=
  last ← last_position (facetSelectors (facet_info ds _facet));
  ds' ← detach _facet _selector last ds;
  if (last =? 0)%nat then _removeFacet _facet ds' else mret ds'.

Section cuts.
(** [_facet.code.length != 0] *)
Context (has_code : string → bool).

Definition _addFunctions (_facet : string) (_selectors : list string) (freezable : bool)
    (ds : DiamondStorage) : res DiamondStorage :=
  if has_code _facet then
    ds' ← _saveFacetIfNew _facet ds;
    fold_res (λ selector ds,
      let old := facetAddress (selector_info ds selector) in
      if String.eqb old AddressZero then _addOneFunction _facet selector freezable ds
      else err (FacetExists selector old)) _selectors ds'
  else err (AddressHasNoCode _facet).

Definition _replaceFunctions (_facet : string) (_selectors : list string) (freezable : bool)
    (ds : DiamondStorage) : res DiamondStorage :=
  if has_code _facet then
    fold_res (λ selector ds,
      let old := facetAddress (selector_info ds selector) in
      if String.eqb old AddressZero then err ReplaceFunctionFacetAddressZero
      else
        ds ← _removeOneFunction old selector ds;
        ds ← _saveFacetIfNew _facet ds;
        _addOneFunction _facet selector freezable ds) _selectors ds
  else err (AddressHasNoCode _facet).

Definition _removeFunctions (_facet : string) (_selectors : list string) (ds : DiamondStorage)
    : res DiamondStorage :=
  if String.eqb _facet AddressZero then
    fold_res (λ selector ds,
      let old := facetAddress (selector_info ds selector) in
      if String.eqb old AddressZero then err RemoveFunctionFacetAddressZero
      else _removeOneFunction old selector ds) _selectors ds
  else err (RemoveFunctionFacetAddressNotZero _facet).

Definition apply_cut (c : FacetCut) (ds : DiamondStorage) : res DiamondStorage :=
  match selectors c with
  | [] => err NoFunctionsForDiamondCut
  | _ =>
      match action c with
      | Add => _addFunctions (facet c) (selectors c) (isFreezable c) ds
      | Replace => _replaceFunctions (facet c) (selectors c) (isFreezable c) ds
      | Remove => _removeFunctions (facet c) (selectors c) ds
      end
  end.

(** The loop of [diamondCut]. *)
Definition diamondCut_facets (cuts : list FacetCut) (ds : DiamondStorage) : res DiamondStorage :=
  fold_res apply_cut cuts ds.
End cuts.

(** [GettersFacet.facets()] *)
Definition getFacets (ds : DiamondStorage) : list (string * list string) :=
  map (λ a, (a, facetSelectors (facet_info ds a))) (dFacets ds).

(** ** Specification *)

(** Where a call with this selector goes, and whether a freeze stops it. *)
Definition route (ds : DiamondStorage) : gmap string (string * bool) :=
  (λ i, (facetAddress i, selFreezable i)) <$> selectorToFacet ds.

(** The index is consistent; [o] is a facet allowed to be listed without
    selectors, as it is while its first one is added or its last one removed. *)
Record wf_open (o : option string) (ds : DiamondStorage) : Prop := {
  wf_selector : ∀ s i, selectorToFacet ds !! s = Some i →
    facetAddress i ≠ AddressZero ∧ Z.of_nat (selectorPosition i) < 2 ^ 16 ∧
    ∃ f, facetToSelectors ds !! facetAddress i = Some f ∧
         facetSelectors f !! selectorPosition i = Some s;
  wf_facet : ∀ a f p s, facetToSelectors ds !! a = Some f → facetSelectors f !! p = Some s →
    ∃ i, selectorToFacet ds !! s = Some i ∧ facetAddress i = a ∧ selectorPosition i = p;
  wf_listed : ∀ a f, facetToSelectors ds !! a = Some f → facetSelectors f ≠ [] ∨ o = Some a →
    dFacets ds !! facetPosition f = Some a;
  wf_list : ∀ p a, dFacets ds !! p = Some a → Z.of_nat p < 2 ^ 16 ∧
    ∃ f, facetToSelectors ds !! a = Some f ∧ facetPosition f = p ∧
         (facetSelectors f ≠ [] ∨ o = Some a);
  wf_freezable : ∀ s s' i i', selectorToFacet ds !! s = Some i → selectorToFacet ds !! s' = Some i' →
    facetAddress i = facetAddress i' → selFreezable i = selFreezable i';
}.

Definition wf : DiamondStorage → Prop := wf_open None.

Definition empty_diamond : DiamondStorage := mkDiamond ∅ ∅ [].

(** ** The index stays consistent *)

Section index.
Implicit Types (ds : DiamondStorage) (o : option string).

Lemma toUint16_inv n m : toUint16 n = inr m ↔ m = n ∧ Z.of_nat n < 2 ^ 16.
Proof.
  unfold toUint16, err, mret, res_ret.
  destruct (Z.ltb_spec (Z.of_nat n) (2 ^ 16)); split; intros; destruct_and?; simplify_eq; auto; lia.
Qed.

Lemma toUint16_err n e : toUint16 n = inl e → e = Uint16Overflow.
Proof. unfold toUint16. destruct (Z.of_nat n <? 2 ^ 16); [done|]. by intros [= <-]. Qed.

Lemma facet_info_Some ds a f : facetToSelectors ds !! a = Some f → facet_info ds a = f.
Proof. unfold facet_info. by intros ->. Qed.

Lemma selector_info_Some ds s i : selectorToFacet ds !! s = Some i → selector_info ds s = i.
Proof. unfold selector_info. by intros ->. Qed.

(** The facet in transit has its selectors: the index is fully consistent. *)
Lemma wf_close a f ds :
  wf_open (Some a) ds → facetToSelectors ds !! a = Some f → facetSelectors f ≠ [] → wf ds.
Proof.
  intros [] Hf Hne. constructor; [done|done| |..]; [naive_solver| |done].
  intros p b Hp. destruct (wf_list0 p b Hp) as (? & g & Hg & ? & Hor).
  split; [done|]. exists g. split_and!; [done..|]. left. destruct Hor as [?|[= <-]]; [done|congruence].
Qed.

Lemma wf_reopen a f ds :
  wf ds → facetToSelectors ds !! a = Some f → facetSelectors f ≠ [] → wf_open (Some a) ds.
Proof.
  intros [] Hf Hne. constructor; [done|done|..|done].
  - intros b g Hg [?|[= <-]]; [naive_solver|]. apply wf_listed0; [done|left; congruence].
  - naive_solver.
Qed.

Lemma saveFacetIfNew_wf a ds ds' :
  wf ds → _saveFacetIfNew a ds = inr ds' →
  wf_open (Some a) ds' ∧ selectorToFacet ds' = selectorToFacet ds ∧
  ∃ f, facetToSelectors ds' !! a = Some f ∧ facetSelectors f = facetSelectors (facet_info ds a).
Proof.
  intros Hwf H. unfold _saveFacetIfNew in H. destruct (facetSelectors (facet_info ds a)) as [|s0 l] eqn:El.
  - destruct (toUint16 _) as [|pos] eqn:Ep; [done|]. injection H as <-. apply toUint16_inv in Ep as [-> Hp].
    destruct Hwf. split; [|split; [done|cbn; eexists; by rewrite lookup_insert_eq]].
    assert (Hempty : ∀ f, facetToSelectors ds !! a = Some f → facetSelectors f = []).
    { intros f Hf. by rewrite (facet_info_Some _ _ _ Hf) in El. }
    constructor; cbn.
    + intros s i Hs. destruct (wf_selector0 s i Hs) as (? & ? & f & Hf & Hl). split_and!; [done..|].
      exists f. rewrite lookup_insert_ne; [done|]. intros E. rewrite <- E in Hf. by rewrite (Hempty _ Hf) in Hl.
    + intros b f p s [[<- <-]|[Hne Hf]]%lookup_insert_Some; [done|naive_solver].
    + intros b f [[<- <-]|[Hne Hf]]%lookup_insert_Some Hor.
      * by rewrite lookup_app_r, Nat.sub_diag.
      * apply lookup_app_l_Some, wf_listed0; [done|]. destruct Hor; [by left|congruence].
    + intros p b [Hb|[Hl Hb]]%lookup_app_Some.
      * destruct (wf_list0 p b Hb) as (? & f & Hf & ? & [Hne|?]); [|done]. split; [done|].
        exists f. rewrite lookup_insert_ne; [auto|]. intros <-. by rewrite (Hempty _ Hf) in Hne.
      * apply list_lookup_singleton_Some in Hb as [Hz <-].
        assert (p = length (dFacets ds)) as -> by lia. split; [done|].
        eexists. rewrite lookup_insert_eq. auto.
    + done.
  - injection H as <-. unfold facet_info in *. destruct (facetToSelectors ds !! a) as [f|] eqn:Ef; [|done].
    cbn in El. split; [apply (wf_reopen a f); [done..|by rewrite El]|]. split; [done|]. eauto.
Qed.

Lemma addOneFunction_wf a s b ds ds' f :
  wf_open (Some a) ds → a ≠ AddressZero → facetToSelectors ds !! a = Some f →
  selectorToFacet ds !! s = None → _addOneFunction a s b ds = inr ds' →
  wf ds' ∧ selectorToFacet ds' =
    <[s := mkSelector a (length (facetSelectors f)) b]> (selectorToFacet ds) ∧
  facetToSelectors ds' !! a = Some (mkFacet (facetSelectors f ++ [s]) (facetPosition f)).
Proof.
  intros Hwf Ha Hf Hs H. unfold _addOneFunction in H. rewrite (facet_info_Some _ _ _ Hf) in H.
  destruct (toUint16 _) as [|pos] eqn:Ep; [done|]. apply toUint16_inv in Ep as [-> Hp]. cbn in H.
  set (l := facetSelectors f) in *.
  assert (Hfr : ∀ s' i', selectorToFacet ds !! s' = Some i' → facetAddress i' = a → selFreezable i' = b).
  { intros s' i' Hi' Ha'. destruct (wf_selector _ _ Hwf s' i' Hi') as (_ & _ & g & Hg & Hl).
    rewrite Ha' in Hg. assert (g = f) as -> by congruence. fold l in Hl.
    destruct l as [|s0 l'] eqn:El; [done|].
    destruct (wf_facet _ _ Hwf a f 0 s0 Hf) as (i0 & Hi0 & Ha0 & _); [by fold l; rewrite El|].
    rewrite (selector_info_Some _ _ _ Hi0) in H.
    destruct (Bool.eqb b (selFreezable i0)) eqn:Eb; [|done]. apply Bool.eqb_prop in Eb as ->.
    symmetry. eapply (wf_freezable _ _ Hwf); [done..|congruence]. }
  assert (E : ds' = mkDiamond (<[s := mkSelector a (length l) b]> (selectorToFacet ds))
      (<[a := mkFacet (l ++ [s]) (facetPosition f)]> (facetToSelectors ds)) (dFacets ds)).
  { destruct l as [|s0 l']; cbn in H; [by injection H|]. by destruct (Bool.eqb _ _); [injection H|]. }
  subst ds'. clear H. split; [|split; [done|by cbn; rewrite lookup_insert_eq]].
  destruct Hwf. constructor; cbn.
  - intros s' i [[<- <-]|[Hne Hi]]%lookup_insert_Some; cbn.
    + split_and!; [done..|]. eexists. rewrite lookup_insert_eq. split; [done|]. cbn.
      by rewrite lookup_app_r, Nat.sub_diag.
    + destruct (wf_selector0 s' i Hi) as (? & ? & g & Hg & Hl). split_and!; [done..|].
      destruct (decide (facetAddress i = a)) as [Ea|]; [|rewrite lookup_insert_ne by done; eauto].
      rewrite Ea, lookup_insert_eq. eexists. split; [done|]. cbn. apply lookup_app_l_Some.
      rewrite Ea in Hg. assert (g = f) as -> by congruence. done.
  - intros c g p s' [[<- <-]|[Hne Hg]]%lookup_insert_Some; cbn.
    + intros [Hl|[Hlen Hl]]%lookup_app_Some.
      * destruct (wf_facet0 a f p s' Hf Hl) as (i & Hi & ?). exists i.
        rewrite lookup_insert_ne; [done|]. intros <-. congruence.
      * apply list_lookup_singleton_Some in Hl as [Hz <-]. assert (p = length l) as -> by lia.
        eexists. rewrite lookup_insert_eq. done.
    + intros Hl. destruct (wf_facet0 c g p s' Hg Hl) as (i & Hi & ?). exists i.
      rewrite lookup_insert_ne; [done|]. intros <-. congruence.
  - intros c g [[<- <-]|[Hne Hg]]%lookup_insert_Some Hor; cbn; [by apply (wf_listed0 a f); [|right]|].
    apply wf_listed0; [done|]. by destruct Hor; [left|].
  - intros p c Hc. destruct (wf_list0 p c Hc) as (? & g & Hg & ? & Hor). split; [done|].
    destruct (decide (c = a)) as [->|].
    + eexists. rewrite lookup_insert_eq. split; [done|]. cbn. split; [congruence|]. left. by destruct l.
    + exists g. rewrite lookup_insert_ne by done. split_and!; [done..|]. destruct Hor; [by left|congruence].
  - intros s1 s2 i1 i2 [[<- <-]|[? H1]]%lookup_insert_Some [[<- <-]|[? H2]]%lookup_insert_Some; cbn;
      [done|intros Ea; symmetry; by eapply Hfr|intros Ea; by eapply Hfr|by eapply wf_freezable0].
Qed.

(** Moving the last element into place [p] and dropping the end. *)
Definition swap_pop (p : nat) (y : string) (l : list string) : list string :=
  take (length l - 1) (<[p := y]> l).

Lemma swap_pop_lookup p y l q z :
  (p < length l)%nat →
  swap_pop p y l !! q = Some z ↔
  (q < length l - 1)%nat ∧ (q = p ∧ z = y ∨ q ≠ p ∧ l !! q = Some z).
Proof.
  intros Hp. unfold swap_pop. rewrite lookup_take_Some.
  destruct (decide (q = p)) as [->|Hne].
  - rewrite list_lookup_insert_eq by done. naive_solver.
  - rewrite list_lookup_insert_ne by done. naive_solver.
Qed.

Lemma array_pop_run p y l :
  (p < length l)%nat → array_pop (<[p := y]> l) = inr (swap_pop p y l).
Proof.
  intros Hp. unfold array_pop, swap_pop. rewrite <- (length_insert l p y).
  destruct (<[p := y]> l) eqn:E; [|done].
  apply (f_equal length) in E. rewrite length_insert in E. cbn in E. lia.
Qed.

(** The two branches of a removal give the same array: when the element is the
    last one, moving it into its own place changes nothing. *)
Lemma insert_last (l : list string) y : l !! (length l - 1)%nat = Some y → <[(length l - 1)%nat := y]> l = l.
Proof. apply list_insert_id. Qed.

Lemma detach_run a s ds i f y :
  wf ds → selectorToFacet ds !! s = Some i → facetAddress i = a →
  facetToSelectors ds !! a = Some f →
  facetSelectors f !! (length (facetSelectors f) - 1)%nat = Some y →
  ∃ j, selectorToFacet ds !! y = Some j ∧ facetAddress j = a ∧
  detach a s (length (facetSelectors f) - 1) ds = inr (mkDiamond
    (delete s (<[y := mkSelector a (selectorPosition i) (selFreezable j)]> (selectorToFacet ds)))
    (<[a := mkFacet (swap_pop (selectorPosition i) y (facetSelectors f)) (facetPosition f)]>
       (facetToSelectors ds)) (dFacets ds)).
Proof.
  intros Hwf Hi Ha Hf Hy. destruct (wf_facet _ _ Hwf _ _ _ _ Hf Hy) as (j & Hj & Hja & Hjp).
  exists j. split_and!; [done..|].
  destruct (wf_selector _ _ Hwf s i Hi) as (_ & Hp & g & Hg & Hl).
  rewrite Ha in Hg. assert (g = f) as -> by congruence.
  pose proof (lookup_lt_Some _ _ _ Hl) as Hlt.
  unfold detach. rewrite (facet_info_Some _ _ _ Hf), (selector_info_Some _ _ _ Hi).
  destruct (Nat.eqb_spec (selectorPosition i) (length (facetSelectors f) - 1)) as [E|E].
  - cbn. rewrite <- (insert_last _ _ Hy) at 1. rewrite <- E, array_pop_run by done. cbn.
    assert (y = s) as -> by congruence. by rewrite delete_insert_eq.
  - unfold array_get. rewrite Hy. cbn. unfold array_set. rewrite (proj2 (Nat.ltb_lt _ _) Hlt). cbn.
    rewrite (proj2 (toUint16_inv _ _) (conj eq_refl Hp)). cbn.
    rewrite array_pop_run, (selector_info_Some _ _ _ Hj), Hja by done. done.
Qed.

Lemma detach_wf a s ds i f y j :
  wf ds → selectorToFacet ds !! s = Some i → facetAddress i = a →
  facetToSelectors ds !! a = Some f →
  facetSelectors f !! (length (facetSelectors f) - 1)%nat = Some y →
  selectorToFacet ds !! y = Some j → facetAddress j = a →
  wf_open (Some a) (mkDiamond
    (delete s (<[y := mkSelector a (selectorPosition i) (selFreezable j)]> (selectorToFacet ds)))
    (<[a := mkFacet (swap_pop (selectorPosition i) y (facetSelectors f)) (facetPosition f)]>
       (facetToSelectors ds)) (dFacets ds)).
Proof.
  intros [] Hi Ha Hf Hy Hj Hja. set (l := facetSelectors f) in *. set (p := selectorPosition i) in *.
  destruct (wf_selector0 s i Hi) as (Ha0 & Hp & g & Hg & Hl). rewrite Ha in Ha0, Hg.
  assert (g = f) as -> by congruence. fold l p in Hl.
  pose proof (lookup_lt_Some _ _ _ Hl) as Hlt.
  assert (Hat : ∀ q z k, l !! q = Some z → selectorToFacet ds !! z = Some k → selectorPosition k = q).
  { intros q z k Hq Hk. destruct (wf_facet0 a f q z Hf Hq) as (k' & Hk' & _ & <-). congruence. }
  constructor; cbn.
  - intros s' i' [Hne [[<- <-]|[Hny Hi']]%lookup_insert_Some]%lookup_delete_Some; cbn.
    + split_and!; [done..|]. rewrite lookup_insert_eq. eexists. split; [done|]. cbn.
      apply swap_pop_lookup; [done|]. split; [|by left].
      assert (p ≠ (length l - 1)%nat) by (intros E; rewrite E in Hl; congruence). lia.
    + destruct (wf_selector0 s' i' Hi') as (? & ? & g & Hg' & Hl'). split_and!; [done..|].
      destruct (decide (facetAddress i' = a)) as [E|]; [|rewrite lookup_insert_ne by done; eauto].
      rewrite E in *. assert (g = f) as -> by congruence. fold l in Hl'.
      rewrite lookup_insert_eq. eexists. split; [done|]. cbn. apply swap_pop_lookup; [done|].
      pose proof (lookup_lt_Some _ _ _ Hl').
      assert (selectorPosition i' ≠ (length l - 1)%nat) by congruence.
      split; [lia|]. right. split; [congruence|done].
  - intros b g q z [[<- <-]|[Hne Hg']]%lookup_insert_Some; cbn.
    + intros [Hq [[-> ->]|[Hqp Hz]]]%swap_pop_lookup; [| |done].
      * eexists. rewrite lookup_delete_ne, lookup_insert_eq; [done|].
        intros ->. pose proof (Hat _ _ _ Hy Hi). lia.
      * destruct (wf_facet0 a f q z Hf Hz) as (k & Hk & ? & ?). exists k.
        rewrite lookup_delete_ne, lookup_insert_ne; [done|..].
        -- intros ->. pose proof (Hat _ _ _ Hy Hk). lia.
        -- intros ->. pose proof (Hat _ _ _ Hl Hk). lia.
    + intros Hz. destruct (wf_facet0 b g q z Hg' Hz) as (k & Hk & ? & ?). exists k.
      rewrite lookup_delete_ne, lookup_insert_ne; [done|..]; intros ->; congruence.
  - intros b g [[<- <-]|[Hne Hg']]%lookup_insert_Some Hor; cbn.
    + apply wf_listed0; [done|]. left. intros E. unfold l in Hl. by rewrite E in Hl.
    + apply wf_listed0; [done|]. destruct Hor; [by left|congruence].
  - intros q b Hb. destruct (wf_list0 q b Hb) as (? & g & Hg' & ? & [Hne|?]); [|done]. split; [done|].
    destruct (decide (b = a)) as [->|].
    + eexists. rewrite lookup_insert_eq. split; [done|]. cbn. split; [congruence|by right].
    + exists g. rewrite lookup_insert_ne by done. auto.
  - assert (Hold : ∀ z k, delete s (<[y := mkSelector a p (selFreezable j)]> (selectorToFacet ds)) !! z
        = Some k → ∃ k', selectorToFacet ds !! z = Some k' ∧ facetAddress k' = facetAddress k ∧
        selFreezable k' = selFreezable k).
    { intros z k [_ [[<- <-]|[_ Hk]]%lookup_insert_Some]%lookup_delete_Some; eauto. }
    intros s1 s2 i1 i2 (k1 & ? & ? & <-)%Hold (k2 & ? & ? & <-)%Hold Ea.
    eapply wf_freezable0; [done..|congruence].
Qed.

Lemma removeFacet_consistent a ds f b g :
  wf_open (Some a) ds → facetToSelectors ds !! a = Some f → facetSelectors f = [] →
  dFacets ds !! facetPosition f = Some a →
  dFacets ds !! (length (dFacets ds) - 1)%nat = Some b → facetToSelectors ds !! b = Some g →
  facetPosition g = (length (dFacets ds) - 1)%nat →
  wf (mkDiamond (selectorToFacet ds)
    (<[b := mkFacet (facetSelectors g) (facetPosition f)]> (facetToSelectors ds))
    (swap_pop (facetPosition f) b (dFacets ds))).
Proof.
  intros [] Hf Hnil Hpos Hb Hg Hgp. set (p := facetPosition f) in *.
  pose proof (lookup_lt_Some _ _ _ Hpos) as Hlt. constructor; cbn.
  - intros s i Hi. destruct (wf_selector0 s i Hi) as (? & ? & h & Hh & Hl). split_and!; [done..|].
    destruct (decide (facetAddress i = b)) as [E|]; [|rewrite lookup_insert_ne by done; eauto].
    rewrite E in *. rewrite lookup_insert_eq. eexists. split; [done|]. cbn. congruence.
  - intros c h q s [[<- <-]|[Hne Hh]]%lookup_insert_Some; cbn; [by apply wf_facet0|by apply wf_facet0].
  - intros c h [[<- <-]|[Hne Hh]]%lookup_insert_Some [Hn|?]; try done; cbn in *.
    + apply swap_pop_lookup; [done|]. split; [|by left].
      assert (p ≠ (length (dFacets ds) - 1)%nat); [|lia]. intros E. rewrite E in Hpos. congruence.
    + pose proof (wf_listed0 c h Hh (or_introl Hn)) as Hc. pose proof (lookup_lt_Some _ _ _ Hc).
      apply swap_pop_lookup; [done|].
      assert (facetPosition h ≠ (length (dFacets ds) - 1)%nat) by congruence.
      split; [lia|]. right. split; [|done]. intros E. rewrite E in Hc. congruence.
  - intros q c [Hq [[-> ->]|[Hqp Hc]]]%swap_pop_lookup; [| |done].
    + destruct (wf_list0 _ _ Hpos) as (Hp16 & _). split; [done|]. eexists. rewrite lookup_insert_eq.
      split; [done|]. cbn. split; [done|]. left.
      destruct (wf_list0 _ _ Hb) as (_ & g' & Hg' & _ & [?|[= <-]]); [congruence|].
      assert (g = f) as -> by congruence. lia.
    + destruct (wf_list0 q c Hc) as (? & h & Hh & Hhp & Hor). split; [done|].
      assert (c ≠ b) by (intros ->; assert (h = g) as -> by congruence; lia).
      exists h. rewrite lookup_insert_ne by done. split_and!; [done..|]. left.
      destruct Hor as [?|[= <-]]; [done|]. assert (h = f) as -> by congruence. lia.
  - done.
Qed.

(** A listed facet without selectors is dropped from the list. *)
Lemma removeFacet_wf a ds f :
  wf_open (Some a) ds → facetToSelectors ds !! a = Some f → facetSelectors f = [] →
  ∃ ds', _removeFacet a ds = inr ds' ∧ wf ds' ∧ selectorToFacet ds' = selectorToFacet ds.
Proof.
  intros Hwf Hf Hnil. pose proof (wf_listed _ _ Hwf a f Hf (or_intror eq_refl)) as Hpos.
  set (p := facetPosition f) in *. pose proof (lookup_lt_Some _ _ _ Hpos) as Hlt.
  destruct (lookup_lt_is_Some_2 (dFacets ds) (length (dFacets ds) - 1)) as [b Hb]; [lia|].
  destruct (wf_list _ _ Hwf _ _ Hb) as (_ & g & Hg & Hgp & Hgor).
  destruct (wf_list _ _ Hwf _ _ Hpos) as (Hp16 & _).
  exists (mkDiamond (selectorToFacet ds) (<[b := mkFacet (facetSelectors g) p]> (facetToSelectors ds))
    (swap_pop p b (dFacets ds))). split_and!; [|..|done].
  - unfold _removeFacet. rewrite (facet_info_Some _ _ _ Hf). fold p.
    assert (Hlast : last_position (dFacets ds) = inr (length (dFacets ds) - 1)%nat)
      by (unfold last_position; destruct (dFacets ds); done).
    rewrite Hlast. cbn. destruct (Nat.eqb_spec p (length (dFacets ds) - 1)) as [E|E].
    + cbn. rewrite <- (insert_last _ _ Hb) at 1. rewrite <- E, array_pop_run by done. cbn.
      assert (b = a) as -> by congruence. assert (g = f) as -> by congruence.
      rewrite insert_id; [done|]. rewrite Hf. unfold p. by destruct f.
    + unfold array_get. rewrite Hb. cbn. unfold array_set. rewrite (proj2 (Nat.ltb_lt _ _) Hlt). cbn.
      rewrite (proj2 (toUint16_inv _ _) (conj eq_refl Hp16)). cbn.
      by rewrite array_pop_run, (facet_info_Some _ _ _ Hg) by done.
  - apply (removeFacet_consistent a ds f b g); done.
Qed.

(** A function that is routed can be removed: no array access fails, the index
    stays consistent and only this selector loses its route. *)
Lemma removeOneFunction_wf s i ds :
  wf ds → selectorToFacet ds !! s = Some i →
  ∃ ds', _removeOneFunction (facetAddress i) s ds = inr ds' ∧ wf ds' ∧
    route ds' = delete s (route ds).
Proof.
  intros Hwf Hi. destruct (wf_selector _ _ Hwf s i Hi) as (_ & _ & f & Hf & Hl).
  pose proof (lookup_lt_Some _ _ _ Hl) as Hlt.
  destruct (lookup_lt_is_Some_2 (facetSelectors f) (length (facetSelectors f) - 1)) as [y Hy]; [lia|].
  destruct (detach_run _ s ds i f y Hwf Hi eq_refl Hf Hy) as (j & Hj & Hja & Ed).
  pose proof (detach_wf _ s ds i f y j Hwf Hi eq_refl Hf Hy Hj Hja) as Hwf'.
  match type of Ed with _ = inr ?d => set (ds1 := d) in * end.
  assert (Hroute : route ds1 = delete s (route ds)).
  { unfold route, ds1. cbn. rewrite fmap_delete, fmap_insert. cbn. f_equal. apply insert_id.
    by rewrite lookup_fmap, Hj; cbn; rewrite Hja. }
  unfold _removeOneFunction. rewrite (facet_info_Some _ _ _ Hf).
  assert (Hlast : last_position (facetSelectors f) = inr (length (facetSelectors f) - 1)%nat)
    by (unfold last_position; destruct (facetSelectors f); done).
  rewrite Hlast. cbn. rewrite Ed. cbn.
  assert (Hf1 : facetToSelectors ds1 !! facetAddress i = Some (mkFacet
    (swap_pop (selectorPosition i) y (facetSelectors f)) (facetPosition f)))
    by (unfold ds1; cbn; by rewrite lookup_insert_eq).
  assert (Hlen : length (swap_pop (selectorPosition i) y (facetSelectors f)) =
    (length (facetSelectors f) - 1)%nat) by (unfold swap_pop; rewrite length_take, length_insert; lia).
  destruct (Nat.eqb_spec (length (facetSelectors f) - 1) 0) as [E|E].
  - destruct (removeFacet_wf _ ds1 _ Hwf' Hf1) as (ds2 & E2 & Hwf2 & Hs2).
    { apply nil_length_inv. cbn. lia. }
    exists ds2. split_and!; [done..|]. rewrite <- Hroute. unfold route. by rewrite Hs2.
  - exists ds1. split_and!; [done| |done]. apply (wf_close _ _ _ Hwf' Hf1). cbn.
    intros H. rewrite H in Hlen. cbn in Hlen. lia.
Qed.

End index.

(** ** Cuts *)

(** The computation does not fail on an array, and its result satisfies [Q]. *)
Definition ok {A} (m : res A) (Q : A → Prop) : Prop :=
  match m with inr a => Q a | inl e => e ≠ ArrayPanic end.

Lemma ok_bind {A B} (m : res A) (k : A → res B) (P : A → Prop) (Q : B → Prop) :
  ok m P → (∀ a, P a → ok (k a) Q) → ok (m ≫= k) Q.
Proof. intros Hm Hk. destruct m as [e|a]; [exact Hm|exact (Hk a Hm)]. Qed.

Lemma ok_fold {A B} (f : A → B → res B) (P : list A → B → Prop) l b :
  (∀ done x b, P done b → ok (f x b) (P (done ++ [x]))) → P [] b → ok (fold_res f l b) (P l).
Proof.
  intros Hf. change l with ([] ++ l) at 2. generalize (@nil A) as seen. revert b.
  induction l as [|x l IH]; intros b seen Hb; cbn; [by rewrite app_nil_r|].
  eapply ok_bind; [by apply Hf|]. intros b' Hb'. rewrite cons_middle, app_assoc. by apply IH.
Qed.

Lemma ok_result {A} (m : res A) Q a : ok m Q → m = inr a → Q a.
Proof. by intros H ->. Qed.

(** What a cut does to the routes. *)
Definition add_routes (a : string) (b : bool) (l : list string) (r : gmap string (string * bool))
    : gmap string (string * bool) :=
  foldl (λ r s, <[s := (a, b)]> r) r l.
Definition drop_routes (l : list string) (r : gmap string (string * bool))
    : gmap string (string * bool) :=
  foldl (λ r s, delete s r) r l.
Definition route_cut (r : gmap string (string * bool)) (c : FacetCut) : gmap string (string * bool) :=
  match action c with
  | Add | Replace => add_routes (facet c) (isFreezable c) (selectors c) r
  | Remove => drop_routes (selectors c) r
  end.

Section cut_proofs.
Context (has_code : string → bool) (zero_has_no_code : has_code AddressZero = false).
Implicit Types (ds : DiamondStorage).

Lemma ok_save a ds :
  wf ds → ok (_saveFacetIfNew a ds) (λ ds',
    wf_open (Some a) ds' ∧ selectorToFacet ds' = selectorToFacet ds ∧
    is_Some (facetToSelectors ds' !! a)).
Proof.
  intros Hwf. destruct (_saveFacetIfNew a ds) as [e|ds'] eqn:E; cbn.
  - unfold _saveFacetIfNew in E. destruct (facetSelectors _); [|done].
    destruct (toUint16 _) as [e'|] eqn:E16; [|done]. injection E as <-. by apply toUint16_err in E16 as ->.
  - destruct (saveFacetIfNew_wf _ _ _ Hwf E) as (? & ? & f & ? & _). eauto.
Qed.

Lemma ok_add a s b ds :
  wf_open (Some a) ds → a ≠ AddressZero → is_Some (facetToSelectors ds !! a) →
  selectorToFacet ds !! s = None →
  ok (_addOneFunction a s b ds) (λ ds',
    wf ds' ∧ wf_open (Some a) ds' ∧ is_Some (facetToSelectors ds' !! a) ∧
    route ds' = <[s := (a, b)]> (route ds)).
Proof.
  intros Hwf Ha [f Hf] Hs. destruct (_addOneFunction a s b ds) as [e|ds'] eqn:E; cbn.
  - unfold _addOneFunction in E. destruct (toUint16 _) as [e'|] eqn:E16; cbn in E.
    { injection E as <-. by apply toUint16_err in E16 as ->. }
    destruct (facetSelectors _); [done|]. destruct (Bool.eqb _ _); [done|]. by injection E as <-.
  - destruct (addOneFunction_wf _ _ _ _ _ _ Hwf Ha Hf Hs E) as (Hwf' & Es & Ef).
    split_and!; [done| |eauto|].
    + apply (wf_reopen _ _ _ Hwf' Ef). cbn. by destruct (facetSelectors f).
    + unfold route. by rewrite Es, fmap_insert.
Qed.

(** The address read for a selector is zero exactly when it has no route. *)
Lemma selector_zero o ds s :
  wf_open o ds → facetAddress (selector_info ds s) = AddressZero ↔ selectorToFacet ds !! s = None.
Proof.
  intros Hwf. unfold selector_info. destruct (selectorToFacet ds !! s) as [i|] eqn:E; [|done].
  destruct (wf_selector _ _ Hwf s i E) as (? & _). done.
Qed.

Lemma ok_addFunctions a l b ds :
  wf ds → l ≠ [] → ok (_addFunctions has_code a l b ds) (λ ds',
    wf ds' ∧ route ds' = add_routes a b l (route ds)).
Proof.
  intros Hwf Hl. unfold _addFunctions. destruct (has_code a) eqn:Hc; [|done].
  assert (Ha : a ≠ AddressZero) by congruence.
  eapply ok_bind; [by apply ok_save|]. intros ds1 (Hwf1 & Es & Hf).
  assert (Er : route ds1 = route ds) by (unfold route; by rewrite Es). rewrite <- Er.
  assert (H : ok (fold_res (λ selector ds, if String.eqb (facetAddress (selector_info ds selector)) AddressZero
      then _addOneFunction a selector b ds
      else err (FacetExists selector (facetAddress (selector_info ds selector)))) l ds1)
    (λ ds', (l ≠ [] → wf ds') ∧ wf_open (Some a) ds' ∧ is_Some (facetToSelectors ds' !! a) ∧
       route ds' = add_routes a b l (route ds1))).
  { apply (ok_fold _ (λ l ds', (l ≠ [] → wf ds') ∧ wf_open (Some a) ds' ∧
      is_Some (facetToSelectors ds' !! a) ∧ route ds' = add_routes a b l (route ds1))); [|done].
    intros seen s ds2 (_ & Hwf2 & Hf2 & Er2).
    destruct (String.eqb_spec (facetAddress (selector_info ds2 s)) AddressZero) as [E|]; [|done].
    apply (selector_zero _ _ _ Hwf2) in E.
    pose proof (ok_add a s b ds2 Hwf2 Ha Hf2 E) as Hok. unfold ok in *.
    destruct (_addOneFunction a s b ds2); [done|]. destruct Hok as (? & ? & ? & ->).
    split_and!; [done..|]. unfold add_routes. by rewrite foldl_app, Er2. }
  unfold ok in *. destruct (fold_res _ l ds1); [done|]. destruct H as (? & _ & _ & ?). auto.
Qed.

Lemma ok_removeFunctions a l ds :
  wf ds → ok (_removeFunctions a l ds) (λ ds', wf ds' ∧ route ds' = drop_routes l (route ds)).
Proof.
  intros Hwf. unfold _removeFunctions. destruct (String.eqb a AddressZero); [|done].
  apply (ok_fold _ (λ l ds', wf ds' ∧ route ds' = drop_routes l (route ds))); [|done].
  intros seen s ds2 (Hwf2 & Er2).
  destruct (String.eqb_spec (facetAddress (selector_info ds2 s)) AddressZero) as [|E]; [done|].
  destruct (selectorToFacet ds2 !! s) as [i|] eqn:Hi; [|by destruct E; apply (selector_zero _ _ _ Hwf2)].
  rewrite (selector_info_Some _ _ _ Hi).
  destruct (removeOneFunction_wf s i ds2 Hwf2 Hi) as (ds3 & -> & Hwf3 & Er3). cbn.
  split; [done|]. unfold drop_routes. by rewrite Er3, foldl_app, Er2.
Qed.

Lemma ok_replaceFunctions a l b ds :
  wf ds → ok (_replaceFunctions has_code a l b ds) (λ ds',
    wf ds' ∧ route ds' = add_routes a b l (route ds)).
Proof.
  intros Hwf. unfold _replaceFunctions. destruct (has_code a) eqn:Hc; [|done].
  assert (Ha : a ≠ AddressZero) by congruence.
  apply (ok_fold _ (λ l ds', wf ds' ∧ route ds' = add_routes a b l (route ds))); [|done].
  intros seen s ds2 (Hwf2 & Er2).
  destruct (String.eqb_spec (facetAddress (selector_info ds2 s)) AddressZero) as [|E]; [done|].
  destruct (selectorToFacet ds2 !! s) as [i|] eqn:Hi; [|by destruct E; apply (selector_zero _ _ _ Hwf2)].
  rewrite (selector_info_Some _ _ _ Hi).
  destruct (removeOneFunction_wf s i ds2 Hwf2 Hi) as (ds3 & -> & Hwf3 & Er3). cbn.
  eapply ok_bind; [by apply (ok_save a)|]. intros ds4 (Hwf4 & Es4 & Hf4).
  assert (Er4 : route ds4 = delete s (route ds2)) by (rewrite <- Er3; unfold route; by rewrite Es4).
  assert (Hs4 : selectorToFacet ds4 !! s = None).
  { apply (f_equal (lookup s)) in Er4. unfold route in Er4 at 1.
    rewrite lookup_delete_eq, lookup_fmap in Er4. by destruct (selectorToFacet ds4 !! s). }
  pose proof (ok_add a s b ds4 Hwf4 Ha Hf4 Hs4) as Hok. unfold ok in *.
  destruct (_addOneFunction a s b ds4); [done|]. destruct Hok as (? & _ & _ & ->).
  split; [done|]. rewrite Er4, insert_delete_eq, Er2. unfold add_routes. by rewrite foldl_app.
Qed.

Lemma ok_cuts cuts ds :
  wf ds → ok (diamondCut_facets has_code cuts ds) (λ ds',
    wf ds' ∧ route ds' = foldl route_cut (route ds) cuts).
Proof.
  intros Hwf. apply (ok_fold _ (λ l ds', wf ds' ∧ route ds' = foldl route_cut (route ds) l)); [|done].
  intros seen c ds2 (Hwf2 & Er2). rewrite foldl_app. cbn [foldl]. rewrite <- Er2. unfold apply_cut, route_cut.
  destruct (selectors c) as [|s0 l] eqn:El; [done|]. rewrite <- El.
  destruct (action c); [apply ok_addFunctions; [done|by rewrite El]|by apply ok_replaceFunctions|
    by apply ok_removeFunctions].
Qed.

End cut_proofs.

Lemma wf_empty : wf empty_diamond.
Proof. by constructor; cbn; intros *; rewrite ?lookup_empty, ?lookup_nil. Qed.
