(* ===== verification/DiamondUpgrade.v ===== *)
(** * Diamond upgrades

    The cut lists that [l1-contracts/src.ts/diamondCut.ts] computes, applied to
    the diamond of [Diamond.sol]. *)

From stdpp Require Import base list option gmap strings sets.
From Stdlib Require Import ZArith Lia.
From S2P Require Import Prelude Js DiamondCut Diamond.

(** ** When a cut is accepted *)

Section total.
Context (has_code : string → bool) (zero_has_no_code : has_code AddressZero = false).
Implicit Types (ds : DiamondStorage).

Lemma route_lookup ds s i :
  selectorToFacet ds !! s = Some i → route ds !! s = Some (facetAddress i, selFreezable i).
Proof. intros Hi. unfold route. by rewrite lookup_fmap, Hi. Qed.

Lemma route_lookup_inv ds s a b :
  route ds !! s = Some (a, b) →
  ∃ i, selectorToFacet ds !! s = Some i ∧ facetAddress i = a ∧ selFreezable i = b.
Proof. unfold route. rewrite lookup_fmap, fmap_Some. naive_solver. Qed.

Lemma route_None ds s : route ds !! s = None ↔ selectorToFacet ds !! s = None.
Proof. unfold route. rewrite lookup_fmap. by destruct (selectorToFacet ds !! s). Qed.

(** Removing functions that are all routed. *)
Lemma remove_total l ds :
  wf ds → NoDup l → (∀ s, s ∈ l → is_Some (route ds !! s)) →
  ∃ ds', _removeFunctions AddressZero l ds = inr ds' ∧ wf ds' ∧ route ds' = drop_routes l (route ds).
Proof.
  unfold _removeFunctions. rewrite String.eqb_refl. revert ds.
  induction l as [|s l IH]; intros ds Hwf Hnd Hr; [eauto|]. apply NoDup_cons in Hnd as [Hs Hnd].
  destruct (Hr s ltac:(left)) as [[a b] Hab]. destruct (route_lookup_inv _ _ _ _ Hab) as (i & Hi & _ & _).
  destruct (removeOneFunction_wf s i ds Hwf Hi) as (ds1 & E1 & Hwf1 & Er1).
  destruct (IH ds1 Hwf1 Hnd) as (ds2 & E2 & Hwf2 & Er2).
  { intros s' Hs'. rewrite Er1, lookup_delete_ne by (intros <-; done). apply Hr. by right. }
  exists ds2. cbn [fold_res]. rewrite (selector_info_Some _ _ _ Hi).
  destruct (wf_selector _ _ Hwf s i Hi) as (Hne & _).
  rewrite (proj2 (String.eqb_neq _ _) Hne), E1. cbn [mbind res_bind].
  split_and!; [done..|]. by rewrite Er2, Er1.
Qed.

(** Adding functions that have no route to a facet without functions. *)
Lemma add_loop_total a b l ds f :
  wf_open (Some a) ds → a ≠ AddressZero → facetToSelectors ds !! a = Some f →
  (∀ s c, route ds !! s = Some (a, c) → c = b) →
  NoDup l → (∀ s, s ∈ l → route ds !! s = None) →
  Z.of_nat (length (facetSelectors f) + length l) < 2 ^ 16 →
  ∃ ds', fold_res (λ selector ds,
      if String.eqb (facetAddress (selector_info ds selector)) AddressZero
      then _addOneFunction a selector b ds
      else err (FacetExists selector (facetAddress (selector_info ds selector)))) l ds = inr ds'.
Proof.
  intros Hwf Ha. revert ds f Hwf. induction l as [|s l IH]; intros ds f Hwf Hf Hfr Hnd Hr Hlen; [by eexists|].
  apply NoDup_cons in Hnd as [Hs Hnd]. cbn [length] in Hlen.
  pose proof (proj1 (route_None _ _) (Hr s ltac:(left))) as Hs0.
  assert (E : ∃ ds1, _addOneFunction a s b ds = inr ds1).
  { assert (H16 : Z.of_nat (length (facetSelectors f)) < 2 ^ 16) by lia.
    unfold _addOneFunction. rewrite (facet_info_Some _ _ _ Hf).
    rewrite (proj2 (toUint16_inv _ _) (conj eq_refl H16)). cbn [mbind res_bind].
    destruct (facetSelectors f) as [|s0 l0] eqn:El; [by eexists|].
    destruct (wf_facet _ _ Hwf a f 0 s0 Hf) as (i & Hi & Hia & _); [by rewrite El|].
    rewrite (selector_info_Some _ _ _ Hi). pose proof (route_lookup _ _ _ Hi) as Hri. rewrite Hia in Hri.
    rewrite (Hfr _ _ Hri), Bool.eqb_reflx. by eexists. }
  destruct E as [ds1 E1].
  destruct (addOneFunction_wf _ _ _ _ _ _ Hwf Ha Hf Hs0 E1) as (Hwf1 & Es1 & Hf1).
  assert (Er1 : route ds1 = <[s := (a, b)]> (route ds)) by (unfold route; by rewrite Es1, fmap_insert).
  destruct (IH ds1 (mkFacet (facetSelectors f ++ [s]) (facetPosition f))) as [ds2 E2].
  - apply (wf_reopen _ _ _ Hwf1 Hf1). cbn. by destruct (facetSelectors f).
  - done.
  - intros s' c. rewrite Er1. intros [[_ [= <-]]|[_ ?]]%lookup_insert_Some; [done|by eapply Hfr].
  - done.
  - intros s' Hs'. rewrite Er1, lookup_insert_ne by (intros <-; done). apply Hr. by right.
  - cbn [facetSelectors]. rewrite length_app. cbn. lia.
  - exists ds2. cbn [fold_res]. rewrite (proj2 (String.eqb_eq _ _) (proj2 (selector_zero _ _ _ Hwf) Hs0)).
    rewrite E1. exact E2.
Qed.

(** Distinct listed facets have distinct routed selectors, so there are no more
    facets than routes. *)
Lemma facets_bound ds : wf ds → (length (dFacets ds) ≤ size (route ds))%nat.
Proof.
  intros Hwf. set (first a := default AddressZero (head (facetSelectors (facet_info ds a)))).
  assert (Hfirst : ∀ p a, dFacets ds !! p = Some a → ∃ i f, selectorToFacet ds !! first a = Some i ∧
    facetAddress i = a ∧ facetToSelectors ds !! a = Some f ∧ facetPosition f = p).
  { intros p a Hp. destruct (wf_list _ _ Hwf p a Hp) as (_ & f & Hf & Hfp & [Hne|?]); [|done].
    unfold first. rewrite (facet_info_Some _ _ _ Hf).
    destruct (facetSelectors f) as [|s0 l] eqn:El; [done|]. cbn.
    destruct (wf_facet _ _ Hwf a f 0 s0 Hf) as (i & Hi & Hia & _); [by rewrite El|]. eauto 10. }
  assert (Hnd : NoDup (map first (dFacets ds))).
  { apply NoDup_alt. intros p q s Hp Hq. rewrite list_lookup_fmap in Hp, Hq.
    apply fmap_Some in Hp as (a & Hp & ->), Hq as (b & Hq & Eab).
    destruct (Hfirst p a Hp) as (i & f & Hi & Ha & Hf & <-), (Hfirst q b Hq) as (j & g & Hj & Hb & Hg & <-).
    rewrite Eab in Hi. assert (i = j) as -> by congruence. congruence. }
  rewrite <- (length_map first), <- (size_list_to_set (C := gset string) _ Hnd), <- size_dom.
  apply subseteq_size. intros s (a & -> & Ha)%elem_of_list_to_set%list_elem_of_fmap.
  apply list_elem_of_lookup in Ha as [p Hp]. destruct (Hfirst p a Hp) as (i & _ & Hi & _).
  apply elem_of_dom. rewrite (route_lookup _ _ _ Hi). eauto.
Qed.

Lemma add_total a b l ds :
  wf ds → has_code a = true → (∀ s c, route ds !! s ≠ Some (a, c)) →
  l ≠ [] → NoDup l → (∀ s, s ∈ l → route ds !! s = None) →
  Z.of_nat (size (route ds) + length l) < 2 ^ 16 →
  ∃ ds', _addFunctions has_code a l b ds = inr ds' ∧ wf ds' ∧
    route ds' = add_routes a b l (route ds).
Proof.
  intros Hwf Hc Hfresh Hl Hnd Hr Hsize. assert (Ha : a ≠ AddressZero) by congruence.
  pose proof (facets_bound ds Hwf) as Hfb.
  assert (El : facetSelectors (facet_info ds a) = []).
  { destruct (facetSelectors (facet_info ds a)) as [|s0 l0] eqn:E; [done|]. exfalso.
    unfold facet_info in E. destruct (facetToSelectors ds !! a) as [f|] eqn:Ef; [|done]. cbn in E.
    destruct (wf_facet _ _ Hwf a f 0 s0 Ef) as (i & Hi & Hia & _); [by rewrite E|].
    apply (Hfresh s0 (selFreezable i)). rewrite (route_lookup _ _ _ Hi). congruence. }
  assert (E1 : ∃ ds1, _saveFacetIfNew a ds = inr ds1).
  { assert (H16 : Z.of_nat (length (dFacets ds)) < 2 ^ 16) by (destruct l; cbn in *; lia || done).
    unfold _saveFacetIfNew. rewrite El, (proj2 (toUint16_inv _ _) (conj eq_refl H16)). by eexists. }
  destruct E1 as [ds1 E1]. destruct (saveFacetIfNew_wf _ _ _ Hwf E1) as (Hwf1 & Es1 & f & Hf & Ef).
  assert (Er1 : route ds1 = route ds) by (unfold route; by rewrite Es1).
  destruct (add_loop_total a b l ds1 f Hwf1 Ha Hf) as [ds2 E2].
  - intros s c. rewrite Er1. intros Hs. by destruct (Hfresh s c).
  - done.
  - by rewrite Er1.
  - rewrite Ef, El. cbn. lia.
  - assert (E : _addFunctions has_code a l b ds = inr ds2)
      by (unfold _addFunctions; rewrite Hc, E1; exact E2).
    exists ds2. split; [done|]. by apply (ok_result _ _ _ (ok_addFunctions has_code zero_has_no_code a l b ds Hwf Hl)).
Qed.

Lemma drop_routes_lookup l r s :
  drop_routes l r !! s = if bool_decide (s ∈ l) then None else r !! s.
Proof.
  unfold drop_routes. revert r. induction l as [|x l IH]; intros r; [done|]. cbn [foldl]. rewrite IH.
  destruct (decide (s ∈ l)) as [Hl|Hl]; [rewrite !bool_decide_true by (by rewrite ?elem_of_cons; auto); done|].
  rewrite bool_decide_false by done. destruct (decide (s = x)) as [->|Hx].
  - rewrite lookup_delete_eq, bool_decide_true by (left). done.
  - rewrite lookup_delete_ne, bool_decide_false by (rewrite ?elem_of_cons; naive_solver). done.
Qed.

Lemma add_routes_lookup a b l r s :
  add_routes a b l r !! s = if bool_decide (s ∈ l) then Some (a, b) else r !! s.
Proof.
  unfold add_routes. revert r. induction l as [|x l IH]; intros r; [done|]. cbn [foldl]. rewrite IH.
  destruct (decide (s ∈ l)) as [Hl|Hl]; [rewrite !bool_decide_true by (by rewrite ?elem_of_cons; auto); done|].
  rewrite bool_decide_false by done. destruct (decide (s = x)) as [->|Hx].
  - rewrite lookup_insert_eq, bool_decide_true by (left). done.
  - rewrite lookup_insert_ne, bool_decide_false by (rewrite ?elem_of_cons; naive_solver). done.
Qed.

Definition remove_cut (l : list string) : FacetCut := mkFacetCut AddressZero l Remove false.

Lemma fold_res_cons_run {A B} (f : A → B → res B) x l b b' :
  f x b = inr b' → fold_res f (x :: l) b = fold_res f l b'.
Proof. intros E. cbn [fold_res]. by rewrite E. Qed.

(** Removing whole facets. *)
Lemma removals_total L ds :
  wf ds → NoDup (mjoin L) → Forall (λ l, l ≠ []) L →
  (∀ s, s ∈ mjoin L → is_Some (route ds !! s)) →
  ∃ ds', diamondCut_facets has_code (map remove_cut L) ds = inr ds' ∧ wf ds' ∧
    route ds' = drop_routes (mjoin L) (route ds).
Proof.
  revert ds. induction L as [|l L IH]; intros ds Hwf Hnd Hne Hr; [by exists ds|].
  change (mjoin (l :: L)) with (l ++ mjoin L) in *.
  apply NoDup_app in Hnd as (Hl & Hdisj & HL). apply Forall_cons in Hne as [Hlne Hne].
  destruct (remove_total l ds Hwf Hl) as (ds1 & E1 & Hwf1 & Er1).
  { intros s Hs. apply Hr, elem_of_app. by left. }
  destruct (IH ds1 Hwf1 HL Hne) as (ds2 & E2 & Hwf2 & Er2).
  { intros s Hs. rewrite Er1, drop_routes_lookup, bool_decide_false.
    - apply Hr, elem_of_app. by right.
    - intros Hs'. by apply (Hdisj s). }
  exists ds2. split_and!; [|done|].
  - unfold diamondCut_facets. cbn [map]. erewrite fold_res_cons_run; [exact E2|].
    unfold apply_cut. cbn [selectors action facet remove_cut]. by destruct l.
  - rewrite Er2, Er1. unfold drop_routes. by rewrite foldl_app.
Qed.

Lemma size_add_routes a b l r : (size (add_routes a b l r) ≤ size r + length l)%nat.
Proof.
  unfold add_routes. revert r. induction l as [|x l IH]; intros r; cbn; [lia|].
  specialize (IH (<[x := (a, b)]> r)).
  assert (size (<[x := (a, b)]> r) ≤ S (size r))%nat; [|lia].
  destruct (r !! x) as [y|] eqn:E; [rewrite map_size_insert_Some by (rewrite E; eauto); lia|].
  rewrite map_size_insert_None by done. lia.
Qed.

(** Adding whole facets at new addresses. *)
Record addable (C : list FacetCut) (r : gmap string (string * bool)) : Prop := {
  add_shape : Forall (λ c, action c = Add ∧ selectors c ≠ [] ∧ has_code (facet c) = true) C;
  add_nodup : NoDup (C ≫= selectors);
  add_addresses : NoDup (map facet C);
  add_fresh : ∀ c s b, c ∈ C → r !! s ≠ Some (facet c, b);
  add_unrouted : ∀ s, s ∈ C ≫= selectors → r !! s = None;
  add_size : Z.of_nat (size r + length (C ≫= selectors)) < 2 ^ 16;
}.

Lemma additions_total C ds :
  wf ds → addable C (route ds) →
  ∃ ds', diamondCut_facets has_code C ds = inr ds' ∧ wf ds' ∧
    ∀ s, (∀ c, c ∈ C → s ∈ selectors c → route ds' !! s = Some (facet c, isFreezable c)) ∧
         (s ∉ C ≫= selectors → route ds' !! s = route ds !! s).
Proof.
  revert ds. induction C as [|c C IH]; intros ds Hwf [].
  { exists ds. split_and!; [done..|]. intros s. split; [by intros c ?%not_elem_of_nil|done]. }
  apply Forall_cons in add_shape0 as [(Hact & Hne & Hcode) Hshape].
  change ((c :: C) ≫= selectors) with (selectors c ++ (C ≫= selectors)) in *.
  apply NoDup_app in add_nodup0 as (Hnd & Hdisj & HndC).
  cbn [map] in add_addresses0. apply NoDup_cons in add_addresses0 as [Hc HndA].
  rewrite length_app in add_size0.
  destruct (add_total (facet c) (isFreezable c) (selectors c) ds Hwf Hcode) as (ds1 & E1 & Hwf1 & Er1);
    [intros s b; apply add_fresh0; left|done|done|intros s Hs; apply add_unrouted0, elem_of_app; by left|lia|].
  destruct (IH ds1 Hwf1) as (ds2 & E2 & Hwf2 & Hr2).
  { constructor; [done..| | |]; rewrite Er1.
    - intros d s b Hd. rewrite add_routes_lookup. case_bool_decide; [|apply add_fresh0; by right].
      intros [= E _]. apply Hc. rewrite E. by apply list_elem_of_fmap_2.
    - intros s Hs. rewrite add_routes_lookup, bool_decide_false by (intros ?; by apply (Hdisj s)).
      apply add_unrouted0, elem_of_app. by right.
    - pose proof (size_add_routes (facet c) (isFreezable c) (selectors c) (route ds)). lia. }
  exists ds2. split_and!; [|done|].
  - unfold diamondCut_facets. erewrite fold_res_cons_run; [exact E2|].
    unfold apply_cut. rewrite Hact. by destruct (selectors c).
  - intros s. destruct (Hr2 s) as [Hin Hout]. split.
    + intros d [->|Hd]%elem_of_cons Hs; [|by apply Hin].
      rewrite Hout, Er1, add_routes_lookup, bool_decide_true; [done..|]. intros ?. by apply (Hdisj s).
    + intros [Hs1 Hs2]%not_elem_of_app. by rewrite Hout, Er1, add_routes_lookup, bool_decide_false.
Qed.

End total.

(** ** The upgrade of [getFacetCutsForUpgrade] *)

(** The routes that do not lead to a facet with one of these names. *)
Definition kept_routes (name : string → string) (removed : list string)
    (r : gmap string (string * bool)) : gmap string (string * bool) :=
  filter (λ x : string * (string * bool), name x.2.1 ∉ removed) r.

Section upgrade.
Context `{Interfaces} (has_code : string → bool).
Context (name : string → string) (getName : string → outcome string).

(** The names of the facets to remove, where they are found. *)
Lemma facet_removals_run removed L :
  (∀ x, x ∈ L → getName x.1 = Done (name x.1)) →
  facet_removals getName removed L =
    Done (map remove_cut (map snd (filter (λ x : string * list string, name x.1 ∈ removed) L))).
Proof.
  induction L as [|[a l] L IH]; intros Hn; [done|]. cbn [facet_removals].
  pose proof (Hn (a, l) ltac:(left)) as Ha. cbn [fst] in Ha. rewrite Ha. cbn [mbind outcome_bind].
  rewrite IH by (intros x Hx; apply Hn; by right). cbn [mbind outcome_bind].
  rewrite filter_cons. cbn [fst]. by case_decide; [rewrite bool_decide_true|rewrite bool_decide_false].
Qed.

Lemma filter_getFacets (removed : list string) ds :
  map snd (filter (λ x : string * list string, name x.1 ∈ removed) (getFacets ds)) =
  map (λ a, facetSelectors (facet_info ds a)) (filter (λ a, name a ∈ removed) (dFacets ds)).
Proof.
  unfold getFacets. induction (dFacets ds) as [|a l IH]; [done|]. cbn [map]. rewrite !filter_cons. cbn [fst].
  case_decide; [|done]. cbn [map snd]. by f_equal.
Qed.

Lemma dFacets_NoDup ds : wf ds → NoDup (dFacets ds).
Proof.
  intros Hwf. apply NoDup_alt. intros p q a Hp Hq.
  destruct (wf_list _ _ Hwf p a Hp) as (_ & f & Hf & <- & _).
  destruct (wf_list _ _ Hwf q a Hq) as (_ & g & Hg & <- & _). congruence.
Qed.

(** The selectors of a listed facet are the ones routed to it. *)
Lemma facet_selectors_route ds a s :
  wf ds → s ∈ facetSelectors (facet_info ds a) ↔ ∃ b, route ds !! s = Some (a, b).
Proof.
  intros Hwf. split.
  - intros [p Hp]%list_elem_of_lookup. unfold facet_info in Hp.
    destruct (facetToSelectors ds !! a) as [f|] eqn:Ef; [|done].
    destruct (wf_facet _ _ Hwf a f p s Ef Hp) as (i & Hi & <- & _).
    rewrite (route_lookup _ _ _ Hi). eauto.
  - intros [b (i & Hi & <- & _)%route_lookup_inv]. destruct (wf_selector _ _ Hwf s i Hi) as (_ & _ & f & Hf & Hl).
    rewrite (facet_info_Some _ _ _ Hf). by eapply list_elem_of_lookup_2.
Qed.

Lemma routed_listed ds s a b : wf ds → route ds !! s = Some (a, b) → a ∈ dFacets ds.
Proof.
  intros Hwf (i & Hi & <- & _)%route_lookup_inv. destruct (wf_selector _ _ Hwf s i Hi) as (_ & _ & f & Hf & Hl).
  eapply list_elem_of_lookup_2, (wf_listed _ _ Hwf _ _ Hf). left. intros E. by rewrite E in Hl.
Qed.

(** Removing the facets with these names leaves the other routes. *)
Lemma removals_routes (removed : list string) ds :
  wf ds →
  let L := map (λ a, facetSelectors (facet_info ds a)) (filter (λ a, name a ∈ removed) (dFacets ds)) in
  NoDup (mjoin L) ∧ Forall (λ l, l ≠ []) L ∧ (∀ s, s ∈ mjoin L → is_Some (route ds !! s)) ∧
  drop_routes (mjoin L) (route ds) = kept_routes name removed (route ds).
Proof.
  intros Hwf L. set (F := filter (λ a, name a ∈ removed) (dFacets ds)) in *.
  assert (HL : mjoin L = F ≫= λ a, facetSelectors (facet_info ds a)).
  { unfold L. induction F as [|a F IH]; [done|]. cbn. by rewrite <- IH. }
  assert (Hin : ∀ s, s ∈ mjoin L ↔ ∃ a b, route ds !! s = Some (a, b) ∧ name a ∈ removed).
  { intros s. rewrite HL, list_elem_of_bind. setoid_rewrite (facet_selectors_route ds _ _ Hwf).
    unfold F. setoid_rewrite list_elem_of_filter. split; [naive_solver|].
    intros (a & b & Hs & Hn). exists a. split; [eauto|]. split; [done|]. by eapply routed_listed. }
  split_and!.
  - rewrite HL. apply NoDup_bind.
    + intros a1 a2 s _ _ [b1 H1]%facet_selectors_route [b2 H2]%facet_selectors_route; [congruence|done..].
    + intros a _. apply NoDup_alt. intros p q s Hp Hq. unfold facet_info in *.
      destruct (facetToSelectors ds !! a) as [f|] eqn:Ef; [|done].
      destruct (wf_facet _ _ Hwf a f p s Ef Hp) as (i & Hi & _ & <-).
      destruct (wf_facet _ _ Hwf a f q s Ef Hq) as (j & Hj & _ & <-). congruence.
    + apply NoDup_filter. by apply dFacets_NoDup.
  - apply Forall_fmap, Forall_forall. intros a [_ [p Hp]%list_elem_of_lookup]%list_elem_of_filter.
    destruct (wf_list _ _ Hwf p a Hp) as (_ & f & Hf & _ & [?|?]); [|done]. cbn.
    by rewrite (facet_info_Some _ _ _ Hf).
  - intros s (a & b & Hs & _)%Hin. eauto.
  - apply map_eq. intros s. rewrite drop_routes_lookup. unfold kept_routes.
    destruct (route ds !! s) as [[a b]|] eqn:Hs.
    + destruct (decide (name a ∈ removed)) as [Hn|Hn].
      * rewrite bool_decide_true by (apply Hin; eauto). symmetry. apply map_lookup_filter_None.
        right. intros x Hx. assert (x = (a, b)) as -> by congruence. cbn. naive_solver.
      * rewrite bool_decide_false by (intros (a' & b' & ? & ?)%Hin; congruence).
        symmetry. by apply map_lookup_filter_Some.
    + case_bool_decide; symmetry; apply map_lookup_filter_None; by left.
Qed.

Lemma fold_res_app {A B} (f : A → B → res B) l1 l2 b b' :
  fold_res f l1 b = inr b' → fold_res f (l1 ++ l2) b = fold_res f l2 b'.
Proof.
  revert b. induction l1 as [|x l1 IH]; intros b; cbn [fold_res app].
  - by intros [= ->].
  - destruct (f x b) as [|b1]; [done|]. apply IH.
Qed.

(** C14: An upgrade works.  Let the deployed diamond be consistent and name its
    facets; the cut list that [getFacetCutsForUpgrade] computes, removals first,
    is then accepted by [diamondCut] whenever the new facets have code, fresh
    addresses and selectors that clash neither with each other nor with the
    facets that stay.  Afterwards every selector of a new facet leads to it with
    the freezability asked for, the facets named for removal have no selector
    left, and all other routes are as before. *)
Theorem upgrade_cut_installs ds ad ge ma ex names new :
  has_code AddressZero = false → wf ds →
  (∀ a, a ∈ dFacets ds → getName a = Done (name a)) →
  getCurrentFacetCutsForAdd ad ge ma ex = Done new →
  let removed := js_coalesce names (new.*1) in
  addable has_code (new.*2) (kept_routes name removed (route ds)) →
  ∃ cuts ds',
    getFacetCutsForUpgrade (Done (getFacets ds)) getName ad ge ma ex names = Done cuts ∧
    diamondCut_facets has_code cuts ds = inr ds' ∧ wf ds' ∧
    ∀ s, (∀ c, c ∈ new.*2 → s ∈ selectors c → route ds' !! s = Some (facet c, isFreezable c)) ∧
         (s ∉ new.*2 ≫= selectors → route ds' !! s = kept_routes name removed (route ds) !! s).
Proof.
  intros Hz Hwf Hn Hnew removed Hadd.
  destruct (removals_routes removed ds Hwf) as (Hnd & Hne & Hr & Hkept).
  destruct (removals_total has_code _ ds Hwf Hnd Hne Hr) as (ds1 & E1 & Hwf1 & Er1).
  rewrite Hkept in Er1. rewrite <- Er1 in Hadd |- *.
  destruct (additions_total has_code Hz (new.*2) ds1 Hwf1 Hadd) as (ds2 & E2 & Hwf2 & Hr2).
  eexists _, ds2. split_and!; [|exact (eq_trans (fold_res_app _ _ _ _ _ E1) E2)|done|done].
  unfold getFacetCutsForUpgrade. rewrite Hnew. cbn [mbind outcome_bind].
  unfold getDeployedFacetCutsForRemove. cbn [mbind outcome_bind]. fold removed.
  rewrite facet_removals_run.
  - cbn [mbind outcome_bind]. by rewrite filter_getFacets.
  - intros x (a & -> & Ha)%list_elem_of_fmap. by apply Hn.
Qed.

End upgrade.

(** C10: [diamondCut] keeps the two-way index of the diamond consistent and does
    to the routes exactly what the cuts say: an added or replaced selector leads to
    the facet of its cut, a removed one nowhere, in the order of the list.  It may
    refuse a cut, but no array access of a consistent diamond is out of bounds. *)
Theorem diamondCut_keeps_index has_code cuts ds :
  has_code AddressZero = false → wf ds →
  match diamondCut_facets has_code cuts ds with
  | inr ds' => wf ds' ∧ route ds' = foldl route_cut (route ds) cuts
  | inl e => e ≠ ArrayPanic
  end.
Proof. intros Hz Hwf. exact (ok_cuts has_code Hz cuts ds Hwf). Qed.

(** The facets for a new chain are added with the freezability the comments
    ask for: the admin and the getters facet never freezable, the mailbox and the
    executor facet freezable; each at its own address, and without the selector of
    [getName()]. *)
Theorem facet_cuts_freezability `{Interfaces} ad ge ma ex new :
  getCurrentFacetCutsForAdd ad ge ma ex = Done new →
  Forall (λ '(n, c), action c = Add ∧
    (n = "AdminFacet" ∧ isFreezable c = false ∧ ad = Some (facet c) ∨
     n = "GettersFacet" ∧ isFreezable c = false ∧ ge = Some (facet c) ∨
     n = "MailboxFacet" ∧ isFreezable c = true ∧ ma = Some (facet c) ∨
     n = "ExecutorFacet" ∧ isFreezable c = true ∧ ex = Some (facet c)) ∧
    ∃ fs, iface_functions n = Some fs ∧
      selectors c = map getSighash (filter (λ g, g ≠ "getName()") fs)) new.
Proof.
  assert (Hadd : ∀ n o b cuts cuts' (P : string * FacetCut → Prop),
    add_facet n o b cuts = Done cuts' → Forall P cuts →
    (∀ a fs, o = Some a → iface_functions n = Some fs → P (n, facetCut a fs Add b)) → Forall P cuts').
  { intros n o b cuts cuts' P E Hc HP. unfold add_facet in E.
    destruct o as [[|x a]|]; cbn [str_truthy] in E; try (by injection E as <-).
    destruct (iface_functions n) as [fs|] eqn:Ef; cbn in E; [|done]. injection E as <-.
    apply Forall_app. split; [done|]. apply Forall_singleton. by apply HP. }
  intros E. unfold getCurrentFacetCutsForAdd in E.
  apply outcome_bind_inv in E as (c1 & E1 & E). apply outcome_bind_inv in E as (c2 & E2 & E).
  apply outcome_bind_inv in E as (c3 & E3 & E).
  eapply Hadd; [exact E| |]; [eapply Hadd; [exact E3| |]; [eapply Hadd; [exact E2| |];
    [eapply Hadd; [exact E1|done|]|]|]|];
    intros a fs -> Hfs; (split; [done|]); (split; [cbn; naive_solver|eauto]).
Qed.

(** ** A concrete upgrade *)

Definition sample_interfaces : Interfaces := {|
  iface_functions := λ n,
    if String.eqb n "AdminFacet" then Some ["getName()"; "freeze()"; "upgrade()"]
    else if String.eqb n "GettersFacet" then Some ["getName()"; "facets()"]
    else None;
  getSighash := λ s, s;
|}.
Definition sample_code (a : string) : bool := bool_decide (a ∈ ["0xa1"; "0xa2"; "0xb1"; "0xb2"]).
Definition sample_name (a : string) : string :=
  if bool_decide (a ∈ ["0xa1"; "0xb1"]) then "AdminFacet" else "GettersFacet".
Definition initial_cuts : list FacetCut :=
  [mkFacetCut "0xa1" ["freeze()"; "unfreeze()"] Add false; mkFacetCut "0xa2" ["facets()"] Add false].
Definition sample_diamond : DiamondStorage :=
  match diamondCut_facets sample_code initial_cuts empty_diamond with
  | inr ds => ds
  | inl _ => empty_diamond
  end.
Definition new_admin : list (string * FacetCut) :=
  [("AdminFacet", mkFacetCut "0xb1" ["freeze()"; "upgrade()"] Add false)].

Lemma sample_diamond_wf : wf sample_diamond.
Proof.
  pose proof (ok_cuts sample_code eq_refl initial_cuts empty_diamond wf_empty) as H.
  unfold sample_diamond. by destruct (diamondCut_facets _ _ _); [apply wf_empty|destruct H].
Qed.

Lemma diamondCut_keeps_index_witness : wf sample_diamond.
Proof.
  pose proof (diamondCut_keeps_index sample_code initial_cuts empty_diamond eq_refl wf_empty) as H.
  unfold sample_diamond. destruct (diamondCut_facets _ _ _); [apply wf_empty|exact (proj1 H)].
Defined.

Lemma facet_cuts_freezability_witness :
  @getCurrentFacetCutsForAdd sample_interfaces (Some "0xb1") None None None = Done new_admin ∧
  Forall (λ x : string * FacetCut, isFreezable x.2 = false) new_admin.
Proof.
  assert (E : @getCurrentFacetCutsForAdd sample_interfaces (Some "0xb1") None None None = Done new_admin)
    by reflexivity.
  split; [exact E|].
  apply (Forall_impl _ _ _ (@facet_cuts_freezability sample_interfaces (Some "0xb1") None None None
    new_admin E)).
  intros [n c] (_ & [(_ & Hf & _)|[(_ & Hf & _)|[(_ & _ & [=])|(_ & _ & [=])]]] & _); exact Hf.
Defined.

Lemma upgrade_cut_installs_witness :
  ∃ cuts ds', @getFacetCutsForUpgrade sample_interfaces (Done (getFacets sample_diamond))
      (λ a, Done (sample_name a)) (Some "0xb1") None None None None = Done cuts ∧
    diamondCut_facets sample_code cuts sample_diamond = inr ds' ∧
    route ds' !! "unfreeze()" = None ∧ route ds' !! "upgrade()" = Some ("0xb1", false).
Proof.
  destruct (@upgrade_cut_installs sample_interfaces sample_code sample_name (λ a, Done (sample_name a))
    sample_diamond (Some "0xb1") None None None None new_admin) as (cuts & ds' & E1 & E2 & _ & Hr).
  - reflexivity.
  - apply sample_diamond_wf.
  - reflexivity.
  - reflexivity.
  - assert (K : kept_routes sample_name (js_coalesce None (new_admin.*1)) (route sample_diamond) =
      {["facets()" := ("0xa2", false)]}) by (vm_compute; reflexivity).
    rewrite K. constructor.
    + repeat constructor; (reflexivity || discriminate).
    + apply (bool_decide_unpack _). vm_compute. exact I.
    + apply (bool_decide_unpack _). vm_compute. exact I.
    + intros c s b Hc%list_elem_of_singleton [_ E]%lookup_singleton_Some. subst c. discriminate E.
    + intros s Hs. apply lookup_singleton_None. intros <-.
      change (new_admin.*2 ≫= selectors) with ["freeze()"; "upgrade()"] in Hs.
      set_unfold in Hs. destruct Hs as [Hs|[Hs|[]]]; discriminate Hs.
    + vm_compute. reflexivity.
  - exists cuts, ds'. split; [exact E1|]. split; [exact E2|]. split.
    + rewrite (proj2 (Hr "unfreeze()")); [vm_compute; reflexivity|].
      change (new_admin.*2 ≫= selectors) with ["freeze()"; "upgrade()"].
      intros Hs. set_unfold in Hs. destruct Hs as [Hs|[Hs|[]]]; discriminate Hs.
    + apply (proj1 (Hr "upgrade()") (mkFacetCut "0xb1" ["freeze()"; "upgrade()"] Add false));
        [left|right; left].
Defined.
