(* ===== verification/Utils.v ===== *)
(** * Helpers of the deployment scripts
      ([l1-contracts/src.ts/utils.ts] and [l1-contracts/scripts/utils.ts])

    Bytecode hashes and CREATE2 addresses of the L2, the L1-to-L2 address
    alias, asset ids, the readers of environment variables, the initial
    diamond cut of a chain and the packed semantic versions. *)

From stdpp Require Import base gmap list strings pretty.
From Stdlib Require Import ZArith Lia Ascii Strings.Byte.
From S2P Require Import Prelude Js Ethers DiamondCut.

Definition SYSTEM_UPGRADE_L2_TX_TYPE : Z := 254.
Definition ADDRESS_ONE : string := "0x0000000000000000000000000000000000000001".
Definition ETH_ADDRESS_IN_CONTRACTS : string := ADDRESS_ONE.
Definition L1_TO_L2_ALIAS_OFFSET : string := "0x1111000000000000000000000000000000001111".
Definition L2_BRIDGEHUB_ADDRESS : string := "0x0000000000000000000000000000000000010002".
Definition L2_ASSET_ROUTER_ADDRESS : string := "0x0000000000000000000000000000000000010003".
Definition L2_NATIVE_TOKEN_VAULT_ADDRESS : string := "0x0000000000000000000000000000000000010004".
Definition L2_MESSAGE_ROOT_ADDRESS : string := "0x0000000000000000000000000000000000010005".
Definition DEPLOYER_SYSTEM_CONTRACT_ADDRESS : string := "0x0000000000000000000000000000000000008006".
Definition HashZero : string := "0x0000000000000000000000000000000000000000000000000000000000000000".
Definition ADDRESS_MODULO : Z := 2 ^ 160.

(** [process.env] *)
Notation environ := (gmap string string).

Definition invalid_hex : js_error := EthersError "INVALID_ARGUMENT".

(** ** Hashes, aliases and addresses *)

Section crypto.
Context `{EthersOps}.

(** [solidityKeccak256(["string"], ["zksyncCreate2"])]: the hash of the UTF-8 bytes. *)
Definition CREATE2_PREFIX : bytes :=
  keccak (byte_of <$> [122; 107; 115; 121; 110; 99; 67; 114; 101; 97; 116; 101; 50]).

Definition applyL1ToL2Alias (address : string) : outcome string :=
  a ← or_throw invalid_hex (bignum_from address);
  offset ← or_throw invalid_hex (bignum_from L1_TO_L2_ALIAS_OFFSET);
  mret (bignum_hex ((a + offset) mod ADDRESS_MODULO)).

Definition hashL2Bytecode (bytecode : string) : outcome bytes :=
  bytecodeAsArray ← or_throw invalid_hex (arrayify bytecode);
  if negb (Z.of_nat (length bytecodeAsArray) mod 32 =? 0) then
    Throw (JsError "The bytecode length in bytes must be divisible by 32")
  else
    let hash := sha256 bytecodeAsArray in
    let bytecodeLengthInWords := Z.of_nat (length bytecodeAsArray) / 32 in
    if bytecodeLengthInWords mod 2 =? 0 then
      Throw (JsError "Bytecode length in 32-byte words must be odd")
    else
      let bytecodeLength := number_bytes (Z.of_nat (length bytecodeAsArray) / 32) in
      if (2 <? length bytecodeLength)%nat then
        Throw (JsError "Bytecode length must be less than 2^16 bytes")
      else
        bytecodeLengthPadded ← or_throw invalid_hex (zeroPad bytecodeLength 2);
        let codeHashVersion := [x01; x00] in
        hash ← typed_set hash codeHashVersion 0;
        typed_set hash bytecodeLengthPadded 2.

Definition computeL2Create2Address (deployWallet bytecode constructorInput create2Salt : string)
  : outcome string :=
  senderBytes ← or_throw invalid_hex (hexZeroPad deployWallet 32);
  bytecodeHash ← hashL2Bytecode bytecode;
  input ← or_throw invalid_hex (arrayify constructorInput);
  let constructorInputHash := keccak input in
  sender ← or_throw invalid_hex (arrayify senderBytes);
  salt ← or_throw invalid_hex (arrayify create2Salt);
  let data := keccak (CREATE2_PREFIX ++ sender ++ salt ++ bytecodeHash ++ constructorInputHash) in
  mret (hexlify (drop 12 data)).

Definition encodeNTVAssetId (chainId : Z) (tokenAddress : string) : outcome string :=
  token ← or_throw invalid_hex (hexZeroPad tokenAddress 32);
  enc ← or_throw invalid_hex
    (abi_encode ["uint256"; "address"; "bytes32"]
       [VNum chainId; VStr L2_NATIVE_TOKEN_VAULT_ADDRESS; VStr token]);
  data ← or_throw invalid_hex (arrayify enc);
  mret (hexlify (keccak data)).

(** [ethers.utils.hexConcat(items)] *)
Definition hexConcat (items : list string) : outcome string :=
  bs ← or_throw invalid_hex (mapM arrayify items); mret (hexlify (concat bs)).

End crypto.

(** ** Environment *)

Section env.
Variable env : environ.

Definition getAddressFromEnv (envName : string) : outcome string :=
  let address := env !! envName in
  if negb (hex_regex 40 address) then
    Throw (JsError ("Incorrect address format hash in " +:+ envName +:+ " env: " +:+ js_show address))
  else mret (default "" address).

Definition getHashFromEnv (envName : string) : outcome string :=
  let hash := env !! envName in
  if negb (hex_regex 64 hash) then
    Throw (JsError ("Incorrect hash format hash in " +:+ envName +:+ " env: " +:+ js_show hash))
  else mret (default "" hash).

Definition getNumberFromEnv (envName : string) : outcome string :=
  let number := env !! envName in
  if negb (number_regex number) then
    Throw (JsError ("Incorrect number format number in " +:+ envName +:+ " env: " +:+ js_show number))
  else mret (default "" number).

Definition isZKMode : bool := bool_decide (env !! "CONTRACTS_BASE_NETWORK_ZKSYNC" = Some "true").

Definition LOCAL_NETWORKS : list string := ["localhost"; "hardhat"; "localhostL2"].

Definition isCurrentNetworkLocal : bool :=
  match env !! "CHAIN_ETH_NETWORK" with
  | Some n => bool_decide (n ∈ LOCAL_NETWORKS)
  | None => false
  end.

(** [process.env.ETH_CLIENT_WEB3_URL.split(",")[0]] *)
Definition web3Url : outcome string :=
  url ← or_throw (JsTypeError "Cannot read properties of undefined (reading 'split')")
          (env !! "ETH_CLIENT_WEB3_URL");
  mret (default "" (head (js_split ","%char url))).

End env.

(** ** The initial diamond cut of a chain *)

Record VerifierParams : Type := mkVerifierParams {
  recursionNodeLevelVkHash : string;
  recursionLeafLevelVkHash : string;
  recursionCircuitsSetVksHash : string;
}.

(** [SYSTEM_CONFIG], read from a JSON file that is not part of the sources. *)
Record SystemConfig : Type := mkSystemConfig {
  requiredL2GasPricePerPubdata : Z;
  priorityTxMinimalGasPrice : Z;
  priorityTxMaxGasPerBatch : Z;
  priorityTxPubdataPerBatch : Z;
  priorityTxBatchOverheadL1Gas : Z;
  priorityTxMaxPubdata : Z;
}.

Definition EXPECTED_FACET_CUTS : nat := 4.
Definition EXPECTED_PRIORITY_TX_MAX_GAS_LIMIT : Z := 72000000.

(** One guard [if (cond) throw new Error(msg)]. *)
Definition throw_if (cond : bool) (msg : string) : outcome unit :=
  if cond then Throw (JsError msg) else mret tt.

Definition checkValidInitialCutHashParams (cuts : list FacetCut) (params : VerifierParams)
    (l2BootloaderBytecodeHash l2DefaultAccountBytecodeHash l2EvmEmulatorBytecodeHash
     verifier : string) (priorityTxMaxGasLimit : Z) : outcome unit :=
  throw_if (negb (length cuts =? EXPECTED_FACET_CUTS)%nat)
    ("Expected 4 facet cuts, got " +:+ pretty (length cuts));;
  throw_if (bool_decide (recursionNodeLevelVkHash params = HashZero))
    "Recursion node level vk hash is zero";;
  throw_if (bool_decide (recursionLeafLevelVkHash params = HashZero))
    "Recursion leaf level vk hash is zero";;
  throw_if (negb (bool_decide (recursionCircuitsSetVksHash params = HashZero)))
    "Recursion circuits set vks hash must be zero";;
  throw_if (bool_decide (l2BootloaderBytecodeHash = HashZero)) "L2 bootloader bytecode hash is zero";;
  throw_if (bool_decide (l2DefaultAccountBytecodeHash = HashZero))
    "L2 default account bytecode hash is zero";;
  throw_if (bool_decide (l2EvmEmulatorBytecodeHash = HashZero)) "L2 evm emulator bytecode hash is zero";;
  throw_if (bool_decide (verifier = AddressZero)) "Verifier address is zero";;
  throw_if (negb (priorityTxMaxGasLimit =? EXPECTED_PRIORITY_TX_MAX_GAS_LIMIT))
    ("Expected priority tx max gas limit to be 72000000, got " +:+ pretty priorityTxMaxGasLimit).

(** The eight fields the chain type manager fills in. *)
Definition placeholder_fields : list (string * val) :=
  [ ("chainId", VStr "0x0000000000000000000000000000000000000000000000000000000000000001");
    ("bridgehub", VStr "0x0000000000000000000000000000000000001234");
    ("chainTypeManager", VStr "0x0000000000000000000000000000000000002234");
    ("protocolVersion", VStr "0x0000000000000000000000000000000000002234");
    ("admin", VStr "0x0000000000000000000000000000000000003234");
    ("validatorTimelock", VStr "0x0000000000000000000000000000000000004234");
    ("baseTokenAssetId", VStr "0x0000000000000000000000000000000000000000000000000000000000004234");
    ("storedBatchZero", VStr "0x0000000000000000000000000000000000000000000000000000000000005432") ].

(** The fields given by the deployment. *)
Definition chain_fields (cfg : SystemConfig) (params : VerifierParams)
    (l2BootloaderBytecodeHash l2DefaultAccountBytecodeHash l2EvmEmulatorBytecodeHash
     verifier : string) (priorityTxMaxGasLimit : Z) : list (string * val) :=
  [ ("verifier", VStr verifier);
    ("verifierParams", VObj
       [ ("recursionNodeLevelVkHash", VStr (recursionNodeLevelVkHash params));
         ("recursionLeafLevelVkHash", VStr (recursionLeafLevelVkHash params));
         ("recursionCircuitsSetVksHash", VStr (recursionCircuitsSetVksHash params)) ]);
    ("l2BootloaderBytecodeHash", VStr l2BootloaderBytecodeHash);
    ("l2DefaultAccountBytecodeHash", VStr l2DefaultAccountBytecodeHash);
    ("l2EvmEmulatorBytecodeHash", VStr l2EvmEmulatorBytecodeHash);
    ("priorityTxMaxGasLimit", VNum priorityTxMaxGasLimit);
    ("feeParams", VObj
       [ ("pubdataPricingMode", VNum 0);
         ("batchOverheadL1Gas", VNum (priorityTxBatchOverheadL1Gas cfg));
         ("maxPubdataPerBatch", VNum (priorityTxPubdataPerBatch cfg));
         ("priorityTxMaxPubdata", VNum (priorityTxMaxPubdata cfg));
         ("maxL2GasPerBatch", VNum (priorityTxMaxGasPerBatch cfg));
         ("minimalL2GasPrice", VNum (priorityTxMinimalGasPrice cfg)) ]) ].

Definition compileInitialCutHash `{EthersOps} (cfg : SystemConfig) (cuts : list FacetCut)
    (params : VerifierParams)
    (l2BootloaderBytecodeHash l2DefaultAccountBytecodeHash l2EvmEmulatorBytecodeHash
     verifier : string) (priorityTxMaxGasLimit : Z) (diamondInit : string) (strictMode : bool)
  : outcome DiamondCut :=
  (if strictMode then
     checkValidInitialCutHashParams cuts params l2BootloaderBytecodeHash
       l2DefaultAccountBytecodeHash l2EvmEmulatorBytecodeHash verifier priorityTxMaxGasLimit
   else mret tt);;
  diamondInitCalldata ← or_throw invalid_hex
    (encodeFunctionData "DiamondInit" "initialize"
       [VObj (placeholder_fields ++
              chain_fields cfg params l2BootloaderBytecodeHash l2DefaultAccountBytecodeHash
                l2EvmEmulatorBytecodeHash verifier priorityTxMaxGasLimit)]);
  mret (diamondCut cuts diamondInit ("0x" +:+ js_slice (2 + (4 + 8 * 32) * 2) diamondInitCalldata)).

(** What [ChainTypeManager._deployNewChain] reads of the contract: addresses are
    20 bytes, words 32. *)
Record ChainTypeManager := mkChainTypeManager {
  BRIDGE_HUB : bytes;
  ctm_this : bytes;
  protocolVersion : Z;
  validatorTimelockPostV29 : bytes;
  storedBatchZero : bytes;
}.

(** [bytes32(uint256(uint160(a)))] *)
Definition address_word (a : bytes) : bytes := replicate (32 - length a) x00 ++ a.

(** [ChainTypeManager._deployNewChain]: the calldata handed to [DiamondInit],
    with the eight mandatory words written before the cut's own calldata. *)
Definition ctm_init_data `{EthersOps} (ctm : ChainTypeManager) (_chainId : Z) (_baseTokenAssetId _admin : bytes)
    (cut : DiamondCut) : option bytes :=
  rest ← parse_hex (initCalldata cut);
  Some (selector "DiamondInit" "initialize" ++
    concat [ be_enc 32 _chainId; address_word (BRIDGE_HUB ctm); address_word (ctm_this ctm);
             be_enc 32 (protocolVersion ctm); address_word _admin; address_word (validatorTimelockPostV29 ctm);
             _baseTokenAssetId; storedBatchZero ctm ] ++ rest).

(** The widths of the values in Solidity. *)
Record ctm_widths (ctm : ChainTypeManager) (chainId : Z) (assetId admin : bytes) : Prop := {
  width_chainId : 0 ≤ chainId < 2 ^ 256;
  width_hub : length (BRIDGE_HUB ctm) = 20%nat;
  width_this : length (ctm_this ctm) = 20%nat;
  width_version : 0 ≤ protocolVersion ctm < 2 ^ 256;
  width_admin : length admin = 20%nat;
  width_timelock : length (validatorTimelockPostV29 ctm) = 20%nat;
  width_asset : length assetId = 32%nat;
  width_zero : length (storedBatchZero ctm) = 32%nat;
}.

(** The same values as the fields of [InitializeData] they are meant for. *)
Definition mandatory_fields `{EthersOps} (ctm : ChainTypeManager) (chainId : Z) (assetId admin : bytes)
  : list (string * val) :=
  [ ("chainId", VNum chainId); ("bridgehub", VStr (hexlify (BRIDGE_HUB ctm)));
    ("chainTypeManager", VStr (hexlify (ctm_this ctm))); ("protocolVersion", VNum (protocolVersion ctm));
    ("admin", VStr (hexlify admin)); ("validatorTimelock", VStr (hexlify (validatorTimelockPostV29 ctm)));
    ("baseTokenAssetId", VStr (hexlify assetId)); ("storedBatchZero", VStr (hexlify (storedBatchZero ctm))) ].

(** ** Semantic versions *)

Definition SEMVER_MINOR_VERSION_MULTIPLIER : Z := 4294967296.

Definition unpackStringSemVer (semver : string) : jsnum * jsnum * jsnum :=
  let parts := js_split "."%char semver in
  (js_parseInt (parts !! 0%nat), js_parseInt (parts !! 1%nat), js_parseInt (parts !! 2%nat)).

Definition unpackNumberSemVer (semver : Z) : Z * Z * Z :=
  (0, semver / SEMVER_MINOR_VERSION_MULTIPLIER, semver mod SEMVER_MINOR_VERSION_MULTIPLIER).

(** [NaN !== 0] holds, so a missing major version throws too. *)
Definition packSemver (major minor patch : jsnum) : outcome jsnum :=
  if negb (bool_decide (major = Some 0)) then Throw (JsError "Major version must be 0")
  else mret (num_add (num_mul minor (Some SEMVER_MINOR_VERSION_MULTIPLIER)) patch).

Definition addToProtocolVersion (packedProtocolVersion minor patch : Z) : outcome jsnum :=
  let '(major, minorVersion, patchVersion) := unpackNumberSemVer packedProtocolVersion in
  packSemver (Some major) (Some (minorVersion + minor)) (Some (patchVersion + patch)).

(** ** Reference notions *)

(** Byte lengths a zkSync bytecode may have: an odd number of words below 2^16. *)
Definition valid_bytecode_length (n : Z) : Prop := n mod 64 = 32 ∧ n / 32 < 2 ^ 16.

(** What strict mode demands of the parameters of the initial cut. *)
Definition strict_params (cuts : list FacetCut) (params : VerifierParams)
    (boot acc emu verifier : string) (gas : Z) : Prop :=
  length cuts = EXPECTED_FACET_CUTS ∧
  recursionNodeLevelVkHash params ≠ HashZero ∧ recursionLeafLevelVkHash params ≠ HashZero ∧
  recursionCircuitsSetVksHash params = HashZero ∧
  boot ≠ HashZero ∧ acc ≠ HashZero ∧ emu ≠ HashZero ∧ verifier ≠ AddressZero ∧
  gas = EXPECTED_PRIORITY_TX_MAX_GAS_LIMIT.

(** ** Lemmas *)

Lemma hex_regex_inv n s :
  hex_regex n (Some s) = true →
  ∃ d, s = "0x" +:+ d ∧ String.length d = n ∧ str_forallb is_hex_digit d = true.
Proof.
  unfold hex_regex. cbn [js_show]. intros Hr. repeat case_hyp Hr; try done. subst.
  apply andb_prop in Hr as [Hl Hd]. apply Nat.eqb_eq in Hl. by eexists.
Qed.

Lemma hex_regex_parse n s :
  hex_regex (2 * n) (Some s) = true → ∃ b, parse_hex s = Some b ∧ length b = n.
Proof. intros (d & -> & Hl & Hd)%hex_regex_inv. by apply parse_digits_total. Qed.

Lemma hex_regex_of_parse n s b :
  parse_hex s = Some b → length b = n → hex_regex (2 * n) (Some s) = true.
Proof.
  unfold parse_hex, hex_regex. cbn [js_show]. intros Hp Hl. repeat case_hyp Hp; try done.
  apply parse_digits_length in Hp as [H1 H2]. by rewrite H1, H2, Hl, Nat.eqb_refl.
Qed.

(** Accepted strings have one length. *)
Lemma hex_regex_length n s : hex_regex n (Some s) = true → String.length s = (n + 2)%nat.
Proof. intros (d & -> & Hl & Hd)%hex_regex_inv. rewrite str_length_app. cbn. lia. Qed.

Lemma env_reader_inv {msg} (env : environ) (test : option string → bool) name v :
  test None = false →
  (if negb (test (env !! name)) then Throw (msg (env !! name)) else mret (default "" (env !! name)))
    = Done v ↔ env !! name = Some v ∧ test (Some v) = true.
Proof.
  intros Hn. destruct (env !! name) as [s|] eqn:E; cbn.
  - destruct (test (Some s)) eqn:T; cbn; split; intros Hd.
    + injection Hd as <-. done.
    + destruct Hd as [Hd _]. by injection Hd as <-.
    + done.
    + destruct Hd as [Hd Ht]. injection Hd as <-. congruence.
  - rewrite Hn. cbn. split; [done|]. by intros [? _].
Qed.

Section crypto_lemmas.
Context `{EthersLaws}.

Lemma zeroPad_number (n : Z) :
  0 ≤ n < 2 ^ 16 → zeroPad (number_bytes n) 2 = Some (be_enc 2 n).
Proof.
  intros Hn. assert (Hlen : (length (number_bytes n) ≤ 2)%nat)
    by (apply number_bytes_length; lia).
  rewrite zeroPad_spec by done. f_equal. apply be_val_inj.
  - rewrite length_app, length_replicate, be_enc_length. lia.
  - rewrite be_val_pad, number_bytes_spec, be_val_min, be_val_enc by lia.
    rewrite Z.mod_small; [done|]. change (256 ^ Z.of_nat 2) with (2 ^ 16). lia.
Qed.

(** Writing the version and the length over a 32-byte hash. *)
Lemma typed_set_header (h len : bytes) :
  length h = 32%nat → length len = 2%nat →
  (h' ← typed_set h [x01; x00] 0; typed_set h' len 2) = Done (x01 :: x00 :: len ++ drop 4 h).
Proof.
  intros Hh Hl. rewrite typed_set_fits by (cbn; lia).
  rewrite take_0. cbn [length app Nat.add mbind outcome_bind].
  rewrite typed_set_fits by (cbn [length]; rewrite length_drop; lia).
  rewrite Hl. cbn [firstn app Nat.add]. do 2 f_equal. cbn [skipn]. by rewrite drop_drop.
Qed.

Lemma hashL2Bytecode_valid s b :
  parse_hex s = Some b → valid_bytecode_length (Z.of_nat (length b)) →
  hashL2Bytecode s =
    Done (x01 :: x00 :: be_enc 2 (Z.of_nat (length b) / 32) ++ drop 4 (sha256 b)).
Proof.
  intros Hs [H64 Hw]. unfold hashL2Bytecode. rewrite arrayify_spec, Hs. cbn [or_throw mbind outcome_bind].
  set (n := Z.of_nat (length b)) in *.
  assert (Hm : n mod 32 = 0) by (Z.div_mod_to_equations; lia).
  assert (Ho : n / 32 mod 2 = 1) by (Z.div_mod_to_equations; lia).
  rewrite Hm, Ho. cbn [negb Z.eqb].
  assert (Hl : (length (number_bytes (n / 32)) ≤ 2)%nat)
    by (apply number_bytes_length; [|done]; Z.div_mod_to_equations; lia).
  rewrite (proj2 (Nat.ltb_ge _ _) Hl), zeroPad_number
    by (split; [apply Z.div_pos; lia | done]).
  cbn [or_throw mbind outcome_bind].
  apply typed_set_header; [apply sha256_length | apply be_enc_length].
Qed.

Lemma hashL2Bytecode_invalid s b :
  parse_hex s = Some b → Z.of_nat (length b) < 2 ^ 53 →
  ¬ valid_bytecode_length (Z.of_nat (length b)) →
  ∃ msg, hashL2Bytecode s = Throw (JsError msg).
Proof.
  intros Hs Hb Hv. unfold hashL2Bytecode. rewrite arrayify_spec, Hs. cbn [or_throw mbind outcome_bind].
  set (n := Z.of_nat (length b)) in *.
  destruct (n mod 32 =? 0) eqn:E1; cbn [negb]; [|by eexists].
  destruct (n / 32 mod 2 =? 0) eqn:E2; [by eexists|].
  destruct (2 <? length (number_bytes (n / 32)))%nat eqn:E3; [by eexists|].
  exfalso. apply Hv. apply Nat.ltb_ge in E3. apply number_bytes_length in E3;
    [|Z.div_mod_to_equations; lia]. split; [|done]. Z.div_mod_to_equations; lia.
Qed.

Lemma bignum_alias_offset : bignum_from L1_TO_L2_ALIAS_OFFSET = Some 0x1111000000000000000000000000000000001111.
Proof. erewrite bignum_from_spec; [| vm_compute; reflexivity | done]. by vm_compute. Qed.

Lemma alias_value s b :
  parse_hex s = Some b → b ≠ [] →
  applyL1ToL2Alias s =
    Done ("0x" +:+ hex_digits (be_min ((be_val b + 0x1111000000000000000000000000000000001111) mod 2 ^ 160))).
Proof.
  intros Hs Hb. unfold applyL1ToL2Alias.
  rewrite (bignum_from_spec s b Hs Hb), bignum_alias_offset. cbn [or_throw mbind outcome_bind].
  rewrite bignum_hex_spec; [done|]. apply Z.mod_pos_bound. done.
Qed.

Lemma vault_address_bytes :
  ∃ b, parse_hex L2_NATIVE_TOKEN_VAULT_ADDRESS = Some b ∧ length b = 20%nat.
Proof. eexists. split; [vm_compute; reflexivity | done]. Qed.

End crypto_lemmas.

(** The ABI word of a literal exists. *)
Ltac literal_word :=
  eexists; split; [vm_compute; reflexivity|];
  first [ erewrite abi_word_uint256_hex by (vm_compute; first [reflexivity | discriminate | lia])
        | erewrite abi_word_address by (vm_compute; reflexivity)
        | erewrite abi_word_bytes32 by (vm_compute; reflexivity) ];
  by eexists.

Section cut_lemmas.
Context `{EthersLaws}.

Lemma placeholder_words :
  ∃ w, struct_words (take 8 InitializeData_fields) (VObj placeholder_fields) = Some w.
Proof.
  apply struct_words_total. cbn [take InitializeData_fields].
  repeat (constructor; [literal_word|]). constructor.
Qed.

Lemma head_fields_ext (hd tl : list (string * val)) :
  hd.*1 = placeholder_fields.*1 →
  struct_words (take 8 InitializeData_fields) (VObj (hd ++ tl)) =
  struct_words (take 8 InitializeData_fields) (VObj hd).
Proof.
  intros Hn. apply struct_words_ext. cbn [take InitializeData_fields].
  repeat constructor; cbn [fst]; apply vpath_app_l; rewrite Hn; set_solver.
Qed.

Lemma tail_fields_ext (hd tl : list (string * val)) :
  hd.*1 = placeholder_fields.*1 →
  struct_words (drop 8 InitializeData_fields) (VObj (hd ++ tl)) =
  struct_words (drop 8 InitializeData_fields) (VObj tl).
Proof.
  intros Hn. apply struct_words_ext. cbn [drop InitializeData_fields].
  repeat constructor; cbn [fst]; apply vpath_app_r; rewrite Hn; cbn; set_solver.
Qed.

(** The calldata of [initialize] for any eight head values. *)
Lemma initialize_calldata hd tl hw tw :
  struct_abi "DiamondInit" "initialize" = Some InitializeData_fields →
  hd.*1 = placeholder_fields.*1 →
  struct_words (take 8 InitializeData_fields) (VObj hd) = Some hw →
  struct_words (drop 8 InitializeData_fields) (VObj tl) = Some tw →
  encodeFunctionData "DiamondInit" "initialize" [VObj (hd ++ tl)] =
    Some (hexlify (selector "DiamondInit" "initialize" ++ hw ++ tw)).
Proof.
  intros Habi Hn Hh Ht. eapply encode_struct_call; [done|].
  rewrite <- (take_drop 8 InitializeData_fields).
  apply struct_words_app; [by rewrite head_fields_ext | by rewrite tail_fields_ext].
Qed.

(** The words the chain type manager writes are those of the fields. *)
Lemma mandatory_words ctm chainId assetId admin :
  ctm_widths ctm chainId assetId admin →
  struct_words (take 8 InitializeData_fields) (VObj (mandatory_fields ctm chainId assetId admin)) =
    Some (concat [ be_enc 32 chainId; address_word (BRIDGE_HUB ctm); address_word (ctm_this ctm);
                   be_enc 32 (protocolVersion ctm); address_word admin; address_word (validatorTimelockPostV29 ctm);
                   assetId; storedBatchZero ctm ]).
Proof.
  intros []. unfold struct_words. cbn [take InitializeData_fields].
  erewrite (proj2 (mapM_Some _ _ _)); [reflexivity|].
  assert (Ha : ∀ a, length a = 20%nat → abi_word "address" (VStr (hexlify a)) = Some (address_word a)).
  { intros a Hl. unfold address_word. rewrite Hl. by apply abi_word_address; [apply parse_hex_hexlify|]. }
  assert (Hb : ∀ a, length a = 32%nat → abi_word "bytes32" (VStr (hexlify a)) = Some a).
  { intros a Hl. by apply abi_word_bytes32; [apply parse_hex_hexlify|]. }
  repeat (constructor; [by (first [apply abi_word_uint256|apply Ha|apply Hb])|]). constructor.
Qed.

Lemma ctm_init_data_length ctm chainId assetId admin cut data :
  ctm_widths ctm chainId assetId admin → ctm_init_data ctm chainId assetId admin cut = Some data →
  ∃ rest, parse_hex (initCalldata cut) = Some rest ∧ length data = (4 + 8 * 32 + length rest)%nat.
Proof.
  intros Hw (rest & E & Hd)%bind_Some. exists rest. split; [done|]. apply Some_inj in Hd. subst data.
  pose proof (struct_words_length _ _ _ (mandatory_words _ _ _ _ Hw)) as Hl.
  rewrite !length_app, selector_length, Hl. cbn. lia.
Qed.

(** Dropping the selector and eight words from a calldata. *)
Lemma slice_calldata hw tw :
  length hw = 256%nat →
  "0x" +:+ js_slice (2 + (4 + 8 * 32) * 2)
    (hexlify (selector "DiamondInit" "initialize" ++ hw ++ tw)) = hexlify tw.
Proof.
  intros Hl. rewrite !hexlify_spec. f_equal. rewrite js_slice_slice, app_assoc.
  rewrite (js_slice_app "0x"). rewrite <- (js_slice_hex (selector "DiamondInit" "initialize" ++ hw) tw).
  f_equal. rewrite length_app, selector_length, Hl. done.
Qed.

End cut_lemmas.

Lemma throw_if_bind {A} cond msg (k : unit → outcome A) a :
  throw_if cond msg ≫= k = Done a ↔ cond = false ∧ k tt = Done a.
Proof. destruct cond; cbn; split; try done; by intros []. Qed.

Lemma strict_guards cuts params boot acc emu verifier gas (strict : bool) :
  (strict = true → strict_params cuts params boot acc emu verifier gas) →
  (if strict then checkValidInitialCutHashParams cuts params boot acc emu verifier gas
   else mret tt) = Done tt.
Proof.
  destruct strict; [|done]. intros Hs.
  destruct (Hs eq_refl) as (Hl & Hn1 & Hn2 & Hn3 & Hn4 & Hn5 & Hn6 & Hn7 & Hg).
  unfold checkValidInitialCutHashParams, throw_if. rewrite Hl, Hg.
  by repeat (rewrite ?bool_decide_true, ?bool_decide_false by done; cbn [negb mbind outcome_bind]).
Qed.

Lemma unpack_pack minor patch :
  0 ≤ patch < 2 ^ 32 → unpackNumberSemVer (minor * 2 ^ 32 + patch) = (0, minor, patch).
Proof.
  intros Hp. unfold unpackNumberSemVer, SEMVER_MINOR_VERSION_MULTIPLIER.
  f_equal; [f_equal|]; Z.div_mod_to_equations; lia.
Qed.

Lemma digits_no_dot s :
  str_forallb is_digit s = true → str_forallb (λ c, negb (bool_decide (c = "."%char))) s = true.
Proof.
  induction s as [|c s IH]; [done|]. cbn. intros [Hc Hs]%andb_prop. rewrite IH by done.
  rewrite bool_decide_false; [done|]. by intros ->.
Qed.

Lemma split_version a b c :
  str_forallb is_digit a = true → str_forallb is_digit b = true → str_forallb is_digit c = true →
  js_split "." (a +:+ "." +:+ b +:+ "." +:+ c) = [a; b; c].
Proof.
  intros Ha%digits_no_dot Hb%digits_no_dot Hc%digits_no_dot. cbn [String.append].
  by rewrite !js_split_word_cons, js_split_word.
Qed.

Lemma asset_id_value `{EthersLaws} chainId token bt vault :
  0 ≤ chainId < 2 ^ 256 → parse_hex token = Some bt → (length bt ≤ 32)%nat →
  parse_hex L2_NATIVE_TOKEN_VAULT_ADDRESS = Some vault → length vault = 20%nat →
  encodeNTVAssetId chainId token =
    Done (hexlify (keccak (be_enc 32 chainId ++ (replicate 12 x00 ++ vault) ++
                           (replicate (32 - length bt) x00 ++ bt)))).
Proof.
  intros Hc Ht Hl Hvault Hvl. unfold encodeNTVAssetId.
  destruct (hexZeroPad_spec token bt 32 Ht Hl) as (s' & -> & Hs'). cbn [or_throw mbind outcome_bind].
  assert (Hpl : length (replicate (32 - length bt) x00 ++ bt) = 32%nat)
    by (rewrite length_app, length_replicate; lia).
  rewrite (abi_encode_static _ _ (be_enc 32 chainId ++ (replicate 12 x00 ++ vault) ++
             (replicate (32 - length bt) x00 ++ bt))).
  - cbn [or_throw mbind outcome_bind]. by rewrite arrayify_hexlify.
  - done.
  - done.
  - unfold abi_words. cbn [zip zip_with mapM fst snd].
    rewrite abi_word_uint256, (abi_word_address _ _ Hvault Hvl), (abi_word_bytes32 _ _ Hs' Hpl) by done.
    cbn. by rewrite app_nil_r.
Qed.

(** ** Properties *)

Section properties.
Context `{EthersLaws}.

(** [hashL2Bytecode] returns exactly for byte strings of an odd number of
    32-byte words below 2^16, and then returns 32 bytes: version 1.0, the
    number of words in two big-endian bytes, and the last 28 bytes of the
    SHA-256 of the code; every other input is rejected with an error. *)
Theorem hashL2Bytecode_correct (s : string) (b : bytes) :
  parse_hex s = Some b → Z.of_nat (length b) < 2 ^ 53 →
  (valid_bytecode_length (Z.of_nat (length b)) →
    ∃ h, hashL2Bytecode s = Done h ∧ length h = 32%nat ∧ take 2 h = [x01; x00] ∧
      be_val (take 2 (drop 2 h)) * 32 = Z.of_nat (length b) ∧ drop 4 h = drop 4 (sha256 b)) ∧
  (¬ valid_bytecode_length (Z.of_nat (length b)) → ∃ msg, hashL2Bytecode s = Throw (JsError msg)).
Proof.
  intros Hs Hb. split; [|by eapply hashL2Bytecode_invalid].
  intros Hv. rewrite (hashL2Bytecode_valid s b Hs Hv). eexists. split; [done|].
  pose proof (be_enc_length 2 (Z.of_nat (length b) / 32)) as Hl.
  pose proof (sha256_length b). destruct Hv as [Hv1 Hv2]. split_and!.
  - cbn [length]. rewrite length_app, Hl, length_drop. lia.
  - done.
  - change (drop 2 (x01 :: x00 :: ?l)) with l. rewrite take_app_length' by done. rewrite be_val_enc, Z.mod_small.
    + Z.div_mod_to_equations; lia.
    + change (256 ^ Z.of_nat 2) with (2 ^ 16). split; [apply Z.div_pos; lia|done].
  - change (drop 4 (x01 :: x00 :: ?l)) with (drop 2 l). by rewrite drop_app_length' by done.
Qed.

(** [applyL1ToL2Alias] of a 20-byte address is the address plus the
    offset modulo 2^160, so that subtracting the offset gives the address
    back; its text has 20 bytes exactly when the aliased value has a non-zero
    first byte (otherwise leading zero bytes are missing). *)
Theorem applyL1ToL2Alias_correct (s : string) (b : bytes) :
  parse_hex s = Some b → length b = 20%nat →
  ∃ r rb, applyL1ToL2Alias s = Done r ∧ parse_hex r = Some rb ∧
    be_val rb = (be_val b + 0x1111000000000000000000000000000000001111) mod 2 ^ 160 ∧
    (be_val rb - 0x1111000000000000000000000000000000001111) mod 2 ^ 160 = be_val b ∧
    (length rb = 20%nat ↔ 256 ^ 19 ≤ be_val rb).
Proof.
  intros Hs Hl. rewrite (alias_value s b Hs) by (by destruct b).
  set (v := (be_val b + _) mod 2 ^ 160).
  assert (Hv : 0 ≤ v < 2 ^ 160) by (apply Z.mod_pos_bound; done).
  exists ("0x" +:+ hex_digits (be_min v)), (be_min v).
  rewrite be_val_min by lia. split_and!; [done|apply parse_hex_digits|done|..].
  - unfold v. rewrite Zminus_mod_idemp_l.
    replace (be_val b + _ - _) with (be_val b) by lia. apply Z.mod_small.
    pose proof (be_val_range b) as Hr. rewrite Hl in Hr. exact Hr.
  - exact (be_min_length_iff 20 v ltac:(lia) Hv).
Qed.

(** C22: Without strict mode, or in strict mode where its guards hold, the cut
    compiled by [compileInitialCutHash] has the facets and the address it was given
    and is the one [ChainTypeManager] expects: the bytes [_deployNewChain] puts
    before its calldata (the selector, the chain id, the bridgehub, the manager, the
    protocol version, the admin, the validator timelock, the base token and batch
    zero) complete it to the calldata of [DiamondInit.initialize] on the struct with
    these values in the fields of those names and the deployment's parameters in the
    others, provided these parameters fit their types. *)
Theorem compileInitialCutHash_refines_ctm (cfg : SystemConfig) (cuts : list FacetCut)
    (params : VerifierParams) (boot acc emu verifier : string) (gas : Z) (diamondInit : string)
    (strict : bool) (ctm : ChainTypeManager) (chainId : Z) (assetId admin tw : bytes) :
  struct_abi "DiamondInit" "initialize" = Some InitializeData_fields →
  (strict = true → strict_params cuts params boot acc emu verifier gas) →
  ctm_widths ctm chainId assetId admin →
  struct_words (drop 8 InitializeData_fields)
    (VObj (chain_fields cfg params boot acc emu verifier gas)) = Some tw →
  ∃ cut data,
    compileInitialCutHash cfg cuts params boot acc emu verifier gas diamondInit strict = Done cut ∧
    facetCuts cut = cuts ∧ initAddress cut = diamondInit ∧
    ctm_init_data ctm chainId assetId admin cut = Some data ∧
    encodeFunctionData "DiamondInit" "initialize"
      [VObj (mandatory_fields ctm chainId assetId admin ++ chain_fields cfg params boot acc emu verifier gas)] =
      Some (hexlify data).
Proof.
  intros Habi Hstrict Hw Ht. destruct placeholder_words as [pw Hp].
  exists (mkDiamondCut cuts diamondInit (hexlify tw)). eexists. split_and!; [|done|done|..].
  - unfold compileInitialCutHash. rewrite (strict_guards _ _ _ _ _ _ _ _ Hstrict).
    cbn [mbind outcome_bind]. rewrite (initialize_calldata _ _ pw tw) by done.
    cbn [or_throw mbind outcome_bind]. rewrite slice_calldata; [done|].
    by rewrite (struct_words_length _ _ _ Hp).
  - unfold ctm_init_data. cbn [initCalldata]. by rewrite parse_hex_hexlify.
  - by apply initialize_calldata; [..|apply mandatory_words|].
Qed.

(** [computeL2Create2Address] returns, for a sender of at most 32 bytes and
    a valid bytecode, the last 20 bytes of the hash of the zkSync CREATE2
    preimage, in which the sender is left-padded to a word. *)
Theorem computeL2Create2Address_correct (wallet code input salt : string) (bw bc bi bs : bytes) :
  parse_hex wallet = Some bw → (length bw ≤ 32)%nat →
  parse_hex code = Some bc → valid_bytecode_length (Z.of_nat (length bc)) →
  parse_hex input = Some bi → parse_hex salt = Some bs →
  ∃ h addr, hashL2Bytecode code = Done h ∧
    computeL2Create2Address wallet code input salt = Done (hexlify addr) ∧
    length addr = 20%nat ∧
    addr = drop 12 (keccak (CREATE2_PREFIX ++ (replicate (32 - length bw) x00 ++ bw) ++ bs ++ h ++ keccak bi)).
Proof.
  intros Hw Hlw Hc Hv Hi Hs. rewrite (hashL2Bytecode_valid _ _ Hc Hv). eexists _, _.
  split; [done|]. unfold computeL2Create2Address.
  destruct (hexZeroPad_spec wallet bw 32 Hw Hlw) as (s' & -> & Hs').
  cbn [or_throw mbind outcome_bind]. rewrite (hashL2Bytecode_valid _ _ Hc Hv).
  cbn [or_throw mbind outcome_bind]. rewrite !arrayify_spec, Hi, Hs', Hs.
  cbn [or_throw mbind outcome_bind]. split; [done|]. split; [|done].
  rewrite length_drop, keccak_length. done.
Qed.

(** [encodeNTVAssetId] is the hash of the three words (chain id, vault
    address, token), and does not depend on how far the token address was
    already padded: padding it to 32 bytes first, as the callers do, gives the
    same asset id. *)
Theorem encodeNTVAssetId_padding (chainId : Z) (token : string) (bt : bytes) :
  0 ≤ chainId < 2 ^ 256 → parse_hex token = Some bt → (length bt ≤ 32)%nat →
  ∃ padded id, hexZeroPad token 32 = Some padded ∧
    encodeNTVAssetId chainId token = Done (hexlify id) ∧
    encodeNTVAssetId chainId padded = Done (hexlify id) ∧ length id = 32%nat ∧
    ∃ vault, parse_hex L2_NATIVE_TOKEN_VAULT_ADDRESS = Some vault ∧
      id = keccak (be_enc 32 chainId ++ (replicate 12 x00 ++ vault) ++
                   (replicate (32 - length bt) x00 ++ bt)).
Proof.
  intros Hc Ht Hl. destruct (hexZeroPad_spec token bt 32 Ht Hl) as (s' & E & Hs').
  destruct vault_address_bytes as (vault & Hvault & Hvl).
  assert (Hpl : length (replicate (32 - length bt) x00 ++ bt) = 32%nat)
    by (rewrite length_app, length_replicate; lia).
  exists s', (keccak (be_enc 32 chainId ++ (replicate 12 x00 ++ vault) ++
                      (replicate (32 - length bt) x00 ++ bt))). split_and!.
  - done.
  - by apply asset_id_value.
  - rewrite (asset_id_value chainId s' _ vault Hc Hs') by (done || lia).
    rewrite Hpl, Nat.sub_diag. done.
  - apply keccak_length.
  - by exists vault.
Qed.

End properties.

(** packed versions below 2^53 round-trip: packing (0, minor, patch) with a
    32-bit patch and unpacking gives the parts back, and
    [addToProtocolVersion] adds to the parts separately. *)
Theorem semver_roundtrip (minor patch dminor dpatch : Z) :
  0 ≤ minor < 2 ^ 20 → 0 ≤ patch → 0 ≤ dminor < 2 ^ 20 → 0 ≤ dpatch → patch + dpatch < 2 ^ 32 →
  ∃ v v', packSemver (Some 0) (Some minor) (Some patch) = Done (Some v) ∧ 0 ≤ v < 2 ^ 53 ∧
    unpackNumberSemVer v = (0, minor, patch) ∧
    addToProtocolVersion v dminor dpatch = Done (Some v') ∧ 0 ≤ v' < 2 ^ 53 ∧
    unpackNumberSemVer v' = (0, minor + dminor, patch + dpatch).
Proof.
  intros Hm Hp Hdm Hdp Hsum. exists (minor * 2 ^ 32 + patch), ((minor + dminor) * 2 ^ 32 + (patch + dpatch)).
  unfold addToProtocolVersion. rewrite !unpack_pack by lia. split_and!; try done; lia.
Qed.

(** a version string of three dot-separated decimal numbers unpacks to
    their values, and packs unless its major number is not zero. *)
Theorem unpackStringSemVer_correct (a b c : string) :
  a ≠ "" → b ≠ "" → c ≠ "" →
  str_forallb is_digit a = true → str_forallb is_digit b = true → str_forallb is_digit c = true →
  unpackStringSemVer (a +:+ "." +:+ b +:+ "." +:+ c) =
    (Some (dec_value a), Some (dec_value b), Some (dec_value c)) ∧
  packSemver (Some (dec_value a)) (Some (dec_value b)) (Some (dec_value c)) =
    (if dec_value a =? 0 then Done (Some (dec_value b * 2 ^ 32 + dec_value c))
     else Throw (JsError "Major version must be 0")).
Proof.
  intros Ha Hb Hc Da Db Dc. split.
  - unfold unpackStringSemVer. rewrite split_version by done.
    cbn [lookup list_lookup]. by rewrite !js_parseInt_digits.
  - unfold packSemver. destruct (dec_value a =? 0) eqn:E.
    + apply Z.eqb_eq in E. by rewrite bool_decide_true by congruence.
    + apply Z.eqb_neq in E. by rewrite bool_decide_false by congruence.
Qed.

(** ** Witnesses *)

Definition sample_code : string := "0x" +:+ hex_digits (replicate 96 x2a).
Definition sample_address : string := "0x00000000000000000000000000000000deadbeef".
Definition sample_config : SystemConfig := mkSystemConfig 800 250000000 80000000 120000 1000000 99000.
Definition sample_hash : string := "0x" +:+ hex_digits (replicate 32 x07).
Definition sample_params : VerifierParams := mkVerifierParams sample_hash sample_hash HashZero.

Lemma hashL2Bytecode_witness :
  ∃ h, @hashL2Bytecode model_ethers sample_code = Done h ∧ be_val (take 2 (drop 2 h)) * 32 = 96.
Proof.
  destruct (@hashL2Bytecode_correct model_ethers model_ethers_laws sample_code (replicate 96 x2a)
    ltac:(vm_compute; reflexivity) ltac:(vm_compute; reflexivity)) as [Hok _].
  destruct (Hok ltac:(vm_compute; split; reflexivity)) as (h & E & _ & _ & Hw & _).
  exists h. split; [exact E | exact Hw].
Defined.

Lemma applyL1ToL2Alias_witness :
  ∃ r rb, @applyL1ToL2Alias model_ethers sample_address = Done r ∧ parse_hex r = Some rb ∧
    length rb = 20%nat.
Proof.
  destruct (@applyL1ToL2Alias_correct model_ethers model_ethers_laws sample_address
    (replicate 16 x00 ++ [xde; xad; xbe; xef]) ltac:(vm_compute; reflexivity) eq_refl)
    as (r & rb & E & Hp & Hv & _ & Hl).
  exists r, rb. split_and!; [exact E | exact Hp |]. apply Hl. rewrite Hv. vm_compute. discriminate.
Defined.

(** A chain with distinct values in every word. *)
Definition sample_ctm : ChainTypeManager :=
  mkChainTypeManager (replicate 20 x01) (replicate 20 x02) 103079215104 (replicate 20 x03) (replicate 32 x04).

Lemma compileInitialCutHash_witness :
  let cuts := replicate 4 (mkFacetCut sample_address [] Add false) in
  let tl := chain_fields sample_config sample_params sample_hash sample_hash sample_hash
              sample_address 72000000 in
  ∃ cut data,
    @compileInitialCutHash model_ethers sample_config cuts sample_params sample_hash sample_hash
      sample_hash sample_address 72000000 sample_address true = Done cut ∧
    @ctm_init_data model_ethers sample_ctm 271 (replicate 32 x05) (replicate 20 x06) cut = Some data ∧
    @encodeFunctionData model_ethers "DiamondInit" "initialize"
      [VObj (@mandatory_fields model_ethers sample_ctm 271 (replicate 32 x05) (replicate 20 x06) ++ tl)]
      = Some (@hexlify model_ethers data).
Proof.
  destruct (@compileInitialCutHash_refines_ctm model_ethers model_ethers_laws sample_config
    (replicate 4 (mkFacetCut sample_address [] Add false)) sample_params sample_hash sample_hash
    sample_hash sample_address 72000000 sample_address true sample_ctm 271 (replicate 32 x05) (replicate 20 x06)
    (default [] (@struct_words model_ethers (drop 8 InitializeData_fields)
       (VObj (chain_fields sample_config sample_params sample_hash sample_hash sample_hash
              sample_address 72000000)))))
    as (cut & data & E & _ & _ & Hi & Hd).
  - vm_compute. reflexivity.
  - intros _. unfold strict_params. split_and!; done.
  - by split.
  - vm_compute. reflexivity.
  - exists cut, data. split_and!; [exact E | exact Hi | exact Hd].
Defined.

Lemma computeL2Create2Address_witness :
  ∃ addr, @computeL2Create2Address model_ethers sample_address sample_code "0x" sample_hash
    = Done (@hexlify model_ethers addr) ∧ length addr = 20%nat.
Proof.
  destruct (@computeL2Create2Address_correct model_ethers model_ethers_laws sample_address
    sample_code "0x" sample_hash (replicate 16 x00 ++ [xde; xad; xbe; xef]) (replicate 96 x2a) []
    (replicate 32 x07)) as (h & addr & _ & E & Hl & _);
    [vm_compute; reflexivity | cbn; lia | vm_compute; reflexivity | vm_compute; split; reflexivity
    | reflexivity | vm_compute; reflexivity |].
  exists addr. split; [exact E | exact Hl].
Defined.

Lemma encodeNTVAssetId_witness :
  ∃ padded, @hexZeroPad model_ethers ADDRESS_ONE 32 = Some padded ∧
    @encodeNTVAssetId model_ethers 9 padded = @encodeNTVAssetId model_ethers 9 ADDRESS_ONE.
Proof.
  destruct (@encodeNTVAssetId_padding model_ethers model_ethers_laws 9 ADDRESS_ONE
    (replicate 19 x00 ++ [x01]) ltac:(lia) ltac:(vm_compute; reflexivity) ltac:(cbn; lia))
    as (padded & id & Hp & E1 & E2 & _).
  exists padded. split; [exact Hp | congruence].
Defined.

Lemma semver_roundtrip_witness :
  ∃ v, packSemver (Some 0) (Some 24) (Some 1) = Done (Some v) ∧ unpackNumberSemVer v = (0, 24, 1).
Proof.
  destruct (semver_roundtrip 24 1 1 0 ltac:(lia) ltac:(lia) ltac:(lia) ltac:(lia) ltac:(lia))
    as (v & v' & E & _ & U & _).
  exists v. split; [exact E | exact U].
Defined.

Lemma unpackStringSemVer_witness :
  unpackStringSemVer "0.24.1" = (Some 0, Some 24, Some 1).
Proof.
  exact (proj1 (unpackStringSemVer_correct "0" "24" "1" ltac:(done) ltac:(done) ltac:(done)
    eq_refl eq_refl eq_refl)).
Defined.
