(* ===== verification/World.v ===== *)
(** * The world the deployment scripts run in

    A script is a computation [M A] over a [world]: the environment, the
    transactions of the deploy wallet that have been mined and those waiting in
    the mempool, the mutable [addresses] object of the deployer, the console.
    The network ([Chain]), the compiled artifacts ([Artifacts]) and the files
    read at run time ([Files]) are interfaces; what the scripts rely on is
    stated in [ChainLaws].

    The mempool follows the nonce discipline of Ethereum: a transaction with
    the wallet's next nonce is mined (together with the queued ones it
    unblocks), one with a used nonce is refused, and one with a later nonce
    stays queued, so that waiting for it does not return while the gap stays. *)

From stdpp Require Import base gmap list strings pretty.
From Stdlib Require Import ZArith Lia Ascii Strings.Byte.
From S2P Require Import Prelude Js Ethers Utils.

(** ** Transactions *)

(** [ethers.providers.TransactionRequest]: the fields the scripts set. *)
Record tx_options : Type := mkOpts {
  o_nonce : option Z;
  o_gasPrice : option Z;
  o_gasLimit : option Z;
  o_value : option Z;
  o_factoryDeps : list string;
}.

Definition no_opts : tx_options := mkOpts None None None None [].

(** [{ gasPrice, nonce }] *)
Definition opts (gasPrice nonce : option Z) : tx_options := mkOpts nonce gasPrice None None [].

(** [ethTxOptions.gasLimit ??= g] *)
Definition default_gasLimit (g : Z) (o : tx_options) : tx_options :=
  mkOpts (o_nonce o) (o_gasPrice o) (Some (js_coalesce (o_gasLimit o) g)) (o_value o) (o_factoryDeps o).

(** [{ ...ethTxOptions, gasLimit: g }] and [{ ...ethTxOptions, value: v }] *)
Definition with_gasLimit (g : Z) (o : tx_options) : tx_options :=
  mkOpts (o_nonce o) (o_gasPrice o) (Some g) (o_value o) (o_factoryDeps o).
Definition with_value (v : Z) (o : tx_options) : tx_options :=
  mkOpts (o_nonce o) (o_gasPrice o) (o_gasLimit o) (Some v) (o_factoryDeps o).
Definition with_gasPrice (g : option Z) (o : tx_options) : tx_options :=
  mkOpts (o_nonce o) g (o_gasLimit o) (o_value o) (o_factoryDeps o).
Definition with_factoryDeps (l : list string) (o : tx_options) : tx_options :=
  mkOpts (o_nonce o) (o_gasPrice o) (o_gasLimit o) (o_value o) l.

Record tx : Type := mkTx {
  tx_nonce : Z;
  tx_to : option string;
  tx_data : string;
  tx_value : Z;
  tx_gasPrice : option Z;
  tx_gasLimit : option Z;
  tx_factoryDeps : list string;
}.

#[export] Instance tx_eq_dec : EqDecision tx.
Proof. solve_decision. Defined.

(** ** Interfaces *)

(** The network, as seen by one wallet: every observation is a function of the
    wallet's mined transactions, oldest first. *)
Class Chain := {
  network_chainId : Z;
  wallet_nonce : Z;
  code_at : list tx → string → string;
  tx_succeeds : list tx → tx → bool;
  view_call : list tx → string → string → string → list val → outcome val;
  tx_hash : tx → string;
  created_address : Z → string;
  event_topics : list tx → tx → string → option (list string);
  create2_address : string → string → string → option string;
  constructor_ok : list tx → string → bool;
  random_bytes32 : nat → string;
  gas_price : list tx → Z;
  date_now : list tx → Z;
}.

(** Compiled contracts: number of constructor inputs ([None]: hardhat has no
    such artifact), deployment data, and the methods of an interface. *)
Class Artifacts := {
  ctor_inputs : string → option nat;
  deploy_data : string → list val → option string;
  has_method : string → string → bool;
}.

(** zkSync artifacts and the address derivation of zksync-ethers: bytecode of an
    artifact, its factory dependencies, [Interface.encodeDeploy] ([None] on an
    argument mismatch), [utils.hashBytecode] and [utils.create2Address]. *)
Class ZkArtifacts := {
  zk_bytecode : string → option string;
  zk_factory_deps : string → list string;
  zk_encodeDeploy : string → list val → option string;
  zk_hashBytecode : string → outcome string;
  zk_create2Address : string → string → string → string → outcome string;
}.

(** Files read at run time. *)
Class Files := {
  (** symbol and address of the tokens of a JSON list *)
  file_tokens : string → outcome (list (string * string));
  (** [.bytecode] of the artifact [path/name.sol/name.json] *)
  file_bytecode : string → string → outcome string;
  (** the bytes of a file, in hexadecimal *)
  file_bytes : string → outcome string;
  (** [.bytecode] of the artifacts loaded by deploy-utils-zk.ts *)
  l2_contract_bytecode : string → string;
  (** deployment data of the contracts of the da-contracts package *)
  da_bytecode : string → string;
}.

(** ** State *)

(** [this.addresses]: top-level fields under the group [""], nested objects
    under their names. *)
Notation addresses := (gmap string (gmap string string)).

Record world : Type := mkWorld {
  w_env : environ;
  w_mined : list tx;
  w_pool : list tx;
  w_addresses : addresses;
  w_chainId : jsnum;
  w_hashes : string * string * string;
  w_console : list string;
  w_random : nat;
}.

Definition set_mined (h p : list tx) (w : world) : world :=
  mkWorld (w_env w) h p (w_addresses w) (w_chainId w) (w_hashes w) (w_console w) (w_random w).
Definition set_addresses (a : addresses) (w : world) : world :=
  mkWorld (w_env w) (w_mined w) (w_pool w) a (w_chainId w) (w_hashes w) (w_console w) (w_random w).
Definition set_console (c : list string) (w : world) : world :=
  mkWorld (w_env w) (w_mined w) (w_pool w) (w_addresses w) (w_chainId w) (w_hashes w) c (w_random w).
Definition set_chainId (n : jsnum) (w : world) : world :=
  mkWorld (w_env w) (w_mined w) (w_pool w) (w_addresses w) n (w_hashes w) (w_console w) (w_random w).
Definition set_hashes (h : string * string * string) (w : world) : world :=
  mkWorld (w_env w) (w_mined w) (w_pool w) (w_addresses w) (w_chainId w) h (w_console w) (w_random w).
Definition set_random (n : nat) (w : world) : world :=
  mkWorld (w_env w) (w_mined w) (w_pool w) (w_addresses w) (w_chainId w) (w_hashes w) (w_console w) n.

(** ** The monad of scripts *)

Definition M (A : Type) : Type := world → outcome A * world.

#[export] Instance M_ret : MRet M := λ A a w, (Done a, w).
#[export] Instance M_bind : MBind M := λ A B k m w,
  match m w with
  | (Done a, w') => k a w'
  | (Throw e, w') => (Throw e, w')
  | (Hang, w') => (Hang, w')
  end.

Definition lift {A} (o : outcome A) : M A := λ w, (o, w).
Definition throw {A} (e : js_error) : M A := lift (Throw e).
Definition from_env {A} (f : environ → outcome A) : M A := λ w, (f (w_env w), w).
Definition network_is_local : M bool := λ w, (Done (isCurrentNetworkLocal (w_env w)), w).
Definition get_env (name : string) : M (option string) := λ w, (Done (w_env w !! name), w).
Definition console_log (line : string) : M unit :=
  λ w, (Done tt, set_console (w_console w ++ [line]) w).
Definition when (b : bool) (m : M unit) : M unit := if b then m else mret tt.

(** Runs an action for every element of an array, in order. *)
Fixpoint for_each {A} (l : list A) (f : A → M unit) : M unit :=
  match l with
  | [] => mret tt
  | x :: l' => f x;; for_each l' f
  end.

(** [this.addresses.group.field]: a missing group is a TypeError, a missing
    field is [undefined]. *)
Definition read_error : js_error := JsTypeError "Cannot read properties of undefined".
Definition write_error : js_error := JsTypeError "Cannot set properties of undefined".

Definition get_address (group field : string) : M val := λ w,
  match w_addresses w !! group with
  | None => (Throw read_error, w)
  | Some g => (Done (match g !! field with Some a => VStr a | None => VUndef end), w)
  end.

Definition set_address (group field a : string) : M unit := λ w,
  match w_addresses w !! group with
  | None => (Throw write_error, w)
  | Some g => (Done tt, set_addresses (<[group := <[field := a]> g]> (w_addresses w)) w)
  end.

(** [Factory.connect(address, signer)] and other uses of an address as text. *)
Definition as_address (v : val) : M string :=
  match v with VStr a => mret a | _ => throw invalid_hex end.

Definition as_number (v : val) : M Z :=
  match v with VNum n => mret n | _ => throw invalid_hex end.

Section chain.
Context `{EthersOps} `{Chain} `{Artifacts}.

Definition tx_count (w : world) : Z := wallet_nonce + Z.of_nat (length (w_mined w)).

Definition getTransactionCount : M Z := λ w, (Done (tx_count w), w).

Definition getCode (address : string) : M string := λ w, (Done (code_at (w_mined w) address), w).

(** [ethers.utils.hexDataLength(code) > 0] *)
Definition has_code (code : string) : bool :=
  match parse_hex code with Some (_ :: _) => true | _ => false end.

Definition view (address contract method : string) (args : list val) : M val := λ w,
  (view_call (w_mined w) address contract method args, w).

Definition getGasPrice : M Z := λ w, (Done (gas_price (w_mined w)), w).

Definition Date_now : M Z := λ w, (Done (date_now (w_mined w)), w).

Definition random_salt : M string := λ w,
  (Done (random_bytes32 (w_random w)), set_random (S (w_random w)) w).

(** Mines the queued transactions that the last mined one unblocks. *)
Fixpoint flush (fuel : nat) (h p : list tx) : list tx * list tx :=
  match fuel with
  | O => (h, p)
  | S fuel' =>
      let next := wallet_nonce + Z.of_nat (length h) in
      match list_find (λ t, tx_nonce t = next) p with
      | Some (i, t) => flush fuel' (h ++ [t]) (delete i p)
      | None => (h, p)
      end
  end.

(** What [tx.wait()] needs to know about a sent transaction. *)
Inductive tx_response : Type :=
| Mined (before : list tx) (t : tx)
| Queued (t : tx).

Definition response_tx (r : tx_response) : tx := match r with Mined _ t | Queued t => t end.

Definition nonce_expired : js_error := EthersError "NONCE_EXPIRED".
Definition call_exception : js_error := EthersError "CALL_EXCEPTION".
Definition unpredictable_gas : js_error := EthersError "UNPREDICTABLE_GAS_LIMIT".

(** [wallet.sendTransaction]: the nonce defaults to the transaction count; with
    no gas limit the call is first estimated, which fails if it would revert. *)
Definition sendTransaction (to : option string) (data : string) (o : tx_options)
  : M tx_response := λ w,
  let n := js_coalesce (o_nonce o) (tx_count w) in
  let t := mkTx n to data (js_coalesce (o_value o) 0) (o_gasPrice o) (o_gasLimit o)
    (o_factoryDeps o) in
  if bool_decide (o_gasLimit o = None) && negb (tx_succeeds (w_mined w) t) then
    (Throw unpredictable_gas, w)
  else if n <? tx_count w then (Throw nonce_expired, w)
  else if tx_count w <? n then
    (Done (Queued t), set_mined (w_mined w) (w_pool w ++ [t]) w)
  else
    let '(h, p) := flush (length (w_pool w)) (w_mined w ++ [t]) (w_pool w) in
    (Done (Mined (w_mined w) t), set_mined h p w).

(** [tx.wait()]: a queued transaction is never included. *)
Definition wait (r : tx_response) : M tx_response := λ w,
  match r with
  | Queued _ => (Hang, w)
  | Mined h t => if tx_succeeds h t then (Done r, w) else (Throw call_exception, w)
  end.

(** [contract.method(...args, overrides)]: a missing method is not a function. *)
Definition call_contract (address contract method : string) (args : list val) (o : tx_options)
  : M tx_response :=
  if has_method contract method then
    data ← lift (or_throw invalid_hex (encodeFunctionData contract method args));
    sendTransaction (Some address) data o
  else throw (JsTypeError (method +:+ " is not a function")).

(** [interface.encodeFunctionData(method, args)]: a missing method is refused. *)
Definition encode_call (contract method : string) (args : list val) : M string :=
  if has_method contract method
  then lift (or_throw invalid_hex (encodeFunctionData contract method args))
  else throw invalid_hex.

(** [await (await contract.method(...)).wait()] *)
Definition call_and_wait (address contract method : string) (args : list val) (o : tx_options)
  : M tx_response :=
  r ← call_contract address contract method args o; wait r.

Definition artifact_missing : js_error := JsError "HH700: artifact not found".
Definition argument_count : js_error := EthersError "UNEXPECTED_ARGUMENT".

(** [getContractFactory(name)] and [factory.getDeployTransaction(...args).data]:
    ethers checks the number of arguments against the constructor. *)
Definition getDeployTransaction (contractName : string) (args : list val) : M string :=
  inputs ← lift (or_throw artifact_missing (ctor_inputs contractName));
  if bool_decide (inputs = length args)
  then lift (or_throw invalid_hex (deploy_data contractName args))
  else throw argument_count.

(** [factory.deploy(...args, overrides)]: a creation transaction; the address
    is determined by its nonce. *)
Definition factory_deploy (contractName : string) (args : list val) (o : tx_options)
  : M (string * tx_response) :=
  data ← getDeployTransaction contractName args;
  r ← sendTransaction None data o;
  mret (created_address (tx_nonce (response_tx r)), r).

End chain.

(** ** Laws of the network *)

(** The transaction [SingletonFactory.deploy(bytecode, salt)]. *)
Definition is_factory_call `{EthersOps} (factory bytecode salt : string) (t : tx) : Prop :=
  tx_to t = Some factory ∧
  encodeFunctionData "SingletonFactory" "deploy" [VStr bytecode; VStr salt] = Some (tx_data t).

(** EIP-1014 through the singleton factory (EIP-2470), with gas that suffices: the call never reverts;
    it puts code at the CREATE2 address when the address is empty and the
    constructor succeeds, and touches no other address.  Code never goes away. *)
Class ChainLaws `{EthersOps} `{Chain} (factory : string) : Prop := {
  factory_succeeds h t bytecode salt :
    is_factory_call factory bytecode salt t → tx_succeeds h t = true;
  factory_creates h t bytecode salt a :
    is_factory_call factory bytecode salt t → create2_address factory salt bytecode = Some a →
    has_code (code_at (h ++ [t]) a) = has_code (code_at h a) || constructor_ok h bytecode;
  factory_frame h t bytecode salt a a' :
    is_factory_call factory bytecode salt t → create2_address factory salt bytecode = Some a →
    a' ≠ a → has_code (code_at (h ++ [t]) a') = has_code (code_at h a');
  code_persists h t a : has_code (code_at h a) = true → has_code (code_at (h ++ [t]) a) = true;
}.

(** ** Lemmas: running a script step by step *)

Lemma run_ret {A} (a : A) w : mret (M := M) a w = (Done a, w).
Proof. done. Qed.

Lemma run_bind_done {A B} (m : M A) (k : A → M B) w a w' :
  m w = (Done a, w') → (m ≫= k) w = k a w'.
Proof. unfold mbind, M_bind. by intros ->. Qed.

Lemma run_bind_throw {A B} (m : M A) (k : A → M B) w e w' :
  m w = (Throw e, w') → (m ≫= k) w = (Throw e, w').
Proof. unfold mbind, M_bind. by intros ->. Qed.

Lemma run_bind_hang {A B} (m : M A) (k : A → M B) w w' :
  m w = (Hang, w') → (m ≫= k) w = (Hang, w').
Proof. unfold mbind, M_bind. by intros ->. Qed.

Lemma bind_done_inv {A B} (m : M A) (k : A → M B) w b w' :
  (m ≫= k) w = (Done b, w') → ∃ a w1, m w = (Done a, w1) ∧ k a w1 = (Done b, w').
Proof. unfold mbind, M_bind. destruct (m w) as [[a|e|] w1]; try done. eauto. Qed.

(** ** Lemmas: sending transactions *)

(** The transaction a request becomes when it takes the next nonce. *)
Definition next_tx `{Chain} (w : world) (to : option string) (data : string) (o : tx_options) : tx :=
  mkTx (tx_count w) to data (js_coalesce (o_value o) 0) (o_gasPrice o) (o_gasLimit o) (o_factoryDeps o).

(** The request leaves the nonce to the library or gives the next one. *)
Definition nonce_is_next `{Chain} (w : world) (o : tx_options) : Prop :=
  o_nonce o = None ∨ o_nonce o = Some (tx_count w).

#[export] Instance nonce_is_next_dec `{Chain} w o : Decision (nonce_is_next w o).
Proof. unfold nonce_is_next. apply _. Defined.

(** [w'] is [w] after the transactions [ts] were mined, with the address book [a];
    only the console may differ otherwise. *)
Record ran (w : world) (ts : list tx) (a : addresses) (w' : world) : Prop := {
  ran_mined : w_mined w' = w_mined w ++ ts;
  ran_pool : w_pool w' = [];
  ran_addresses : w_addresses w' = a;
  ran_env : w_env w' = w_env w;
  ran_chainId : w_chainId w' = w_chainId w;
  ran_hashes : w_hashes w' = w_hashes w;
}.

Section sending.
Context `{Chain}.

Lemma ran_count w ts a w' :
  ran w ts a w' → tx_count w' = tx_count w + Z.of_nat (length ts).
Proof. intros R. unfold tx_count. rewrite (ran_mined _ _ _ _ R), length_app. lia. Qed.

Lemma ran_trans w ts1 a1 w1 ts2 a2 w2 :
  ran w ts1 a1 w1 → ran w1 ts2 a2 w2 → ran w (ts1 ++ ts2) a2 w2.
Proof.
  intros [] []. split; try congruence. rewrite app_assoc. congruence.
Qed.

Lemma ran_refl w : w_pool w = [] → ran w [] (w_addresses w) w.
Proof. intros Hp. split; try done. by rewrite app_nil_r. Qed.

Lemma ran_console w ts a w' c : ran w ts a w' → ran w ts a (set_console c w').
Proof. by intros []. Qed.

Lemma send_next w to data o :
  w_pool w = [] → nonce_is_next w o →
  (o_gasLimit o = None → tx_succeeds (w_mined w) (next_tx w to data o) = true) →
  sendTransaction to data o w =
    (Done (Mined (w_mined w) (next_tx w to data o)),
     set_mined (w_mined w ++ [next_tx w to data o]) [] w).
Proof.
  intros Hp Hn Hg. unfold sendTransaction.
  assert (Hc : js_coalesce (o_nonce o) (tx_count w) = tx_count w) by (by destruct Hn as [-> | ->]).
  rewrite Hc, Hp, Z.ltb_irrefl. fold (next_tx w to data o).
  destruct (bool_decide_reflect (o_gasLimit o = None)) as [E|E]; cbn [andb]; [|done].
  by rewrite Hg.
Qed.

Lemma send_stale w to data o n :
  o_nonce o = Some n → o_gasLimit o ≠ None → n < tx_count w →
  sendTransaction to data o w = (Throw nonce_expired, w).
Proof.
  intros Hn Hg Hlt. unfold sendTransaction. rewrite Hn. cbn [js_coalesce].
  rewrite bool_decide_false by done. cbn [andb]. by rewrite (proj2 (Z.ltb_lt _ _) Hlt).
Qed.

Lemma send_future w to data o n :
  o_nonce o = Some n → o_gasLimit o ≠ None → tx_count w < n →
  ∃ t, sendTransaction to data o w =
    (Done (Queued t), set_mined (w_mined w) (w_pool w ++ [t]) w).
Proof.
  intros Hn Hg Hlt. unfold sendTransaction. rewrite Hn. cbn [js_coalesce].
  rewrite bool_decide_false by done. cbn [andb].
  rewrite (proj2 (Z.ltb_ge _ _)), (proj2 (Z.ltb_lt _ _) Hlt) by lia. by eexists.
Qed.

End sending.

(** ** An executable network for the witnesses *)
Module ModelChain.

Definition address_of (s : string) : string :=
  "0x" +:+ hex_digits (be_enc 20
    (fold_left (λ acc c, Z.land (acc * 257 + Z.of_N (Ascii.N_of_ascii c) + 1) 0xffffffff)
       (String.list_ascii_of_string s) 7)).

(** Where a call to a factory puts code. *)
Definition target (t : tx) : option string :=
  to ← tx_to t; Some (address_of (to +:+ "|" +:+ tx_data t)).

Definition code (h : list tx) (a : string) : string :=
  if existsb (λ t, bool_decide (target t = Some a)) h then "0x60" else "0x".

Definition create2 (factory salt bytecode : string) : option string :=
  Some (address_of (factory +:+ "|" +:+
    ModelEthers.show_call "SingletonFactory" "deploy" [VStr bytecode; VStr salt])).

End ModelChain.

(** A network whose views answer [views], with every constructor succeeding. *)
Definition model_chain (views : string → list val → outcome val) : Chain := {|
  network_chainId := 9;
  wallet_nonce := 0;
  code_at := ModelChain.code;
  tx_succeeds _ _ := true;
  view_call _ _ _ method args := views method args;
  tx_hash t := "tx" +:+ pretty (tx_nonce t);
  created_address n := ModelChain.address_of ("create" +:+ pretty n);
  event_topics _ _ _ := Some ["0x00"; "0x010f"; "0x" +:+ hex_digits (replicate 32 x07)];
  create2_address := ModelChain.create2;
  constructor_ok _ _ := true;
  random_bytes32 n := "0x" +:+ hex_digits (be_enc 32 (Z.of_nat n));
  gas_price _ := 1;
  date_now h := 1700000000000 + Z.of_nat (length h);
|}.

(** Artifacts with the given constructors, in which every method exists. *)
Definition model_artifacts (ctor : string → option nat) : Artifacts := {|
  ctor_inputs := ctor;
  deploy_data name args := Some (ModelEthers.show_call name "new" args);
  has_method _ _ := true;
|}.

(** The wallet's first transaction is still to come. *)
Definition model_world (env : environ) (a : addresses) : world :=
  mkWorld env [] [] a (Some 271) (HashZero, HashZero, HashZero) [] 0.

Lemma model_code_snoc h t a :
  has_code (ModelChain.code (h ++ [t]) a) =
  has_code (ModelChain.code h a) || bool_decide (ModelChain.target t = Some a).
Proof.
  unfold ModelChain.code. rewrite existsb_app. cbn.
  by destruct (existsb _ h), (bool_decide (ModelChain.target t = Some a)).
Qed.

Lemma model_factory_target factory bytecode salt t :
  @is_factory_call model_ethers factory bytecode salt t →
  ModelChain.target t = ModelChain.create2 factory salt bytecode.
Proof. intros [Hto [= Hd]]. unfold ModelChain.target. rewrite Hto, <- Hd. done. Qed.

#[export] Instance model_chain_laws views factory :
  @ChainLaws model_ethers (model_chain views) factory.
Proof.
  split; cbn.
  - done.
  - intros h t b s a Hc Ha. rewrite model_code_snoc, (model_factory_target _ _ _ _ Hc), Ha.
    by rewrite bool_decide_true.
  - intros h t b s a a' Hc Ha Hne. rewrite model_code_snoc, (model_factory_target _ _ _ _ Hc), Ha.
    rewrite bool_decide_false by congruence. by rewrite orb_false_r.
  - intros h t a Hc. by rewrite model_code_snoc, Hc.
Qed.
