(* ===== verification/DeployUtils.v ===== *)
(** * Deployment through CREATE2
      ([l1-contracts/src.ts/deploy-utils.ts] and [deploy-utils-zk.ts])

    The CREATE2 deployments of the L1 (through the singleton factory) and of
    zkSync (through its built-in factory), deployments of L2 contracts through
    an L1 transaction, and the address book read from the environment. *)

From stdpp Require Import base gmap list strings pretty.
From Stdlib Require Import ZArith Lia.
From S2P Require Import Prelude Js Ethers Utils World.

(** ** The L1: the singleton factory *)

Section evm.
Context `{EthersOps} `{Chain} `{Artifacts}.

Definition log (verbose : bool) (msg : string) : M unit := when verbose (console_log msg).

Definition deployBytecodeViaCreate2 (contractName bytecode create2Salt : string)
    (ethTxOptions : tx_options) (create2FactoryAddress : val) (verbose : bool)
  : M (string * string) :=
  log verbose ("Deploying " +:+ contractName);;
  create2Factory ← as_address create2FactoryAddress;
  expectedAddress ← lift (or_throw invalid_hex (create2_address create2Factory create2Salt bytecode));
  deployedBytecodeBefore ← getCode expectedAddress;
  if has_code deployedBytecodeBefore then
    log verbose ("Contract " +:+ contractName +:+ " already deployed");;
    mret (expectedAddress, HashZero)
  else
    tx ← call_contract create2Factory "SingletonFactory" "deploy"
           [VStr bytecode; VStr create2Salt] ethTxOptions;
    receipt ← wait tx;
    log verbose (contractName +:+ " deployed, tx hash: " +:+ tx_hash (response_tx tx) +:+
                 ", expected address: " +:+ expectedAddress);;
    deployedBytecodeAfter ← getCode expectedAddress;
    if has_code deployedBytecodeAfter then mret (expectedAddress, tx_hash (response_tx tx))
    else throw (JsError ("Failed to deploy " +:+ contractName +:+ " bytecode via create2 factory")).

Definition deployViaCreate2 (contractName : string) (args : list val) (create2Salt : string)
    (ethTxOptions : tx_options) (create2FactoryAddress : val) (verbose : bool)
    (bytecode : option string) : M (string * string) :=
  code ← (if str_truthy bytecode then mret (default "" bytecode)
          else getDeployTransaction contractName args);
  deployBytecodeViaCreate2 contractName code create2Salt ethTxOptions create2FactoryAddress verbose.

Definition deployContractWithArgs (contractName : string) (args : list val) (ethTxOptions : tx_options)
  : M (string * tx_response) :=
  factory_deploy contractName args ethTxOptions.

End evm.

(** The file has its own copy of [hashL2Bytecode], the same text as in utils.ts. *)
Definition hashL2Bytecode_deploy_utils `{EthersOps} : string → outcome bytes := hashL2Bytecode.

(** ** The address book *)

(** Field, and the variable it is read from, in evaluation order. *)
Definition address_entries : list (string * string * string) :=
  [ ("Bridgehub", "BridgehubProxy", "CONTRACTS_BRIDGEHUB_PROXY_ADDR");
    ("Bridgehub", "BridgehubImplementation", "CONTRACTS_BRIDGEHUB_IMPL_ADDR");
    ("Bridgehub", "CTMDeploymentTrackerImplementation", "CONTRACTS_CTM_DEPLOYMENT_TRACKER_IMPL_ADDR");
    ("Bridgehub", "CTMDeploymentTrackerProxy", "CONTRACTS_CTM_DEPLOYMENT_TRACKER_PROXY_ADDR");
    ("Bridgehub", "MessageRootImplementation", "CONTRACTS_MESSAGE_ROOT_IMPL_ADDR");
    ("Bridgehub", "MessageRootProxy", "CONTRACTS_MESSAGE_ROOT_PROXY_ADDR");
    ("StateTransition", "StateTransitionProxy", "CONTRACTS_STATE_TRANSITION_PROXY_ADDR");
    ("StateTransition", "StateTransitionImplementation", "CONTRACTS_STATE_TRANSITION_IMPL_ADDR");
    ("StateTransition", "Verifier", "CONTRACTS_VERIFIER_ADDR");
    ("StateTransition", "AdminFacet", "CONTRACTS_ADMIN_FACET_ADDR");
    ("StateTransition", "MailboxFacet", "CONTRACTS_MAILBOX_FACET_ADDR");
    ("StateTransition", "ExecutorFacet", "CONTRACTS_EXECUTOR_FACET_ADDR");
    ("StateTransition", "GettersFacet", "CONTRACTS_GETTERS_FACET_ADDR");
    ("StateTransition", "DiamondInit", "CONTRACTS_DIAMOND_INIT_ADDR");
    ("StateTransition", "GenesisUpgrade", "CONTRACTS_GENESIS_UPGRADE_ADDR");
    ("StateTransition", "DiamondUpgradeInit", "CONTRACTS_DIAMOND_UPGRADE_INIT_ADDR");
    ("StateTransition", "DefaultUpgrade", "CONTRACTS_DEFAULT_UPGRADE_ADDR");
    ("StateTransition", "DiamondProxy", "CONTRACTS_DIAMOND_PROXY_ADDR");
    ("Bridges", "L1NullifierImplementation", "CONTRACTS_L1_NULLIFIER_IMPL_ADDR");
    ("Bridges", "L1NullifierProxy", "CONTRACTS_L1_NULLIFIER_PROXY_ADDR");
    ("Bridges", "ERC20BridgeImplementation", "CONTRACTS_L1_ERC20_BRIDGE_IMPL_ADDR");
    ("Bridges", "ERC20BridgeProxy", "CONTRACTS_L1_ERC20_BRIDGE_PROXY_ADDR");
    ("Bridges", "SharedBridgeImplementation", "CONTRACTS_L1_SHARED_BRIDGE_IMPL_ADDR");
    ("Bridges", "SharedBridgeProxy", "CONTRACTS_L1_SHARED_BRIDGE_PROXY_ADDR");
    ("Bridges", "L2NativeTokenVaultImplementation", "CONTRACTS_L2_NATIVE_TOKEN_VAULT_IMPL_ADDR");
    ("Bridges", "L2NativeTokenVaultProxy", "CONTRACTS_L2_NATIVE_TOKEN_VAULT_PROXY_ADDR");
    ("Bridges", "L2SharedBridgeImplementation", "CONTRACTS_L2_SHARED_BRIDGE_IMPL_ADDR");
    ("Bridges", "L2SharedBridgeProxy", "CONTRACTS_L2_SHARED_BRIDGE_ADDR");
    ("Bridges", "L2LegacySharedBridgeProxy", "CONTRACTS_L2_LEGACY_SHARED_BRIDGE_ADDR");
    ("Bridges", "L2LegacySharedBridgeImplementation", "CONTRACTS_L2_LEGACY_SHARED_BRIDGE_IMPL_ADDR");
    ("Bridges", "NativeTokenVaultImplementation", "CONTRACTS_L1_NATIVE_TOKEN_VAULT_IMPL_ADDR");
    ("Bridges", "NativeTokenVaultProxy", "CONTRACTS_L1_NATIVE_TOKEN_VAULT_PROXY_ADDR");
    ("Bridges", "BridgedStandardERC20Implementation", "CONTRACTS_L1_BRIDGED_STANDARD_ERC20_IMPL_ADDR");
    ("Bridges", "BridgedTokenBeacon", "CONTRACTS_L1_BRIDGED_TOKEN_BEACON_ADDR");
    ("", "RollupL1DAValidator", "CONTRACTS_L1_ROLLUP_DA_VALIDATOR");
    ("", "ValidiumL1DAValidator", "CONTRACTS_L1_VALIDIUM_DA_VALIDATOR");
    ("", "RelayedSLDAValidator", "CONTRACTS_L1_RELAYED_SL_DA_VALIDATOR");
    ("", "BaseToken", "CONTRACTS_BASE_TOKEN_ADDR");
    ("", "TransparentProxyAdmin", "CONTRACTS_TRANSPARENT_PROXY_ADMIN_ADDR");
    ("", "L2ProxyAdmin", "CONTRACTS_L2_PROXY_ADMIN_ADDR");
    ("", "Create2Factory", "CONTRACTS_CREATE2_FACTORY_ADDR");
    ("", "ValidatorTimeLock", "CONTRACTS_VALIDATOR_TIMELOCK_ADDR");
    ("", "Governance", "CONTRACTS_GOVERNANCE_ADDR");
    ("", "ChainAdmin", "CONTRACTS_CHAIN_ADMIN_ADDR") ].

(** The object literal: nested objects first, then its fields. *)
Definition put (a : addresses) (group field v : string) : addresses :=
  <[group := <[field := v]> (default ∅ (a !! group))]> a.

Fixpoint read_entries (env : environ) (l : list (string * string * string)) (acc : addresses)
  : outcome addresses :=
  match l with
  | [] => mret acc
  | (group, field, var) :: l' =>
      a ← getAddressFromEnv env var;
      read_entries env l' (put acc group field a)
  end.

(** The [try]/[catch] around the asset id. *)
Definition base_token_asset_id `{EthersOps} (env : environ) : outcome string :=
  match getAddressFromEnv env "CONTRACTS_BASE_TOKEN_ASSET_ID" with
  | Done a => Done a
  | _ =>
      number ← getNumberFromEnv env "ETH_CLIENT_CHAIN_ID";
      token ← getAddressFromEnv env "CONTRACTS_BASE_TOKEN_ADDR";
      padded ← or_throw invalid_hex (hexZeroPad token 32);
      encodeNTVAssetId (default 0 (js_parseInt (Some number))) padded
  end.

Definition deployedAddressesFromEnv `{EthersOps} (env : environ) : outcome addresses :=
  baseTokenAssetId ← base_token_asset_id env;
  a ← read_entries env address_entries ∅;
  mret (put a "" "BaseTokenAssetId" baseTokenAssetId).

(** ** L2 deployments through an L1 transaction *)

Section from_l1.
Context `{EthersOps} `{Chain} `{Artifacts}.
Variable cfg : SystemConfig.

(** [deployedAddressesFromEnv().group.field] *)
Definition address_from_env (group field : string) : M val :=
  a ← from_env deployedAddressesFromEnv;
  mret (match a !! group ≫= (λ g, g !! field) with Some s => VStr s | None => VUndef end).

Definition create2DeployFromL1 (chainId : val) (walletAddress bytecode constructor create2Salt : string)
    (l2GasLimit : val) (gasPrice : option Z) (extraFactoryDeps : option (list string))
    (bridgehubAddress assetRouterAddress : val) : M tx_response :=
  bridgehubAddr ← (match bridgehubAddress with
                   | VUndef => address_from_env "Bridgehub" "BridgehubProxy"
                   | v => mret v
                   end);
  bridgehub ← as_address bridgehubAddr;
  bytecodeHash ← lift (hashL2Bytecode_deploy_utils bytecode);
  calldata ← encode_call "IContractDeployer" "create2"
               [VStr create2Salt; VStr (hexlify bytecodeHash); VStr constructor];
  price ← (match gasPrice with Some p => mret p | None => getGasPrice end);
  cost ← view bridgehub "IBridgehub" "l2TransactionBaseCost"
           [chainId; VNum price; l2GasLimit; VNum (requiredL2GasPricePerPubdata cfg)];
  expectedCost ← as_number cost;
  token ← view bridgehub "IBridgehub" "baseToken" [chainId];
  baseTokenAddress ← as_address token;
  baseTokenBridge ← (match assetRouterAddress with
                     | VUndef => address_from_env "Bridges" "SharedBridgeProxy"
                     | v => mret v
                     end);
  let ethIsBaseToken := bool_decide (ADDRESS_ONE = baseTokenAddress) in
  (if negb ethIsBaseToken then
     call_and_wait baseTokenAddress "IERC20" "approve" [baseTokenBridge; VNum expectedCost] no_opts;;
     mret tt
   else mret tt);;
  let factoryDeps := match extraFactoryDeps with Some l => bytecode :: l | None => [bytecode] end in
  call_contract bridgehub "IBridgehub" "requestL2TransactionDirect"
    [VObj [ ("chainId", chainId);
            ("l2Contract", VStr DEPLOYER_SYSTEM_CONTRACT_ADDRESS);
            ("mintValue", VNum expectedCost);
            ("l2Value", VNum 0);
            ("l2Calldata", VStr calldata);
            ("l2GasLimit", l2GasLimit);
            ("l2GasPerPubdataByteLimit", VNum (requiredL2GasPricePerPubdata cfg));
            ("factoryDeps", VArr (VStr <$> factoryDeps));
            ("refundRecipient", VStr walletAddress) ]]
    (with_value (if ethIsBaseToken then expectedCost else 0) (opts (Some price) None)).

End from_l1.

(** ** zkSync: the built-in factory *)

Definition BUILT_IN_ZKSYNC_CREATE2_FACTORY : string := "0x0000000000000000000000000000000000010000".

Section zk.
Context `{EthersOps} `{Chain} `{Artifacts} `{ZkArtifacts} `{Files}.

(** The common part of the two deployments: look at the target, send the
    [create2] call with its factory dependencies, look again. *)
Definition zk_create2 (contractName bytecode bytecodeHash encodedArgs create2Salt : string)
    (ethTxOptions : tx_options) (factoryDeps : list string) (verbose : bool)
  : M (string * string) :=
  expectedAddress ← lift (zk_create2Address BUILT_IN_ZKSYNC_CREATE2_FACTORY bytecodeHash
                            create2Salt encodedArgs);
  deployedBytecodeBefore ← getCode expectedAddress;
  if has_code deployedBytecodeBefore then
    log verbose ("Contract " +:+ contractName +:+ " already deployed");;
    mret (expectedAddress, HashZero)
  else
    encodedTx ← encode_call "IL2ContractDeployer" "create2"
                  [VStr create2Salt; VStr bytecodeHash; VStr encodedArgs];
    tx ← sendTransaction (Some BUILT_IN_ZKSYNC_CREATE2_FACTORY) encodedTx
           (with_factoryDeps (bytecode :: factoryDeps) ethTxOptions);
    receipt ← wait tx;
    log verbose (contractName +:+ " deployed");;
    deployedBytecodeAfter ← getCode expectedAddress;
    if has_code deployedBytecodeAfter then mret (expectedAddress, tx_hash (response_tx tx))
    else throw (JsError ("Failed to deploy " +:+ contractName +:+ " bytecode via create2 factory")).

Definition deployBytecodeViaCreate2Zk (contractName create2Salt : string) (ethTxOptions : tx_options)
    (args : list val) (verbose : bool) : M (string * string) :=
  log verbose ("Deploying " +:+ contractName);;
  bytecode ← lift (or_throw artifact_missing (zk_bytecode contractName));
  let factoryDeps := zk_factory_deps contractName in
  bytecodeHash ← lift (zk_hashBytecode bytecode);
  encodedArgs ← lift (or_throw argument_count (zk_encodeDeploy contractName args));
  zk_create2 contractName bytecode bytecodeHash encodedArgs create2Salt ethTxOptions factoryDeps verbose.

Definition deployViaCreate2Zk (contractName : string) (args : list val) (create2Salt : string)
    (ethTxOptions : tx_options) (verbose : bool) : M (string * string) :=
  deployBytecodeViaCreate2Zk contractName create2Salt ethTxOptions args verbose.

Definition deployBytecodeViaCreate2OnPath (contractName contractPath create2Salt : string)
    (ethTxOptions : tx_options) (args : list val) (factoryDeps : list string) (verbose : bool)
  : M (string * string) :=
  bytecode ← lift (file_bytecode contractPath contractName);
  bytecodeHash ← lift (zk_hashBytecode bytecode);
  encodedArgs ← lift (or_throw argument_count (zk_encodeDeploy contractName args));
  zk_create2 contractName bytecode bytecodeHash encodedArgs create2Salt ethTxOptions factoryDeps verbose.

End zk.

(** ** Lemmas *)

(** What the scripts rely on of the factory's interface. *)
Class FactoryAbi `{EthersOps} `{Artifacts} : Prop := {
  factory_method : has_method "SingletonFactory" "deploy" = true;
  factory_encodes bytecode salt :
    ∃ data, encodeFunctionData "SingletonFactory" "deploy" [VStr bytecode; VStr salt] = Some data;
}.

(** The factory call a deployment sends. *)
Definition deploy_tx `{EthersOps} `{Chain} (w : world) (factory bytecode salt : string) (o : tx_options) : tx :=
  next_tx w (Some factory)
    (default "" (encodeFunctionData "SingletonFactory" "deploy" [VStr bytecode; VStr salt])) o.

Lemma log_run verbose msg w :
  ∃ c, log verbose msg w = (Done tt, set_console c w).
Proof. destruct verbose; [by eexists|]. exists (w_console w). by destruct w. Qed.

(** Steps over a [log]. *)
Ltac step_log :=
  match goal with
  | |- context [(log ?v ?m ≫= ?k) ?w] =>
      let c := fresh "c" in let E := fresh "E" in
      destruct (log_run v m w) as [c E]; rewrite (run_bind_done _ _ _ _ _ E); clear E
  end.

Section create2_lemmas.
Context `{EthersOps} `{Chain} `{Artifacts} `{!FactoryAbi}.
Context (factory : string) `{!ChainLaws factory}.
Variables (contractName bytecode salt a : string) (o : tx_options) (verbose : bool).
Hypothesis Ha : create2_address factory salt bytecode = Some a.
Hypothesis Hg : o_gasLimit o ≠ None.

Lemma deploy_tx_is_call w : is_factory_call factory bytecode salt (deploy_tx w factory bytecode salt o).
Proof.
  destruct (factory_encodes bytecode salt) as [d E]. split; [done|].
  unfold deploy_tx. cbn [tx_data next_tx]. by rewrite E.
Qed.

Lemma factory_call_run w :
  call_contract factory "SingletonFactory" "deploy" [VStr bytecode; VStr salt] o w =
  sendTransaction (Some factory)
    (default "" (encodeFunctionData "SingletonFactory" "deploy" [VStr bytecode; VStr salt])) o w.
Proof.
  unfold call_contract. rewrite factory_method.
  destruct (factory_encodes bytecode salt) as [d ->]. done.
Qed.

(** The run up to the first look at the target. *)
Lemma deploy_prefix w :
  ∃ c,
  deployBytecodeViaCreate2 contractName bytecode salt o (VStr factory) verbose w =
  (if has_code (code_at (w_mined w) a) then
     log verbose ("Contract " +:+ contractName +:+ " already deployed");; mret (a, HashZero)
   else
     tx ← call_contract factory "SingletonFactory" "deploy" [VStr bytecode; VStr salt] o;
     receipt ← wait tx;
     log verbose (contractName +:+ " deployed, tx hash: " +:+ tx_hash (response_tx tx) +:+
                  ", expected address: " +:+ a);;
     deployedBytecodeAfter ← getCode a;
     if has_code deployedBytecodeAfter then mret (a, tx_hash (response_tx tx))
     else throw (JsError ("Failed to deploy " +:+ contractName +:+ " bytecode via create2 factory")))
  (set_console c w).
Proof.
  unfold deployBytecodeViaCreate2. step_log. exists c.
  rewrite (run_bind_done _ _ _ factory (set_console c w)) by done.
  rewrite (run_bind_done _ _ _ a (set_console c w)) by (unfold lift; by rewrite Ha).
  by erewrite run_bind_done by reflexivity.
Qed.

Lemma deploy_present w :
  w_pool w = [] → has_code (code_at (w_mined w) a) = true →
  ∃ w', deployBytecodeViaCreate2 contractName bytecode salt o (VStr factory) verbose w =
      (Done (a, HashZero), w') ∧ ran w [] (w_addresses w) w'.
Proof.
  intros Hp Hc. destruct (deploy_prefix w) as [c ->]. rewrite Hc. step_log.
  eexists. split; [done|]. by apply ran_console, ran_console, ran_refl.
Qed.

(** The run after an empty target, for a transaction with the next nonce. *)
Lemma deploy_absent_next w :
  w_pool w = [] → has_code (code_at (w_mined w) a) = false → nonce_is_next w o →
  let t := deploy_tx w factory bytecode salt o in
  ∃ w', ran w [t] (w_addresses w) w' ∧
    deployBytecodeViaCreate2 contractName bytecode salt o (VStr factory) verbose w =
    ((if constructor_ok (w_mined w) bytecode then Done (a, tx_hash t)
      else Throw (JsError ("Failed to deploy " +:+ contractName +:+ " bytecode via create2 factory"))), w') ∧
    has_code (code_at (w_mined w') a) = constructor_ok (w_mined w) bytecode.
Proof.
  intros Hp Hc Hn t. pose proof (deploy_tx_is_call w) as Hcall. fold t in Hcall.
  destruct (deploy_prefix w) as [c ->]. rewrite Hc.
  erewrite run_bind_done by (rewrite factory_call_run; apply send_next; [done|done|by intros]).
  cbn [w_mined set_console]. change (next_tx (set_console c w) _ _ o) with t.
  erewrite run_bind_done by (unfold wait; rewrite (factory_succeeds _ _ _ _ Hcall); reflexivity).
  step_log. erewrite run_bind_done by reflexivity. cbn [w_mined set_mined set_console].
  pose proof (factory_creates (w_mined w) t bytecode salt a Hcall Ha) as Hcr. rewrite Hc in Hcr.
  cbn [orb] in Hcr. eexists. split_and!; cycle 1.
  - rewrite Hcr. by destruct (constructor_ok _ _).
  - exact Hcr.
  - by split.
Qed.

Lemma deploy_absent_stale w n :
  has_code (code_at (w_mined w) a) = false → o_nonce o = Some n → n < tx_count w →
  ∃ c, deployBytecodeViaCreate2 contractName bytecode salt o (VStr factory) verbose w =
    (Throw nonce_expired, set_console c w).
Proof.
  intros Hc Hn Hlt. destruct (deploy_prefix w) as [c ->]. exists c. rewrite Hc.
  apply run_bind_throw. rewrite factory_call_run. by eapply send_stale.
Qed.

Lemma deploy_absent_future w n :
  has_code (code_at (w_mined w) a) = false → o_nonce o = Some n → tx_count w < n →
  ∃ w', deployBytecodeViaCreate2 contractName bytecode salt o (VStr factory) verbose w = (Hang, w') ∧
    w_mined w' = w_mined w.
Proof.
  intros Hc Hn Hlt. destruct (deploy_prefix w) as [c ->]. rewrite Hc.
  destruct (send_future (set_console c w) (Some factory)
    (default "" (encodeFunctionData "SingletonFactory" "deploy" [VStr bytecode; VStr salt])) o n)
    as [t E]; [done|done|done|].
  erewrite run_bind_done by (rewrite factory_call_run; exact E).
  erewrite run_bind_hang by reflexivity. by eexists.
Qed.

(** A deployment that returns leaves code at the address it returns. *)
Lemma deploy_done w a1 h w' :
  w_pool w = [] →
  deployBytecodeViaCreate2 contractName bytecode salt o (VStr factory) verbose w = (Done (a1, h), w') →
  a1 = a ∧ has_code (code_at (w_mined w') a) = true ∧ w_pool w' = [].
Proof.
  intros Hp Hrun. destruct (has_code (code_at (w_mined w) a)) eqn:Hc.
  - destruct (deploy_present w Hp Hc) as (w1 & E & R). rewrite E in Hrun. injection Hrun as <- _ <-.
    destruct R as [Hm Hpl]. rewrite Hm, app_nil_r. done.
  - destruct (decide (nonce_is_next w o)) as [Hn|Hn].
    + destruct (deploy_absent_next w Hp Hc Hn) as (w1 & R & E & Hcode). rewrite E in Hrun.
      destruct (constructor_ok _ _); [|done]. injection Hrun as <- _ <-. by destruct R.
    + unfold nonce_is_next in Hn. destruct (o_nonce o) as [n|] eqn:En; [|tauto].
      destruct (Z.lt_total n (tx_count w)) as [Hlt|[->|Hlt]]; [|tauto|].
      * destruct (deploy_absent_stale w n Hc En Hlt) as [c E]. by rewrite E in Hrun.
      * destruct (deploy_absent_future w n Hc En Hlt) as (w1 & E & _). by rewrite E in Hrun.
Qed.

End create2_lemmas.

(** The data of the factory call. *)
Definition factory_calldata `{EthersOps} (bytecode salt : string) : option string :=
  encodeFunctionData "SingletonFactory" "deploy" [VStr bytecode; VStr salt].

(** The transaction of a request: the nonce is the next one unless it is given. *)
Definition sent_tx `{Chain} (w : world) (to : option string) (data : string) (o : tx_options) : tx :=
  mkTx (js_coalesce (o_nonce o) (tx_count w)) to data (js_coalesce (o_value o) 0) (o_gasPrice o) (o_gasLimit o)
    (o_factoryDeps o).

(** Sending a transaction with an empty pool. *)
Lemma send_cases `{Chain} w to data o :
  w_pool w = [] →
  let t := sent_tx w to data o in
  ∃ w', w' = (if bool_decide (o_gasLimit o = None) && negb (tx_succeeds (w_mined w) t) then w
              else match tx_nonce t ?= tx_count w with
                   | Lt => w
                   | Gt => set_mined (w_mined w) (w_pool w ++ [t]) w
                   | Eq => set_mined (w_mined w ++ [t]) [] w
                   end) ∧
  sendTransaction to data o w =
    (if bool_decide (o_gasLimit o = None) && negb (tx_succeeds (w_mined w) t) then Throw unpredictable_gas
     else match tx_nonce t ?= tx_count w with
          | Lt => Throw nonce_expired
          | Gt => Done (Queued t)
          | Eq => Done (Mined (w_mined w) t)
          end, w').
Proof.
  intros Hp t. eexists. split; [reflexivity|]. unfold sendTransaction. fold (sent_tx w to data o). fold t.
  destruct (_ && _); [done|]. change (js_coalesce (o_nonce o) (tx_count w)) with (tx_nonce t).
  destruct (Z.compare_spec (tx_nonce t) (tx_count w)) as [E|E|E].
  - rewrite E, Z.ltb_irrefl, Hp. done.
  - by rewrite (proj2 (Z.ltb_lt _ _) E).
  - by rewrite (proj2 (Z.ltb_ge _ _)), (proj2 (Z.ltb_lt _ _) E) by lia.
Qed.

Lemma bind_lift_done {A B} (x : outcome A) a (k : A → M B) : x = Done a → (lift x ≫= k) = k a.
Proof. by intros ->. Qed.

(** Preparing the deployment data does not depend on the state. *)
Lemma deploy_data_state `{Artifacts} contractName args w :
  (∃ code, ∀ w', getDeployTransaction contractName args w' = (Done code, w')) ∨
  (∃ e, getDeployTransaction contractName args w = (Throw e, w)).
Proof.
  unfold getDeployTransaction. destruct (ctor_inputs contractName) as [n|]; [|right; by eexists].
  unfold mbind, M_bind, lift; cbn [or_throw].
  destruct (bool_decide (n = length args)); [|right; by eexists].
  destruct (deploy_data contractName args) as [d|]; [left|right]; by eexists.
Qed.

(** [getAddressFromEnv] returns exactly the well-formed values. *)
Lemma getAddressFromEnv_done env name a :
  getAddressFromEnv env name = Done a ↔ env !! name = Some a ∧ hex_regex 40 (Some a) = true.
Proof.
  apply (env_reader_inv (msg := λ o, JsError ("Incorrect address format hash in " +:+ name +:+ " env: " +:+ js_show o))).
  done.
Qed.

(** A variable that is not an address is an error, never a hang. *)
Lemma getAddressFromEnv_total env name :
  (∃ a, getAddressFromEnv env name = Done a) ∨ (∃ e, getAddressFromEnv env name = Throw (JsError e)).
Proof. unfold getAddressFromEnv. destruct (hex_regex _ _); cbn; eauto. Qed.

Lemma put_lookup a group field v :
  put a group field v !! group ≫= (λ g, g !! field) = Some v.
Proof. unfold put. rewrite lookup_insert_eq. cbn. by rewrite lookup_insert_eq. Qed.

Lemma put_lookup_ne a group field v group' field' :
  (group', field') ≠ (group, field) →
  put a group field v !! group' ≫= (λ g, g !! field') = a !! group' ≫= (λ g, g !! field').
Proof.
  intros Hne. unfold put. destruct (decide (group' = group)) as [->|].
  - rewrite lookup_insert_eq. cbn. rewrite lookup_insert_ne by congruence.
    by destruct (a !! group) eqn:E; cbn; rewrite ?lookup_empty.
  - by rewrite lookup_insert_ne by done.
Qed.

(** The entries read so far are in the object. *)
Lemma read_entries_spec env l acc :
  NoDup (l.*1) →
  Forall (λ e : string * string * string, ∃ a, getAddressFromEnv env e.2 = Done a) l →
  ∃ r, read_entries env l acc = Done r ∧
    (∀ group field var, (group, field, var) ∈ l →
       r !! group ≫= (λ g, g !! field) = env !! var) ∧
    (∀ group field, (group, field) ∉ l.*1 →
       r !! group ≫= (λ g, g !! field) = acc !! group ≫= (λ g, g !! field)).
Proof.
  revert acc. induction l as [|[[group field] var] l IH]; intros acc Hnd HF.
  - exists acc. split_and!; [done| |done]. by intros ??? ?%not_elem_of_nil.
  - cbn in Hnd. apply NoDup_cons in Hnd as [Hni Hnd].
    apply Forall_cons in HF as [[a Ha] HF]. cbn in Ha.
    destruct (IH (put acc group field a) Hnd HF) as (r & Er & Hin & Hout).
    exists r. cbn [read_entries]. rewrite Ha. cbn [mbind outcome_bind]. split_and!; [done|..].
    + intros g f v [[= -> -> ->]|Hv]%elem_of_cons; [|by apply Hin].
      rewrite (Hout _ _ Hni), put_lookup. apply getAddressFromEnv_done in Ha as [-> _]. done.
    + intros g f Hnot. cbn in Hnot. apply not_elem_of_cons in Hnot as [Hne Hnot].
      rewrite (Hout _ _ Hnot). by apply put_lookup_ne.
Qed.

Lemma read_entries_fails env l acc group field var :
  (group, field, var) ∈ l → (∀ a, getAddressFromEnv env var ≠ Done a) →
  ∃ e, read_entries env l acc = Throw (JsError e).
Proof.
  revert acc. induction l as [|[[g f] v] l IH]; intros acc Hin Hbad; [by apply not_elem_of_nil in Hin|].
  cbn [read_entries]. destruct (getAddressFromEnv_total env v) as [[a E]|[e E]]; rewrite E; cbn; [|by eexists].
  apply elem_of_cons in Hin as [[= -> -> ->]|Hin]; [by destruct (Hbad a)|]. by eapply IH.
Qed.

Lemma address_entries_nodup : NoDup (address_entries.*1).
Proof. apply (bool_decide_unpack _). by vm_compute. Qed.

Lemma read_entries_delete env l acc name :
  Forall (λ e : string * string * string, e.2 ≠ name) l →
  read_entries (delete name env) l acc = read_entries env l acc.
Proof.
  intros HF. revert acc. induction HF as [|[[g f] v] l Hne _ IH]; intros acc; [done|].
  cbn [read_entries]. unfold getAddressFromEnv. cbn in Hne. rewrite lookup_delete_ne by done.
  destruct (negb _); [done|]. cbn. apply IH.
Qed.

(** The groups of the address book are those of its entries. *)
Lemma read_entries_group env l acc r group :
  read_entries env l acc = Done r → acc !! group = None →
  bool_decide (group ∈ (λ e : string * string * string, e.1.1) <$> l) = false → r !! group = None.
Proof.
  revert acc. induction l as [|[[g f] v] l IH]; intros acc Hr Ha Hn; [by injection Hr as <-|].
  apply outcome_bind_inv in Hr as (a & _ & Hr). apply bool_decide_eq_false in Hn. cbn in Hn.
  apply not_elem_of_cons in Hn as [Hne Hn]. eapply IH; [exact Hr| |by apply bool_decide_eq_false].
  unfold put. by rewrite lookup_insert_ne.
Qed.

Lemma env_addresses_group `{EthersOps} group env r :
  deployedAddressesFromEnv env = Done r →
  bool_decide (group ∈ "" :: ((λ e : string * string * string, e.1.1) <$> address_entries)) = false →
  r !! group = None.
Proof.
  intros (i & _ & (a & Hr & [= <-])%outcome_bind_inv)%outcome_bind_inv Hn.
  apply bool_decide_eq_false in Hn. apply not_elem_of_cons in Hn as [Hne Hn].
  unfold put. rewrite lookup_insert_ne by done.
  eapply read_entries_group; [exact Hr|done|by apply bool_decide_eq_false].
Qed.

(** ** Properties *)

(** C38: A CREATE2 deployment through the singleton factory has exactly these
    outcomes, for a wallet without queued transactions.  A salt or bytecode
    without a CREATE2 address is an error.  With code at the address, it is
    returned with a zero hash.  Otherwise one factory call is sent: an error if it
    cannot be encoded, or if no gas limit was given and the call would revert; an
    error with a used nonce; never a result with a nonce beyond the next one, and
    the transaction stays queued; and with the next nonce the transaction is mined,
    and the result is an error if it reverted or left no code at the address, and
    otherwise the address and its hash.  Nothing else is sent, and the address book
    is untouched.  By the rule of CREATE2, a factory call that succeeds on an empty
    address leaves code there exactly when the constructor succeeds. *)
Theorem deployBytecodeViaCreate2_correct `{EthersOps} `{Chain} `{Artifacts}
    (factory contractName bytecode salt : string) (o : tx_options) (verbose : bool) (w : world) :
  has_method "SingletonFactory" "deploy" = true → w_pool w = [] →
  let t data := sent_tx w (Some factory) data o in
  (∀ a data, create2_address factory salt bytecode = Some a → factory_calldata bytecode salt = Some data →
     has_code (code_at (w_mined w) a) = false → tx_succeeds (w_mined w) (t data) = true →
     has_code (code_at (w_mined w ++ [t data]) a) = constructor_ok (w_mined w) bytecode) →
  let run := deployBytecodeViaCreate2 contractName bytecode salt o (VStr factory) verbose w in
  let fails e := ∃ w', run = (Throw e, w') ∧ ran w [] (w_addresses w) w' in
  match create2_address factory salt bytecode with
  | None => fails invalid_hex
  | Some a =>
      if has_code (code_at (w_mined w) a) then
        ∃ w', run = (Done (a, HashZero), w') ∧ ran w [] (w_addresses w) w'
      else match factory_calldata bytecode salt with
      | None => fails invalid_hex
      | Some data =>
          let accepted := tx_succeeds (w_mined w) (t data) in
          if bool_decide (o_gasLimit o = None) && negb accepted then fails unpredictable_gas
          else match Z.compare (tx_nonce (t data)) (tx_count w) with
          | Lt => fails nonce_expired
          | Gt => ∃ w', run = (Hang, w') ∧ w_mined w' = w_mined w ∧ w_pool w' = [t data] ∧
                    w_addresses w' = w_addresses w
          | Eq => ∃ w', ran w [t data] (w_addresses w) w' ∧
              run = (if accepted then
                       if constructor_ok (w_mined w) bytecode then Done (a, tx_hash (t data))
                       else Throw (JsError ("Failed to deploy " +:+ contractName +:+ " bytecode via create2 factory"))
                     else Throw call_exception, w')
          end
      end
  end.
Proof.
  intros Hm Hp t Hlaw run fails. destruct (create2_address factory salt bytecode) as [a|] eqn:Ha.
  2:{ unfold fails, run, deployBytecodeViaCreate2. step_log. eexists. split.
      - rewrite (run_bind_done _ _ _ factory (set_console c w)) by done.
        by rewrite (run_bind_throw _ _ _ invalid_hex (set_console c w)) by (unfold lift; by rewrite Ha).
      - by apply ran_console, ran_refl. }
  destruct (has_code (code_at (w_mined w) a)) eqn:Hc; [by apply deploy_present|].
  unfold fails, run. destruct (deploy_prefix factory contractName bytecode salt a o verbose Ha w) as [c ->].
  rewrite Hc. unfold call_contract. rewrite Hm. fold (factory_calldata bytecode salt).
  destruct (factory_calldata bytecode salt) as [data|] eqn:Hd.
  2:{ eexists. split; [reflexivity|]. by apply ran_console, ran_refl. }
  specialize (Hlaw a data eq_refl eq_refl Hc).
  rewrite (bind_lift_done (or_throw invalid_hex (Some data)) data) by done.
  destruct (send_cases (set_console c w) (Some factory) data o Hp) as (w1 & R & E).
  change (sent_tx (set_console c w) _ data o) with (t data) in E, R.
  change (tx_count (set_console c w)) with (tx_count w) in E, R. cbn [w_mined set_console] in E, R.
  destruct (bool_decide (o_gasLimit o = None) && negb (tx_succeeds (w_mined w) (t data))).
  { rewrite (run_bind_throw _ _ _ _ _ E). eexists. split; [reflexivity|]. by subst w1; apply ran_console, ran_refl. }
  destruct (tx_nonce (t data) ?= tx_count w).
  - rewrite (run_bind_done _ _ _ _ _ E). subst w1. unfold wait.
    destruct (tx_succeeds (w_mined w) (t data)).
    + erewrite run_bind_done by reflexivity. step_log. erewrite run_bind_done by reflexivity.
      cbn [w_mined set_mined set_console response_tx]. rewrite Hlaw by done. eexists. split; cycle 1.
      * by destruct (constructor_ok _ _).
      * by split.
    + erewrite run_bind_throw by reflexivity. eexists. split; cycle 1; [reflexivity|by split].
  - rewrite (run_bind_throw _ _ _ _ _ E). eexists. split; [reflexivity|]. by subst w1; apply ran_console, ran_refl.
  - rewrite (run_bind_done _ _ _ _ _ E). subst w1. erewrite run_bind_hang by reflexivity.
    eexists. split; [reflexivity|]. cbn. by rewrite Hp.
Qed.

(** redeploying is idempotent: once a deployment has returned an address,
    running it again (with any nonce and gas options) returns the same address,
    with a zero hash, and sends no transaction. *)
Theorem deployViaCreate2_idempotent `{EthersOps} `{Chain} `{Artifacts} `{!FactoryAbi}
    (factory : string) `{!ChainLaws factory} (contractName : string) (args : list val)
    (salt : string) (o o' : tx_options) (verbose : bool) (w w' : world) (a h : string) :
  o_gasLimit o ≠ None → o_gasLimit o' ≠ None → w_pool w = [] →
  deployViaCreate2 contractName args salt o (VStr factory) verbose None w = (Done (a, h), w') →
  ∃ w'', deployViaCreate2 contractName args salt o' (VStr factory) verbose None w' =
      (Done (a, HashZero), w'') ∧ ran w' [] (w_addresses w') w''.
Proof.
  intros Hg Hg' Hp Hrun. unfold deployViaCreate2 in *. cbn [str_truthy] in *.
  destruct (deploy_data_state contractName args w) as [Hs|[e Hs]].
  2:{ by rewrite (run_bind_throw _ _ _ _ _ Hs) in Hrun. }
  destruct Hs as [code Hs]. rewrite (run_bind_done _ _ _ _ _ (Hs w)) in Hrun.
  rewrite (run_bind_done _ _ _ _ _ (Hs w')).
  destruct (create2_address factory salt code) as [a1|] eqn:Ha.
  2:{ exfalso. revert Hrun. unfold deployBytecodeViaCreate2. step_log.
      rewrite (run_bind_done _ _ _ factory (set_console c w)) by done.
      by rewrite (run_bind_throw _ _ _ invalid_hex (set_console c w)) by (unfold lift; by rewrite Ha). }
  destruct (deploy_done factory contractName code salt a1 o verbose Ha Hg w _ _ _ Hp Hrun)
    as (-> & Hc & Hp').
  by apply deploy_present.
Qed.

(** [deployedAddressesFromEnv] returns exactly when every variable of the
    address book holds a 20-byte hexadecimal address (and the asset id can be
    computed); each field then holds the value of its variable, and any
    missing or malformed variable makes it throw. *)
Theorem deployedAddressesFromEnv_correct `{EthersOps} (env : environ) (assetId : string) :
  base_token_asset_id env = Done assetId →
  (Forall (λ e : string * string * string, hex_regex 40 (env !! e.2) = true) address_entries →
    ∃ r, deployedAddressesFromEnv env = Done r ∧
      (∀ group field var, (group, field, var) ∈ address_entries →
         r !! group ≫= (λ g, g !! field) = env !! var) ∧
      r !! "" ≫= (λ g, g !! "BaseTokenAssetId") = Some assetId) ∧
  (∀ group field var, (group, field, var) ∈ address_entries → hex_regex 40 (env !! var) = false →
    ∃ e, deployedAddressesFromEnv env = Throw (JsError e)).
Proof.
  intros Hid. unfold deployedAddressesFromEnv. rewrite Hid. cbn [mbind outcome_bind]. split.
  - intros HF. destruct (read_entries_spec env address_entries ∅ address_entries_nodup) as (r & -> & Hin & _).
    { eapply Forall_impl; [exact HF|]. intros [[g f] v] Hx. cbn in *. unfold getAddressFromEnv.
      rewrite Hx. by eexists. }
    cbn. eexists. split_and!; [done| |apply put_lookup].
    intros group field var Hv. rewrite put_lookup_ne; [by apply Hin|].
    intros [= -> ->]. revert Hv. apply (bool_decide_unpack _). by vm_compute.
  - intros group field var Hv Hbad.
    destruct (read_entries_fails env address_entries ∅ group field var Hv) as [e ->]; [|by eexists].
    intros a Ha. unfold getAddressFromEnv in Ha. by rewrite Hbad in Ha.
Qed.

(** a base token asset id given in the environment is ignored: a 32-byte
    value of [CONTRACTS_BASE_TOKEN_ASSET_ID] never passes the address reader it
    is read with, so the result is the same as without the variable. *)
Theorem base_token_asset_id_env_ignored `{EthersOps} (env : environ) (h : string) :
  getHashFromEnv env "CONTRACTS_BASE_TOKEN_ASSET_ID" = Done h →
  deployedAddressesFromEnv env = deployedAddressesFromEnv (delete "CONTRACTS_BASE_TOKEN_ASSET_ID" env).
Proof.
  intros Hh. unfold deployedAddressesFromEnv.
  rewrite read_entries_delete by (apply (bool_decide_unpack _); by vm_compute).
  replace (base_token_asset_id (delete "CONTRACTS_BASE_TOKEN_ASSET_ID" env))
    with (base_token_asset_id env); [done|].
  unfold base_token_asset_id, getAddressFromEnv, getNumberFromEnv.
  rewrite lookup_delete_eq, !lookup_delete_ne by done.
  destruct (hex_regex 40 (env !! "CONTRACTS_BASE_TOKEN_ASSET_ID")) eqn:E; [|done].
  exfalso. unfold getHashFromEnv in Hh. destruct (env !! "CONTRACTS_BASE_TOKEN_ASSET_ID") as [s|]; [|done].
  destruct (hex_regex 64 (Some s)) eqn:E2; [|done].
  apply hex_regex_length in E, E2. lia.
Qed.

(** ** Witnesses *)

#[export] Instance model_factory_abi ctor :
  @FactoryAbi model_ethers (model_artifacts ctor).
Proof. split; [done|]. intros b s. by eexists. Qed.

Definition no_views (method : string) (args : list val) : outcome val := Done (VBool false).
Definition one_ctor (name : string) : option nat := Some 0%nat.
Definition sample_opts : tx_options := mkOpts None (Some 1) (Some 10000000) None [].
Definition empty_world : world := model_world ∅ ∅.

(** A request with a nonce that is not yet due. *)
Definition early_opts : tx_options := mkOpts (Some 5) (Some 1) (Some 10000000) None [].

(** A deployment that succeeds, and one that is never mined. *)
Lemma deployBytecodeViaCreate2_witness :
  (∃ a w', @deployBytecodeViaCreate2 model_ethers (model_chain no_views) (model_artifacts one_ctor)
    "DiamondInit" "0x6001" HashZero sample_opts (VStr ADDRESS_ONE) false empty_world
    = (Done (a, "tx0"), w') ∧ length (w_mined w') = 1%nat) ∧
  ∃ w', @deployBytecodeViaCreate2 model_ethers (model_chain no_views) (model_artifacts one_ctor)
    "DiamondInit" "0x6001" HashZero early_opts (VStr ADDRESS_ONE) false empty_world
    = (Hang, w') ∧ length (w_pool w') = 1%nat.
Proof.
  split.
  - destruct (@deployBytecodeViaCreate2_correct model_ethers (model_chain no_views)
      (model_artifacts one_ctor) ADDRESS_ONE "DiamondInit" "0x6001" HashZero
      sample_opts false empty_world eq_refl eq_refl) as (w' & R & E).
    { intros a data Ha Hd _ _. vm_compute in Ha, Hd. injection Ha as <-. injection Hd as <-. vm_compute. reflexivity. }
    eexists _, w'. split; [exact E|]. by rewrite (ran_mined _ _ _ _ R).
  - destruct (@deployBytecodeViaCreate2_correct model_ethers (model_chain no_views)
      (model_artifacts one_ctor) ADDRESS_ONE "DiamondInit" "0x6001" HashZero
      early_opts false empty_world eq_refl eq_refl) as (w' & E & _ & Hq & _).
    { intros a data Ha Hd _ _. vm_compute in Ha, Hd. injection Ha as <-. injection Hd as <-. vm_compute. reflexivity. }
    exists w'. split; [exact E|]. by rewrite Hq.
Defined.

Definition sample_deploy : M (string * string) :=
  @deployViaCreate2 model_ethers (model_chain no_views) (model_artifacts one_ctor)
    "DiamondInit" [] HashZero sample_opts (VStr ADDRESS_ONE) false None.

Lemma deployViaCreate2_idempotent_witness :
  ∃ a w'', (r ← sample_deploy; r' ← sample_deploy; mret (r.1, r'.1, r'.2)) empty_world =
      (Done (a, a, HashZero), w'') ∧ length (w_mined w'') = 1%nat.
Proof.
  assert (Hd : is_done (sample_deploy empty_world).1 = true) by (vm_compute; reflexivity).
  assert (Hl : length (w_mined (sample_deploy empty_world).2) = 1%nat) by (vm_compute; reflexivity).
  destruct (sample_deploy empty_world) as [[[a h]|e|] w'] eqn:E; [|discriminate Hd|discriminate Hd].
  cbn [snd] in Hl. pose proof E as E1. unfold sample_deploy in E1.
  destruct (@deployViaCreate2_idempotent model_ethers (model_chain no_views) (model_artifacts one_ctor)
    (model_factory_abi one_ctor) ADDRESS_ONE (model_chain_laws no_views ADDRESS_ONE) "DiamondInit" []
    HashZero sample_opts sample_opts false empty_world w' a h ltac:(discriminate) ltac:(discriminate)
    eq_refl E1) as (w'' & E2 & R). fold sample_deploy in E2.
  exists a, w''. split.
  - rewrite (run_bind_done _ _ _ _ _ E). by rewrite (run_bind_done _ _ _ _ _ E2).
  - by rewrite (ran_mined _ _ _ _ R), app_nil_r.
Defined.

Definition sample_env : environ :=
  list_to_map (("ETH_CLIENT_CHAIN_ID", "9") ::
    (map (λ e : string * string * string, (e.2, sample_address)) address_entries)).

Lemma deployedAddressesFromEnv_witness :
  ∃ r, @deployedAddressesFromEnv model_ethers sample_env = Done r ∧
    r !! "Bridges" ≫= (λ g, g !! "L1NullifierProxy") = Some sample_address.
Proof.
  assert (Hd : is_done (@base_token_asset_id model_ethers sample_env) = true) by (vm_compute; reflexivity).
  destruct (@base_token_asset_id model_ethers sample_env) as [i|e|] eqn:E; [|discriminate|discriminate].
  destruct (proj1 (@deployedAddressesFromEnv_correct model_ethers sample_env i E)) as (r & Er & Hf & _).
  - apply (bool_decide_unpack _). by vm_compute.
  - exists r. split; [exact Er|].
    rewrite (Hf "Bridges" "L1NullifierProxy" "CONTRACTS_L1_NULLIFIER_PROXY_ADDR").
    + by vm_compute.
    + apply (bool_decide_unpack _). by vm_compute.
Defined.

Definition asset_env : environ := <["CONTRACTS_BASE_TOKEN_ASSET_ID" := sample_hash]> sample_env.

Lemma base_token_asset_id_env_ignored_witness :
  @deployedAddressesFromEnv model_ethers asset_env =
  @deployedAddressesFromEnv model_ethers (delete "CONTRACTS_BASE_TOKEN_ASSET_ID" asset_env).
Proof.
  exact (@base_token_asset_id_env_ignored model_ethers asset_env sample_hash
    ltac:(vm_compute; reflexivity)).
Defined.
