(* ===== verification/Deployer.v ===== *)
(** * The deployer ([class Deployer] of [l1-contracts/src.ts/deploy.ts]), first part

    Construction, and the methods that deploy one contract each and record its
    address.  The mutable fields ([addresses], [chainId]) and the bytecode
    hashes kept in module variables are in the [world]; the fields that never
    change after construction are the record [Deployer]. *)

From stdpp Require Import base gmap list strings pretty.
From Stdlib Require Import ZArith Lia.
From S2P Require Import Prelude Js Ethers DiamondCut Utils World DeployUtils.

Record Deployer : Type := mkDeployer {
  deployWallet : string;
  zkWallet : bool;
  verbose : bool;
  l1ChainId : jsnum;
  ownerAddress : string;
  deployedLogPrefix : string;
}.

Record DeployerConfig : Type := mkDeployerConfig {
  cfg_wallet : string;
  cfg_zkWallet : bool;
  cfg_addresses : option addresses;
  cfg_ownerAddress : option string;
  cfg_verbose : option bool;
  cfg_bootloaderBytecodeHash : option string;
  cfg_defaultAccountBytecodeHash : option string;
  cfg_deployedLogPrefix : option string;
  cfg_l1ChainId : option string;
  cfg_evmEmulatorBytecodeHash : option string;
}.

(** ** Construction *)

Section construction.
Context `{EthersOps} `{Files}.

(** [path.join(process.env.ZKSYNC_HOME, rest)]: [path.join(undefined)] throws. *)
Definition zksync_home (rest : string) : M string :=
  home ← get_env "ZKSYNC_HOME";
  h ← lift (or_throw (JsTypeError "The 'path' argument must be of type string") home);
  mret (h +:+ "/" +:+ rest).

Definition readBatchBootloaderBytecode : M string :=
  bootloaderPath ← zksync_home "contracts/system-contracts/bootloader";
  lift (file_bytes (bootloaderPath +:+ "/build/artifacts/proved_batch.yul.zbin")).

Definition readSystemContractsBytecode (fileName : string) : M string :=
  systemContractsPath ← zksync_home "contracts/system-contracts";
  lift (file_bytecode (systemContractsPath +:+ "/artifacts-zk/contracts-preprocessed") fileName).

(** [readEvmEmulatorbytecode] is imported from scripts/utils.ts, which has no
    such export: calling it is a TypeError. *)
Definition readEvmEmulatorbytecode : M string :=
  throw (JsTypeError "readEvmEmulatorbytecode is not a function").

(** [given ? given : hexlify(hashL2Bytecode(read()))] *)
Definition hash_or_read (given : option string) (read : M string) : M string :=
  if str_truthy given then mret (default "" given)
  else code ← read; h ← lift (hashL2Bytecode code); mret (hexlify h).

Definition put_addresses (a : addresses) : M unit := λ w, (Done tt, set_addresses a w).
Definition put_hashes (h : string * string * string) : M unit := λ w, (Done tt, set_hashes h w).
Definition get_hashes : M (string * string * string) := λ w, (Done (w_hashes w), w).
Definition put_chainId (n : jsnum) : M unit := λ w, (Done tt, set_chainId n w).
Definition get_chainId : M jsnum := λ w, (Done (w_chainId w), w).

Definition new_Deployer (config : DeployerConfig) : M Deployer :=
  a ← (match cfg_addresses config with
       | Some a => mret a
       | None => from_env deployedAddressesFromEnv
       end);
  put_addresses a;;
  boot ← hash_or_read (cfg_bootloaderBytecodeHash config) readBatchBootloaderBytecode;
  hs ← get_hashes;
  put_hashes (boot, hs.1.2, hs.2);;
  acc ← hash_or_read (cfg_defaultAccountBytecodeHash config)
          (readSystemContractsBytecode "DefaultAccount");
  put_hashes (boot, acc, hs.2);;
  emu ← hash_or_read (cfg_evmEmulatorBytecodeHash config) readEvmEmulatorbytecode;
  put_hashes (boot, acc, emu);;
  network ← get_env "CHAIN_ETH_ZKSYNC_NETWORK_ID";
  put_chainId (js_parseInt network);;
  l1 ← (if str_truthy (cfg_l1ChainId config) then mret (default "" (cfg_l1ChainId config))
        else from_env (λ env, getNumberFromEnv env "ETH_CLIENT_CHAIN_ID"));
  mret {| deployWallet := cfg_wallet config;
          zkWallet := cfg_zkWallet config;
          verbose := default false (cfg_verbose config);
          l1ChainId := js_parseInt (Some l1);
          ownerAddress := js_coalesce (cfg_ownerAddress config) (cfg_wallet config);
          deployedLogPrefix := js_coalesce (cfg_deployedLogPrefix config) "CONTRACTS" |}.

End construction.

Section methods.
Context `{EthersOps} `{Chain} `{Artifacts} `{ZkArtifacts} `{Files} `{Interfaces}.
Variable cfg : SystemConfig.
Variable d : Deployer.

Definition isZkMode : bool := zkWallet d.

(** ** Small steps shared by the methods *)

(** [if (this.verbose) console.log(msg)] *)
Definition say (msg : string) : M unit := when (verbose d) (console_log msg).

(** [NAME=value], the form in which addresses are handed to the environment. *)
Definition env_line (name value : string) : string := name +:+ "=" +:+ value.

(** The last two statements of a deploying method. *)
Definition record_address (envName group field contractAddress : string) : M unit :=
  say (env_line envName contractAddress);;
  set_address group field contractAddress.

Definition addr (group field : string) : M val := get_address group field.

(** [this.addresses.group.field] used as the address of a contract object. *)
Definition contract_at (group field : string) : M string :=
  v ← addr group field; as_address v.

Definition number_env (name : string) : M string := from_env (λ env, getNumberFromEnv env name).
Definition address_env (name : string) : M string := from_env (λ env, getAddressFromEnv env name).
Definition hash_env (name : string) : M string := from_env (λ env, getHashFromEnv env name).

Definition PROXY : string :=
  "@openzeppelin/contracts-v4/proxy/transparent/TransparentUpgradeableProxy.sol:TransparentUpgradeableProxy".
Definition PROXY_ADMIN : string :=
  "@openzeppelin/contracts-v4/proxy/transparent/ProxyAdmin.sol:ProxyAdmin".
Definition BEACON : string :=
  "@openzeppelin/contracts-v4/proxy/beacon/UpgradeableBeacon.sol:UpgradeableBeacon".

(** ** Deployment primitives *)

(** The EVM branch sets [ethTxOptions.gasLimit] on the caller's object; callers
    that reuse the object have set it themselves before. *)
Definition deployViaCreate2 (contractName : string) (args : list val) (create2Salt : string)
    (ethTxOptions : tx_options) (bytecode : option string) : M string :=
  if isZkMode then
    match bytecode with
    | Some _ => mret ADDRESS_ONE
    | None =>
        result ← deployViaCreate2Zk contractName args create2Salt ethTxOptions (verbose d);
        mret result.1
    end
  else
    factory ← addr "" "Create2Factory";
    result ← DeployUtils.deployViaCreate2 contractName args create2Salt
               (default_gasLimit 10000000 ethTxOptions) factory (verbose d) bytecode;
    mret result.1.

Definition deployer_deployBytecodeViaCreate2 (contractName bytecode create2Salt : string)
    (ethTxOptions : tx_options) : M string :=
  if isZkMode then throw (JsError "`deployBytecodeViaCreate2` not supported in zkMode")
  else
    factory ← addr "" "Create2Factory";
    result ← deployBytecodeViaCreate2 contractName bytecode create2Salt
               (default_gasLimit 10000000 ethTxOptions) factory (verbose d);
    mret result.1.

Definition updateCreate2FactoryZkMode : M unit :=
  if negb isZkMode then
    throw (JsError "`updateCreate2FactoryZkMode` should be only called in Zk mode")
  else
    console_log "Create2Factory is built into zkSync and so won't be deployed separately";;
    console_log (env_line "CONTRACTS_CREATE2_FACTORY_ADDR" BUILT_IN_ZKSYNC_CREATE2_FACTORY);;
    set_address "" "Create2Factory" BUILT_IN_ZKSYNC_CREATE2_FACTORY.

Definition deployCreate2Factory (ethTxOptions : tx_options) : M unit :=
  say "Deploying Create2 factory";;
  if isZkMode then
    throw (JsError "Create2Factory is built into zkSync and should not be deployed separately")
  else
    create2Factory ← factory_deploy "SingletonFactory" [] ethTxOptions;
    rec ← wait create2Factory.2;
    say (env_line "CONTRACTS_CREATE2_FACTORY_ADDR" create2Factory.1);;
    say "Create2 factory deployed";;
    set_address "" "Create2Factory" create2Factory.1.

Definition loadFromDAFolder (contractName : string) : M string :=
  if bool_decide (contractName = "RollupL1DAValidator") then mret (da_bytecode contractName)
  else throw (JsError ("Unknown DA contract name " +:+ contractName)).

(** [+l1ChainId]: the text is a decimal number on the zk side. *)
Definition getL1ChainId : M Z :=
  if isZkMode then l1 ← number_env "ETH_CLIENT_CHAIN_ID"; mret (dec_value l1)
  else mret network_chainId.

(** ** Governance and admin contracts *)

Definition deployGovernance (create2Salt : string) (ethTxOptions : tx_options) : M unit :=
  contractAddress ← deployViaCreate2 "Governance"
    [VStr (ownerAddress d); VStr AddressZero; VNum 0] create2Salt ethTxOptions None;
  record_address "CONTRACTS_GOVERNANCE_ADDR" "" "Governance" contractAddress.

Definition deployChainAdmin (create2Salt : string) (ethTxOptions : tx_options) : M unit :=
  let o := default_gasLimit 10000000 ethTxOptions in
  accessControlRestriction ← deployViaCreate2 "AccessControlRestriction"
    [VNum 0; VStr (ownerAddress d)] create2Salt o None;
  say (env_line "CONTRACTS_ACCESS_CONTROL_RESTRICTION_ADDR" accessControlRestriction);;
  contractAddress ← deployViaCreate2 "ChainAdmin" [VArr [VStr accessControlRestriction]]
    create2Salt o None;
  record_address "CONTRACTS_CHAIN_ADMIN_ADDR" "" "ChainAdmin" contractAddress.

Definition deployTransparentProxyAdmin (create2Salt : string) (ethTxOptions : tx_options) : M unit :=
  say "Deploying Proxy Admin";;
  let o := if isZkMode then ethTxOptions else default_gasLimit 10000000 ethTxOptions in
  proxyAdmin ← factory_deploy PROXY_ADMIN [] o;
  rec ← wait proxyAdmin.2;
  say "Proxy admin deployed";;
  say (env_line "CONTRACTS_TRANSPARENT_PROXY_ADMIN_ADDR" proxyAdmin.1);;
  set_address "" "TransparentProxyAdmin" proxyAdmin.1;;
  governance ← addr "" "Governance";
  tx ← call_contract proxyAdmin.1 "ProxyAdmin" "transferOwnership" [governance] no_opts;
  receipt ← wait tx;
  say "ProxyAdmin ownership transferred to Governance".

Definition deployValidatorTimelock (create2Salt : string) (ethTxOptions : tx_options) : M unit :=
  executionDelay ← number_env "CONTRACTS_VALIDATOR_TIMELOCK_EXECUTION_DELAY";
  contractAddress ← deployViaCreate2 "ValidatorTimelock"
    [VStr (ownerAddress d); VStr executionDelay] create2Salt ethTxOptions None;
  record_address "CONTRACTS_VALIDATOR_TIMELOCK_ADDR" "" "ValidatorTimeLock" contractAddress.

Definition deployMulticall3 (create2Salt : string) (ethTxOptions : tx_options) : M unit :=
  contractAddress ← deployViaCreate2 "Multicall3" [] create2Salt ethTxOptions None;
  say (env_line "CONTRACTS_L1_MULTICALL3_ADDR" contractAddress).

Definition deployDAValidators (create2Salt : string) (ethTxOptions : tx_options) : M unit :=
  let o := default_gasLimit 10000000 ethTxOptions in
  rollupValidatorBytecode ← loadFromDAFolder "RollupL1DAValidator";
  rollupDAValidatorAddress ← deployViaCreate2 "RollupL1DAValidator" [] create2Salt o
    (Some rollupValidatorBytecode);
  say (env_line "CONTRACTS_L1_ROLLUP_DA_VALIDATOR" rollupDAValidatorAddress);;
  validiumDAValidatorAddress ← deployViaCreate2 "ValidiumL1DAValidator" [] create2Salt o None;
  say (env_line "CONTRACTS_L1_VALIDIUM_DA_VALIDATOR" validiumDAValidatorAddress);;
  relayedSLDAValidator ← deployViaCreate2 "RelayedSLDAValidator" [] create2Salt o None;
  say (env_line "CONTRACTS_L1_RELAYED_SL_DA_VALIDATOR" relayedSLDAValidator);;
  set_address "" "RollupL1DAValidator" rollupDAValidatorAddress;;
  set_address "" "ValidiumL1DAValidator" validiumDAValidatorAddress;;
  set_address "" "RelayedSLDAValidator" relayedSLDAValidator.

End methods.
