(* ===== verification/DeployerContracts.v ===== *)
(** * The deployer, second part: the ecosystem contracts
      ([l1-contracts/src.ts/deploy.ts])

    The bridgehub, the message root, the chain type manager with its diamond
    cut and force deployments, the facets, the bridges and the token vault, and
    the calls made through governance. *)

From stdpp Require Import base gmap list strings pretty.
From Stdlib Require Import ZArith Lia.
From S2P Require Import Prelude Js Ethers DiamondCut Utils World DeployUtils Deployer.

Definition DIAMOND_CUT_DATA_ABI_STRING : string :=
  "tuple(tuple(address facet, uint8 action, bool isFreezable, bytes4[] selectors)[] facetCuts, address initAddress, bytes initCalldata)".
Definition FIXED_FORCE_DEPLOYMENTS_DATA_ABI_STRING : string :=
  "tuple(uint256 l1ChainId, uint256 eraChainId, address l1AssetRouter, bytes32 l2TokenProxyBytecodeHash, address aliasedL1Governance, uint256 maxNumberOfZKChains, bytes32 bridgehubBytecodeHash, bytes32 l2AssetRouterBytecodeHash, bytes32 l2NtvBytecodeHash, bytes32 messageRootBytecodeHash, address l2SharedBridgeLegacyImpl, address l2BridgedStandardERC20Impl)".

(** JavaScript objects handed to the ABI coder. *)
Definition action_val (a : Action) : val := VNum (match a with Add => 0 | Replace => 1 | Remove => 2 end).

Definition facetCut_val (c : FacetCut) : val :=
  VObj [ ("facet", VStr (facet c)); ("selectors", VArr (VStr <$> selectors c));
         ("action", action_val (action c)); ("isFreezable", VBool (isFreezable c)) ].

Definition diamondCut_val (c : DiamondCut) : val :=
  VObj [ ("facetCuts", VArr (facetCut_val <$> facetCuts c));
         ("initAddress", VStr (initAddress c)); ("initCalldata", VStr (initCalldata c)) ].

Definition num_val (n : jsnum) : val := match n with Some z => VNum z | None => VUndef end.

Definition opt_str (v : val) : option string := match v with VStr s => Some s | _ => None end.

Section contracts.
Context `{EthersOps} `{Chain} `{Artifacts} `{ZkArtifacts} `{Files} `{Interfaces}.
Variable cfg : SystemConfig.
Variable d : Deployer.

(** ** The initial diamond cut *)

Definition initialZkSyncZKChainDiamondCut (extraFacets : option (list FacetCut))
    (compareDiamondCutHash : bool) : M DiamondCut :=
  adminFacet ← addr "StateTransition" "AdminFacet";
  gettersFacet ← addr "StateTransition" "GettersFacet";
  mailboxFacet ← addr "StateTransition" "MailboxFacet";
  executorFacet ← addr "StateTransition" "ExecutorFacet";
  current ← lift (getCurrentFacetCutsForAdd (opt_str adminFacet) (opt_str gettersFacet)
                    (opt_str mailboxFacet) (opt_str executorFacet));
  let cuts := current.*2 ++ js_coalesce extraFacets [] in
  node ← hash_env "CONTRACTS_FRI_RECURSION_NODE_LEVEL_VK_HASH";
  leaf ← hash_env "CONTRACTS_FRI_RECURSION_LEAF_LEVEL_VK_HASH";
  let verifierParams := mkVerifierParams node leaf HashZero in
  priorityTxMaxGasLimit ← number_env "CONTRACTS_PRIORITY_TX_MAX_GAS_LIMIT";
  hs ← get_hashes;
  verifier ← contract_at "StateTransition" "Verifier";
  diamondInit ← contract_at "StateTransition" "DiamondInit";
  diamondCut ← lift (compileInitialCutHash cfg cuts verifierParams hs.1.1 hs.1.2 hs.2 verifier
                       (dec_value priorityTxMaxGasLimit) diamondInit false);
  (if compareDiamondCutHash then
     enc ← lift (or_throw invalid_hex (abi_encode [DIAMOND_CUT_DATA_ABI_STRING] [diamondCut_val diamondCut]));
     data ← lift (or_throw invalid_hex (arrayify enc));
     let hash := hexlify (keccak data) in
     console_log ("Diamond cut hash: " +:+ hash);;
     ctm ← contract_at "StateTransition" "StateTransitionProxy";
     answer ← view ctm "ChainTypeManager" "initialCutHash" [];
     hashFromCTM ← as_address answer;
     if bool_decide (hash = hashFromCTM) then mret tt
     else throw (JsError ("Has from CTM " +:+ hashFromCTM +:+ " does not match the computed hash " +:+ hash))
   else mret tt);;
  mret diamondCut.

Definition hash_hex (code : string) : M string :=
  h ← lift (hashL2Bytecode code); mret (hexlify h).

Definition genesisForceDeploymentsData : M string :=
  network ← get_env "CHAIN_ETH_NETWORK";
  codes ← (if negb (bool_decide (network = Some "hardhat")) then
             bridgehub ← lift (file_bytecode "./artifacts-zk/contracts/bridgehub" "Bridgehub");
             assetRouter ← lift (file_bytecode "./artifacts-zk/contracts/bridge/asset-router" "L2AssetRouter");
             vault ← lift (file_bytecode "./artifacts-zk/contracts/bridge/ntv" "L2NativeTokenVault");
             messageRoot ← lift (file_bytecode "./artifacts-zk/contracts/bridgehub" "MessageRoot");
             tokenProxy ← lift (file_bytecode "./artifacts-zk/@openzeppelin/contracts-v4/proxy/beacon" "BeaconProxy");
             tokenProxyHash ← hash_hex tokenProxy;
             mret (bridgehub, assetRouter, vault, messageRoot, tokenProxyHash)
           else mret (HashZero, HashZero, HashZero, HashZero, HashZero));
  let '(bridgehubZKBytecode, assetRouterZKBytecode, nativeTokenVaultZKBytecode,
        messageRootZKBytecode, l2TokenProxyBytecodeHash) := codes in
  l1Chain ← number_env "ETH_CLIENT_CHAIN_ID";
  eraChain ← number_env "CONTRACTS_ERA_CHAIN_ID";
  l1AssetRouter ← addr "Bridges" "SharedBridgeProxy";
  governance ← addr "" "Governance";
  governanceAddress ← as_address governance;
  aliased ← lift (applyL1ToL2Alias governanceAddress);
  maxChains ← number_env "CONTRACTS_MAX_NUMBER_OF_ZK_CHAINS";
  bridgehubHash ← hash_hex bridgehubZKBytecode;
  assetRouterHash ← hash_hex assetRouterZKBytecode;
  vaultHash ← hash_hex nativeTokenVaultZKBytecode;
  messageRootHash ← hash_hex messageRootZKBytecode;
  lift (or_throw invalid_hex (abi_encode [FIXED_FORCE_DEPLOYMENTS_DATA_ABI_STRING]
    [VObj [ ("l1ChainId", VStr l1Chain); ("eraChainId", VStr eraChain);
            ("l1AssetRouter", l1AssetRouter);
            ("l2TokenProxyBytecodeHash", VStr l2TokenProxyBytecodeHash);
            ("aliasedL1Governance", VStr aliased);
            ("maxNumberOfZKChains", VStr maxChains);
            ("bridgehubBytecodeHash", VStr bridgehubHash);
            ("l2AssetRouterBytecodeHash", VStr assetRouterHash);
            ("l2NtvBytecodeHash", VStr vaultHash);
            ("messageRootBytecodeHash", VStr messageRootHash);
            ("l2SharedBridgeLegacyImpl", VStr AddressZero);
            ("l2BridgedStandardERC20Impl", VStr AddressZero) ]])).

(** ** Calls through governance *)

Definition operation_val (target : val) (value : Z) (data salt : string) : val :=
  VObj [ ("calls", VArr [VObj [("target", target); ("value", VNum value); ("data", VStr data)]]);
         ("predecessor", VStr HashZero); ("salt", VStr salt) ].

(** [executeUpgrade]: the result is [undefined] when the operation is only printed. *)
Definition executeUpgrade (targetAddress : val) (value : Z) (callData : string)
    (ethTxOptions : tx_options) (printOperation : bool) : M (option tx_response) :=
  governance ← contract_at "" "Governance";
  salt ← random_salt;
  let operation := operation_val targetAddress value callData salt in
  if printOperation then
    console_log "Operation:";;
    scheduled ← encode_call "IGovernance" "scheduleTransparent" [operation; VNum 0];
    console_log ("Schedule operation: " +:+ scheduled);;
    executed ← encode_call "IGovernance" "execute" [operation];
    console_log ("Execute operation value: " +:+ pretty value +:+ ", calldata " +:+ executed);;
    mret None
  else
    scheduleTx ← call_contract governance "IGovernance" "scheduleTransparent"
                   [operation; VNum 0] no_opts;
    wait scheduleTx;;
    say d "Upgrade scheduled";;
    executeTX ← call_contract governance "IGovernance" "execute" [operation]
                  (with_value value ethTxOptions);
    receipt ← wait executeTX;
    (if verbose d then
       id ← view governance "IGovernance" "hashOperation" [operation];
       view governance "IGovernance" "isOperationDone" [id];;
       console_log "Upgrade executed"
     else mret tt);;
    mret (Some receipt).

(** [receipt.gasUsed] on an undefined receipt throws. *)
Definition say_gas (receipt : option tx_response) (msg : string) : M unit :=
  when (verbose d)
    (match receipt with Some _ => console_log msg | None => throw read_error end).

Definition executeDirectOrGovernance (useGovernance : bool) (address contract fname : string)
    (fargs : list val) (value : Z) (overrides : tx_options) (printOperation : bool)
  : M (option tx_response) :=
  if useGovernance then
    cdata ← encode_call contract fname fargs;
    executeUpgrade (VStr address) value cdata overrides printOperation
  else
    tx ← call_contract address contract fname fargs (with_value value overrides);
    receipt ← wait tx;
    mret (Some receipt).

Definition setParametersSharedBridge : M unit :=
  sharedBridge ← contract_at "Bridges" "SharedBridgeProxy";
  erc20Bridge ← addr "Bridges" "ERC20BridgeProxy";
  data1 ← encode_call "L1AssetRouter" "setL1Erc20Bridge" [erc20Bridge];
  executeUpgrade (VStr sharedBridge) 0 data1 no_opts false;;
  say d "Shared bridge updated with ERC20Bridge address".

(** ** Bridgehub and message root *)

Definition deployBridgehubImplementation (create2Salt : string) (ethTxOptions : tx_options) : M unit :=
  l1 ← getL1ChainId d;
  governance ← addr "" "Governance";
  maxChains ← number_env "CONTRACTS_MAX_NUMBER_OF_ZK_CHAINS";
  contractAddress ← deployViaCreate2 d "Bridgehub" [VNum l1; governance; VStr maxChains]
    create2Salt ethTxOptions None;
  record_address d "CONTRACTS_BRIDGEHUB_IMPL_ADDR" "Bridgehub" "BridgehubImplementation" contractAddress.

(** A transparent proxy over [impl], with the given initialization call. *)
Definition deploy_proxy (name : string) (implGroup implField initCalldata create2Salt : string)
    (ethTxOptions : tx_options) : M string :=
  impl ← addr implGroup implField;
  proxyAdmin ← addr "" "TransparentProxyAdmin";
  deployViaCreate2 d name [impl; proxyAdmin; VStr initCalldata] create2Salt ethTxOptions None.

Definition deployBridgehubProxy (create2Salt : string) (ethTxOptions : tx_options) : M unit :=
  governance ← addr "" "Governance";
  initCalldata ← encode_call "Bridgehub" "initialize" [governance];
  contractAddress ← deploy_proxy PROXY "Bridgehub" "BridgehubImplementation" initCalldata
    create2Salt ethTxOptions;
  record_address d "CONTRACTS_BRIDGEHUB_PROXY_ADDR" "Bridgehub" "BridgehubProxy" contractAddress.

Definition deployMessageRootImplementation (create2Salt : string) (ethTxOptions : tx_options) : M unit :=
  bridgehub ← addr "Bridgehub" "BridgehubProxy";
  contractAddress ← deployViaCreate2 d "MessageRoot" [bridgehub] create2Salt ethTxOptions None;
  record_address d "CONTRACTS_MESSAGE_ROOT_IMPL_ADDR" "Bridgehub" "MessageRootImplementation" contractAddress.

Definition deployMessageRootProxy (create2Salt : string) (ethTxOptions : tx_options) : M unit :=
  initCalldata ← encode_call "MessageRoot" "initialize" [];
  contractAddress ← deploy_proxy "TransparentUpgradeableProxy" "Bridgehub" "MessageRootImplementation"
    initCalldata create2Salt ethTxOptions;
  record_address d "CONTRACTS_MESSAGE_ROOT_PROXY_ADDR" "Bridgehub" "MessageRootProxy" contractAddress.

(** [nonce ? parseInt(nonce) : await getTransactionCount()]: zero counts as absent. *)
Definition nonce_or_count (nonce : option Z) : M Z :=
  match nonce with
  | Some n => if n =? 0 then getTransactionCount else mret n
  | None => getTransactionCount
  end.

Definition deployBridgehubContract (create2Salt : string) (gasPrice nonce : option Z) : M unit :=
  n ← nonce_or_count nonce;
  deployBridgehubImplementation create2Salt (opts gasPrice (Some n));;
  deployBridgehubProxy create2Salt (opts gasPrice None);;
  deployMessageRootImplementation create2Salt (opts gasPrice None);;
  deployMessageRootProxy create2Salt (opts gasPrice None).

(** ** Chain type manager *)

Definition deployChainTypeManagerImplementation (create2Salt : string) (ethTxOptions : tx_options)
  : M unit :=
  bridgehub ← addr "Bridgehub" "BridgehubProxy";
  contractAddress ← deployViaCreate2 d "ChainTypeManager" [bridgehub] create2Salt
    (with_gasLimit 20000000 ethTxOptions) None;
  record_address d "CONTRACTS_STATE_TRANSITION_IMPL_ADDR" "StateTransition"
    "StateTransitionImplementation" contractAddress.

(** [packSemver(...unpackStringSemVer(process.env.CONTRACTS_GENESIS_PROTOCOL_SEMANTIC_VERSION))] *)
Definition genesis_protocol_version : M jsnum :=
  v ← get_env "CONTRACTS_GENESIS_PROTOCOL_SEMANTIC_VERSION";
  s ← lift (or_throw read_error v);
  let '(major, minor, patch) := unpackStringSemVer s in
  lift (packSemver major minor patch).

Definition deployChainTypeManagerProxy (create2Salt : string) (ethTxOptions : tx_options)
    (extraFacets : option (list FacetCut)) : M unit :=
  genesisBatchHash ← hash_env "CONTRACTS_GENESIS_ROOT";
  genesisRollupLeafIndex ← number_env "CONTRACTS_GENESIS_ROLLUP_LEAF_INDEX";
  genesisBatchCommitment ← hash_env "CONTRACTS_GENESIS_BATCH_COMMITMENT";
  diamondCut ← initialZkSyncZKChainDiamondCut extraFacets false;
  protocolVersion ← genesis_protocol_version;
  forceDeploymentsData ← genesisForceDeploymentsData;
  genesisUpgrade ← addr "StateTransition" "GenesisUpgrade";
  let chainCreationParams :=
    VObj [ ("genesisUpgrade", genesisUpgrade); ("genesisBatchHash", VStr genesisBatchHash);
           ("genesisIndexRepeatedStorageChanges", VStr genesisRollupLeafIndex);
           ("genesisBatchCommitment", VStr genesisBatchCommitment);
           ("diamondCut", diamondCut_val diamondCut);
           ("forceDeploymentsData", VStr forceDeploymentsData) ] in
  governance ← addr "" "Governance";
  timelock ← addr "" "ValidatorTimeLock";
  initCalldata ← encode_call "ChainTypeManager" "initialize"
    [VObj [ ("owner", governance); ("validatorTimelock", timelock);
            ("chainCreationParams", chainCreationParams);
            ("protocolVersion", num_val protocolVersion) ]];
  contractAddress ← deploy_proxy PROXY "StateTransition" "StateTransitionImplementation"
    initCalldata create2Salt ethTxOptions;
  say d "ChainTypeManagerProxy deployed";;
  record_address d "CONTRACTS_STATE_TRANSITION_PROXY_ADDR" "StateTransition" "StateTransitionProxy"
    contractAddress.

(** ** Facets *)

Definition deployAdminFacet (create2Salt : string) (ethTxOptions : tx_options) : M unit :=
  l1 ← getL1ChainId d;
  contractAddress ← deployViaCreate2 d "AdminFacet" [VNum l1; VStr AddressZero] create2Salt
    ethTxOptions None;
  record_address d "CONTRACTS_ADMIN_FACET_ADDR" "StateTransition" "AdminFacet" contractAddress.

Definition deployMailboxFacet (create2Salt : string) (ethTxOptions : tx_options) : M unit :=
  eraChainId ← number_env "CONTRACTS_ERA_CHAIN_ID";
  l1 ← getL1ChainId d;
  contractAddress ← deployViaCreate2 d "MailboxFacet" [VStr eraChainId; VNum l1] create2Salt
    ethTxOptions None;
  say d ("Mailbox deployed with era chain id: " +:+ eraChainId);;
  record_address d "CONTRACTS_MAILBOX_FACET_ADDR" "StateTransition" "MailboxFacet" contractAddress.

Definition deployExecutorFacet (create2Salt : string) (ethTxOptions : tx_options) : M unit :=
  l1 ← getL1ChainId d;
  contractAddress ← deployViaCreate2 d "ExecutorFacet" [VNum l1] create2Salt ethTxOptions None;
  record_address d "CONTRACTS_EXECUTOR_FACET_ADDR" "StateTransition" "ExecutorFacet" contractAddress.

Definition deployGettersFacet (create2Salt : string) (ethTxOptions : tx_options) : M unit :=
  contractAddress ← deployViaCreate2 d "GettersFacet" [] create2Salt ethTxOptions None;
  record_address d "CONTRACTS_GETTERS_FACET_ADDR" "StateTransition" "GettersFacet" contractAddress.

Definition deployStateTransitionDiamondInit (create2Salt : string) (ethTxOptions : tx_options) : M unit :=
  contractAddress ← deployViaCreate2 d "DiamondInit" [] create2Salt ethTxOptions None;
  record_address d "CONTRACTS_DIAMOND_INIT_ADDR" "StateTransition" "DiamondInit" contractAddress.

Definition deployVerifier (create2Salt : string) (ethTxOptions : tx_options) : M unit :=
  network ← get_env "CHAIN_ETH_NETWORK";
  contractAddress ← (if bool_decide (network = Some "mainnet")
    then deployViaCreate2 d "Verifier" [] create2Salt ethTxOptions None
    else deployViaCreate2 d "TestnetVerifier" [] create2Salt ethTxOptions None);
  record_address d "CONTRACTS_VERIFIER_ADDR" "StateTransition" "Verifier" contractAddress.

(** The address goes to [this.addresses.stateTransition.defaultUpgrade], whose
    group is spelled differently from the one of the address book. *)
Definition deployDefaultUpgrade (create2Salt : string) (ethTxOptions : tx_options) : M unit :=
  contractAddress ← deployViaCreate2 d "DefaultUpgrade" [] create2Salt ethTxOptions None;
  record_address d "CONTRACTS_DEFAULT_UPGRADE_ADDR" "stateTransition" "defaultUpgrade" contractAddress.

Definition deployZKChainsUpgrade (create2Salt : string) (ethTxOptions : tx_options) : M unit :=
  contractAddress ← deployViaCreate2 d "UpgradeZKChains" [] create2Salt ethTxOptions None;
  record_address d "CONTRACTS_ZK_CHAIN_UPGRADE_ADDR" "stateTransition" "defaultUpgrade" contractAddress.

Definition deployGenesisUpgrade (create2Salt : string) (ethTxOptions : tx_options) : M unit :=
  contractAddress ← deployViaCreate2 d "L1GenesisUpgrade" [] create2Salt ethTxOptions None;
  record_address d "CONTRACTS_GENESIS_UPGRADE_ADDR" "StateTransition" "GenesisUpgrade" contractAddress.

Definition deployStateTransitionDiamondFacets (create2Salt : string) (gasPrice nonce : option Z) : M unit :=
  n ← nonce_or_count nonce;
  deployExecutorFacet create2Salt (opts gasPrice (Some n));;
  deployAdminFacet create2Salt (opts gasPrice (Some (n + 1)));;
  deployMailboxFacet create2Salt (opts gasPrice (Some (n + 2)));;
  deployGettersFacet create2Salt (opts gasPrice (Some (n + 3)));;
  deployStateTransitionDiamondInit create2Salt (opts gasPrice (Some (n + 4))).

End contracts.
