(* ===== verification/DeployerBridges.v ===== *)
(** * The deployer, third part: bridges, registration and chains
      ([l1-contracts/src.ts/deploy.ts])

    The bridges and the native token vault, the registrations made through
    governance, the registration of a chain with its validators, the legacy
    shared bridge deployed on L2 through L1, and moving a chain between
    settlement layers. *)

From stdpp Require Import base gmap list strings pretty.
From Stdlib Require Import ZArith Lia.
From S2P Require Import Prelude Js Ethers DiamondCut Utils World DeployUtils Deployer DeployerContracts.

Definition BRIDGEHUB_CTM_ASSET_DATA_ABI_STRING : string :=
  "tuple(uint256 chainId, bytes ctmData, bytes chainData)".

(** [ChainAdminCall] *)
Record ChainAdminCall : Type := mkChainAdminCall {
  call_target : string;
  call_value : Z;
  call_data : string;
}.

Definition ChainAdminCall_val (c : ChainAdminCall) : val :=
  VObj [("target", VStr (call_target c)); ("value", VNum (call_value c)); ("data", VStr (call_data c))].

(** [parseInt(s, 16)] of a ["0x"]-prefixed topic. *)
Definition parse_topic (s : string) : jsnum := be_val <$> parse_hex s.

Section bridges.
Context `{EthersOps} `{Chain} `{Artifacts} `{ZkArtifacts} `{Files} `{Interfaces}.
Variable cfg : SystemConfig.
Variable d : Deployer.

(** ** Tokens *)

(** [getTokens()] of deploy-token.ts *)
Definition getTokens : M (list (string * string)) :=
  n ← get_env "CHAIN_ETH_NETWORK";
  let network := if str_truthy n then default "" n else "localhost" in
  home ← get_env "ZKSYNC_HOME";
  let configPath :=
    if bool_decide (network = "hardhat")
    then "./test/test_config/constant/" +:+ network +:+ ".json"
    else js_show home +:+ "/etc/tokens/" +:+ network +:+ ".json" in
  lift (file_tokens configPath).

(** [tokens.find((token) => token.symbol == symbol)!.address] *)
Definition find_token (symbol : string) (tokens : list (string * string)) : M string :=
  match list_find (λ t : string * string, t.1 = symbol) tokens with
  | Some (_, t) => mret t.2
  | None => throw read_error
  end.

(** ** Bridges *)

Definition deployERC20BridgeImplementation (create2Salt : string) (ethTxOptions : tx_options)
    (dummy : bool) : M unit :=
  eraChainId ← number_env "CONTRACTS_ERA_CHAIN_ID";
  nullifier ← addr "Bridges" "L1NullifierProxy";
  sharedBridge ← addr "Bridges" "SharedBridgeProxy";
  vault ← addr "Bridges" "NativeTokenVaultProxy";
  contractAddress ← deployViaCreate2 d (if dummy then "DummyL1ERC20Bridge" else "L1ERC20Bridge")
    [nullifier; sharedBridge; vault; VStr eraChainId] create2Salt ethTxOptions None;
  record_address d "CONTRACTS_L1_ERC20_BRIDGE_IMPL_ADDR" "Bridges" "ERC20BridgeImplementation" contractAddress.

Definition deployERC20BridgeProxy (create2Salt : string) (ethTxOptions : tx_options) : M unit :=
  initCalldata ← encode_call "L1ERC20Bridge" "initialize" [];
  contractAddress ← deploy_proxy d PROXY "Bridges" "ERC20BridgeImplementation" initCalldata
    create2Salt ethTxOptions;
  record_address d "CONTRACTS_L1_ERC20_BRIDGE_PROXY_ADDR" "Bridges" "ERC20BridgeProxy" contractAddress.

Definition nullifier_name (isLocal : bool) : string :=
  if isLocal then "L1NullifierDev" else "L1Nullifier".

Definition deployL1NullifierImplementation (create2Salt : string) (ethTxOptions : tx_options) : M unit :=
  eraChainId ← number_env "CONTRACTS_ERA_CHAIN_ID";
  eraDiamondProxy ← address_env "CONTRACTS_ERA_DIAMOND_PROXY_ADDR";
  isLocal ← network_is_local;
  bridgehub ← addr "Bridgehub" "BridgehubProxy";
  contractAddress ← deployViaCreate2 d (nullifier_name isLocal)
    [bridgehub; VStr eraChainId; VStr eraDiamondProxy] create2Salt ethTxOptions None;
  record_address d "CONTRACTS_L1_NULLIFIER_IMPL_ADDR" "Bridges" "L1NullifierImplementation" contractAddress.

Definition deployL1NullifierProxy (create2Salt : string) (ethTxOptions : tx_options) : M unit :=
  governance ← addr "" "Governance";
  initCalldata ← encode_call "L1Nullifier" "initialize"
    [governance; VNum 1; VNum 1; VNum 1; VNum 0];
  contractAddress ← deploy_proxy d "TransparentUpgradeableProxy" "Bridges" "L1NullifierImplementation"
    initCalldata create2Salt ethTxOptions;
  record_address d "CONTRACTS_L1_NULLIFIER_PROXY_ADDR" "Bridges" "L1NullifierProxy" contractAddress.

Definition deploySharedBridgeImplementation (create2Salt : string) (ethTxOptions : tx_options) : M unit :=
  tokens ← getTokens;
  l1WethToken ← find_token "WETH" tokens;
  eraChainId ← number_env "CONTRACTS_ERA_CHAIN_ID";
  eraDiamondProxy ← address_env "CONTRACTS_ERA_DIAMOND_PROXY_ADDR";
  bridgehub ← addr "Bridgehub" "BridgehubProxy";
  nullifier ← addr "Bridges" "L1NullifierProxy";
  contractAddress ← deployViaCreate2 d "L1AssetRouter"
    [VStr l1WethToken; bridgehub; nullifier; VStr eraChainId; VStr eraDiamondProxy]
    create2Salt ethTxOptions None;
  say d ("With era chain id " +:+ eraChainId +:+ " and era diamond proxy " +:+ eraDiamondProxy);;
  record_address d "CONTRACTS_L1_SHARED_BRIDGE_IMPL_ADDR" "Bridges" "SharedBridgeImplementation" contractAddress.

Definition deploySharedBridgeProxy (create2Salt : string) (ethTxOptions : tx_options) : M unit :=
  governance ← addr "" "Governance";
  initCalldata ← encode_call "L1AssetRouter" "initialize" [governance];
  contractAddress ← deploy_proxy d PROXY "Bridges" "SharedBridgeImplementation" initCalldata
    create2Salt ethTxOptions;
  record_address d "CONTRACTS_L1_SHARED_BRIDGE_PROXY_ADDR" "Bridges" "SharedBridgeProxy" contractAddress.

Definition deployBridgedStandardERC20Implementation (create2Salt : string) (ethTxOptions : tx_options)
  : M unit :=
  contractAddress ← deployViaCreate2 d "BridgedStandardERC20" [] create2Salt ethTxOptions None;
  record_address d "CONTRACTS_L1_BRIDGED_STANDARD_ERC20_IMPL_ADDR" "Bridges"
    "BridgedStandardERC20Implementation" contractAddress.

(** The ownership transfer is sent and not waited for. *)
Definition deployBridgedTokenBeacon (create2Salt : string) (ethTxOptions : tx_options) : M unit :=
  let o := default_gasLimit 10000000 ethTxOptions in
  impl ← addr "Bridges" "BridgedStandardERC20Implementation";
  beacon ← factory_deploy BEACON [impl] o;
  rec ← wait beacon.2;
  say d "Beacon deployed";;
  record_address d "CONTRACTS_L1_BRIDGED_TOKEN_BEACON_ADDR" "Bridges" "BridgedTokenBeacon" beacon.1;;
  governance ← addr "" "Governance";
  call_contract beacon.1 "UpgradeableBeacon" "transferOwnership" [governance] no_opts;;
  mret tt.

Definition deployNativeTokenVaultImplementation (create2Salt : string) (ethTxOptions : tx_options)
  : M unit :=
  tokens ← getTokens;
  l1WethToken ← find_token "WETH" tokens;
  sharedBridge ← addr "Bridges" "SharedBridgeProxy";
  nullifier ← addr "Bridges" "L1NullifierProxy";
  contractAddress ← deployViaCreate2 d "L1NativeTokenVault"
    [VStr l1WethToken; sharedBridge; nullifier] create2Salt ethTxOptions None;
  record_address d "CONTRACTS_L1_NATIVE_TOKEN_VAULT_IMPL_ADDR" "Bridges"
    "NativeTokenVaultImplementation" contractAddress.

(** One [encodeFunctionData] and [executeUpgrade] with its message. *)
Definition governance_call (contract method : string) (args : list val) (target : val) (msg : string)
  : M unit :=
  data ← encode_call contract method args;
  executeUpgrade d target 0 data no_opts false;;
  say d msg.

(** [registerEthToken] is called twice; the second call is not waited for. *)
Definition deployNativeTokenVaultProxy (create2Salt : string) (ethTxOptions : tx_options) : M unit :=
  governance ← addr "" "Governance";
  beacon ← addr "Bridges" "BridgedTokenBeacon";
  initCalldata ← encode_call "L1NativeTokenVault" "initialize" [governance; beacon];
  contractAddress ← deploy_proxy d "TransparentUpgradeableProxy" "Bridges"
    "NativeTokenVaultImplementation" initCalldata create2Salt ethTxOptions;
  record_address d "CONTRACTS_L1_NATIVE_TOKEN_VAULT_PROXY_ADDR" "Bridges" "NativeTokenVaultProxy"
    contractAddress;;
  nullifier ← contract_at "Bridges" "L1NullifierProxy";
  assetRouter ← contract_at "Bridges" "SharedBridgeProxy";
  ntv ← contract_at "Bridges" "NativeTokenVaultProxy";
  governance_call "IL1AssetRouter" "setNativeTokenVault" [VStr ntv] (VStr assetRouter)
    "Native token vault set in shared bridge";;
  governance_call "IL1Nullifier" "setL1NativeTokenVault" [VStr ntv] (VStr nullifier)
    "Native token vault set in nullifier";;
  governance_call "IL1Nullifier" "setL1AssetRouter" [VStr assetRouter] (VStr nullifier)
    "Asset router set in nullifier";;
  call_and_wait ntv "IL1NativeTokenVault" "registerEthToken" [] no_opts;;
  call_contract ntv "IL1NativeTokenVault" "registerEthToken" [] no_opts;;
  mret tt.

Definition deployCTMDeploymentTrackerImplementation (create2Salt : string) (ethTxOptions : tx_options)
  : M unit :=
  bridgehub ← addr "Bridgehub" "BridgehubProxy";
  sharedBridge ← addr "Bridges" "SharedBridgeProxy";
  contractAddress ← deployViaCreate2 d "CTMDeploymentTracker" [bridgehub; sharedBridge]
    create2Salt ethTxOptions None;
  record_address d "CONTRACTS_CTM_DEPLOYMENT_TRACKER_IMPL_ADDR" "Bridgehub"
    "CTMDeploymentTrackerImplementation" contractAddress.

Definition deployCTMDeploymentTrackerProxy (create2Salt : string) (ethTxOptions : tx_options) : M unit :=
  governance ← addr "" "Governance";
  initCalldata ← encode_call "CTMDeploymentTracker" "initialize" [governance];
  contractAddress ← deploy_proxy d "TransparentUpgradeableProxy" "Bridgehub"
    "CTMDeploymentTrackerImplementation" initCalldata create2Salt ethTxOptions;
  record_address d "CONTRACTS_CTM_DEPLOYMENT_TRACKER_PROXY_ADDR" "Bridgehub"
    "CTMDeploymentTrackerProxy" contractAddress.

Definition sharedBridgeSetEraPostUpgradeFirstBatch : M unit :=
  sharedBridge ← contract_at "Bridges" "SharedBridgeProxy";
  storageSwitch ← number_env "CONTRACTS_SHARED_BRIDGE_UPGRADE_STORAGE_SWITCH";
  tx ← call_contract sharedBridge "L1AssetRouter" "setEraPostUpgradeFirstBatch"
         [VStr storageSwitch] no_opts;
  receipt ← wait tx;
  say d "Era first post upgrade batch set".

(** ** Registrations *)

Definition registerAddresses : M unit :=
  bridgehub ← contract_at "Bridgehub" "BridgehubProxy";
  sharedBridge ← addr "Bridges" "SharedBridgeProxy";
  tracker ← addr "Bridgehub" "CTMDeploymentTrackerProxy";
  messageRoot ← addr "Bridgehub" "MessageRootProxy";
  governance_call "Bridgehub" "setAddresses" [sharedBridge; tracker; messageRoot] (VStr bridgehub)
    "Shared bridge was registered in Bridgehub".

Definition registerTokenBridgehub (tokenAddress : string) (useGovernance : bool) : M unit :=
  bridgehub ← contract_at "Bridgehub" "BridgehubProxy";
  baseTokenAssetId ← (match l1ChainId d with
                      | Some n => lift (encodeNTVAssetId n tokenAddress)
                      | None => throw invalid_hex
                      end);
  receipt ← executeDirectOrGovernance d useGovernance bridgehub "Bridgehub" "addTokenAssetId"
    [VStr baseTokenAssetId] 0 no_opts false;
  say_gas d receipt ("Token " +:+ tokenAddress +:+ " was registered").

Definition registerTokenInNativeTokenVault (token : string) : M unit :=
  ntv ← contract_at "Bridges" "NativeTokenVaultProxy";
  governance_call "IL1NativeTokenVault" "registerToken" [VStr token] (VStr ntv)
    "Native token vault registered with token".

Definition ctm_asset_line (bridgehub : string) (ctm : val) : M unit :=
  info ← view bridgehub "Bridgehub" "ctmAssetId" [ctm];
  a ← as_address info;
  console_log (env_line "CONTRACTS_CTM_ASSET_INFO" a).

Definition registerChainTypeManager : M unit :=
  bridgehub ← contract_at "Bridgehub" "BridgehubProxy";
  ctm ← addr "StateTransition" "StateTransitionProxy";
  answer ← view bridgehub "Bridgehub" "chainTypeManagerIsRegistered" [ctm];
  match answer with
  | VBool true => mret tt
  | _ =>
      upgradeData ← encode_call "Bridgehub" "addChainTypeManager" [ctm];
      if negb (isZkMode d) then
        receipt1 ← executeUpgrade d (VStr bridgehub) 0 upgradeData no_opts false;
        say_gas d receipt1 "StateTransition System registered";;
        tracker ← contract_at "Bridgehub" "CTMDeploymentTrackerProxy";
        l1AssetRouter ← contract_at "Bridges" "SharedBridgeProxy";
        ctmAddress ← as_address ctm;
        padded ← lift (or_throw invalid_hex (hexZeroPad ctmAddress 32));
        whitelistData ← encode_call "IL1AssetRouter" "setAssetDeploymentTracker"
                          [VStr padded; VStr tracker];
        receipt2 ← executeUpgrade d (VStr l1AssetRouter) 0 whitelistData no_opts false;
        say_gas d receipt2 "CTM deployment tracker whitelisted in L1 Shared Bridge";;
        when (verbose d) (ctm_asset_line bridgehub ctm);;
        data1 ← encode_call "ICTMDeploymentTracker" "registerCTMAssetOnL1" [ctm];
        receipt3 ← executeUpgrade d (VStr tracker) 0 data1 no_opts false;
        say_gas d receipt3 "CTM asset registered in L1 Shared Bridge via CTM Deployment Tracker";;
        when (verbose d) (ctm_asset_line bridgehub ctm)
      else
        info ← hash_env "CONTRACTS_CTM_ASSET_INFO";
        console_log (env_line "CONTRACTS_CTM_ASSET_INFO" info)
  end.

Definition deployChainTypeManagerContract (create2Salt : string) (extraFacets : option (list FacetCut))
    (gasPrice nonce : option Z) : M unit :=
  n ← nonce_or_count nonce;
  deployStateTransitionDiamondFacets d create2Salt gasPrice (Some n);;
  deployChainTypeManagerImplementation d create2Salt (opts gasPrice None);;
  deployChainTypeManagerProxy cfg d create2Salt (opts gasPrice None) extraFacets;;
  registerChainTypeManager.

Definition registerSettlementLayer : M unit :=
  bridgehub ← contract_at "Bridgehub" "BridgehubProxy";
  chainId ← get_chainId;
  governance_call "Bridgehub" "registerSettlementLayer" [num_val chainId; VBool true]
    (VStr bridgehub) "Gateway registered".

Definition setChainTypeManagerInValidatorTimelock (ethTxOptions : tx_options) : M unit :=
  validatorTimelock ← contract_at "" "ValidatorTimeLock";
  ctm ← addr "StateTransition" "StateTransitionProxy";
  tx ← call_contract validatorTimelock "ValidatorTimelock" "setChainTypeManager" [ctm] ethTxOptions;
  receipt ← wait tx;
  say d "ChainTypeManager was set in ValidatorTimelock".

Definition deploySharedBridgeContracts (create2Salt : string) (gasPrice nonce : option Z) : M unit :=
  n ← nonce_or_count nonce;
  deployL1NullifierImplementation create2Salt (opts gasPrice (Some n));;
  deployL1NullifierProxy create2Salt (opts gasPrice (Some (n + 1)));;
  let n := n + 2 in
  deploySharedBridgeImplementation create2Salt (opts gasPrice (Some n));;
  deploySharedBridgeProxy create2Salt (opts gasPrice (Some (n + 1)));;
  let n := n + 2 in
  deployBridgedStandardERC20Implementation create2Salt (opts gasPrice (Some n));;
  deployBridgedTokenBeacon create2Salt (opts gasPrice (Some (n + 1)));;
  deployNativeTokenVaultImplementation create2Salt (opts gasPrice (Some (n + 3)));;
  deployNativeTokenVaultProxy create2Salt (opts gasPrice None);;
  deployCTMDeploymentTrackerImplementation create2Salt (opts gasPrice None);;
  deployCTMDeploymentTrackerProxy create2Salt (opts gasPrice None);;
  registerAddresses.

End bridges.
