(* ===== verification/DeployerChains.v ===== *)
(** * The deployer, fourth part: chains
      ([l1-contracts/src.ts/deploy.ts])

    Registering a chain with its validators, the legacy shared bridge deployed
    on L2 through L1, calls through the chain admin, and moving a chain between
    settlement layers. *)

From stdpp Require Import base gmap list strings pretty.
From Stdlib Require Import ZArith Lia.
From S2P Require Import Prelude Js Ethers DiamondCut Utils World DeployUtils Deployer.
From S2P Require Import DeployerContracts DeployerBridges.

Section chains.
Context `{EthersOps} `{Chain} `{Artifacts} `{ZkArtifacts} `{Files} `{Interfaces}.
Variable cfg : SystemConfig.
Variable d : Deployer.

(** ** Calls *)

Definition executeChainAdminMulticall (calls : list ChainAdminCall) (requireSuccess : bool)
  : M tx_response :=
  chainAdmin ← contract_at "" "ChainAdmin";
  let totalValue := fold_left (λ acc c, acc + call_value c) calls 0 in
  multicallTx ← call_contract chainAdmin "ChainAdmin" "multicall"
    [VArr (ChainAdminCall_val <$> calls); VBool requireSuccess] (with_value totalValue no_opts);
  wait multicallTx.

Definition executeUpgradeOnL2 (chainId targetAddress : val) (gasPrice : option Z) (callData : string)
    (l2GasLimit : val) (ethTxOptions : tx_options) (printOperation : bool) : M (option tx_response) :=
  bridgehub ← contract_at "Bridgehub" "BridgehubProxy";
  cost ← view bridgehub "Bridgehub" "l2TransactionBaseCost"
           [chainId; num_val gasPrice; l2GasLimit; VNum (requiredL2GasPricePerPubdata cfg)];
  value ← as_number cost;
  token ← view bridgehub "Bridgehub" "baseToken" [chainId];
  baseTokenAddress ← as_address token;
  let ethIsBaseToken := bool_decide (baseTokenAddress = ADDRESS_ONE) in
  (if negb ethIsBaseToken then
     governance ← addr "" "Governance";
     call_and_wait baseTokenAddress "TestnetERC20Token" "transfer" [governance; VNum value] no_opts;;
     sharedBridge ← addr "Bridges" "SharedBridgeProxy";
     approval ← encode_call "TestnetERC20Token" "approve" [sharedBridge; VNum value];
     executeUpgrade d (VStr baseTokenAddress) 0 approval no_opts false;;
     mret tt
   else mret tt);;
  l1Calldata ← encode_call "Bridgehub" "requestL2TransactionDirect"
    [VObj [ ("chainId", chainId); ("l2Contract", targetAddress); ("mintValue", VNum value);
            ("l2Value", VNum 0); ("l2Calldata", VStr callData); ("l2GasLimit", l2GasLimit);
            ("l2GasPerPubdataByteLimit", VNum (requiredL2GasPricePerPubdata cfg));
            ("factoryDeps", VArr []); ("refundRecipient", VStr (deployWallet d)) ]];
  executeUpgrade d (VStr bridgehub) (if ethIsBaseToken then value else 0) l1Calldata
    (with_gasPrice gasPrice ethTxOptions) printOperation.

Definition setTokenMultiplierSetterAddress (tokenMultiplierSetterAddress : string) : M unit :=
  chainAdmin ← contract_at "" "ChainAdmin";
  receipt ← call_and_wait chainAdmin "ChainAdmin" "setTokenMultiplierSetter"
    [VStr tokenMultiplierSetterAddress] no_opts;
  say d ("Token multiplier setter set as " +:+ tokenMultiplierSetterAddress).

Definition enableEvmEmulation : M unit :=
  stm ← contract_at "StateTransition" "StateTransitionProxy";
  chainId ← get_chainId;
  proxy ← view stm "ChainTypeManager" "getHyperchain" [num_val chainId];
  diamondProxyAddress ← as_address proxy;
  receipt ← call_and_wait diamondProxyAddress "IZKChain" "allowEvmEmulation" [] no_opts;
  say d "EVM emulation allowed".

Definition transferAdminFromDeployerToChainAdmin : M unit :=
  ctm ← contract_at "StateTransition" "StateTransitionProxy";
  chainId ← get_chainId;
  proxy ← view ctm "ChainTypeManager" "getZKChain" [num_val chainId];
  zkChain ← as_address proxy;
  chainAdmin ← addr "" "ChainAdmin";
  receipt ← call_and_wait zkChain "IZKChain" "setPendingAdmin" [chainAdmin] no_opts;
  say d "ChainAdmin set as pending admin";;
  acceptAdminData ← encode_call "IZKChain" "acceptAdmin" [];
  executeChainAdminMulticall [mkChainAdminCall zkChain 0 acceptAdminData] true;;
  say d "Pending admin successfully accepted".

(** ** The legacy shared bridge on L2 *)

Definition L2_SHARED_BRIDGE_IMPLEMENTATION : string := l2_contract_bytecode "L2SharedBridgeLegacy".
Definition L2_SHARED_BRIDGE_PROXY : string := l2_contract_bytecode "TransparentUpgradeableProxy".
Definition L2_STANDARD_TOKEN_PROXY : string := l2_contract_bytecode "BeaconProxy".
Definition L2_STANDARD_ERC20_PROXY_FACTORY : string := l2_contract_bytecode "UpgradeableBeacon".
Definition L2_STANDARD_ERC20_IMPLEMENTATION : string := l2_contract_bytecode "BridgedStandardERC20".

(** Constructor data of the proxy, for a given implementation address. *)
Definition shared_bridge_proxy_data (implementation : val) : M string :=
  governance ← contract_at "" "Governance";
  l2GovernorAddress ← lift (applyL1ToL2Alias governance);
  l1SharedBridge ← contract_at "Bridges" "SharedBridgeProxy";
  proxyHash ← hash_hex L2_STANDARD_TOKEN_PROXY;
  proxyInitializationParams ← encode_call "L2SharedBridgeLegacy" "initialize"
    [VStr l1SharedBridge; VStr proxyHash; VStr l2GovernorAddress];
  lift (or_throw invalid_hex (abi_encode ["address"; "address"; "bytes"]
    [implementation; VStr l2GovernorAddress; VStr proxyInitializationParams])).

Definition setL2LegacySharedBridgeInL1Nullifier (inputChainId : string) : M unit :=
  l1Nullifier ← contract_at "Bridges" "L1NullifierProxy";
  isLocal ← network_is_local;
  when isLocal (
    l2SharedBridgeImplAddress ← lift (computeL2Create2Address (deployWallet d)
      L2_SHARED_BRIDGE_IMPLEMENTATION "0x" HashZero);
    constructorData ← shared_bridge_proxy_data (VStr l2SharedBridgeImplAddress);
    l2SharedBridgeProxyAddress ← lift (computeL2Create2Address (deployWallet d)
      L2_SHARED_BRIDGE_PROXY constructorData HashZero);
    tx ← call_contract l1Nullifier "L1NullifierDev" "setL2LegacySharedBridge"
           [VStr inputChainId; VStr l2SharedBridgeProxyAddress] no_opts;
    receipt8 ← wait tx;
    say d "L2 legacy shared bridge set in L1 Nullifier").

(** [priorityTxMaxGasLimit] is read from the environment when utils.ts is loaded. *)
Definition priorityTxMaxGasLimit : M val :=
  n ← number_env "CONTRACTS_PRIORITY_TX_MAX_GAS_LIMIT"; mret (VStr n).

(** The implementation's address is computed for an empty constructor, while it
    is deployed with the era chain id as constructor argument. *)
Definition deploySharedBridgeImplOnL2ThroughL1 (chainId : string) (gasPrice : option Z) : M unit :=
  say d "Deploying L2SharedBridge Implementation";;
  eraChainId ← number_env "CONTRACTS_ERA_CHAIN_ID";
  (if str_truthy (Some L2_SHARED_BRIDGE_IMPLEMENTATION) then mret tt
   else throw (JsError "l2SharedBridgeImplementationBytecode not found"));;
  say d "l2SharedBridgeImplementationBytecode loaded";;
  say d "Computing L2SharedBridge Implementation Address";;
  l2SharedBridgeImplAddress ← lift (computeL2Create2Address (deployWallet d)
    L2_SHARED_BRIDGE_IMPLEMENTATION "0x" HashZero);
  set_address "Bridges" "L2LegacySharedBridgeImplementation" l2SharedBridgeImplAddress;;
  say d ("L2SharedBridge Implementation Address: " +:+ l2SharedBridgeImplAddress);;
  say d "Deploying L2SharedBridge Implementation";;
  constructorData ← lift (or_throw invalid_hex (abi_encode ["uint256"] [VNum (dec_value eraChainId)]));
  gasLimit ← priorityTxMaxGasLimit;
  bridgehub ← addr "Bridgehub" "BridgehubProxy";
  sharedBridge ← addr "Bridges" "SharedBridgeProxy";
  tx2 ← create2DeployFromL1 cfg (VStr chainId) (deployWallet d) L2_SHARED_BRIDGE_IMPLEMENTATION
    constructorData HashZero gasLimit gasPrice (Some [L2_STANDARD_TOKEN_PROXY]) bridgehub sharedBridge;
  wait tx2;;
  say d "Deployed L2SharedBridge Implementation";;
  say d (env_line "CONTRACTS_L2_LEGACY_SHARED_BRIDGE_IMPL_ADDR" l2SharedBridgeImplAddress).

Definition deploySharedBridgeProxyOnL2ThroughL1 (chainId : string) (gasPrice : option Z) : M unit :=
  say d "Deploying L2SharedBridge Proxy";;
  implementation ← addr "Bridges" "L2LegacySharedBridgeImplementation";
  constructorData ← shared_bridge_proxy_data implementation;
  l2SharedBridgeProxyAddress ← lift (computeL2Create2Address (deployWallet d)
    L2_SHARED_BRIDGE_PROXY constructorData HashZero);
  set_address "Bridges" "L2LegacySharedBridgeProxy" l2SharedBridgeProxyAddress;;
  gasLimit ← priorityTxMaxGasLimit;
  bridgehub ← addr "Bridgehub" "BridgehubProxy";
  sharedBridge ← addr "Bridges" "SharedBridgeProxy";
  tx3 ← create2DeployFromL1 cfg (VStr chainId) (deployWallet d) L2_SHARED_BRIDGE_PROXY
    constructorData HashZero gasLimit gasPrice None bridgehub sharedBridge;
  wait tx3;;
  say d (env_line "CONTRACTS_L2_LEGACY_SHARED_BRIDGE_ADDR" l2SharedBridgeProxyAddress).

Definition deployL2LegacySharedBridge (inputChainId : string) (gasPrice : option Z) : M unit :=
  say d "Deploying L2 legacy shared bridge";;
  deploySharedBridgeImplOnL2ThroughL1 inputChainId gasPrice;;
  deploySharedBridgeProxyOnL2ThroughL1 inputChainId gasPrice.

(** ** Registering a chain *)

(** [receipt.logs.find(log => log.topics[0] == topic)], a TypeError when absent. *)
Definition find_log (receipt : option tx_response) (event : string) : M (list string) :=
  match receipt with
  | Some (Mined h t) => lift (or_throw read_error (event_topics h t event))
  | _ => throw read_error
  end.

(** Everything up to the [NewChain] receipt. *)
Definition create_chain (baseTokenAssetId inputChainId admin : string)
    (extraFacets : option (list FacetCut)) (gasPrice : option Z) (compareDiamondCutHash useGovernance : bool)
  : M (option tx_response) :=
  bridgehub ← contract_at "Bridgehub" "BridgehubProxy";
  diamondCutData ← initialZkSyncZKChainDiamondCut cfg extraFacets compareDiamondCutHash;
  initialDiamondCut ← lift (or_throw invalid_hex
    (abi_encode [DIAMOND_CUT_DATA_ABI_STRING] [diamondCut_val diamondCutData]));
  forceDeploymentsData ← genesisForceDeploymentsData;
  initData ← lift (or_throw invalid_hex
    (abi_encode ["bytes"; "bytes"] [VStr initialDiamondCut; VStr forceDeploymentsData]));
  network ← get_env "CHAIN_ETH_NETWORK";
  let factoryDeps :=
    if negb (bool_decide (network = Some "hardhat"))
    then [L2_STANDARD_ERC20_PROXY_FACTORY; L2_STANDARD_ERC20_IMPLEMENTATION; L2_STANDARD_TOKEN_PROXY]
    else [] in
  ctm ← addr "StateTransition" "StateTransitionProxy";
  now ← Date_now;
  executeDirectOrGovernance d useGovernance bridgehub "Bridgehub" "createNewChain"
    [VStr inputChainId; ctm; VStr baseTokenAssetId; VNum now; VStr admin; VStr initData;
     VArr (VStr <$> factoryDeps)] 0
    (let o := opts gasPrice None in if isZkMode d then o else with_gasLimit 10000000 o) false.

(** The two [addValidator] calls, with nonces [nonce] and [nonce + 1]. *)
Definition register_validators (chainId : val) (gasPrice : option Z) (nonce : Z) : M unit :=
  validatorOneAddress ← address_env "ETH_SENDER_SENDER_OPERATOR_COMMIT_ETH_ADDR";
  validatorTwoAddress ← address_env "ETH_SENDER_SENDER_OPERATOR_BLOBS_ETH_ADDR";
  validatorTimelock ← contract_at "" "ValidatorTimeLock";
  let txOptions (n : Z) :=
    let o := opts gasPrice (Some n) in if isZkMode d then o else with_gasLimit 10000000 o in
  txRegisterValidator ← call_contract validatorTimelock "ValidatorTimelock" "addValidator"
    [chainId; VStr validatorOneAddress] (txOptions nonce);
  receiptRegisterValidator ← wait txRegisterValidator;
  say d "Validator registered";;
  tx3 ← call_contract validatorTimelock "ValidatorTimelock" "addValidator"
    [chainId; VStr validatorTwoAddress] (txOptions (nonce + 1));
  receipt3 ← wait tx3;
  say d "Validator 2 registered".

Definition registerZKChain (baseTokenAssetId : string) (validiumMode : bool)
    (extraFacets : option (list FacetCut)) (gasPrice : option Z) (compareDiamondCutHash : bool)
    (nonce : option Z) (predefinedChainId : option string) (useGovernance l2LegacySharedBridge : bool)
  : M unit :=
  nonce ← nonce_or_count nonce;
  bridgehub ← contract_at "Bridgehub" "BridgehubProxy";
  chainTypeManager ← contract_at "StateTransition" "StateTransitionProxy";
  ntv ← contract_at "Bridges" "NativeTokenVaultProxy";
  token ← view ntv "IL1NativeTokenVault" "tokenAddress" [VStr baseTokenAssetId];
  baseTokenAddress ← as_address token;
  inputChainId ← (if str_truthy predefinedChainId then mret (default "" predefinedChainId)
                  else number_env "CHAIN_ETH_ZKSYNC_NETWORK_ID");
  registered ← view chainTypeManager "ChainTypeManager" "getZKChain" [VStr inputChainId];
  current ← as_address registered;
  let alreadyRegisteredInCTM := negb (bool_decide (current = AddressZero)) in
  (if l2LegacySharedBridge then
     say d "Setting L2 legacy shared bridge in L1Nullifier";;
     setL2LegacySharedBridgeInL1Nullifier inputChainId
   else mret tt);;
  let nonce := if l2LegacySharedBridge then nonce + 1 else nonce in
  chainAdmin ← get_env "CHAIN_ADMIN_ADDRESS";
  let admin := if str_truthy chainAdmin then default "" chainAdmin else ownerAddress d in
  receipt ← create_chain baseTokenAssetId inputChainId admin extraFacets gasPrice
    compareDiamondCutHash useGovernance;
  newChain ← find_log receipt "NewChain";
  let chainId := newChain !! 1%nat in
  let nonce := nonce + 1 in
  let nonce := if useGovernance then nonce + 1 else nonce in
  set_address "" "BaseToken" baseTokenAddress;;
  set_address "" "BaseTokenAssetId" baseTokenAssetId;;
  when (verbose d) (
    console_log "ZK chain registered";;
    console_log (env_line "CHAIN_ETH_ZKSYNC_NETWORK_ID"
      (match chainId ≫= parse_topic with Some n => pretty n | None => "NaN" end));;
    ctm ← addr "StateTransition" "StateTransitionProxy";
    ctm_asset_line bridgehub ctm;;
    console_log (env_line "CONTRACTS_BASE_TOKEN_ADDR" baseTokenAddress));;
  (if negb alreadyRegisteredInCTM then
     newZKChain ← find_log receipt "NewZKChain";
     topic ← lift (or_throw read_error (newZKChain !! 2%nat));
     let diamondProxyAddress := "0x" +:+ js_slice 26 topic in
     set_address "StateTransition" "DiamondProxy" diamondProxyAddress;;
     say d (env_line "CONTRACTS_DIAMOND_PROXY_ADDR" diamondProxyAddress)
   else mret tt);;
  put_chainId (chainId ≫= parse_topic);;
  register_validators (match chainId with Some c => VStr c | None => VUndef end) gasPrice nonce;;
  diamondProxy ← contract_at "StateTransition" "DiamondProxy";
  (if bool_decide (admin = deployWallet d) then
     call_and_wait diamondProxy "IZKChain" "setTokenMultiplier" [VNum 1; VNum 1] no_opts;;
     say d "BaseTokenMultiplier set";;
     when validiumMode (
       call_and_wait diamondProxy "IZKChain" "setPubdataPricingMode" [VNum 1] no_opts;;
       say d "Validium mode set")
   else
     console_log "BaseTokenMultiplier and Validium mode can't be set through the governance, please set it separately, using the admin account");;
  when l2LegacySharedBridge (deployL2LegacySharedBridge inputChainId gasPrice).

(** ** Moving a chain *)

Definition moveChainToGateway (gatewayChainId : string) (gasPrice : option Z) : M tx_response :=
  protocolVersion ← genesis_protocol_version;
  chainData ← lift (or_throw invalid_hex (abi_encode ["uint256"] [num_val protocolVersion]));
  bridgehub ← contract_at "Bridgehub" "BridgehubProxy";
  let l2GasLimit := 72000000 in
  cost ← view bridgehub "Bridgehub" "l2TransactionBaseCost"
    [VStr gatewayChainId; num_val gasPrice; VNum l2GasLimit; VNum (requiredL2GasPricePerPubdata cfg)];
  baseCost ← as_number cost;
  let expectedCost := baseCost * 5 in
  let newAdmin := deployWallet d in
  diamondCutData ← initialZkSyncZKChainDiamondCut cfg None false;
  initialDiamondCut ← lift (or_throw invalid_hex
    (abi_encode [DIAMOND_CUT_DATA_ABI_STRING] [diamondCut_val diamondCutData]));
  ctmData ← lift (or_throw invalid_hex
    (abi_encode ["uint256"; "bytes"] [VStr newAdmin; VStr initialDiamondCut]));
  chainId ← get_chainId;
  bridgehubData ← lift (or_throw invalid_hex (abi_encode [BRIDGEHUB_CTM_ASSET_DATA_ABI_STRING]
    [VArr [num_val chainId; VStr ctmData; VStr chainData]]));
  assetId ← view bridgehub "Bridgehub" "ctmAssetIdFromChainId" [num_val chainId];
  chainAssetId ← as_address assetId;
  say d ("Chain asset id is: " +:+ chainAssetId);;
  say d (env_line "CONTRACTS_CTM_ASSET_INFO" chainAssetId);;
  encoded ← lift (or_throw invalid_hex
    (abi_encode ["bytes32"; "bytes"] [VStr chainAssetId; VStr bridgehubData]));
  let sharedBridgeData := "0x01" +:+ js_slice 2 encoded in
  secondBridge ← addr "Bridges" "SharedBridgeProxy";
  request ← encode_call "Bridgehub" "requestL2TransactionTwoBridges"
    [VObj [ ("chainId", VStr gatewayChainId); ("mintValue", VNum expectedCost); ("l2Value", VNum 0);
            ("l2GasLimit", VNum l2GasLimit);
            ("l2GasPerPubdataByteLimit", VNum (requiredL2GasPricePerPubdata cfg));
            ("refundRecipient", VStr (deployWallet d)); ("secondBridgeAddress", secondBridge);
            ("secondBridgeValue", VNum 0); ("secondBridgeCalldata", VStr sharedBridgeData) ]];
  executeChainAdminMulticall [mkChainAdminCall bridgehub expectedCost request] true.

(** Two types are encoded with no values. *)
Definition finishMoveChainToL1 (synclayerChainId : Z) : M unit :=
  nullifier ← contract_at "Bridges" "L1NullifierProxy";
  message ← lift (or_throw invalid_hex (abi_encode ["bytes32"; "bytes"] []));
  tx ← call_contract nullifier "IL1Nullifier" "finalizeWithdrawal"
    [VNum synclayerChainId; VNum 1; VNum 1; VNum 1; VStr message; VArr [VStr "0x00"]] no_opts;
  receipt ← wait tx;
  say d "Chain move to L1 finished".

End chains.
