(* ===== verification/DeployProcess.v ===== *)
(** * The deployment process ([l1-contracts/src.ts/deploy-process.ts])

    The order in which the ecosystem is deployed on a fresh network, and the
    registration of a chain on top of it. *)

From stdpp Require Import base gmap list strings pretty.
From Stdlib Require Import ZArith Lia.
From S2P Require Import Prelude Js Ethers DiamondCut Utils World DeployUtils Deployer.
From S2P Require Import DeployerContracts DeployerBridges DeployerChains.

Definition L2_BOOTLOADER_BYTECODE_HASH : string :=
  "0x1000100000000000000000000000000000000000000000000000000000000000".
Definition L2_DEFAULT_ACCOUNT_BYTECODE_HASH : string :=
  "0x1001000000000000000000000000000000000000000000000000000000000000".
Definition L2_EVM_EMULATOR_BYTECODE_HASH : string :=
  "0x1010000000000000000000000000000000000000000000000000000000000000".

Section process.
Context `{EthersOps} `{Chain} `{Artifacts} `{ZkArtifacts} `{Files} `{Interfaces}.
Variable cfg : SystemConfig.
Variable d : Deployer.

(** [nonce || nonce == 0 ? ++nonce : nonce] *)
Definition bump (nonce : option Z) : option Z := (λ n, n + 1) <$> nonce.

(** The local-network prologue: the factory and the multicall contract. *)
Definition local_prologue (create2Salt : string) (gasPrice nonce : option Z) : M (option Z) :=
  nonce ← (if negb (isZkMode d) then
             deployCreate2Factory d (opts gasPrice nonce);;
             mret (bump nonce)
           else
             updateCreate2FactoryZkMode d;;
             mret nonce);
  deployMulticall3 d create2Salt (opts gasPrice nonce);;
  mret (bump nonce).

Definition zk_bridgehub_addresses : M unit :=
  set_address "Bridgehub" "BridgehubProxy" L2_BRIDGEHUB_ADDRESS;;
  set_address "Bridgehub" "MessageRootProxy" L2_MESSAGE_ROOT_ADDRESS;;
  console_log (env_line "CONTRACTS_BRIDGEHUB_IMPL_ADDR" L2_BRIDGEHUB_ADDRESS);;
  console_log (env_line "CONTRACTS_BRIDGEHUB_PROXY_ADDR" L2_BRIDGEHUB_ADDRESS);;
  console_log (env_line "CONTRACTS_MESSAGE_ROOT_IMPL_ADDR" L2_MESSAGE_ROOT_ADDRESS);;
  console_log (env_line "CONTRACTS_MESSAGE_ROOT_PROXY_ADDR" L2_MESSAGE_ROOT_ADDRESS).

(** What follows the default upgrade. *)
Definition ecosystem_deployment (extraFacets : option (list FacetCut)) (create2Salt : string)
    (gasPrice : option Z) : M unit :=
  deployGenesisUpgrade d create2Salt (opts gasPrice None);;
  deployDAValidators d create2Salt (opts gasPrice None);;
  deployGovernance d create2Salt (opts gasPrice None);;
  deployChainAdmin d create2Salt (opts gasPrice None);;
  deployValidatorTimelock d create2Salt (opts gasPrice None);;
  (if negb (isZkMode d) then
     deployTransparentProxyAdmin d create2Salt (opts gasPrice None);;
     deployBridgehubContract d create2Salt gasPrice None
   else zk_bridgehub_addresses);;
  (if negb (isZkMode d) then
     deploySharedBridgeContracts d create2Salt gasPrice None;;
     deployERC20BridgeImplementation d create2Salt (opts gasPrice None) false;;
     deployERC20BridgeProxy d create2Salt (opts gasPrice None);;
     setParametersSharedBridge d
   else mret tt);;
  deployChainTypeManagerContract cfg d create2Salt extraFacets gasPrice None;;
  setChainTypeManagerInValidatorTimelock d (opts gasPrice None).

(** The two updates of [nonce] after [deployDefaultUpgrade] and
    [deployGenesisUpgrade] are not read again. *)
Definition initialBridgehubDeployment (extraFacets : option (list FacetCut)) (gasPrice : option Z)
    (onlyVerifier : bool) (create2Salt : option string) (nonce : option Z) : M unit :=
  create2Salt ← (if str_truthy create2Salt then mret (default "" create2Salt) else random_salt);
  isLocal ← network_is_local;
  nonce ← (match isLocal with
           | true => local_prologue create2Salt gasPrice nonce
           | false => mret nonce
           end);
  if onlyVerifier then deployVerifier d create2Salt (opts gasPrice nonce)
  else
    deployDefaultUpgrade d create2Salt (opts gasPrice None);;
    ecosystem_deployment extraFacets create2Salt gasPrice.

Definition registerZKChain (validiumMode : bool) (extraFacets : option (list FacetCut))
    (gasPrice : option Z) (baseTokenName chainId : option string) (useGovernance : bool) : M unit :=
  testnetTokens ← getTokens;
  baseTokenAddress ← (if str_truthy baseTokenName
                      then find_token (default "" baseTokenName) testnetTokens
                      else mret ADDRESS_ONE);
  padded ← lift (or_throw invalid_hex (hexZeroPad baseTokenAddress 32));
  l1 ← lift (or_throw invalid_hex (l1ChainId d));
  baseTokenAssetId ← lift (encodeNTVAssetId l1 padded);
  bridgehub ← contract_at "Bridgehub" "BridgehubProxy";
  answer ← view bridgehub "Bridgehub" "assetIdIsRegistered" [VStr baseTokenAssetId];
  (match answer with
   | VBool true => mret tt
   | _ => registerTokenBridgehub d baseTokenAddress useGovernance
   end);;
  (if negb (bool_decide (baseTokenAddress = ADDRESS_ONE))
   then registerTokenInNativeTokenVault d baseTokenAddress else mret tt);;
  DeployerChains.registerZKChain cfg d baseTokenAssetId validiumMode extraFacets gasPrice false None
    chainId useGovernance true.

End process.
