(* ===== verification/DeployToken.v ===== *)
(** * Test tokens ([l1-contracts/src.ts/deploy-token.ts], scripts/deploy-erc20.ts)

    Deployment of ERC-20 test tokens and minting to the test wallets.  The
    descriptions the script updates in place are distinct objects, modelled as
    values passed along; the wallets of a mnemonic and the contract factory of
    zksync-ethers, which are library code, are section variables. *)

From stdpp Require Import base gmap list strings pretty.
From Stdlib Require Import ZArith Lia.
From S2P Require Import Prelude Js Ethers Utils World DeployUtils.

Definition DEFAULT_ERC20 : string := "TestnetERC20Token".

(** An ethers [Contract]: its address, the name of its interface and
    [deployTransaction]. *)
Record deployed_contract := mkContract {
  c_address : string;
  c_interface : string;
  c_deployTransaction : tx_response;
}.

(** [L1Token & { implementation?, contract? }] *)
Record TokenDescription := mkToken {
  tk_address : option string;
  tk_name : string;
  tk_symbol : string;
  tk_decimals : val;
  tk_implementation : option string;
  tk_contract : option deployed_contract;
}.

(** [parseEther] of a whole number of ethers. *)
Definition parseEther (n : Z) : Z := n * 10 ^ 18.

Section tokens.
Context `{EthersOps} `{Chain} `{Artifacts}.
(** [wallet.address] and [Wallet.fromMnemonic(mnemonic, "m/44'/60'/0'/0/<i>").address] *)
Variable wallet : string.
Variable derived : string → nat → outcome string.
(** [new ContractFactory(abi, bytecode, zkWallet).deploy(...args, overrides)] of
    zksync-ethers, for the URL of the wallet's provider and the artifact of a
    name. *)
Variable zk_factory_deploy : string → string → list val → tx_options → M (string * tx_response).

(** ** deployContractWithArgs of deploy-utils-zk.ts *)

(** The deploy wallet's key with a provider of its own, given by its URL. *)
Definition ethersWalletToZkWallet : M string := from_env web3Url.

Definition deployContractWithArgsZK (contractName : string) (args : list val)
    (ethTxOptions : tx_options) : M (string * tx_response) :=
  lift (or_throw artifact_missing (ctor_inputs contractName));;
  zkWallet ← ethersWalletToZkWallet;
  zk_factory_deploy zkWallet contractName args ethTxOptions.

(** ** deployContracts *)

Definition token_implementation (token : TokenDescription) : string :=
  if str_truthy (tk_implementation token) then default "" (tk_implementation token) else DEFAULT_ERC20.

Definition token_args (token : TokenDescription) : list val :=
  [VStr (tk_name token); VStr (tk_symbol token); tk_decimals token].

(** One iteration of the loop: the description gets its implementation and its
    contract. *)
Definition deployContract (token : TokenDescription) (nonce : Z) : M TokenDescription :=
  let implementation := token_implementation token in
  let args := if String.eqb implementation "WETH9" then [] else token_args token in
  zk ← from_env (λ env, Done (isZKMode env));
  contract ← (if (zk : bool) then deployContractWithArgsZK implementation args
                                      (mkOpts (Some nonce) None None None [])
              else deployContractWithArgs implementation args
                     (mkOpts (Some nonce) None (Some 5000000) None []));
  mret (mkToken (tk_address token) (tk_name token) (tk_symbol token) (tk_decimals token)
          (Some implementation) (Some (mkContract contract.1 implementation contract.2))).

Fixpoint deployLoop (tokens : list TokenDescription) (nonce : Z) : M (list TokenDescription * Z) :=
  match tokens with
  | [] => mret ([], nonce)
  | token :: tokens' =>
      token ← deployContract token nonce;
      r ← deployLoop tokens' (nonce + 1);
      mret (token :: r.1, r.2)
  end.

Definition receipt_rejected (r : tx_response) : bool :=
  match r with Mined h t => negb (tx_succeeds h t) | Queued _ => false end.
Definition receipt_pending (r : tx_response) : bool :=
  match r with Mined _ _ => false | Queued _ => true end.

(** [await Promise.all(promises)] of receipts: rejected as soon as one is
    rejected, and pending while one is pending. *)
Definition wait_all (rs : list tx_response) : M unit :=
  if existsb receipt_rejected rs then throw call_exception
  else lift (if existsb receipt_pending rs then Hang else Done tt).

Definition missing_contract : js_error := JsTypeError "Cannot read properties of undefined".

Definition deployContracts (tokens : list TokenDescription) : M (list TokenDescription * Z) :=
  nonce ← getTransactionCount;
  r ← deployLoop tokens nonce;
  wait_all (omap (λ t, c_deployTransaction <$> tk_contract t) r.1);;
  mret r.

(** ** mintTokens *)

(** [array.map(f)] for an [f] that may throw. *)
Fixpoint map_outcome {A B} (f : A → outcome B) (l : list A) : M (list B) :=
  match l with
  | [] => mret []
  | x :: l' => y ← lift (f x); ys ← map_outcome f l'; mret (y :: ys)
  end.

Definition getTestAddresses (mnemonic : string) : M (list string) :=
  map_outcome (derived mnemonic) (seq 0 10).

(** [mnemonics.map(getTestAddresses).flat()] *)
Fixpoint allTestAddresses (mnemonics : list string) : M (list string) :=
  match mnemonics with
  | [] => mret []
  | m :: ms => a ← getTestAddresses m; rest ← allTestAddresses ms; mret (a ++ rest)
  end.

Definition unwrapToken (token : TokenDescription) (address : string) : TokenDescription :=
  mkToken (Some address) (tk_name token) (tk_symbol token) (tk_decimals token)
    (if str_truthy (tk_implementation token) then None else tk_implementation token) None.

Fixpoint mintTo (contract : deployed_contract) (targets : list string) (nonce : Z)
    : M (list tx_response) :=
  match targets with
  | [] => mret []
  | address :: targets' =>
      tx ← call_contract (c_address contract) (c_interface contract) "mint"
             [VStr address; VNum (parseEther 300000000000000000000)]
             (mkOpts (Some nonce) None None None []);
      rest ← mintTo contract targets' (nonce + 1);
      mret (tx :: rest)
  end.

(** The targets are never empty, so that a missing contract is a TypeError in
    both branches of the condition. *)
Fixpoint mintLoop (tokens : list TokenDescription) (targets : list string) (nonce : Z)
    : M (list TokenDescription * list tx_response) :=
  match tokens with
  | [] => mret ([], [])
  | token :: tokens' =>
      contract ← lift (or_throw missing_contract (tk_contract token));
      txs ← (if bool_decide (tk_implementation token = Some "WETH9") then mret []
             else mintTo contract targets nonce);
      r ← mintLoop tokens' targets (nonce + Z.of_nat (length txs));
      mret (unwrapToken token (c_address contract) :: r.1, txs ++ r.2)
  end.

Definition mintTokens (tokens : list TokenDescription) (nonce : Z) (mnemonics : list string)
    : M (list TokenDescription) :=
  addressArray ← allTestAddresses mnemonics;
  let targetAddresses := wallet :: addressArray in
  r ← mintLoop tokens targetAddresses nonce;
  wait_all r.2;;
  mret r.1.

(** ** deployTokens *)

(** [token.implementation || token.symbol != "WETH" ? DEFAULT_ERC20 : "WETH9"]:
    the disjunction is the condition. *)
Definition chosen_implementation (token : TokenDescription) : string :=
  if str_truthy (tk_implementation token) || negb (String.eqb (tk_symbol token) "WETH")
  then DEFAULT_ERC20 else "WETH9".

Definition testnet_args (network : option string) (token : TokenDescription) : list val :=
  if String.eqb (tk_symbol token) "WETH" then []
  else [VStr (tk_name token +:+ " (" +:+ js_show network +:+ ")"); VStr (tk_symbol token);
        tk_decimals token].

Definition mint_amount : val := VNum (parseEther 3000000000000).

(** [erc20.mint(address, amount)], sent and not waited for. *)
Definition mint_once (contract implementation address : string) : M unit :=
  call_contract contract implementation "mint" [VStr address; mint_amount] no_opts;; mret tt.

Definition deployToken (token : TokenDescription) (mnemonic : option string) (mint verbose : bool)
    : M TokenDescription :=
  let implementation := chosen_implementation token in
  let weth := String.eqb (tk_symbol token) "WETH" in
  network ← get_env "CHAIN_ETH_NETWORK";
  lift (or_throw artifact_missing (ctor_inputs implementation));;
  when verbose (console_log ("Deploying testnet " +:+ tk_symbol token +:+ " " +:+ implementation));;
  '(erc20, r) ← factory_deploy implementation (testnet_args network token)
                  (mkOpts None None (Some 3000000) None []);
  wait r;;
  when verbose (console_log ("Token " +:+ tk_symbol token +:+ " deployed at " +:+ erc20));;
  when (negb weth && mint) (mint_once erc20 implementation wallet);;
  when mint (for_each (seq 0 10) (λ i,
    testWalletAddress ← (if str_truthy mnemonic then lift (derived (default "" mnemonic) i)
                         else mret wallet);
    when (negb weth) (mint_once erc20 implementation testWalletAddress)));;
  mret (mkToken (Some erc20) (tk_name token) (tk_symbol token) (tk_decimals token)
          (tk_implementation token) (tk_contract token)).

Fixpoint deployTokens (tokens : list TokenDescription) (mnemonic : option string)
    (mint verbose : bool) : M (list TokenDescription) :=
  match tokens with
  | [] => mret []
  | token :: tokens' =>
      token ← deployToken token mnemonic mint verbose;
      rest ← deployTokens tokens' mnemonic mint verbose;
      mret (token :: rest)
  end.

(** ** The commands of deploy-erc20.ts: each returns the list it prints as JSON;
    the wallet is the one of the private key option or of the mnemonic. *)

Definition erc20_add (name symbol : string) (decimals : val) (implementation : option string)
    (mnemonic : string) : M (list TokenDescription) :=
  deployTokens [mkToken None name symbol decimals implementation None] (Some mnemonic) true false.

(** The descriptions are the parsed argument. *)
Definition erc20_add_multi (tokens : list TokenDescription) (test_mnemonic mnemonic : string)
    : M (list TokenDescription) :=
  '(tokens, nonce) ← deployContracts tokens;
  mintTokens tokens nonce [test_mnemonic; mnemonic].

(** ** The transactions of [add-multi] *)

(** Transactions with consecutive nonces. *)
Fixpoint number {A} (f : Z → A → tx) (n : Z) (l : list A) : list tx :=
  match l with [] => [] | x :: l' => f n x :: number f (n + 1) l' end.

Definition ctor_args (token : TokenDescription) : list val :=
  if String.eqb (token_implementation token) "WETH9" then [] else token_args token.

Definition creation (n : Z) (token : TokenDescription) : tx :=
  mkTx n None (default "" (deploy_data (token_implementation token) (ctor_args token)))
    0 None (Some 5000000) [].

Definition mint_data (interface target : string) : option string :=
  encodeFunctionData interface "mint" [VStr target; VNum (parseEther 300000000000000000000)].

(** Token address, interface and target of a mint call. *)
Definition mint_call (n : Z) (c : string * string * string) : tx :=
  mkTx n (Some c.1.1) (default "" (mint_data c.1.2 c.2)) 0 None None [].

Definition described (n : Z) (token : TokenDescription) : TokenDescription :=
  mkToken (Some (created_address n)) (tk_name token) (tk_symbol token) (tk_decimals token) None None.

Fixpoint minted_calls (targets : list string) (n : Z) (tokens : list TokenDescription)
    : list (string * string * string) :=
  match tokens with
  | [] => []
  | token :: tokens' =>
      (if String.eqb (token_implementation token) "WETH9" then []
       else map (λ a, (created_address n, token_implementation token, a)) targets)
      ++ minted_calls targets (n + 1) tokens'
  end.

Fixpoint described_all (n : Z) (tokens : list TokenDescription) : list TokenDescription :=
  match tokens with [] => [] | t :: ts => described n t :: described_all (n + 1) ts end.

(** The artifact exists and takes the arguments; the token can be minted to the
    targets. *)
Definition deployable (token : TokenDescription) : Prop :=
  ctor_inputs (token_implementation token) = Some (length (ctor_args token)) ∧
  is_Some (deploy_data (token_implementation token) (ctor_args token)).
Definition mintable (targets : list string) (token : TokenDescription) : Prop :=
  token_implementation token = "WETH9" ∨
  has_method (token_implementation token) "mint" = true ∧
  Forall (λ a, is_Some (mint_data (token_implementation token) a)) targets.

End tokens.

(** ** The run of [add-multi] on a network that accepts its transactions *)

Section run.
Context `{EthersOps} `{Chain} `{Artifacts}.
Variable zk_factory_deploy : string → string → list val → tx_options → M (string * tx_response).
Hypothesis accepts : ∀ h t, tx_succeeds h t = true.

(** What [deployContracts] leaves in a description. *)
Definition as_deployed (n : Z) (t t' : TokenDescription) : Prop :=
  ∃ h u, t' = mkToken (tk_address t) (tk_name t) (tk_symbol t) (tk_decimals t)
    (Some (token_implementation t))
    (Some (mkContract (created_address n) (token_implementation t) (Mined h u))).

Fixpoint all_deployed (n : Z) (ts ts' : list TokenDescription) : Prop :=
  match ts, ts' with
  | [], [] => True
  | t :: ts, t' :: ts' => as_deployed n t t' ∧ all_deployed (n + 1) ts ts'
  | _, _ => False
  end.

Lemma number_app {A} (f : Z → A → tx) n l l' :
  number f n (l ++ l') = number f n l ++ number f (n + Z.of_nat (length l)) l'.
Proof.
  revert n. induction l as [|x l IH]; intros n; cbn [app number length].
  - by rewrite Z.add_0_r.
  - rewrite IH. cbn. do 3 f_equal. lia.
Qed.

Lemma length_number {A} (f : Z → A → tx) n l : length (number f n l) = length l.
Proof. revert n. induction l as [|x l IH]; intros n; cbn; [done|by rewrite IH]. Qed.

Lemma implementation_truthy t : str_truthy (Some (token_implementation t)) = true.
Proof. unfold token_implementation. by destruct (tk_implementation t) as [[|]|]. Qed.

Lemma send_run w to data o :
  w_pool w = [] → o_nonce o = Some (tx_count w) →
  ∃ w', sendTransaction to data o w = (Done (Mined (w_mined w) (next_tx w to data o)), w') ∧
    ran w [next_tx w to data o] (w_addresses w) w'.
Proof.
  intros Hp Hn. rewrite send_next; [|done|by right|by intros _; apply accepts].
  eexists. split; [done|]. by split.
Qed.

Lemma deployContract_run w t :
  w_pool w = [] → isZKMode (w_env w) = false → deployable t →
  ∃ t' w', deployContract zk_factory_deploy t (tx_count w) w = (Done t', w') ∧
    as_deployed (tx_count w) t t' ∧ ran w [creation (tx_count w) t] (w_addresses w) w'.
Proof.
  intros Hp Hz [Hc [d Hd]].
  destruct (send_run w None d (mkOpts (Some (tx_count w)) None (Some 5000000) None []) Hp eq_refl)
    as (w' & Hs & R).
  unfold deployContract. fold (ctor_args t). unfold from_env.
  rewrite (run_bind_done _ _ w false w) by (by rewrite Hz).
  erewrite run_bind_done; [do 2 eexists; split; [done|]|].
  2:{ unfold deployContractWithArgs, factory_deploy, getDeployTransaction.
      rewrite (run_bind_done _ _ w d w).
      - rewrite (run_bind_done _ _ w _ w' Hs). done.
      - unfold mbind, M_bind, lift. rewrite Hc. cbn. by rewrite bool_decide_true, Hd. }
  split; [by do 2 eexists|].
  unfold creation. rewrite Hd. exact R.
Qed.

Lemma deployLoop_run ts : ∀ w,
  w_pool w = [] → isZKMode (w_env w) = false → Forall deployable ts →
  ∃ ts' w', deployLoop zk_factory_deploy ts (tx_count w) w = (Done (ts', tx_count w'), w') ∧
    all_deployed (tx_count w) ts ts' ∧ ran w (number creation (tx_count w) ts) (w_addresses w) w'.
Proof.
  induction ts as [|t ts IH]; intros w Hp Hz Hd.
  { exists [], w. split; [done|]. split; [done|]. by apply ran_refl. }
  apply Forall_cons in Hd as [Ht Hd].
  destruct (deployContract_run w t Hp Hz Ht) as (t' & w1 & E1 & A1 & R1).
  pose proof (ran_count _ _ _ _ R1) as Hn. cbn in Hn.
  destruct (IH w1) as (ts' & w2 & E2 & A2 & R2);
    [by apply R1|by rewrite (ran_env _ _ _ _ R1)|done|].
  rewrite Hn in E2, A2, R2. rewrite (ran_addresses _ _ _ _ R1) in R2.
  exists (t' :: ts'), w2. cbn [deployLoop].
  rewrite (run_bind_done _ _ _ _ _ E1), (run_bind_done _ _ _ _ _ E2).
  split; [done|]. split; [by split|]. exact (ran_trans _ _ _ _ _ _ _ R1 R2).
Qed.

Definition settled (r : tx_response) : Prop := receipt_pending r = false.

Lemma wait_all_run rs w : Forall settled rs → wait_all rs w = (Done tt, w).
Proof.
  intros Hs. unfold wait_all.
  assert (existsb receipt_rejected rs = false) as ->.
  { induction Hs as [|r rs Hr _ IH]; [done|]. cbn. rewrite IH.
    destruct r; [|done]. cbn. by rewrite accepts. }
  assert (existsb receipt_pending rs = false) as ->; [|done].
  induction Hs as [|r rs Hr _ IH]; [done|]. cbn. by rewrite IH, Hr.
Qed.

Lemma deployed_settled ts : ∀ n ts',
  all_deployed n ts ts' → Forall settled (omap (λ t, c_deployTransaction <$> tk_contract t) ts').
Proof.
  induction ts as [|t ts IH]; intros n [|t' ts']; cbn; try done.
  intros [(h & u & ->) A]. cbn. constructor; [done|eauto].
Qed.

Lemma mintTo_run c l : ∀ w,
  w_pool w = [] → has_method (c_interface c) "mint" = true →
  Forall (λ a, is_Some (mint_data (c_interface c) a)) l →
  ∃ rs w', mintTo c l (tx_count w) w = (Done rs, w') ∧ length rs = length l ∧ Forall settled rs ∧
    ran w (number mint_call (tx_count w) (map (λ a, (c_address c, c_interface c, a)) l))
      (w_addresses w) w'.
Proof.
  induction l as [|a l IH]; intros w Hp Hm Hl.
  { exists [], w. do 3 (split; [done|]). by apply ran_refl. }
  apply Forall_cons in Hl as [[d Hd] Hl].
  destruct (send_run w (Some (c_address c)) d (mkOpts (Some (tx_count w)) None None None []) Hp eq_refl)
    as (w1 & Hs & R1).
  pose proof (ran_count _ _ _ _ R1) as Hn. cbn in Hn.
  destruct (IH w1) as (rs & w2 & E2 & L2 & S2 & R2); [by apply R1|done|done|].
  rewrite Hn in E2, R2. rewrite (ran_addresses _ _ _ _ R1) in R2.
  eexists (_ :: rs), w2. cbn [mintTo]. split.
  { unfold call_contract. rewrite Hm. unfold mint_data in Hd.
    erewrite run_bind_done.
    2:{ rewrite (run_bind_done _ _ w d w); [exact Hs|]. unfold lift. by rewrite Hd. }
    by rewrite (run_bind_done _ _ _ _ _ E2). }
  split; [cbn; by rewrite L2|]. split; [by constructor|].
  cbn [map number]. unfold mint_call at 1. cbn [fst snd]. rewrite Hd.
  exact (ran_trans _ _ _ _ _ _ _ R1 R2).
Qed.

Lemma minted_calls_cons l n t ts :
  minted_calls l n (t :: ts) = (if String.eqb (token_implementation t) "WETH9" then []
    else map (λ a, (created_address n, token_implementation t, a)) l) ++ minted_calls l (n + 1) ts.
Proof. done. Qed.

(** The mint transactions of one token. *)
Lemma mint_token_run l n t w :
  w_pool w = [] → mintable l t →
  let c h u := mkContract (created_address n) (token_implementation t) (Mined h u) in
  let calls := if String.eqb (token_implementation t) "WETH9" then []
    else map (λ a, (created_address n, token_implementation t, a)) l in
  ∀ h u, ∃ rs w',
    (if bool_decide (Some (token_implementation t) = Some "WETH9") then mret []
     else mintTo (c h u) l (tx_count w)) w = (Done rs, w') ∧
    length rs = length calls ∧ Forall settled rs ∧
    ran w (number mint_call (tx_count w) calls) (w_addresses w) w'.
Proof.
  intros Hp Hm c calls h u. subst calls.
  destruct (String.eqb_spec (token_implementation t) "WETH9") as [E|E].
  - rewrite bool_decide_true by congruence. exists [], w. do 3 (split; [done|]). by apply ran_refl.
  - rewrite bool_decide_false by congruence. destruct Hm as [Hm|[Hm Hl]]; [done|].
    destruct (mintTo_run (c h u) l w Hp Hm Hl) as (rs & w' & Er & L & S & R).
    exists rs, w'. rewrite length_map. done.
Qed.

Lemma mintLoop_run l ts : ∀ ts' n w,
  w_pool w = [] → all_deployed n ts ts' → Forall (mintable l) ts →
  ∃ rs w', mintLoop ts' l (tx_count w) w = (Done (described_all n ts, rs), w') ∧
    Forall settled rs ∧ ran w (number mint_call (tx_count w) (minted_calls l n ts)) (w_addresses w) w'.
Proof.
  induction ts as [|t ts IH]; intros [|t' ts'] n w Hp A Hm; try done.
  { exists [], w. do 2 (split; [done|]). by apply ran_refl. }
  destruct A as [(h & u & ->) A]. apply Forall_cons in Hm as [Ht Hm].
  destruct (mint_token_run l n t w Hp Ht h u) as (rs & w1 & E1 & L1 & S1 & R1).
  pose proof (ran_count _ _ _ _ R1) as Hn. rewrite length_number in Hn.
  destruct (IH ts' (n + 1) w1) as (rs' & w2 & E2 & S2 & R2); [by apply R1|done|done|].
  rewrite Hn in E2, R2. rewrite (ran_addresses _ _ _ _ R1) in R2.
  exists (rs ++ rs'), w2. cbn [mintLoop tk_contract tk_implementation]. split; [|split].
  - erewrite run_bind_done by done. rewrite (run_bind_done _ _ _ _ _ E1), L1.
    rewrite (run_bind_done _ _ _ _ _ E2), run_ret.
    unfold unwrapToken. cbn [tk_implementation]. by rewrite implementation_truthy.
  - by apply Forall_app.
  - rewrite minted_calls_cons, number_app. exact (ran_trans _ _ _ _ _ _ _ R1 R2).
Qed.

Lemma map_outcome_run {A B} (f : A → outcome B) (g : A → B) l w :
  (∀ x, x ∈ l → f x = Done (g x)) → map_outcome f l w = (Done (map g l), w).
Proof.
  induction l as [|x l IH]; intros Hf; [done|]. cbn [map_outcome].
  rewrite (run_bind_done _ _ w (g x) w) by (unfold lift; by rewrite Hf by left).
  rewrite (run_bind_done _ _ w (map g l) w); [done|]. apply IH. intros y Hy. apply Hf. by right.
Qed.

Lemma allTestAddresses_run derived (addr : string → nat → string) ms w :
  (∀ m i, m ∈ ms → (i < 10)%nat → derived m i = Done (addr m i)) →
  allTestAddresses derived ms w = (Done (concat (map (λ m, map (addr m) (seq 0 10)) ms)), w).
Proof.
  induction ms as [|m ms IH]; intros Hd; [done|]. cbn [allTestAddresses].
  erewrite run_bind_done; [|apply (map_outcome_run _ (addr m))].
  - erewrite run_bind_done; [done|]. apply IH. intros. apply Hd; [by right|done].
  - intros i Hi. apply Hd; [by left|]. apply elem_of_seq in Hi. lia.
Qed.

(** The command [add-multi] outside zkSync mode, on a network that accepts its
    transactions: with an empty mempool, artifacts that take the arguments and
    mnemonics that derive, it returns; exactly one creation per token and then
    one mint per target of each token other than [WETH9] are mined, with
    consecutive nonces and nothing left queued; and each token printed is the
    one described, at the address its creation nonce determines. *)
Theorem erc20_add_multi_runs wallet derived addr tokens m1 m2 w :
  let targets := wallet :: concat (map (λ m, map (addr m) (seq 0 10)) [m1; m2]) in
  w_pool w = [] → isZKMode (w_env w) = false →
  Forall deployable tokens → Forall (mintable targets) tokens →
  (∀ m i, m ∈ [m1; m2] → (i < 10)%nat → derived m i = Done (addr m i)) →
  ∃ w', erc20_add_multi wallet derived zk_factory_deploy tokens m1 m2 w =
          (Done (described_all (tx_count w) tokens), w') ∧
    ran w (number creation (tx_count w) tokens ++
           number mint_call (tx_count w + Z.of_nat (length tokens))
             (minted_calls targets (tx_count w) tokens)) (w_addresses w) w'.
Proof.
  intros targets Hp Hz Hd Hm Ha.
  destruct (deployLoop_run tokens w Hp Hz Hd) as (ts & w1 & E1 & A1 & R1).
  pose proof (ran_count _ _ _ _ R1) as Hn. rewrite length_number in Hn.
  destruct (mintLoop_run targets tokens ts (tx_count w) w1) as (rs & w2 & E2 & S2 & R2);
    [by apply R1|done|done|].
  exists w2. split.
  - unfold erc20_add_multi. erewrite run_bind_done.
    2:{ unfold deployContracts. erewrite run_bind_done by done.
        rewrite (run_bind_done _ _ _ _ _ E1). cbn [fst].
        erewrite run_bind_done by (eapply wait_all_run, deployed_settled, A1). done. }
    unfold mintTokens. rewrite (run_bind_done _ _ _ _ _ (allTestAddresses_run _ _ _ w1 Ha)).
    fold targets. rewrite (run_bind_done _ _ _ _ _ E2). cbn [fst snd].
    by rewrite (run_bind_done _ _ _ _ _ (wait_all_run _ w2 S2)).
  - rewrite Hn, (ran_addresses _ _ _ _ R1) in R2. exact (ran_trans _ _ _ _ _ _ _ R1 R2).
Qed.

End run.

(** Two tokens, one of them [WETH9], on a fresh wallet. *)
Lemma erc20_add_multi_witness :
  let tokens := [mkToken None "Dai" "DAI" (VNum 18) None None;
                 mkToken None "Wrapped" "WETH" (VNum 18) (Some "WETH9") None] in
  let ctor n := Some (if String.eqb n "WETH9" then 0%nat else 3%nat) in
  let chain := model_chain (λ _ _, Done VUndef) in
  let addr m i := m +:+ pretty i in
  ∃ w', @erc20_add_multi model_ethers chain (model_artifacts ctor) "0xw"
          (λ m i, Done (addr m i)) (λ _ _ _ _, throw missing_contract) tokens "a" "b"
          (model_world ∅ ∅) = (Done (@described_all chain 0 tokens), w') ∧
    length (w_mined w') = 23%nat.
Proof.
  intros tokens ctor chain addr.
  destruct (@erc20_add_multi_runs model_ethers chain (model_artifacts ctor)
    (λ _ _ _ _, throw missing_contract) (λ _ _, eq_refl) "0xw" (λ m i, Done (addr m i)) addr
    tokens "a" "b" (model_world ∅ ∅)) as (w' & E & R).
  - reflexivity.
  - reflexivity.
  - repeat constructor; eexists; reflexivity.
  - constructor; [right|constructor; [left; reflexivity|constructor]].
    split; [reflexivity|]. apply Forall_forall. intros a _. eexists. reflexivity.
  - intros. reflexivity.
  - exists w'. split; [exact E|]. rewrite (ran_mined _ _ _ _ R). reflexivity.
Defined.

(** ** [deployTokens] ignores the implementation asked for *)

Section ignored.
Context `{EthersOps} `{Chain} `{Artifacts}.

Definition with_implementation (i : option string) (t : TokenDescription) : TokenDescription :=
  mkToken (tk_address t) (tk_name t) (tk_symbol t) (tk_decimals t) i (tk_contract t).

(** A description with symbol [WETH] that names an implementation, [WETH9]
    included, makes [deployTokens] refuse its own arguments: the default token,
    whose constructor has three inputs, is deployed with none. *)
Theorem deployTokens_weth_implementation wallet derived tokens t i mnemonic mint w :
  tk_symbol t = "WETH" → str_truthy (Some i) = true →
  ctor_inputs DEFAULT_ERC20 = Some 3%nat →
  deployTokens wallet derived (with_implementation (Some i) t :: tokens) mnemonic mint false w =
    (Throw argument_count, w).
Proof.
  intros Hs Hi Hc. cbn [deployTokens]. apply run_bind_throw.
  unfold deployToken, chosen_implementation, testnet_args, with_implementation.
  cbn [tk_implementation tk_symbol]. rewrite Hi, Hs. cbn [orb].
  erewrite run_bind_done by done.
  rewrite (run_bind_done _ _ w 3%nat w) by (unfold lift; by rewrite Hc).
  rewrite (run_bind_done _ _ w tt w) by done.
  apply run_bind_throw. unfold factory_deploy, getDeployTransaction. apply run_bind_throw.
  rewrite (run_bind_done _ _ w 3%nat w) by (unfold lift; by rewrite Hc). done.
Qed.

End ignored.
