(* ===== verification/Frames.v ===== *)
(** * Frames: what a script cannot change

    Two invariants that hold of whole scripts because they hold of the steps
    they are made of.  [keeps_missing g m]: a group missing from the address
    book stays missing (no step creates one).  [mines n m]: when [m] returns,
    started with an empty mempool, it has mined exactly [n] transactions, left
    the mempool empty and the environment as it was.  Both are closed under
    sequencing; the hint database [rollupx] proves them for scripts. *)

From stdpp Require Import base gmap list strings pretty.
From Stdlib Require Import ZArith Lia.
From S2P Require Import Prelude Js Ethers DiamondCut Utils World DeployUtils Deployer.
From S2P Require Import DeployerContracts DeployerBridges DeployerChains DeployProcess.

Definition keeps_missing {A} (g : string) (m : M A) : Prop :=
  ∀ w, w_addresses w !! g = None → w_addresses (m w).2 !! g = None.

Definition mines {A} (n : nat) (m : M A) : Prop :=
  ∀ w a w', w_pool w = [] → m w = (Done a, w') →
    w_pool w' = [] ∧ length (w_mined w') = (length (w_mined w) + n)%nat ∧ w_env w' = w_env w.

(** ** Sequencing *)

Lemma keeps_bind {A B} g (m : M A) (k : A → M B) :
  keeps_missing g m → (∀ a, keeps_missing g (k a)) → keeps_missing g (m ≫= k).
Proof.
  intros Hm Hk w Hw. unfold mbind, M_bind. specialize (Hm w Hw).
  destruct (m w) as [[a|e|] w']; cbn in *; [by apply Hk|done|done].
Qed.

Lemma mines_bind {A B} n1 n2 n (m : M A) (k : A → M B) :
  mines n1 m → (∀ a, mines n2 (k a)) → n = (n1 + n2)%nat → mines n (m ≫= k).
Proof.
  intros Hm Hk -> w b w' Hp Hr. apply bind_done_inv in Hr as (a & w1 & E1 & E2).
  destruct (Hm _ _ _ Hp E1) as (Hp1 & Hl1 & He1). destruct (Hk a _ _ _ Hp1 E2) as (Hp2 & Hl2 & He2).
  split_and!; [done|lia|congruence].
Qed.

(** A step that leaves addresses, chain and environment alone. *)
Definition quiet {A} (m : M A) : Prop := ∀ w,
  w_addresses (m w).2 = w_addresses w ∧ w_mined (m w).2 = w_mined w ∧
  w_pool (m w).2 = w_pool w ∧ w_env (m w).2 = w_env w.

Lemma quiet_keeps {A} g (m : M A) : quiet m → keeps_missing g m.
Proof. intros Hq w Hw. by rewrite (proj1 (Hq w)). Qed.

Lemma quiet_mines {A} (m : M A) : quiet m → mines 0 m.
Proof.
  intros Hq w a w' Hp E. destruct (Hq w) as (_ & Hm & Hpl & He). rewrite E in Hm, Hpl, He. cbn in *.
  split_and!; [congruence| |done]. rewrite Hm. lia.
Qed.

Lemma quiet_bind {A B} (m : M A) (k : A → M B) : quiet m → (∀ a, quiet (k a)) → quiet (m ≫= k).
Proof.
  intros Hm Hk w. unfold mbind, M_bind. specialize (Hm w).
  destruct (m w) as [[a|e|] w']; cbn in *; [|done|done].
  destruct (Hk a w') as (?&?&?&?), Hm as (?&?&?&?). split_and!; congruence.
Qed.

Lemma mines_bind_quiet {A B} n (m : M A) (k : A → M B) :
  quiet m → (∀ a, mines n (k a)) → mines n (m ≫= k).
Proof. intros Hm Hk. by eapply (mines_bind 0 n); [apply quiet_mines| |]. Qed.

(** ** Steps *)

Lemma quiet_ret {A} (a : A) : quiet (mret a).
Proof. by intros w. Qed.
Lemma quiet_lift {A} (o : outcome A) : quiet (lift o).
Proof. by intros w. Qed.
Lemma quiet_throw {A} e : quiet (throw (A := A) e).
Proof. by intros w. Qed.
Lemma quiet_from_env {A} (f : environ → outcome A) : quiet (from_env f).
Proof. by intros w. Qed.
Lemma quiet_get_env n : quiet (get_env n).
Proof. by intros w. Qed.
Lemma quiet_local : quiet network_is_local.
Proof. by intros w. Qed.
Lemma quiet_log l : quiet (console_log l).
Proof. by intros w. Qed.
Lemma quiet_when b m : quiet m → quiet (when b m).
Proof. destruct b; [done|]. intros _. apply quiet_ret. Qed.
Lemma quiet_get_address g f : quiet (get_address g f).
Proof. intros w. unfold get_address. by destruct (w_addresses w !! g). Qed.
Lemma quiet_as_address v : quiet (as_address v).
Proof. by destruct v. Qed.
Lemma quiet_as_number v : quiet (as_number v).
Proof. by destruct v. Qed.
Lemma quiet_get_hashes : quiet get_hashes.
Proof. by intros w. Qed.
Lemma quiet_get_chainId : quiet get_chainId.
Proof. by intros w. Qed.
Lemma quiet_put_chainId n : quiet (put_chainId n).
Proof. by intros w. Qed.

Section chain_steps.
Context `{EthersOps} `{Chain} `{Artifacts}.

Lemma quiet_count : quiet getTransactionCount.
Proof. by intros w. Qed.
Lemma quiet_getCode a : quiet (getCode a).
Proof. by intros w. Qed.
Lemma quiet_view a c m args : quiet (view a c m args).
Proof. by intros w. Qed.
Lemma quiet_gasPrice : quiet getGasPrice.
Proof. by intros w. Qed.
Lemma quiet_now : quiet Date_now.
Proof. by intros w. Qed.
Lemma quiet_salt : quiet random_salt.
Proof. by intros w. Qed.
Lemma quiet_wait r : quiet (wait r).
Proof. intros w. unfold wait. destruct r; [|done]. by destruct (tx_succeeds _ _). Qed.
Lemma quiet_deployTx n args : quiet (getDeployTransaction n args).
Proof.
  apply quiet_bind; [apply quiet_lift|]. intros i. case_goal; [apply quiet_lift|apply quiet_throw].
Qed.
Lemma quiet_encode c m args : quiet (encode_call c m args).
Proof. unfold encode_call. case_goal; [apply quiet_lift|apply quiet_throw]. Qed.

Lemma send_addresses to data o w : w_addresses (sendTransaction to data o w).2 = w_addresses w.
Proof. unfold sendTransaction. repeat case_goal; done. Qed.

Lemma keeps_send g to data o : keeps_missing g (sendTransaction to data o).
Proof. intros w Hw. by rewrite send_addresses. Qed.

(** A call without an explicit nonce that is waited for is mined. *)
Lemma mines_send to data o : o_nonce o = None → mines 1 (sendTransaction to data o).
Proof.
  intros Hn w r w' Hp. unfold sendTransaction. rewrite Hn, Hp. cbn [js_coalesce].
  rewrite Z.ltb_irrefl. case_goal; [done|]. cbn [flush length]. intros [= _ <-]. cbn.
  rewrite length_app. done.
Qed.

End chain_steps.

Lemma keeps_set_address g group field a : keeps_missing g (set_address group field a).
Proof.
  intros w Hw. unfold set_address. destruct (w_addresses w !! group) eqn:E; [|done].
  cbn. rewrite lookup_insert_ne; [done|]. congruence.
Qed.

Lemma mines_set_address group field a : mines 0 (set_address group field a).
Proof.
  intros w x w' Hp. unfold set_address. destruct (w_addresses w !! group); [|done].
  intros [= _ <-]. cbn. split_and!; [done|lia|done].
Qed.

#[export] Hint Resolve quiet_ret quiet_lift quiet_throw quiet_from_env quiet_get_env quiet_local
  quiet_log quiet_when quiet_get_address quiet_as_address quiet_as_number quiet_get_hashes
  quiet_get_chainId quiet_put_chainId quiet_count quiet_getCode quiet_view quiet_gasPrice quiet_now
  quiet_salt quiet_wait quiet_deployTx quiet_encode : rollupx.
#[export] Hint Resolve quiet_keeps quiet_mines keeps_send keeps_set_address mines_set_address : rollupx.
