(* ===== verification/DeployerProofs.v ===== *)
(** * Properties of the deployer

    What the deployment methods do on chain and to the address book, and what
    they can never do: nonce schedules, the calls made through governance, and
    the paths that cannot return. *)

From stdpp Require Import base gmap list strings pretty.
From Stdlib Require Import ZArith Lia.
From S2P Require Import Prelude Js Ethers DiamondCut Utils World DeployUtils Deployer.
From S2P Require Import DeployerContracts DeployerBridges DeployerChains DeployProcess Frames.

#[local] Hint Unfold say log record_address addr contract_at number_env address_env hash_env
  call_contract call_and_wait factory_deploy zk_create2 deployBytecodeViaCreate2
  deployBytecodeViaCreate2Zk deployViaCreate2Zk DeployUtils.deployViaCreate2
  Deployer.deployViaCreate2 hash_hex find_log throw : rollupx_defs.

(** Proves that a script keeps missing groups missing. *)
Ltac keeps_step :=
  first [ solve [eauto 4 with rollupx]
        | apply keeps_bind; [|intros ?]
        | progress case_goal
        | progress autounfold with rollupx_defs ].
Ltac keeps := repeat keeps_step.

Section frames.
Context `{EthersOps} `{Chain} `{Artifacts} `{ZkArtifacts} `{Files} `{Interfaces}.
Variable cfg : SystemConfig.
Variable d : Deployer.
Variable g : string.

Lemma keeps_deployViaCreate2 name args salt o code :
  keeps_missing g (Deployer.deployViaCreate2 d name args salt o code).
Proof. unfold Deployer.deployViaCreate2. keeps. Qed.

Lemma keeps_deployCreate2Factory o : keeps_missing g (deployCreate2Factory d o).
Proof. unfold deployCreate2Factory. keeps. Qed.

Lemma keeps_updateCreate2Factory : keeps_missing g (updateCreate2FactoryZkMode d).
Proof. unfold updateCreate2FactoryZkMode. keeps. Qed.

Lemma keeps_deployMulticall3 salt o : keeps_missing g (deployMulticall3 d salt o).
Proof. unfold deployMulticall3. keeps. Qed.

#[local] Hint Resolve keeps_deployViaCreate2 keeps_deployCreate2Factory keeps_updateCreate2Factory
  keeps_deployMulticall3 : rollupx.

Lemma keeps_local_prologue salt gasPrice nonce : keeps_missing g (local_prologue d salt gasPrice nonce).
Proof. unfold local_prologue. keeps. Qed.

(** Recording an address in a missing group throws. *)
Lemma record_missing name field a w :
  w_addresses w !! g = None → is_done (record_address d name g field a w).1 = false.
Proof.
  intros Hw. unfold record_address, say, when.
  destruct (verbose d); unfold mbind, M_bind; cbn; unfold set_address; cbn; by rewrite Hw.
Qed.

End frames.

(** A script whose first part never returns never returns. *)
Lemma never_done_bind {A B} (m : M A) (k : A → M B) w :
  (∀ a w', m w = (Done a, w') → is_done (k a w').1 = false) → is_done ((m ≫= k) w).1 = false.
Proof. intros Hk. unfold mbind, M_bind. destruct (m w) as [[a|e|] w'] eqn:E; [by apply Hk|done|done]. Qed.

Section never.
Context `{EthersOps} `{Chain} `{Artifacts} `{ZkArtifacts} `{Files} `{Interfaces}.
Variable cfg : SystemConfig.
Variable d : Deployer.

Lemma deployDefaultUpgrade_never salt o w :
  w_addresses w !! "stateTransition" = None → is_done (deployDefaultUpgrade d salt o w).1 = false.
Proof.
  intros Hw. apply never_done_bind. intros a w' E. apply record_missing.
  pose proof (keeps_deployViaCreate2 d "stateTransition" "DefaultUpgrade" [] salt o None w Hw) as Hk.
  by rewrite E in Hk.
Qed.

End never.

(** ** Deploying one contract *)

Section deploying.
Context `{EthersOps} `{Chain} `{Artifacts} `{ZkArtifacts} `{Files} `{Interfaces} `{!FactoryAbi}.
Context (factory : string) `{!ChainLaws factory}.
Variable d : Deployer.
Hypothesis Hzk : zkWallet d = false.
Variable salt : string.

(** The address book names the factory. *)
Definition has_factory (w : world) : Prop :=
  w_addresses w !! "" ≫= (λ g, g !! "Create2Factory") = Some factory.

(** [a] is where the contract goes. *)
Definition targets (name : string) (args : list val) (code a : string) : Prop :=
  ctor_inputs name = Some (length args) ∧ deploy_data name args = Some code ∧
  create2_address factory salt code = Some a.

Lemma getDeploy_run name args code a w :
  targets name args code a → getDeployTransaction name args w = (Done code, w).
Proof.
  intros (Hi & Hd & _). unfold getDeployTransaction. rewrite Hi. unfold mbind, M_bind, lift. cbn.
  rewrite bool_decide_true by done. by rewrite Hd.
Qed.

(** [Deployer.deployViaCreate2] is the factory deployment with a gas limit. *)
Lemma deployer_run name args o code a w :
  targets name args code a → has_factory w →
  Deployer.deployViaCreate2 d name args salt o None w =
  (result ← deployBytecodeViaCreate2 name code salt (default_gasLimit 10000000 o) (VStr factory) (verbose d);
   mret result.1) w.
Proof.
  intros Ht Hf. unfold Deployer.deployViaCreate2, isZkMode, addr. rewrite Hzk.
  unfold has_factory in Hf. destruct (w_addresses w !! "") as [g|] eqn:E; [|done]. cbn in Hf.
  rewrite (run_bind_done _ _ w (VStr factory) w) by (unfold get_address; by rewrite E, Hf).
  unfold mbind at 1, M_bind at 1, DeployUtils.deployViaCreate2. cbn [str_truthy].
  by rewrite (run_bind_done _ _ _ _ _ (getDeploy_run _ _ _ _ w Ht)).
Qed.

Lemma default_gas_some o : o_gasLimit (default_gasLimit 10000000 o) ≠ None.
Proof. done. Qed.

(** A fresh deployment with the next nonce. *)
Lemma deployer_fresh name args o code a w :
  targets name args code a → has_factory w → w_pool w = [] →
  has_code (code_at (w_mined w) a) = false → constructor_ok (w_mined w) code = true →
  nonce_is_next w o →
  let t := deploy_tx w factory code salt (default_gasLimit 10000000 o) in
  ∃ w', Deployer.deployViaCreate2 d name args salt o None w = (Done a, w') ∧
    ran w [t] (w_addresses w) w' ∧ has_code (code_at (w_mined w') a) = true.
Proof.
  intros Ht Hf Hp Hc Hk Hn t. rewrite (deployer_run _ _ _ _ _ _ Ht Hf).
  destruct Ht as (_ & _ & Ha).
  destruct (deploy_absent_next factory name code salt a (default_gasLimit 10000000 o) (verbose d) Ha
    (default_gas_some o) w Hp Hc Hn) as (w' & R & E & Hcode).
  rewrite Hk in E, Hcode. exists w'. by rewrite (run_bind_done _ _ _ _ _ E).
Qed.

Lemma deployer_present name args o code a w :
  targets name args code a → has_factory w → w_pool w = [] →
  has_code (code_at (w_mined w) a) = true →
  ∃ w', Deployer.deployViaCreate2 d name args salt o None w = (Done a, w') ∧ ran w [] (w_addresses w) w'.
Proof.
  intros Ht Hf Hp Hc. rewrite (deployer_run _ _ _ _ _ _ Ht Hf). destruct Ht as (_ & _ & Ha).
  destruct (deploy_present factory name code salt a (default_gasLimit 10000000 o) (verbose d) Ha w Hp Hc)
    as (w' & E & R).
  exists w'. by rewrite (run_bind_done _ _ _ _ _ E).
Qed.

Lemma deployer_stale name args o code a w n :
  targets name args code a → has_factory w → has_code (code_at (w_mined w) a) = false →
  o_nonce o = Some n → n < tx_count w →
  ∃ c, Deployer.deployViaCreate2 d name args salt o None w = (Throw nonce_expired, set_console c w).
Proof.
  intros Ht Hf Hc Hn Hlt. rewrite (deployer_run _ _ _ _ _ _ Ht Hf). destruct Ht as (_ & _ & Ha).
  destruct (deploy_absent_stale factory name code salt a (default_gasLimit 10000000 o) (verbose d) Ha
    (default_gas_some o) w n Hc Hn Hlt) as [c E].
  exists c. by rewrite (run_bind_throw _ _ _ _ _ E).
Qed.

Lemma deployer_future name args o code a w n :
  targets name args code a → has_factory w → has_code (code_at (w_mined w) a) = false →
  o_nonce o = Some n → tx_count w < n →
  ∃ w', Deployer.deployViaCreate2 d name args salt o None w = (Hang, w') ∧ w_mined w' = w_mined w.
Proof.
  intros Ht Hf Hc Hn Hlt. rewrite (deployer_run _ _ _ _ _ _ Ht Hf). destruct Ht as (_ & _ & Ha).
  destruct (deploy_absent_future factory name code salt a (default_gasLimit 10000000 o) (verbose d) Ha
    (default_gas_some o) w n Hc Hn Hlt) as (w' & E & Hm).
  exists w'. by rewrite (run_bind_hang _ _ _ _ E).
Qed.

Lemma say_run msg w : ∃ c, say d msg w = (Done tt, set_console c w).
Proof. apply log_run. Qed.

(** The address book with one more entry. *)
Definition book (w : world) (group field a : string) : addresses :=
  <[group := <[field := a]> (default ∅ (w_addresses w !! group))]> (w_addresses w).

Lemma record_run name group field a w :
  is_Some (w_addresses w !! group) → w_pool w = [] →
  ∃ w', record_address d name group field a w = (Done tt, w') ∧ ran w [] (book w group field a) w'.
Proof.
  intros [g E] Hp. unfold record_address. destruct (say_run (env_line name a) w) as [c Ec].
  rewrite (run_bind_done _ _ _ _ _ Ec). unfold set_address. cbn. rewrite E. eexists. split; [done|].
  split; cbn; try done; [by rewrite app_nil_r|]. unfold book. by rewrite E.
Qed.

(** ** Deploying a list of contracts with consecutive nonces *)

Record action : Type := mkAction {
  act_run : tx_options → M unit;
  act_name : string;
  act_code : string;
  act_addr : string;
}.

Definition inv (env0 : environ) (w : world) : Prop :=
  w_env w = env0 ∧ w_pool w = [] ∧ has_factory w ∧ is_Some (w_addresses w !! "StateTransition").

Definition field_of (w : world) (field : string) : option string :=
  w_addresses w !! "StateTransition" ≫= (λ g, g !! field).

(** Run on an empty target with the next nonce, the action deploys its contract
    and records the address under its name. *)
Definition act_ok (env0 : environ) (f : action) : Prop :=
  create2_address factory salt (act_code f) = Some (act_addr f) ∧
  ∀ w o, inv env0 w → has_code (code_at (w_mined w) (act_addr f)) = false → nonce_is_next w o →
    ∃ w', act_run f o w = (Done tt, w') ∧
      ran w [deploy_tx w factory (act_code f) salt (default_gasLimit 10000000 o)]
        (book w "StateTransition" (act_name f) (act_addr f)) w' ∧
      has_code (code_at (w_mined w') (act_addr f)) = true.

Fixpoint run_actions (gasPrice : option Z) (n : Z) (fs : list action) : M unit :=
  match fs with
  | [] => mret tt
  | f :: fs' => act_run f (opts gasPrice (Some n));; run_actions gasPrice (n + 1) fs'
  end.

Lemma book_field w field a w' :
  w_addresses w' = book w "StateTransition" field a →
  field_of w' field = Some a ∧ ∀ field', field' ≠ field → is_Some (w_addresses w !! "StateTransition") →
    field_of w' field' = field_of w field'.
Proof.
  unfold field_of, book. intros ->. rewrite lookup_insert_eq. cbn. split; [by rewrite lookup_insert_eq|].
  intros f' Hne [g Hg]. rewrite lookup_insert_ne by done. by rewrite Hg.
Qed.

Lemma inv_step env0 w ts field a w' :
  inv env0 w → ran w ts (book w "StateTransition" field a) w' → inv env0 w'.
Proof.
  intros (He & Hp & Hf & Hs) [Hm Hp' Ha He' _ _]. unfold inv, has_factory in *.
  rewrite Ha. unfold book. rewrite lookup_insert_eq, lookup_insert_ne by done.
  split_and!; [congruence|done|done|by eexists].
Qed.

Lemma run_actions_fresh env0 gasPrice fs w :
  inv env0 w → Forall (act_ok env0) fs → NoDup (act_addr <$> fs) → NoDup (act_name <$> fs) →
  Forall (λ f, has_code (code_at (w_mined w) (act_addr f)) = false) fs →
  ∃ w' ts, run_actions gasPrice (tx_count w) fs w = (Done tt, w') ∧
    w_mined w' = w_mined w ++ ts ∧ tx_nonce <$> ts = seqZ (tx_count w) (Z.of_nat (length fs)) ∧
    inv env0 w' ∧
    (∀ f, f ∈ fs → field_of w' (act_name f) = Some (act_addr f) ∧
                   has_code (code_at (w_mined w') (act_addr f)) = true) ∧
    (∀ field, field ∉ act_name <$> fs → field_of w' field = field_of w field) ∧
    (∀ a, has_code (code_at (w_mined w) a) = true → has_code (code_at (w_mined w') a) = true).
Proof.
  revert w. induction fs as [|f fs IH]; intros w Hi Hok Hna Hnn Hfree.
  - exists w, []. rewrite app_nil_r. split_and!; try done. by intros f ?%not_elem_of_nil.
  - apply Forall_cons in Hok as [[Hc2 Hrun] Hok]. apply Forall_cons in Hfree as [Hf Hfree].
    cbn in Hna, Hnn. apply NoDup_cons in Hna as [Hna1 Hna]. apply NoDup_cons in Hnn as [Hnn1 Hnn].
    destruct (Hrun w (opts gasPrice (Some (tx_count w))) Hi Hf) as (w1 & E1 & R1 & Hc1); [by right|].
    set (t := deploy_tx w factory _ salt _) in R1.
    assert (Hcall : is_factory_call factory (act_code f) salt t) by apply deploy_tx_is_call.
    pose proof (inv_step _ _ _ _ _ _ Hi R1) as Hi1. pose proof (ran_mined _ _ _ _ R1) as Hm1.
    assert (Hcount : tx_count w1 = tx_count w + 1) by (rewrite (ran_count _ _ _ _ R1); done).
    destruct (IH w1 Hi1 Hok Hna Hnn) as (w' & ts & E & Hm & Hno & Hi' & Hin & Hout & Hpers).
    { apply Forall_forall. intros f' Hf'. rewrite Forall_forall in Hfree. rewrite Hm1.
      rewrite (factory_frame _ _ _ _ _ _ Hcall Hc2); [by apply Hfree|].
      intros Heq. apply Hna1. apply list_elem_of_fmap. by exists f'. }
    destruct (book_field _ _ _ _ (ran_addresses _ _ _ _ R1)) as [Hb1 Hb2].
    exists w', (t :: ts). cbn [run_actions]. rewrite (run_bind_done _ _ _ _ _ E1), <- Hcount, E.
    split_and!; [done| | |done|..].
    + rewrite Hm, Hm1. by rewrite <- app_assoc.
    + cbn [fmap list_fmap]. rewrite Hno, Hcount. cbn [length].
      rewrite (seqZ_cons (tx_count w)) by lia. do 2 f_equal; lia.
    + intros f' [->|Hf']%elem_of_cons; [|by apply Hin].
      rewrite (Hout _ Hnn1), Hb1. split; [done|]. by apply Hpers.
    + intros field Hnot. cbn in Hnot. apply not_elem_of_cons in Hnot as [Hne Hnot].
      rewrite (Hout _ Hnot). apply Hb2; [done|]. by destruct Hi as (_ & _ & _ & ?).
    + intros a Ha. apply Hpers. rewrite Hm1. by apply code_persists.
Qed.

(** The closing statements of a method: the address ends up in the book. *)
Definition records (name : string) (k : string → M unit) : Prop :=
  ∀ a w, w_pool w = [] → is_Some (w_addresses w !! "StateTransition") →
    ∃ w', k a w = (Done tt, w') ∧ ran w [] (book w "StateTransition" name a) w'.

Lemma records_plain envName name : records name (record_address d envName "StateTransition" name).
Proof. intros a w Hp Hs. by apply record_run. Qed.

Lemma records_say msg name k : records name k → records name (λ a, say d msg;; k a).
Proof.
  intros Hk a w Hp Hs. destruct (say_run msg w) as [c Ec].
  destruct (Hk a (set_console c w) Hp Hs) as (w' & E & R). exists w'.
  rewrite (run_bind_done _ _ _ _ _ Ec). split; [done|]. by destruct R.
Qed.

Lemma act_of_method env0 name args code a (run : tx_options → M unit) (k : string → M unit) :
  targets name args code a → (∀ h, constructor_ok h code = true) → records name k →
  (∀ w o, w_env w = env0 →
     run o w = (c ← Deployer.deployViaCreate2 d name args salt o None; k c) w) →
  act_ok env0 (mkAction run name code a).
Proof.
  intros Ht Hk Hrec Hrun. split; [apply Ht|]. cbn. intros w o (He & Hp & Hf & Hs) Hc Hn.
  destruct (deployer_fresh name args o code a w Ht Hf Hp Hc (Hk _) Hn) as (w1 & E1 & R1 & Hc1).
  destruct (Hrec a w1) as (w2 & E2 & R2); [apply R1|by rewrite (ran_addresses _ _ _ _ R1)|].
  exists w2. rewrite Hrun, (run_bind_done _ _ _ _ _ E1), E2 by done. split; [done|].
  pose proof (ran_trans _ _ _ _ _ _ _ R1 R2) as R. rewrite app_nil_r in R. split.
  - unfold book in R |- *. by rewrite (ran_addresses _ _ _ _ R1) in R.
  - by rewrite (ran_mined _ _ _ _ R2), app_nil_r.
Qed.

(** Constructor arguments of the five contracts of
    [deployStateTransitionDiamondFacets], in deployment order. *)
Definition facet_plan (era : string) : list (string * list val) :=
  [ ("ExecutorFacet", [VNum network_chainId]);
    ("AdminFacet", [VNum network_chainId; VStr AddressZero]);
    ("MailboxFacet", [VStr era; VNum network_chainId]);
    ("GettersFacet", []);
    ("DiamondInit", []) ].

Definition facet_actions (codes : list (string * string)) : list action :=
  zip_with (λ p (c : string * string), mkAction p.1 p.2 c.1 c.2)
    [ (deployExecutorFacet d salt, "ExecutorFacet"); (deployAdminFacet d salt, "AdminFacet");
      (deployMailboxFacet d salt, "MailboxFacet"); (deployGettersFacet d salt, "GettersFacet");
      (deployStateTransitionDiamondInit d salt, "DiamondInit") ] codes.

Lemma getL1ChainId_run w : getL1ChainId d w = (Done network_chainId, w).
Proof. unfold getL1ChainId, isZkMode. by rewrite Hzk. Qed.

Lemma facet_actions_ok env0 era codes :
  getNumberFromEnv env0 "CONTRACTS_ERA_CHAIN_ID" = Done era →
  Forall2 (λ p (c : string * string), targets p.1 p.2 c.1 c.2 ∧ ∀ h, constructor_ok h c.1 = true)
    (facet_plan era) codes →
  Forall (act_ok env0) (facet_actions codes).
Proof.
  intros He HF. unfold facet_plan in HF.
  repeat (apply Forall2_cons_inv_l in HF as ([? ?] & ? & [? ?] & HF & ->); cbn [fst snd] in *).
  apply Forall2_nil_inv_l in HF as ->. cbn [facet_actions zip_with fst snd].
  repeat apply Forall_cons_2; [..|apply Forall_nil_2].
  - eapply act_of_method; [done|done|apply records_plain|]. intros w o _.
    unfold deployExecutorFacet. by rewrite (run_bind_done _ _ _ _ _ (getL1ChainId_run w)).
  - eapply act_of_method; [done|done|apply records_plain|]. intros w o _.
    unfold deployAdminFacet. by rewrite (run_bind_done _ _ _ _ _ (getL1ChainId_run w)).
  - eapply act_of_method; [done|done|apply records_say, records_plain|]. intros w o Hw.
    unfold deployMailboxFacet. rewrite (run_bind_done _ _ w era w) by
      (unfold number_env, from_env; by rewrite Hw, He).
    by rewrite (run_bind_done _ _ _ _ _ (getL1ChainId_run w)).
  - eapply act_of_method; [done|done|apply records_plain|done].
  - eapply act_of_method; [done|done|apply records_plain|done].
Qed.

End deploying.

(** ** Counting transactions *)

(** Proves that a script neither sends nor writes anything but the console. *)
Ltac quiet_step :=
  first [ solve [eauto 4 with rollupx]
        | apply quiet_bind; [|intros ?]
        | apply quiet_when
        | progress case_goal
        | progress autounfold with rollupx_defs ].
Ltac quiet := repeat quiet_step.

(** Skips the steps that do not touch the chain. *)
Ltac skip_quiet :=
  repeat match goal with
  | |- mines _ (mbind _ _) => apply mines_bind_quiet; [solve [quiet] | intros ?]
  end.

Section counting.
Context `{EthersOps} `{Chain} `{Artifacts} `{ZkArtifacts} `{Files} `{Interfaces}.
Variable cfg : SystemConfig.
Variable d : Deployer.

Lemma quiet_say msg : quiet (say d msg).
Proof. quiet. Qed.

Lemma mines_call a c m args o : o_nonce o = None → mines 1 (call_contract a c m args o).
Proof.
  intros Hn. unfold call_contract. case_goal; [|by intros w x w' _].
  skip_quiet. by apply mines_send.
Qed.

Lemma mines_call_wait {A} n a c m args o (k : tx_response → M A) :
  o_nonce o = None → (∀ r, mines n (k r)) →
  mines (S n) (tx ← call_contract a c m args o; r ← wait tx; k r).
Proof.
  intros Hn Hk. eapply (mines_bind 1 n); [by apply mines_call| |done]. intros r.
  apply mines_bind_quiet; [apply quiet_wait|done].
Qed.

(** A governance call mines two transactions. *)
Lemma mines_executeUpgrade target value data o :
  o_nonce o = None → mines 2 (executeUpgrade d target value data o false).
Proof.
  intros Hn. unfold executeUpgrade, contract_at, addr. skip_quiet.
  apply mines_call_wait; [done|]. intros _. skip_quiet. apply mines_call_wait; [done|]. intros r.
  apply quiet_mines. unfold view. quiet.
Qed.

Lemma mines_direct_or_governance (gov : bool) a c f args value o :
  o_nonce o = None → mines (if gov then 2 else 1) (executeDirectOrGovernance d gov a c f args value o false).
Proof.
  intros Hn. unfold executeDirectOrGovernance. destruct gov.
  - skip_quiet. by apply mines_executeUpgrade.
  - apply mines_call_wait; [done|]. intros r. apply quiet_mines. quiet.
Qed.

Lemma quiet_diamondCut extra cmp : quiet (initialZkSyncZKChainDiamondCut cfg extra cmp).
Proof. unfold initialZkSyncZKChainDiamondCut. quiet. Qed.

Lemma quiet_forceDeployments : quiet genesisForceDeploymentsData.
Proof. unfold genesisForceDeploymentsData. quiet. Qed.

#[local] Hint Resolve quiet_diamondCut quiet_forceDeployments : rollupx.

Lemma mines_create_chain assetId input admin extra gasPrice cmp (gov : bool) :
  mines (if gov then 2 else 1) (create_chain cfg d assetId input admin extra gasPrice cmp gov).
Proof.
  unfold create_chain, contract_at, addr. skip_quiet. apply mines_direct_or_governance.
  by destruct (isZkMode d).
Qed.

(** A call with a nonce beyond the next one is never mined. *)
Lemma future_call_never {A} a c m args o n (k : tx_response → M A) w :
  o_nonce o = Some n → tx_count w < n →
  is_done ((tx ← call_contract a c m args o; r ← wait tx; k r) w).1 = false.
Proof.
  intros Hn Hlt. apply never_done_bind. intros r w' E. unfold call_contract in E.
  destruct (has_method c m); [|done]. apply bind_done_inv in E as (data & w1 & [= _ <-] & E).
  unfold sendTransaction in E. rewrite Hn in E. cbn [js_coalesce] in E.
  case_hyp E; [done|]. rewrite (proj2 (Z.ltb_ge _ _)), (proj2 (Z.ltb_lt _ _) Hlt) in E by lia.
  by injection E as <- <-.
Qed.

(** The chain part of a state, as [mines] describes it. *)
Definition chain_at (env0 : environ) (len : nat) (w : world) : Prop :=
  w_pool w = [] ∧ length (w_mined w) = len ∧ w_env w = env0.

Lemma never_after {A B} n env0 len (m : M A) (k : A → M B) w :
  mines n m → chain_at env0 len w →
  (∀ a w', chain_at env0 (len + n) w' → is_done (k a w').1 = false) →
  is_done ((m ≫= k) w).1 = false.
Proof.
  intros Hm (Hp & Hl & He) Hk. apply never_done_bind. intros a w' E.
  destruct (Hm _ _ _ Hp E) as (Hp' & Hl' & He'). apply Hk. split_and!; [done|congruence|congruence].
Qed.

Lemma never_after_quiet {A B} env0 len (m : M A) (k : A → M B) w :
  quiet m → chain_at env0 len w → (∀ a w', chain_at env0 len w' → is_done (k a w').1 = false) →
  is_done ((m ≫= k) w).1 = false.
Proof.
  intros Hm Hw Hk. eapply (never_after 0); [by apply quiet_mines|done|]. intros a w' Hw'.
  rewrite Nat.add_0_r in Hw'. by apply Hk.
Qed.

Lemma register_validators_gap chainId gasPrice nonce env0 len w :
  chain_at env0 len w → wallet_nonce + Z.of_nat len < nonce →
  is_done (register_validators d chainId gasPrice nonce w).1 = false.
Proof.
  intros Hw Hlt. unfold register_validators, contract_at, addr, address_env.
  do 3 (eapply never_after_quiet; [solve [quiet]|exact Hw|clear Hw; intros ? ? Hw]).
  eapply (future_call_never _ _ _ _ _ nonce); [by destruct (isZkMode d)|].
  destruct Hw as (_ & Hl & _). unfold tx_count. lia.
Qed.

(** On a network that is not local, nothing is set in the nullifier. *)
Lemma quiet_legacy_nonlocal input env0 len w r w' :
  isCurrentNetworkLocal env0 = false → chain_at env0 len w →
  setL2LegacySharedBridgeInL1Nullifier d input w = (Done r, w') → chain_at env0 len w'.
Proof.
  intros Hloc (Hp & Hl & He) E. unfold setL2LegacySharedBridgeInL1Nullifier in E.
  apply bind_done_inv in E as (a & w1 & E1 & E). apply bind_done_inv in E as (b & w2 & [= <- <-] & E).
  destruct (quiet_mines (contract_at "Bridges" "L1NullifierProxy") ltac:(quiet) _ _ _ Hp E1)
    as (Hp1 & Hl1 & He1).
  rewrite He1, He, Hloc in E. injection E as _ <-. split_and!; [done|lia|congruence].
Qed.

End counting.

(** ** Calls on a cooperative network *)

(** Every method exists and encodes, every transaction succeeds, and governance
    answers its views. *)
Class Cooperative `{EthersOps} `{Chain} `{Artifacts} : Prop := {
  coop_method c m : has_method c m = true;
  coop_encode c m args : is_Some (encodeFunctionData c m args);
  coop_succeeds h t : tx_succeeds h t = true;
  coop_governance h a m args : ∃ v, view_call h a "IGovernance" m args = Done v;
}.

Definition calldata `{EthersOps} (c m : string) (args : list val) : string :=
  default "" (encodeFunctionData c m args).

Section calls.
Context `{EthersOps} `{Chain} `{Artifacts}.
Variable d : Deployer.

(** A method the ABI has, at arguments that fit it. *)
Definition encodable (c m : string) (args : list val) : Prop :=
  has_method c m = true ∧ is_Some (encodeFunctionData c m args).

Lemma encode_encodable c m args w : encodable c m args → encode_call c m args w = (Done (calldata c m args), w).
Proof. intros [Hm [s E]]. unfold encode_call, calldata. by rewrite Hm, E. Qed.

Lemma call_succeeds a c m args o w :
  w_pool w = [] → o_nonce o = None → encodable c m args →
  let t := next_tx w (Some a) (calldata c m args) o in
  tx_succeeds (w_mined w) t = true →
  call_contract a c m args o w = (Done (Mined (w_mined w) t), set_mined (w_mined w ++ [t]) [] w).
Proof.
  intros Hp Hn [Hm [s E]] t Ht. unfold call_contract, t, calldata in *. rewrite Hm, E in *.
  unfold mbind, M_bind, lift; cbn [or_throw default] in *. by apply send_next; [done|by left|].
Qed.

Lemma call_wait_succeeds {A} a c m args o w (k : tx_response → M A) :
  w_pool w = [] → o_nonce o = None → encodable c m args →
  let t := next_tx w (Some a) (calldata c m args) o in
  tx_succeeds (w_mined w) t = true →
  (tx ← call_contract a c m args o; r ← wait tx; k r) w =
  k (Mined (w_mined w) t) (set_mined (w_mined w ++ [t]) [] w).
Proof.
  intros Hp Hn Hm t Ht. rewrite (run_bind_done _ _ _ _ _ (call_succeeds a c m args o w Hp Hn Hm Ht)).
  erewrite run_bind_done by (unfold wait; fold t; rewrite Ht; reflexivity). done.
Qed.

Lemma contract_at_run group field a w :
  w_addresses w !! group ≫= (λ g, g !! field) = Some a →
  contract_at group field w = (Done a, w).
Proof.
  unfold contract_at, addr, get_address, mbind, M_bind. cbn.
  destruct (w_addresses w !! group) as [g|]; [|done]. cbn. by intros ->.
Qed.

Lemma get_address_run group field a w :
  w_addresses w !! group ≫= (λ g, g !! field) = Some a →
  get_address group field w = (Done (VStr a), w).
Proof. unfold get_address. destruct (w_addresses w !! group) as [g|]; [|done]. cbn. by intros ->. Qed.

(** The two transactions of a governance operation. *)
Definition schedule_tx (w : world) (gov : string) (op : val) : tx :=
  next_tx w (Some gov) (calldata "IGovernance" "scheduleTransparent" [op; VNum 0]) no_opts.
Definition execute_tx (w : world) (gov : string) (op : val) (value : Z) (o : tx_options) : tx :=
  mkTx (tx_count w + 1) (Some gov) (calldata "IGovernance" "execute" [op]) value
    (o_gasPrice o) (o_gasLimit o) (o_factoryDeps o).

(** An operation that goes through on the history [h]: its two calls can be
    encoded, both transactions succeed, and governance answers the questions of
    a verbose deployer. *)
Record carried_out (gov : string) (h : list tx) (op : val) (t1 t2 : tx) : Prop := {
  co_schedule : encodable "IGovernance" "scheduleTransparent" [op; VNum 0];
  co_execute : encodable "IGovernance" "execute" [op];
  co_scheduled : tx_succeeds h t1 = true;
  co_executed : tx_succeeds (h ++ [t1]) t2 = true;
  co_reported : verbose d = true → ∃ id v,
    view_call ((h ++ [t1]) ++ [t2]) gov "IGovernance" "hashOperation" [op] = Done id ∧
    view_call ((h ++ [t1]) ++ [t2]) gov "IGovernance" "isOperationDone" [id] = Done v;
}.

Lemma executeUpgrade_carried target value data o w gov :
  w_pool w = [] → o_nonce o = None →
  w_addresses w !! "" ≫= (λ g, g !! "Governance") = Some gov →
  let op := operation_val target value data (random_bytes32 (w_random w)) in
  let t1 := schedule_tx w gov op in
  let t2 := execute_tx w gov op value o in
  carried_out gov (w_mined w) op t1 t2 →
  ∃ w', executeUpgrade d target value data o false w = (Done (Some (Mined (w_mined w ++ [t1]) t2)), w') ∧
    ran w [t1; t2] (w_addresses w) w' ∧ w_random w' = S (w_random w).
Proof.
  intros Hp Hn Hg op t1 t2 [Hs He Ht1 Ht2 Hv]. unfold executeUpgrade.
  rewrite (run_bind_done _ _ _ _ _ (contract_at_run _ _ _ _ Hg)).
  erewrite run_bind_done by reflexivity. cbn zeta. fold op. rewrite call_wait_succeeds by done.
  destruct (say_run d "Upgrade scheduled" (set_mined (w_mined w ++ [t1]) [] (set_random (S (w_random w)) w)))
    as [c Ec].
  change (next_tx (set_random (S (w_random w)) w) (Some gov) _ no_opts) with t1.
  rewrite (run_bind_done _ _ _ _ _ Ec).
  set (w1 := set_console c (set_mined (w_mined w ++ [t1]) [] (set_random (S (w_random w)) w))).
  assert (Et : next_tx w1 (Some gov) (calldata "IGovernance" "execute" [op]) (with_value value o) = t2)
    by (unfold next_tx, t2, execute_tx, tx_count; cbn; rewrite length_app; f_equal; cbn; lia).
  rewrite call_wait_succeeds, Et by (rewrite ?Et; done).
  destruct (verbose d).
  - destruct (Hv eq_refl) as (v1 & v2 & E1 & E2).
    unfold mbind, M_bind, view. cbn [w_mined set_mined set_console]. unfold w1. cbn [w_mined set_mined set_console].
    rewrite E1. cbn [w_mined set_mined set_console]. rewrite E2.
    cbn. eexists. split_and!; [done| |done]. split; cbn; try done. by rewrite <- app_assoc.
  - unfold mbind, M_bind. cbn. eexists. split_and!; [done| |done]. split; cbn; try done.
    by rewrite <- app_assoc.
Qed.

End calls.

Section cooperative.
Context `{EthersOps} `{Chain} `{Artifacts} `{!Cooperative}.
Variable d : Deployer.

Lemma coop_encodable c m args : encodable c m args.
Proof. split; [apply coop_method|apply coop_encode]. Qed.

Lemma encode_run c m args w : encode_call c m args w = (Done (calldata c m args), w).
Proof. apply encode_encodable, coop_encodable. Qed.

Lemma call_and_wait_run a c m args o w :
  w_pool w = [] → o_nonce o = None →
  let t := next_tx w (Some a) (calldata c m args) o in
  call_and_wait a c m args o w = (Done (Mined (w_mined w) t), set_mined (w_mined w ++ [t]) [] w).
Proof.
  intros Hp Hn t. unfold call_and_wait.
  rewrite (run_bind_done _ _ _ _ _ (call_succeeds a c m args o w Hp Hn (coop_encodable c m args) (coop_succeeds _ _))).
  unfold wait. by rewrite coop_succeeds.
Qed.

Lemma coop_carried gov h op t1 t2 : carried_out d gov h op t1 t2.
Proof.
  split; try apply coop_encodable; try apply coop_succeeds. intros _.
  destruct (coop_governance ((h ++ [t1]) ++ [t2]) gov "hashOperation" [op]) as [id E1].
  destruct (coop_governance ((h ++ [t1]) ++ [t2]) gov "isOperationDone" [id]) as [v E2]. by exists id, v.
Qed.

Lemma executeUpgrade_run target value data o w gov :
  w_pool w = [] → o_nonce o = None →
  w_addresses w !! "" ≫= (λ g, g !! "Governance") = Some gov →
  let op := operation_val target value data (random_bytes32 (w_random w)) in
  let t1 := schedule_tx w gov op in
  let t2 := execute_tx w gov op value o in
  ∃ w', executeUpgrade d target value data o false w = (Done (Some (Mined (w_mined w ++ [t1]) t2)), w') ∧
    ran w [t1; t2] (w_addresses w) w' ∧ w_random w' = S (w_random w).
Proof. intros Hp Hn Hg. apply executeUpgrade_carried; [done..|apply coop_carried]. Qed.

End cooperative.

(** The five calls written one after the other. *)
Lemma facets_sequence (m1 m2 m3 m4 m5 : M unit) w :
  (m1;; m2;; m3;; m4;; m5) w = (m1;; m2;; m3;; m4;; m5;; mret tt) w.
Proof.
  unfold mbind, M_bind. destruct (m1 w) as [[]w1]; try done. destruct (m2 w1) as [[]w2]; try done.
  destruct (m3 w2) as [[]w3]; try done. destruct (m4 w3) as [[]w4]; try done.
  by destruct (m5 w4) as [[[]| |]w5].
Qed.

Lemma fold_left_sum (calls : list ChainAdminCall) :
  fold_left (λ acc c, acc + call_value c) calls 0 = foldr Z.add 0 (call_value <$> calls).
Proof.
  enough (Hs : ∀ n, fold_left (λ acc c, acc + call_value c) calls n = n + foldr Z.add 0 (call_value <$> calls))
    by (rewrite Hs; lia).
  induction calls as [|c calls IH]; intros n; cbn; [lia|]. rewrite IH. lia.
Qed.

Lemma contract_at_state group field w r w' : contract_at group field w = (r, w') → w' = w.
Proof.
  unfold contract_at, addr, get_address, mbind, M_bind. cbn.
  destruct (w_addresses w !! group) as [g|]; [|by intros [= _ <-]].
  destruct (g !! field); cbn; by intros [= _ <-].
Qed.

(** ** Properties *)

(** unless only the verifier is deployed, [initialBridgehubDeployment] never
    completes: with the address book [deployedAddressesFromEnv] returns, on
    every network and in both modes, it stops at [deployDefaultUpgrade], which
    writes to [addresses.stateTransition], a group the address book does not
    have (it has [StateTransition]). *)
Theorem initialBridgehubDeployment_never_returns
    `{EthersOps} `{Chain} `{Artifacts} `{ZkArtifacts} `{Files} `{Interfaces}
    (cfg : SystemConfig) (d : Deployer) (extraFacets : option (list FacetCut)) (gasPrice : option Z)
    (create2Salt : option string) (nonce : option Z) (w : world) (env : environ) :
  deployedAddressesFromEnv env = Done (w_addresses w) →
  is_done (initialBridgehubDeployment cfg d extraFacets gasPrice false create2Salt nonce w).1 = false.
Proof.
  intros Hw%(env_addresses_group "stateTransition"); [|by vm_compute].
  unfold initialBridgehubDeployment. apply never_done_bind. intros salt w1 E1.
  assert (Hw1 : w_addresses w1 !! "stateTransition" = None).
  { destruct (str_truthy create2Salt); cbn in E1; injection E1 as _ <-; done. }
  apply never_done_bind. intros l w2 [= <- <-]. apply never_done_bind. intros n w3 E3.
  assert (Hw3 : w_addresses w3 !! "stateTransition" = None).
  { destruct (isCurrentNetworkLocal (w_env w1)).
    - pose proof (keeps_local_prologue d "stateTransition" salt gasPrice nonce w1 Hw1) as Hk.
      by rewrite E3 in Hk.
    - by injection E3 as _ <-. }
  unfold mbind, M_bind. pose proof (deployDefaultUpgrade_never d salt (opts gasPrice None) w3 Hw3) as Hn.
  by destruct (deployDefaultUpgrade _ _ _ _) as [[]].
Qed.

(** on a network where the five targets are empty, deploying the diamond
    facets returns after mining exactly five transactions, with the wallet's
    next five nonces in order; every facet's address is then in the address
    book and has code. *)
Theorem deployStateTransitionDiamondFacets_fresh
    `{EthersOps} `{Chain} `{Artifacts} `{ZkArtifacts} `{Files} `{Interfaces} `{!FactoryAbi}
    (factory : string) `{!ChainLaws factory} (d : Deployer) (salt : string) (gasPrice : option Z)
    (w : world) (era : string) (codes : list (string * string)) :
  zkWallet d = false → inv factory (w_env w) w →
  getNumberFromEnv (w_env w) "CONTRACTS_ERA_CHAIN_ID" = Done era →
  Forall2 (λ p (c : string * string), targets factory salt p.1 p.2 c.1 c.2 ∧
             ∀ h, constructor_ok h c.1 = true) (facet_plan era) codes →
  NoDup codes.*2 →
  Forall (λ c : string * string, has_code (code_at (w_mined w) c.2) = false) codes →
  ∃ w' ts, deployStateTransitionDiamondFacets d salt gasPrice None w = (Done tt, w') ∧
    w_mined w' = w_mined w ++ ts ∧ tx_nonce <$> ts = seqZ (tx_count w) 5 ∧ w_pool w' = [] ∧
    Forall2 (λ p (c : string * string), field_of w' p.1 = Some c.2 ∧
               has_code (code_at (w_mined w') c.2) = true) (facet_plan era) codes.
Proof.
  intros Hzk Hi He HF Hnd Hfree. pose proof (Forall2_length _ _ _ HF) as Hlen. cbn in Hlen.
  pose proof (facet_actions_ok factory d Hzk salt (w_env w) era codes He HF) as Hok.
  destruct codes as [|c1 [|c2 [|c3 [|c4 [|c5 [|]]]]]]; try discriminate Hlen.
  destruct (run_actions_fresh factory salt (w_env w) gasPrice (facet_actions d salt [c1; c2; c3; c4; c5]) w)
    as (w' & ts & E & Hm & Hn & Hi' & Hin & _ & _).
  - done.
  - exact Hok.
  - exact Hnd.
  - apply (bool_decide_unpack _). by vm_compute.
  - cbn. repeat apply Forall_cons in Hfree as [? Hfree]. by repeat apply Forall_cons_2.
  - exists w', ts. split_and!; [|done|done|apply Hi'|].
    + cbn [run_actions facet_actions zip_with act_run fst] in E.
      unfold deployStateTransitionDiamondFacets, nonce_or_count.
      rewrite (run_bind_done _ _ _ _ _ (eq_refl : getTransactionCount w = (Done (tx_count w), w))).
      rewrite <- !Z.add_assoc in E. rewrite <- E. apply facets_sequence.
    + assert (Hall : ∀ i f, facet_actions d salt [c1; c2; c3; c4; c5] !! i = Some f →
        field_of w' (act_name f) = Some (act_addr f) ∧ has_code (code_at (w_mined w') (act_addr f)) = true)
        by (intros i f Hf; apply Hin; by apply list_elem_of_lookup_2 in Hf).
      repeat apply Forall2_cons_2; [exact (Hall 0%nat _ eq_refl)|exact (Hall 1%nat _ eq_refl)
        |exact (Hall 2%nat _ eq_refl)|exact (Hall 3%nat _ eq_refl)|exact (Hall 4%nat _ eq_refl)|].
      apply Forall2_nil_2.
Qed.

(** the nonce schedule of the facets assumes that every target is empty: when
    the executor facet is already deployed and the admin facet is not, running
    [deployStateTransitionDiamondFacets] again never returns, because the admin
    facet's transaction waits behind a nonce nobody uses.  Nothing is mined. *)
Theorem deployStateTransitionDiamondFacets_rerun_hangs
    `{EthersOps} `{Chain} `{Artifacts} `{ZkArtifacts} `{Files} `{Interfaces} `{!FactoryAbi}
    (factory : string) `{!ChainLaws factory} (d : Deployer) (salt : string) (gasPrice : option Z)
    (w : world) (execCode execAddr adminCode adminAddr : string) :
  zkWallet d = false → inv factory (w_env w) w →
  targets factory salt "ExecutorFacet" [VNum network_chainId] execCode execAddr →
  targets factory salt "AdminFacet" [VNum network_chainId; VStr AddressZero] adminCode adminAddr →
  has_code (code_at (w_mined w) execAddr) = true →
  has_code (code_at (w_mined w) adminAddr) = false →
  ∃ w', deployStateTransitionDiamondFacets d salt gasPrice None w = (Hang, w') ∧ w_mined w' = w_mined w.
Proof.
  intros Hzk Hi Ht1 Ht2 Hc1 Hc2. destruct Hi as (_ & Hp & Hf & Hs).
  unfold deployStateTransitionDiamondFacets, nonce_or_count.
  rewrite (run_bind_done _ _ _ _ _ (eq_refl : getTransactionCount w = (Done (tx_count w), w))).
  destruct (deployer_present factory d Hzk salt _ _ (opts gasPrice (Some (tx_count w))) _ _ w Ht1 Hf Hp Hc1)
    as (w1 & E1 & R1).
  destruct (record_run d "CONTRACTS_EXECUTOR_FACET_ADDR" "StateTransition" "ExecutorFacet" execAddr w1)
    as (w2 & E2 & R2); [by rewrite (ran_addresses _ _ _ _ R1)|apply R1|].
  pose proof (ran_trans _ _ _ _ _ _ _ R1 R2) as R. cbn in R.
  assert (Hm : w_mined w2 = w_mined w) by (rewrite (ran_mined _ _ _ _ R); apply app_nil_r).
  erewrite run_bind_done; cycle 1.
  { unfold deployExecutorFacet. rewrite (run_bind_done _ _ _ _ _ (getL1ChainId_run d Hzk w)).
    rewrite (run_bind_done _ _ _ _ _ E1). exact E2. }
  destruct (deployer_future factory d Hzk salt _ _ (opts gasPrice (Some (tx_count w + 1))) _ _ w2
    (tx_count w + 1) Ht2) as (w3 & E3 & Hm3).
  - unfold has_factory. rewrite (ran_addresses _ _ _ _ R). unfold book.
    rewrite lookup_insert_ne, (ran_addresses _ _ _ _ R1) by done. exact Hf.
  - by rewrite Hm.
  - done.
  - rewrite (ran_count _ _ _ _ R). cbn. lia.
  - exists w3. split; [|congruence]. apply run_bind_hang. unfold deployAdminFacet.
    rewrite (run_bind_done _ _ _ _ _ (getL1ChainId_run d Hzk w2)). by apply run_bind_hang.
Qed.

(** [deployChainAdmin] given an explicit nonce uses it for both of its
    deployments: with the wallet's next nonce and both targets empty, the
    restriction is deployed and the deployment of the chain admin throws
    because its nonce is used up. *)
Theorem deployChainAdmin_explicit_nonce_throws
    `{EthersOps} `{Chain} `{Artifacts} `{ZkArtifacts} `{Files} `{Interfaces} `{!FactoryAbi}
    (factory : string) `{!ChainLaws factory} (d : Deployer) (salt : string) (gasPrice : option Z)
    (w : world) (code1 a1 code2 a2 : string) :
  zkWallet d = false → w_pool w = [] → has_factory factory w →
  targets factory salt "AccessControlRestriction" [VNum 0; VStr (ownerAddress d)] code1 a1 →
  targets factory salt "ChainAdmin" [VArr [VStr a1]] code2 a2 →
  constructor_ok (w_mined w) code1 = true → a2 ≠ a1 →
  has_code (code_at (w_mined w) a1) = false → has_code (code_at (w_mined w) a2) = false →
  ∃ w', deployChainAdmin d salt (opts gasPrice (Some (tx_count w))) w = (Throw nonce_expired, w') ∧
    tx_count w' = tx_count w + 1.
Proof.
  intros Hzk Hp Hf Ht1 Ht2 Hk Hne Hc1 Hc2. unfold deployChainAdmin.
  set (o := default_gasLimit 10000000 (opts gasPrice (Some (tx_count w)))).
  destruct (deployer_fresh factory d Hzk salt _ _ o _ _ w Ht1 Hf Hp Hc1 Hk) as (w1 & E1 & R1 & _);
    [by right|].
  rewrite (run_bind_done _ _ _ _ _ E1).
  destruct (say_run d (env_line "CONTRACTS_ACCESS_CONTROL_RESTRICTION_ADDR" a1) w1) as [c Ec].
  rewrite (run_bind_done _ _ _ _ _ Ec).
  assert (Hcount : tx_count w1 = tx_count w + 1) by (rewrite (ran_count _ _ _ _ R1); done).
  destruct (deployer_stale factory d Hzk salt _ _ o _ _ (set_console c w1) (tx_count w) Ht2)
    as [c2 E2].
  - unfold has_factory. cbn. by rewrite (ran_addresses _ _ _ _ R1).
  - cbn. rewrite (ran_mined _ _ _ _ R1). destruct Ht1 as (_ & _ & Ha1).
    rewrite (factory_frame _ _ _ _ _ _ (deploy_tx_is_call factory code1 salt _ w) Ha1); done.
  - done.
  - unfold tx_count in *. cbn. lia.
  - rewrite (run_bind_throw _ _ _ _ _ E2). eexists. split; [done|]. exact Hcount.
Qed.

(** a [Deployer] can only be constructed with an explicit EVM emulator hash.
    With the three hashes, an address book and the L1 chain id configured the
    constructor returns, and sets the wallet, the owner (the wallet by default),
    the address book and the hashes; without the emulator hash it never
    returns, whatever else is configured, because the function it reads the
    bytecode with does not exist. *)
Theorem new_Deployer_needs_emulator_hash `{EthersOps} `{Files} (config : DeployerConfig) (w : world) :
  (str_truthy (cfg_evmEmulatorBytecodeHash config) = false →
    is_done (new_Deployer config w).1 = false) ∧
  (∀ boot acc emu a l1,
    cfg_bootloaderBytecodeHash config = Some boot → cfg_defaultAccountBytecodeHash config = Some acc →
    cfg_evmEmulatorBytecodeHash config = Some emu → cfg_addresses config = Some a →
    cfg_l1ChainId config = Some l1 → boot ≠ "" → acc ≠ "" → emu ≠ "" → l1 ≠ "" →
    ∃ d w', new_Deployer config w = (Done d, w') ∧ deployWallet d = cfg_wallet config ∧
      ownerAddress d = default (cfg_wallet config) (cfg_ownerAddress config) ∧
      l1ChainId d = js_parseInt (Some l1) ∧
      w_addresses w' = a ∧ w_hashes w' = (boot, acc, emu) ∧ w_mined w' = w_mined w).
Proof.
  split.
  - intros Hc. unfold new_Deployer. do 7 (apply never_done_bind; intros ? ? _).
    apply never_done_bind. intros emu w1 E. unfold hash_or_read in E. by rewrite Hc in E.
  - intros boot acc emu a l1 Hb Ha He Had Hl Nb Na Ne Nl. unfold new_Deployer, hash_or_read.
    rewrite Hb, Ha, He, Had, Hl.
    destruct boot, acc, emu, l1; try done. cbn. do 2 eexists. by split_and!.
Qed.

(** on a network that is not local, registering a chain together with its
    legacy shared bridge never completes: the nonce is counted up for a
    transaction that is only sent on local networks, so the first validator is
    registered with a nonce beyond the next one, which is waited for in vain. *)
Theorem registerZKChain_nonlocal_never_returns
    `{EthersOps} `{Chain} `{Artifacts} `{ZkArtifacts} `{Files} `{Interfaces}
    (cfg : SystemConfig) (d : Deployer) (assetId : string) (validium : bool)
    (extraFacets : option (list FacetCut)) (gasPrice : option Z) (compareCut : bool)
    (predefined : option string) (useGovernance : bool) (w : world) :
  isCurrentNetworkLocal (w_env w) = false → w_pool w = [] →
  is_done (DeployerChains.registerZKChain cfg d assetId validium extraFacets gasPrice compareCut None
             predefined useGovernance true w).1 = false.
Proof.
  intros Hloc Hp. set (env0 := w_env w) in *. set (len := length (w_mined w)).
  assert (Hw : chain_at env0 len w) by done.
  unfold DeployerChains.registerZKChain, nonce_or_count, contract_at, addr.
  rewrite (run_bind_done _ _ _ _ _ (eq_refl : getTransactionCount w = (Done (tx_count w), w))).
  assert (Hc : tx_count w = wallet_nonce + Z.of_nat len) by done. rewrite Hc. clear Hc.
  repeat match goal with
  | Hw : chain_at _ _ ?v |- is_done ((mbind _ _) ?v).1 = false =>
      eapply never_after_quiet; [solve [quiet]|exact Hw|clear Hw; intros ? ? Hw; cbn beta zeta]
  end.
  apply never_done_bind. intros [] w1 E1. apply bind_done_inv in E1 as ([] & w2 & E2 & E1).
  eapply (quiet_legacy_nonlocal _ _ env0 len) in E1; [|done|].
  2:{ destruct Hw as (Hp2 & Hl2 & He2).
      destruct (quiet_mines _ (quiet_say d _) _ _ _ Hp2 E2) as (? & ? & ?).
      split_and!; [done|lia|congruence]. }
  clear Hw E2. cbn beta zeta iota.
  eapply never_after_quiet; [solve [quiet]|exact E1|]. clear E1. intros chainAdmin w3 Hw.
  eapply never_after; [apply mines_create_chain|exact Hw|]. clear Hw. intros receipt w4 Hw.
  eapply never_after_quiet; [solve [quiet]|exact Hw|]. clear Hw. intros newChain w5 Hw.
  do 2 (eapply (never_after 0); [apply mines_set_address|exact Hw|clear Hw; intros [] ? Hw]).
  eapply never_after_quiet; [unfold ctm_asset_line; solve [quiet]|exact Hw|].
  clear Hw. intros [] w6 Hw.
  eapply (never_after 0); [|exact Hw|].
  { case_goal; [|apply quiet_mines; quiet]. skip_quiet.
    apply (mines_bind 0 0); [apply mines_set_address| |done]. intros ?. apply quiet_mines. quiet. }
  clear Hw. intros [] w7 Hw. eapply never_after_quiet; [solve [quiet]|exact Hw|]. clear Hw.
  intros [] w8 Hw. apply never_done_bind. intros [] w9 E9. exfalso.
  eapply (f_equal (λ r, is_done r.1)) in E9. cbn beta in E9.
  rewrite (register_validators_gap d _ gasPrice _ _ _ w8 Hw) in E9; [discriminate E9|].
  destruct useGovernance; lia.
Qed.

(** on a cooperative network [executeUpgrade] mines exactly two transactions
    to governance, the scheduling and the execution of one and the same
    operation, and only the execution carries the value; when it is asked to
    print the operation it mines nothing and returns nothing. *)
Theorem executeUpgrade_correct `{EthersOps} `{Chain} `{Artifacts} `{!Cooperative}
    (d : Deployer) (target : val) (value : Z) (data : string) (o : tx_options) (w : world) (gov : string) :
  w_pool w = [] → o_nonce o = None →
  w_addresses w !! "" ≫= (λ g, g !! "Governance") = Some gov →
  let op := operation_val target value data (random_bytes32 (w_random w)) in
  (∃ w' receipt, executeUpgrade d target value data o false w = (Done (Some receipt), w') ∧
     ran w [schedule_tx w gov op; execute_tx w gov op value o] (w_addresses w) w' ∧
     response_tx receipt = execute_tx w gov op value o ∧ tx_value (schedule_tx w gov op) = 0) ∧
  (∃ w', executeUpgrade d target value data o true w = (Done None, w') ∧ ran w [] (w_addresses w) w').
Proof.
  intros Hp Hn Hg op. split.
  - destruct (executeUpgrade_run d target value data o w gov Hp Hn Hg) as (w' & E & R & _).
    exists w'. eexists. by split_and!.
  - unfold executeUpgrade. rewrite (run_bind_done _ _ _ _ _ (contract_at_run _ _ _ _ Hg)).
    erewrite run_bind_done by reflexivity. cbn zeta.
    do 2 (erewrite run_bind_done by reflexivity; rewrite (run_bind_done _ _ _ _ _ (encode_run _ _ _ _))).
    erewrite run_bind_done by reflexivity. eexists. split; [done|].
    split; cbn; try done. by rewrite app_nil_r.
Qed.

(** a call on L2 through governance is paid exactly once.  When the chain's
    base token is ether, the execution carries the quoted cost and nothing else
    is sent; otherwise the quoted cost in the base token is transferred to
    governance and approved for the shared bridge first, and no ether is sent.
    Either way the request mints the quoted cost. *)
Theorem executeUpgradeOnL2_pays_once `{EthersOps} `{Chain} `{Artifacts} `{!Cooperative}
    (cfg : SystemConfig) (d : Deployer) (chainId target : val) (gasPrice : option Z) (data : string)
    (l2Gas : val) (o : tx_options) (w : world) (gov hub bridge token : string) (cost : Z) :
  w_pool w = [] → o_nonce o = None →
  w_addresses w !! "" ≫= (λ g, g !! "Governance") = Some gov →
  w_addresses w !! "Bridgehub" ≫= (λ g, g !! "BridgehubProxy") = Some hub →
  w_addresses w !! "Bridges" ≫= (λ g, g !! "SharedBridgeProxy") = Some bridge →
  (∀ h args, view_call h hub "Bridgehub" "l2TransactionBaseCost" args = Done (VNum cost)) →
  (∀ h args, view_call h hub "Bridgehub" "baseToken" args = Done (VStr token)) →
  let request := calldata "Bridgehub" "requestL2TransactionDirect"
    [VObj [ ("chainId", chainId); ("l2Contract", target); ("mintValue", VNum cost);
            ("l2Value", VNum 0); ("l2Calldata", VStr data); ("l2GasLimit", l2Gas);
            ("l2GasPerPubdataByteLimit", VNum (requiredL2GasPricePerPubdata cfg));
            ("factoryDeps", VArr []); ("refundRecipient", VStr (deployWallet d)) ]] in
  ∃ w' r ts, executeUpgradeOnL2 cfg d chainId target gasPrice data l2Gas o false w = (Done (Some r), w') ∧
    ran w ts (w_addresses w) w' ∧
    if bool_decide (token = ADDRESS_ONE) then
      let op := operation_val (VStr hub) cost request (random_bytes32 (w_random w)) in
      ts = [schedule_tx w gov op; execute_tx w gov op cost (with_gasPrice gasPrice o)]
    else ∃ w1 w2,
      let approve := operation_val (VStr token) 0
        (calldata "TestnetERC20Token" "approve" [VStr bridge; VNum cost]) (random_bytes32 (w_random w)) in
      let op := operation_val (VStr hub) 0 request (random_bytes32 (S (w_random w))) in
      ts = [next_tx w (Some token) (calldata "TestnetERC20Token" "transfer" [VStr gov; VNum cost]) no_opts;
            schedule_tx w1 gov approve; execute_tx w1 gov approve 0 no_opts;
            schedule_tx w2 gov op; execute_tx w2 gov op 0 (with_gasPrice gasPrice o)] ∧
      tx_count w1 = tx_count w + 1 ∧ tx_count w2 = tx_count w + 3.
Proof.
  intros Hp Hn Hg Hh Hb Hcost Htok request. unfold executeUpgradeOnL2.
  rewrite (run_bind_done _ _ _ _ _ (contract_at_run _ _ _ _ Hh)).
  do 2 (erewrite run_bind_done by (unfold view; rewrite ?Hcost, ?Htok; reflexivity);
        erewrite run_bind_done by reflexivity).
  cbn zeta. destruct (bool_decide_reflect (token = ADDRESS_ONE)) as [Ht|Ht]; cbn [negb].
  - erewrite run_bind_done by reflexivity. rewrite (run_bind_done _ _ _ _ _ (encode_run _ _ _ _)).
    destruct (executeUpgrade_run d (VStr hub) cost request (with_gasPrice gasPrice o) w gov Hp Hn Hg)
      as (w' & E & R & _). do 3 eexists. split; [exact E|]. by split.
  - set (t0 := next_tx w (Some token) (calldata "TestnetERC20Token" "transfer" [VStr gov; VNum cost]) no_opts).
    set (w1 := set_mined (w_mined w ++ [t0]) [] w).
    set (approval := calldata "TestnetERC20Token" "approve" [VStr bridge; VNum cost]).
    assert (R0 : ran w [t0] (w_addresses w) w1) by (by split).
    destruct (executeUpgrade_run d (VStr token) 0 approval no_opts w1 gov eq_refl eq_refl Hg)
      as (w2 & E2 & R2 & Hr2).
    destruct (executeUpgrade_run d (VStr hub) 0 request (with_gasPrice gasPrice o) w2 gov)
      as (w' & E & R & _); [apply R2|done|by rewrite (ran_addresses _ _ _ _ R2)|].
    rewrite (ran_addresses _ _ _ _ R2) in R.
    do 3 eexists. split; [|split; [exact (ran_trans _ _ _ _ _ _ _ R0 (ran_trans _ _ _ _ _ _ _ R2 R))|]].
    + erewrite (run_bind_done _ _ w tt w2); [rewrite (run_bind_done _ _ _ _ _ (encode_run _ _ _ _)); exact E|].
      unfold addr. rewrite (run_bind_done _ _ _ _ _ (get_address_run _ _ _ _ Hg)).
      rewrite (run_bind_done _ _ _ _ _ (call_and_wait_run token "TestnetERC20Token" "transfer"
        [VStr gov; VNum cost] no_opts w Hp eq_refl)).
      fold t0 w1. rewrite (run_bind_done _ _ _ _ _ (get_address_run _ _ _ w1 Hb)).
      rewrite (run_bind_done _ _ _ _ _ (encode_run _ _ _ _)).
      by rewrite (run_bind_done _ _ _ _ _ E2).
    + exists w1, w2. cbn zeta. rewrite Hr2. split; [done|].
      rewrite (ran_count _ _ _ _ R2), (ran_count _ _ _ _ R0). cbn. lia.
Qed.

(** a chain-admin multicall is one transaction to the chain admin that
    carries the sum of the values of its calls. *)
Theorem executeChainAdminMulticall_value `{EthersOps} `{Chain} `{Artifacts} `{!Cooperative}
    (calls : list ChainAdminCall) (requireSuccess : bool) (w : world) (admin : string) :
  w_pool w = [] → w_addresses w !! "" ≫= (λ g, g !! "ChainAdmin") = Some admin →
  ∃ w' t, executeChainAdminMulticall calls requireSuccess w = (Done (Mined (w_mined w) t), w') ∧
    ran w [t] (w_addresses w) w' ∧ tx_to t = Some admin ∧
    tx_value t = foldr Z.add 0 (call_value <$> calls) ∧
    tx_data t = calldata "ChainAdmin" "multicall" [VArr (ChainAdminCall_val <$> calls); VBool requireSuccess].
Proof.
  intros Hp Ha. unfold executeChainAdminMulticall.
  rewrite (run_bind_done _ _ _ _ _ (contract_at_run _ _ _ _ Ha)). cbn zeta.
  pose proof (call_and_wait_run admin "ChainAdmin" "multicall"
    [VArr (ChainAdminCall_val <$> calls); VBool requireSuccess]
    (with_value (fold_left (λ acc c, acc + call_value c) calls 0) no_opts) w Hp eq_refl) as E.
  unfold call_and_wait in E. rewrite E. do 2 eexists. split_and!; [done|by split|done| |done].
  cbn. apply fold_left_sum.
Qed.

(** [finishMoveChainToL1] always throws before sending anything: it encodes
    two types with no values. *)
Theorem finishMoveChainToL1_throws `{EthersLaws} `{Chain} `{Artifacts}
    (d : Deployer) (chainId : Z) (w : world) :
  ∃ e, finishMoveChainToL1 d chainId w = (Throw e, w).
Proof.
  unfold finishMoveChainToL1. destruct (contract_at "Bridges" "L1NullifierProxy" w) as [[a|e|] w1] eqn:E.
  - assert (w1 = w) as -> by (revert E; apply contract_at_state).
    rewrite (run_bind_done _ _ _ _ _ E). exists invalid_hex. apply run_bind_throw.
    unfold lift. by rewrite abi_encode_mismatch.
  - assert (w1 = w) as -> by (revert E; apply contract_at_state).
    exists e. by apply run_bind_throw.
  - exfalso. revert E. unfold contract_at, addr, get_address, mbind, M_bind.
    destruct (w_addresses w !! _) as [g|]; [|done]. cbn. by destruct (g !! _).
Qed.

(** ** Witnesses *)

Definition model_zk : ZkArtifacts := {|
  zk_bytecode _ := None;
  zk_factory_deps _ := [];
  zk_encodeDeploy _ _ := None;
  zk_hashBytecode _ := Throw invalid_hex;
  zk_create2Address _ _ _ _ := Throw invalid_hex;
|}.

Definition model_files : Files := {|
  file_tokens _ := Done [("WETH", sample_address)];
  file_bytecode _ _ := Done sample_code;
  file_bytes _ := Done sample_code;
  l2_contract_bytecode _ := sample_code;
  da_bytecode _ := sample_code;
|}.

Definition model_interfaces : Interfaces := {|
  iface_functions _ := Some [];
  getSighash s := s;
|}.

(** Constructors with the number of inputs the facets are deployed with. *)
Definition facet_ctor (name : string) : option nat :=
  if decide (name ∈ ["ExecutorFacet"; "ChainAdmin"]) then Some 1%nat
  else if decide (name ∈ ["AdminFacet"; "MailboxFacet"; "AccessControlRestriction"]) then Some 2%nat
  else Some 0%nat.

Definition sample_deployer : Deployer := mkDeployer sample_address false false (Some 9) sample_address "CONTRACTS".

(** The chain answers every question about a token with its base token. *)
Definition sample_views (token : string) (method : string) (args : list val) : outcome val :=
  if decide (method = "baseToken") then Done (VStr token)
  else if decide (method = "l2TransactionBaseCost") then Done (VNum 1000)
  else Done (VStr token).

Definition sample_book : addresses :=
  <["" := <["Create2Factory" := ADDRESS_ONE]> (<["Governance" := sample_address]>
           (<["ChainAdmin" := sample_address]> ∅))]>
  (<["StateTransition" := ∅]>
  (<["Bridgehub" := <["BridgehubProxy" := L2_BRIDGEHUB_ADDRESS]> ∅]>
  (<["Bridges" := <["SharedBridgeProxy" := L2_ASSET_ROUTER_ADDRESS]> ∅]> ∅))).

Definition sample_world : world := model_world (<["CONTRACTS_ERA_CHAIN_ID" := "270"]> ∅) sample_book.

#[export] Instance model_cooperative views ctor :
  (∀ m args, is_done (views m args) = true) →
  @Cooperative model_ethers (model_chain views) (model_artifacts ctor).
Proof.
  intros Hv. split; try done.
  - intros c m args. cbn. unfold ModelEthers.encode_call.
    destruct (ModelEthers.abi_of c m), args as [|x []]; try by eexists.
    destruct (mapM _ _); by eexists.
  - intros h a m args. cbn. specialize (Hv m args). destruct (views m args) as [v|e|]; [by eexists|done|done].
Qed.

Lemma initialBridgehubDeployment_witness :
  ∃ w, @deployedAddressesFromEnv model_ethers sample_env = Done (w_addresses w) ∧
    is_done (@initialBridgehubDeployment model_ethers (model_chain no_views) (model_artifacts one_ctor)
      model_zk model_files model_interfaces sample_config sample_deployer None None false None None w).1 = false.
Proof.
  assert (Hd : is_done (@deployedAddressesFromEnv model_ethers sample_env) = true) by (vm_compute; reflexivity).
  destruct (@deployedAddressesFromEnv model_ethers sample_env) as [a|e|] eqn:E; [|discriminate|discriminate].
  exists (model_world sample_env a). split; [reflexivity|].
  exact (@initialBridgehubDeployment_never_returns model_ethers (model_chain no_views)
    (model_artifacts one_ctor) model_zk model_files model_interfaces sample_config sample_deployer
    None None None None (model_world sample_env a) sample_env E).
Defined.

(** Code and target of a deployment in the model. *)
Definition model_target (name : string) (args : list val) : string * string :=
  let code := ModelEthers.show_call name "new" args in
  (code, default "" (ModelChain.create2 ADDRESS_ONE HashZero code)).

Definition sample_codes : list (string * string) :=
  Eval vm_compute in
  map (λ p, model_target p.1 p.2) (@facet_plan (model_chain no_views) "270").

Lemma deployStateTransitionDiamondFacets_witness :
  ∃ w' ts, @deployStateTransitionDiamondFacets model_ethers (model_chain no_views)
      (model_artifacts facet_ctor) model_zk sample_deployer HashZero None None sample_world
      = (Done tt, w') ∧ w_mined w' = ts ∧ tx_nonce <$> ts = [0; 1; 2; 3; 4].
Proof.
  destruct (@deployStateTransitionDiamondFacets_fresh model_ethers (model_chain no_views)
    (model_artifacts facet_ctor) model_zk model_files model_interfaces (model_factory_abi facet_ctor)
    ADDRESS_ONE (model_chain_laws no_views ADDRESS_ONE) sample_deployer HashZero None sample_world "270"
    sample_codes) as (w' & ts & E & Hm & Hn & _).
  - reflexivity.
  - unfold inv, has_factory. split_and!; [reflexivity|reflexivity|vm_compute; reflexivity|by eexists].
  - vm_compute. reflexivity.
  - repeat (apply Forall2_cons_2; [split; [unfold targets; split_and!; vm_compute; reflexivity|done]|]).
    apply Forall2_nil_2.
  - apply (bool_decide_unpack _). vm_compute. exact I.
  - apply (bool_decide_unpack _). vm_compute. exact I.
  - exists w', ts. split_and!; [exact E | exact Hm | exact Hn].
Defined.

Definition exec_target : string * string :=
  Eval vm_compute in model_target "ExecutorFacet" [VNum 9].
Definition admin_target : string * string :=
  Eval vm_compute in model_target "AdminFacet" [VNum 9; VStr AddressZero].

(** A network on which only the executor facet is deployed. *)
Definition partial_world : world :=
  set_mined [mkTx 0 (Some ADDRESS_ONE)
    (ModelEthers.show_call "SingletonFactory" "deploy" [VStr exec_target.1; VStr HashZero])
    0 None (Some 10000000) []] [] sample_world.

Lemma deployStateTransitionDiamondFacets_rerun_witness :
  ∃ w', @deployStateTransitionDiamondFacets model_ethers (model_chain no_views)
      (model_artifacts facet_ctor) model_zk sample_deployer HashZero None None partial_world
      = (Hang, w') ∧ length (w_mined w') = 1%nat.
Proof.
  destruct (@deployStateTransitionDiamondFacets_rerun_hangs model_ethers (model_chain no_views)
    (model_artifacts facet_ctor) model_zk model_files model_interfaces (model_factory_abi facet_ctor)
    ADDRESS_ONE (model_chain_laws no_views ADDRESS_ONE) sample_deployer HashZero None partial_world
    exec_target.1 exec_target.2 admin_target.1 admin_target.2) as (w' & E & Hm).
  - reflexivity.
  - unfold inv, has_factory. split_and!; [reflexivity|reflexivity|vm_compute; reflexivity|by eexists].
  - unfold targets. split_and!; vm_compute; reflexivity.
  - unfold targets. split_and!; vm_compute; reflexivity.
  - vm_compute. reflexivity.
  - vm_compute. reflexivity.
  - exists w'. split; [exact E|]. by rewrite Hm.
Defined.

Definition restriction_target : string * string :=
  Eval vm_compute in model_target "AccessControlRestriction" [VNum 0; VStr sample_address].
Definition chainAdmin_target : string * string :=
  Eval vm_compute in model_target "ChainAdmin" [VArr [VStr restriction_target.2]].

Lemma deployChainAdmin_explicit_nonce_witness :
  ∃ w', @deployChainAdmin model_ethers (model_chain no_views) (model_artifacts facet_ctor) model_zk
      sample_deployer HashZero (opts None (Some 0)) sample_world = (Throw nonce_expired, w').
Proof.
  destruct (@deployChainAdmin_explicit_nonce_throws model_ethers (model_chain no_views)
    (model_artifacts facet_ctor) model_zk model_files model_interfaces (model_factory_abi facet_ctor)
    ADDRESS_ONE (model_chain_laws no_views ADDRESS_ONE) sample_deployer HashZero None sample_world
    restriction_target.1 restriction_target.2 chainAdmin_target.1 chainAdmin_target.2) as (w' & E & _).
  - reflexivity.
  - reflexivity.
  - vm_compute. reflexivity.
  - unfold targets. split_and!; vm_compute; reflexivity.
  - unfold targets. split_and!; vm_compute; reflexivity.
  - reflexivity.
  - vm_compute. discriminate.
  - vm_compute. reflexivity.
  - vm_compute. reflexivity.
  - exists w'. exact E.
Defined.

Definition sample_deployer_config (emulator : option string) : DeployerConfig :=
  mkDeployerConfig sample_address false (Some sample_book) None None (Some sample_hash)
    (Some sample_hash) None (Some "9") emulator.

Lemma new_Deployer_witness :
  is_done (@new_Deployer model_ethers model_files (sample_deployer_config None) sample_world).1 = false ∧
  ∃ d w', @new_Deployer model_ethers model_files (sample_deployer_config (Some sample_hash)) sample_world
    = (Done d, w') ∧ ownerAddress d = sample_address.
Proof.
  split.
  - exact (proj1 (@new_Deployer_needs_emulator_hash model_ethers model_files
      (sample_deployer_config None) sample_world) eq_refl).
  - destruct (proj2 (@new_Deployer_needs_emulator_hash model_ethers model_files
      (sample_deployer_config (Some sample_hash)) sample_world) sample_hash sample_hash sample_hash
      sample_book "9" eq_refl eq_refl eq_refl eq_refl eq_refl ltac:(discriminate) ltac:(discriminate)
      ltac:(discriminate) ltac:(discriminate)) as (d & w' & E & _ & Ho & _).
    exists d, w'. split; [exact E | exact Ho].
Defined.

Lemma registerZKChain_nonlocal_witness :
  is_done (@DeployerChains.registerZKChain model_ethers (model_chain no_views) (model_artifacts facet_ctor)
    model_files model_interfaces sample_config sample_deployer sample_hash false None None false None
    (Some "271") false true sample_world).1 = false.
Proof.
  exact (@registerZKChain_nonlocal_never_returns model_ethers (model_chain no_views)
    (model_artifacts facet_ctor) model_zk model_files model_interfaces sample_config sample_deployer
    sample_hash false None None false (Some "271") false sample_world eq_refl eq_refl).
Defined.

Lemma sample_views_done token m args : is_done (sample_views token m args) = true.
Proof. unfold sample_views. by repeat case_decide. Qed.

Lemma executeUpgrade_witness :
  ∃ w', @executeUpgrade model_ethers (model_chain no_views) (model_artifacts facet_ctor) sample_deployer
      (VStr sample_address) 5 "0x" no_opts true sample_world = (Done None, w') ∧ w_mined w' = [].
Proof.
  destruct (proj2 (@executeUpgrade_correct model_ethers (model_chain no_views) (model_artifacts facet_ctor)
    (model_cooperative no_views facet_ctor ltac:(done)) sample_deployer (VStr sample_address) 5 "0x" no_opts
    sample_world sample_address eq_refl eq_refl ltac:(vm_compute; reflexivity))) as (w' & E & R).
  exists w'. split; [exact E|]. exact (ran_mined _ _ _ _ R).
Defined.

Lemma executeUpgradeOnL2_witness :
  ∃ w' r, @executeUpgradeOnL2 model_ethers (model_chain (sample_views sample_address))
      (model_artifacts facet_ctor) sample_config sample_deployer (VNum 271) (VStr sample_address)
      (Some 1) "0x" (VNum 72000000) no_opts false sample_world = (Done (Some r), w') ∧
    length (w_mined w') = 5%nat.
Proof.
  destruct (@executeUpgradeOnL2_pays_once model_ethers (model_chain (sample_views sample_address))
    (model_artifacts facet_ctor) (model_cooperative _ facet_ctor (sample_views_done sample_address))
    sample_config sample_deployer (VNum 271) (VStr sample_address) (Some 1) "0x" (VNum 72000000) no_opts
    sample_world sample_address L2_BRIDGEHUB_ADDRESS L2_ASSET_ROUTER_ADDRESS sample_address 1000)
    as (w' & r & ts & E & R & Hts);
    [reflexivity|reflexivity|vm_compute; reflexivity|vm_compute; reflexivity|vm_compute; reflexivity
    |reflexivity|reflexivity|].
  cbn in Hts. destruct Hts as (w1 & w2 & -> & _).
  exists w', r. split; [exact E|]. by rewrite (ran_mined _ _ _ _ R).
Defined.

Lemma executeChainAdminMulticall_witness :
  ∃ w' t, @executeChainAdminMulticall model_ethers (model_chain no_views) (model_artifacts facet_ctor)
      [mkChainAdminCall sample_address 3 "0x"; mkChainAdminCall sample_address 4 "0x"] true sample_world
      = (Done (Mined [] t), w') ∧ tx_value t = 7.
Proof.
  destruct (@executeChainAdminMulticall_value model_ethers (model_chain no_views)
    (model_artifacts facet_ctor) (model_cooperative no_views facet_ctor ltac:(done))
    [mkChainAdminCall sample_address 3 "0x"; mkChainAdminCall sample_address 4 "0x"] true sample_world
    sample_address eq_refl ltac:(vm_compute; reflexivity)) as (w' & t & E & _ & _ & Hv & _).
  exists w', t. split; [exact E | exact Hv].
Defined.

Lemma finishMoveChainToL1_witness :
  ∃ e, @finishMoveChainToL1 model_ethers (model_chain no_views) (model_artifacts facet_ctor)
    sample_deployer 271 sample_world = (Throw e, sample_world).
Proof.
  exact (@finishMoveChainToL1_throws model_ethers model_ethers_laws (model_chain no_views)
    (model_artifacts facet_ctor) sample_deployer 271 sample_world).
Defined.
