(* ===== verification/CliScripts.v ===== *)
(** * Command-line scripts over the deployer

    The actions of [l1-contracts/scripts/]: deploy.ts, register-zk-chain.ts,
    initialize-validator.ts, initialize-erc20-bridge.ts and
    initialize-governance.ts.  Options are the fields commander fills in; a
    nonce option is the number its text denotes.  Wallets of keys and mnemonics,
    the test configuration file, and the unit conversions of ethers are section
    variables; the colours of the console are left out. *)

From stdpp Require Import base gmap list strings pretty.
From Stdlib Require Import ZArith Lia.
From S2P Require Import Prelude Js Ethers DiamondCut Utils World DeployUtils Deployer.
From S2P Require Import DeployerContracts DeployerBridges DeployerChains DeployProcess Frames DeployerProofs.

Definition GAS_MULTIPLIER : Z := 1.
Definition ETH_TOKEN_ADDRESS : string := ADDRESS_ONE.

(** The options of the five scripts. *)
Record options := mkOptions {
  cmd_privateKey : option string;
  cmd_chainId : option string;
  cmd_gasPrice : option string;
  cmd_nonce : option Z;
  cmd_ownerAddress : option string;
  cmd_create2Salt : option string;
  cmd_onlyVerifier : bool;
  cmd_governorAddress : option string;
  cmd_validiumMode : bool;
  cmd_baseTokenName : option string;
  cmd_baseTokenAddress : option string;
  cmd_useGovernance : bool;
  cmd_tokenMultiplierSetterAddress : option string;
  cmd_allowEvmEmulation : bool;
}.

(** [given ? given : fallback] on texts. *)
Definition truthy_or (given : option string) (fallback : string) : string :=
  if str_truthy given then default "" given else fallback.

Section scripts.
Context `{EthersOps} `{Chain} `{Artifacts} `{ZkArtifacts} `{Files} `{Interfaces}.
Variable cfg : SystemConfig.
(** [new Wallet(key).address] and [Wallet.fromMnemonic(mnemonic, path).address] *)
Variable key_address : string → outcome string.
Variable mnemonic_address : string → string → outcome string.
(** [.mnemonic] of the JSON file at a path *)
Variable file_mnemonic : string → outcome string.
(** [parseUnits(text, "gwei")] and [formatUnits(value, "gwei")] *)
Variable parse_gwei : string → outcome Z.
Variable format_gwei : Z → string.

(** ** Loading a script *)

(** [testConfigPath] and [ethTestConfig] of src.ts/utils.ts. *)
Definition testConfigPath : M string :=
  e ← get_env "ZKSYNC_ENV";
  if str_truthy e then zksync_home "etc/test_config/constant"
  else mret "./test/test_config/constant".

Definition ethTestConfig : M string :=
  path ← testConfigPath; lift (file_mnemonic (path +:+ "/eth.json")).

(** The copy of the configuration two scripts read for themselves. *)
Definition own_ethTestConfig : M string :=
  path ← zksync_home "etc/test_config/constant"; lift (file_mnemonic (path +:+ "/eth.json")).

Definition web3Provider : M unit :=
  from_env web3Url;;
  network ← get_env "CHAIN_ETH_NETWORK";
  when (negb (str_truthy network))
    (console_log "Network variable is not set. Check if contracts/scripts/utils.ts is correct").

(** ** The common prologue of the actions *)

Definition choose_wallet (cmd : options) (mnemonic path : string) : M string :=
  env ← get_env "MNEMONIC";
  lift (if str_truthy (cmd_privateKey cmd) then key_address (default "" (cmd_privateKey cmd))
        else mnemonic_address (truthy_or env mnemonic) path).

Definition log_wallet (wallet : string) : M unit :=
  console_log ("Using deployer wallet: " +:+ wallet).

Definition choose_gasPrice (cmd : options) : M Z :=
  gasPrice ← (if str_truthy (cmd_gasPrice cmd) then lift (parse_gwei (default "" (cmd_gasPrice cmd)))
              else p ← getGasPrice; mret (p * GAS_MULTIPLIER));
  console_log ("Using gas price: " +:+ format_gwei gasPrice +:+ " gwei");;
  mret gasPrice.

Definition choose_nonce (cmd : options) : M Z :=
  nonce ← (match cmd_nonce cmd with Some n => mret n | None => getTransactionCount end);
  console_log ("Using nonce: " +:+ pretty nonce);;
  mret nonce.

(** [new Deployer({ ... })] with the fields the scripts give: no hashes. *)
Definition script_Deployer (wallet : string) (zk : bool) (a : option addresses)
    (owner l1ChainId : option string) : M Deployer :=
  new_Deployer (mkDeployerConfig wallet zk a owner (Some true) None None None l1ChainId None).

(** ** deploy.ts *)

Definition deploy (cmd : options) : M unit :=
  mnemonic ← ethTestConfig;
  web3Provider;;
  zk ← from_env (λ env, Done (isZKMode env));
  when zk (from_env web3Url;; mret tt);;
  wallet ← choose_wallet cmd mnemonic "m/44'/60'/0'/0/1";
  log_wallet wallet;;
  let owner := truthy_or (cmd_ownerAddress cmd) wallet in
  console_log ("Using owner address: " +:+ owner);;
  gasPrice ← choose_gasPrice cmd;
  nonce ← choose_nonce cmd;
  create2Salt ← (if str_truthy (cmd_create2Salt cmd) then mret (default "" (cmd_create2Salt cmd))
                 else random_salt);
  a ← from_env deployedAddressesFromEnv;
  d ← script_Deployer wallet zk (Some a) (Some owner) None;
  when (isZkMode d) (console_log "Deploying on a zkSync network!");;
  initialBridgehubDeployment cfg d (Some []) (Some gasPrice) (cmd_onlyVerifier cmd)
    (Some create2Salt) (Some nonce).

(** ** register-zk-chain.ts *)

Definition getTokenAddress (name : string) : M string :=
  tokens ← getTokens;
  match list_find (λ t : string * string, t.1 = name) tokens with
  | None => throw (JsError ("Token " +:+ name +:+ " not found"))
  | Some (_, t) =>
      if String.eqb t.2 "" then throw (JsError ("Token " +:+ name +:+ " has no address"))
      else mret t.2
  end.

Definition checkTokenAddress (address : string) : M unit :=
  if String.eqb address ETH_TOKEN_ADDRESS then mret tt
  else code ← getCode address;
       if String.eqb code "0x" then throw (JsError ("Token " +:+ address +:+ " is not deployed"))
       else mret tt.

Definition chooseBaseTokenAddress (name address : option string) : M string :=
  if str_truthy name then getTokenAddress (default "" name)
  else mret (truthy_or address ETH_TOKEN_ADDRESS).

(** The action after the deployer is constructed. *)
Definition register_chain (cmd : options) (d : Deployer) (gasPrice : Z) : M unit :=
  baseTokenAddress ← chooseBaseTokenAddress (cmd_baseTokenName cmd) (cmd_baseTokenAddress cmd);
  checkTokenAddress baseTokenAddress;;
  console_log ("Using base token address: " +:+ baseTokenAddress);;
  proxy ← get_address "Bridgehub" "BridgehubProxy";
  console_log (match proxy with VStr s => s | _ => "undefined" end);;
  l1 ← lift (or_throw invalid_hex (l1ChainId d));
  baseTokenAssetId ← lift (encodeNTVAssetId l1 baseTokenAddress);
  bridgehub ← contract_at "Bridgehub" "BridgehubProxy";
  answer ← view bridgehub "Bridgehub" "assetIdIsRegistered" [VStr baseTokenAssetId];
  (match answer with
   | VBool true => mret tt
   | _ => registerTokenBridgehub d baseTokenAddress (cmd_useGovernance cmd)
   end);;
  when (negb (String.eqb baseTokenAddress ETH_TOKEN_ADDRESS))
    (registerTokenInNativeTokenVault d baseTokenAddress);;
  isLocal ← network_is_local;
  DeployerChains.registerZKChain cfg d baseTokenAssetId (cmd_validiumMode cmd) None (Some gasPrice)
    true None None (cmd_useGovernance cmd) isLocal;;
  when (str_truthy (cmd_tokenMultiplierSetterAddress cmd))
    (let setter := default "" (cmd_tokenMultiplierSetterAddress cmd) in
     console_log ("Using token multiplier setter address: " +:+ setter);;
     setTokenMultiplierSetterAddress d setter);;
  when (cmd_allowEvmEmulation cmd) (console_log "Allowing EVM emulation";; enableEvmEmulation d);;
  transferAdminFromDeployerToChainAdmin d.

(** [cmd.localLegacyBridgeTesting] is not an option of the script and is
    always undefined. *)
Definition register_zk_chain (cmd : options) : M unit :=
  ethTestConfig;;
  web3Provider;;
  mnemonic ← own_ethTestConfig;
  wallet ← choose_wallet cmd mnemonic "m/44'/60'/0'/0/1";
  log_wallet wallet;;
  let owner := truthy_or (cmd_governorAddress cmd) wallet in
  console_log ("Using governor address: " +:+ owner);;
  gasPrice ← choose_gasPrice cmd;
  choose_nonce cmd;;
  l1 ← get_env "CONTRACTS_L1_CHAIN_ID";
  d ← script_Deployer wallet false None (Some owner) (Some (truthy_or l1 "31337"));
  register_chain cmd d gasPrice.

(** ** initialize-validator.ts, initialize-erc20-bridge.ts, initialize-governance.ts *)

Definition initialize_validator (cmd : options) : M unit :=
  mnemonic ← ethTestConfig;
  web3Provider;;
  wallet ← choose_wallet cmd mnemonic "m/44'/60'/0'/0/1";
  log_wallet wallet;;
  choose_gasPrice cmd;;
  choose_nonce cmd;;
  d ← script_Deployer wallet false None None None;
  zkSync ← contract_at "StateTransition" "DiamondProxy";
  validatorTimelock ← contract_at "" "ValidatorTimeLock";
  tx ← call_contract zkSync "IZKChain" "setValidator" [VStr validatorTimelock; VBool true] no_opts;
  console_log ("Transaction sent with hash " +:+ tx_hash (response_tx tx) +:+ " and nonce " +:+
    pretty (tx_nonce (response_tx tx)));;
  wait tx;;
  console_log "Validator is set".

(** [parseInt(chainId) || 270] *)
Definition parsed_chainId (chainId : option string) : jsnum :=
  match js_parseInt chainId with Some 0 | None => Some 270 | n => n end.

Definition initialize_erc20_bridge (cmd : options) : M unit :=
  ethTestConfig;;
  web3Provider;;
  mnemonic ← own_ethTestConfig;
  network ← get_env "CHAIN_ETH_ZKSYNC_NETWORK_ID";
  wallet ← choose_wallet cmd mnemonic "m/44'/60'/0'/0/0";
  log_wallet wallet;;
  choose_gasPrice cmd;;
  choose_nonce cmd;;
  a ← from_env deployedAddressesFromEnv;
  script_Deployer wallet false (Some a) None None;;
  put_chainId (parsed_chainId (if str_truthy (cmd_chainId cmd) then cmd_chainId cmd else network)).

Definition initialize_governance (cmd : options) : M unit :=
  mnemonic ← ethTestConfig;
  web3Provider;;
  wallet ← choose_wallet cmd mnemonic "m/44'/60'/0'/0/1";
  log_wallet wallet;;
  choose_gasPrice cmd;;
  a ← from_env deployedAddressesFromEnv;
  script_Deployer wallet false (Some a) (Some (truthy_or (cmd_ownerAddress cmd) wallet)) None;;
  contract_at "" "Governance";;
  contract_at "Bridges" "ERC20BridgeProxy";;
  mret tt.

Definition script_action (name : string) : option (options → M unit) :=
  if String.eqb name "deploy" then Some deploy
  else if String.eqb name "register-zk-chain" then Some register_zk_chain
  else if String.eqb name "initialize-validator" then Some initialize_validator
  else if String.eqb name "initialize-erc20-bridge" then Some initialize_erc20_bridge
  else if String.eqb name "initialize-governance" then Some initialize_governance
  else None.

End scripts.

(** ** No script gets past the construction of its deployer *)

(** The computation stops, with an error or pending, before any transaction. *)
Definition stops {A} (m : M A) : Prop := ∀ w,
  is_done (m w).1 = false ∧ w_mined (m w).2 = w_mined w ∧ w_pool (m w).2 = w_pool w.

(** It sends nothing, whether it returns or not. *)
Definition sends_nothing {A} (m : M A) : Prop := ∀ w,
  w_mined (m w).2 = w_mined w ∧ w_pool (m w).2 = w_pool w.

Lemma stops_bind {A B} (m : M A) (k : A → M B) : stops m → stops (m ≫= k).
Proof.
  intros Hm w. destruct (Hm w) as (Hd & Hs). unfold mbind, M_bind.
  destruct (m w) as [[a|e|] w']; [done|by split|by split].
Qed.

Lemma stops_after {A B} (m : M A) (k : A → M B) :
  sends_nothing m → (∀ a, stops (k a)) → stops (m ≫= k).
Proof.
  intros Hm Hk w. destruct (Hm w) as [Hmined Hpool]. unfold mbind, M_bind.
  destruct (m w) as [[a|e|] w'] eqn:E; cbn in *; [|by split|by split].
  destruct (Hk a w') as (? & ? & ?). split_and!; congruence.
Qed.

Lemma nothing_bind {A B} (m : M A) (k : A → M B) :
  sends_nothing m → (∀ a, sends_nothing (k a)) → sends_nothing (m ≫= k).
Proof.
  intros Hm Hk w. destruct (Hm w) as [Hmined Hpool]. unfold mbind, M_bind.
  destruct (m w) as [[a|e|] w'] eqn:E; cbn in *; [|done|done].
  destruct (Hk a w'). split; congruence.
Qed.

Lemma quiet_nothing {A} (m : M A) : quiet m → sends_nothing m.
Proof. intros Hq w. by destruct (Hq w) as (_ & ? & ? & _). Qed.

(** The steps before the construction send nothing. *)
Section stop.
Context `{EthersOps} `{Chain} `{Artifacts} `{ZkArtifacts} `{Files} `{Interfaces}.

Lemma nothing_if {A} (b : bool) (m m' : M A) :
  sends_nothing m → sends_nothing m' → sends_nothing (if b then m else m').
Proof. by destruct b. Qed.

Lemma nothing_lift {A} (o : outcome A) : sends_nothing (lift o).
Proof. by intros w. Qed.
Lemma nothing_ret {A} (a : A) : sends_nothing (mret a).
Proof. by intros w. Qed.
Lemma nothing_from_env {A} (f : environ → outcome A) : sends_nothing (from_env f).
Proof. by intros w. Qed.
Lemma nothing_get_env n : sends_nothing (get_env n).
Proof. by intros w. Qed.
Lemma nothing_log l : sends_nothing (console_log l).
Proof. by intros w. Qed.
Lemma nothing_count : sends_nothing getTransactionCount.
Proof. by intros w. Qed.
Lemma nothing_gasPrice : sends_nothing getGasPrice.
Proof. by intros w. Qed.
Lemma nothing_salt : sends_nothing random_salt.
Proof. by intros w. Qed.
Lemma nothing_put_addresses a : sends_nothing (put_addresses a).
Proof. by intros w. Qed.
Lemma nothing_put_hashes h : sends_nothing (put_hashes h).
Proof. by intros w. Qed.
Lemma nothing_get_hashes : sends_nothing get_hashes.
Proof. by intros w. Qed.

End stop.

Create HintDb sends.
#[export] Hint Resolve nothing_lift nothing_ret nothing_from_env nothing_get_env nothing_log
  nothing_count nothing_gasPrice nothing_salt nothing_put_addresses nothing_put_hashes
  nothing_get_hashes : sends.

(** Proves that a prologue sends nothing, by following its structure. *)
Ltac sends :=
  repeat first [ solve [auto with sends] | apply nothing_bind; [|intros ?]
               | apply nothing_if | progress unfold when
               | match goal with |- sends_nothing (match ?x with _ => _ end) => destruct x end ].

Section prologue.
Context `{EthersOps} `{Chain} `{Artifacts} `{ZkArtifacts} `{Files} `{Interfaces}.

Lemma nothing_home rest : sends_nothing (zksync_home rest).
Proof. unfold zksync_home. sends. Qed.
Lemma nothing_read_hash o read : sends_nothing read → sends_nothing (hash_or_read o read).
Proof. intros Hr. unfold hash_or_read. apply nothing_if; sends. Qed.
Lemma nothing_bootloader : sends_nothing readBatchBootloaderBytecode.
Proof. unfold readBatchBootloaderBytecode. apply nothing_bind; [apply nothing_home|intros]; sends. Qed.
Lemma nothing_system n : sends_nothing (readSystemContractsBytecode n).
Proof. unfold readSystemContractsBytecode. apply nothing_bind; [apply nothing_home|intros]; sends. Qed.

(** The constructor, called as the scripts call it. *)
Lemma script_Deployer_stops wallet zk a owner l1 : stops (script_Deployer wallet zk a owner l1).
Proof.
  unfold script_Deployer, new_Deployer.
  cbn [cfg_addresses cfg_bootloaderBytecodeHash cfg_defaultAccountBytecodeHash cfg_evmEmulatorBytecodeHash].
  apply stops_after; [sends|intros ?]. apply stops_after; [sends|intros ?].
  apply stops_after; [apply nothing_read_hash, nothing_bootloader|intros ?].
  apply stops_after; [sends|intros ?]. apply stops_after; [sends|intros ?].
  apply stops_after; [apply nothing_read_hash, nothing_system|intros ?].
  apply stops_after; [sends|intros ?]. apply stops_bind. by intros w.
Qed.

End prologue.

#[export] Hint Resolve nothing_home : sends.

(** Reaches the constructor of a script. *)
Ltac stops_at_constructor :=
  repeat first [ apply stops_bind, script_Deployer_stops
               | apply stops_after; [unfold ethTestConfig, own_ethTestConfig, testConfigPath,
                   web3Provider, choose_wallet, log_wallet, choose_gasPrice, choose_nonce; sends|intros ?] ].

(** None of the five scripts does anything: whatever the
    options, the environment, the files and the network, each of the five
    stops, with an error or pending, before it has sent a transaction, because
    none of them gives the constructor of the deployer the hash of the EVM
    emulator and the function that would read it does not exist. *)
Lemma scripts_stop_before_sending `{EthersOps} `{Chain} `{Artifacts} `{ZkArtifacts} `{Files}
    `{Interfaces} cfg key_address mnemonic_address file_mnemonic parse_gwei format_gwei name action cmd :
  script_action cfg key_address mnemonic_address file_mnemonic parse_gwei format_gwei name = Some action →
  stops (action cmd).
Proof.
  intros E. unfold script_action in E. repeat case_match; simplify_eq.
  - unfold deploy. stops_at_constructor.
  - unfold register_zk_chain. stops_at_constructor.
  - unfold initialize_validator. stops_at_constructor.
  - unfold initialize_erc20_bridge. stops_at_constructor.
  - unfold initialize_governance. stops_at_constructor.
Qed.

(** ** Witness: register-zk-chain on the model network *)

Definition cli_options : options :=
  mkOptions (Some "0xkey") None (Some "1") (Some 0) None None false None false None None false None false.

Definition cli_env : environ :=
  <["ETH_CLIENT_WEB3_URL" := "http://localhost:8545"]> (<["ZKSYNC_HOME" := "/zk"]> sample_env).

Definition cli_register : M unit :=
  @register_zk_chain model_ethers (model_chain (λ _ _, Done VUndef)) (model_artifacts (λ _, Some 0%nat))
    model_files model_interfaces sample_config (λ k, Done k) (λ _ _, Throw invalid_hex)
    (λ _, Done "mnemonic") (λ _, Done 1000000000) (λ _, "1") cli_options.

(** With everything the script reads in place, it stops at the missing function. *)
Lemma scripts_stop_witness :
  stops cli_register ∧
  (cli_register (model_world cli_env ∅)).1 =
    Throw (JsTypeError "readEvmEmulatorbytecode is not a function").
Proof.
  split; [|vm_compute; reflexivity].
  exact (@scripts_stop_before_sending model_ethers (model_chain (λ _ _, Done VUndef))
    (model_artifacts (λ _, Some 0%nat)) model_zk model_files model_interfaces sample_config
    (λ k, Done k) (λ _ _, Throw invalid_hex) (λ _, Done "mnemonic") (λ _, Done 1000000000) (λ _, "1")
    "register-zk-chain" _ cli_options eq_refl).
Defined.
