(* ===== verification/RollupContracts.v ===== *)
(** * The contracts around the rollup bridge

    The data-availability providers ([contracts/da], [contracts/test]) and the
    proof verifiers ([contracts/verifiers], [contracts/libraries]) that
    [ZKRollupBridge] calls.  Words ([uint256], [bytes32], [address], [uint8])
    are non-negative integers; a call that reverts is [None].

    The interfaces [IDAProvider] and [IVerifier] are records of functions: a
    provider or a verifier is what the bridge can observe of it, so that the
    bridge is verified against the interface and each contract is one
    implementation of it.  The opcodes [keccak256] and [blobhash], the curve
    precompiles 6, 7 and 8, and OpenZeppelin's [MerkleProof.verify] are the
    operations of the class [Evm]. *)

From stdpp Require Import base list option gmap.
From Stdlib Require Import ZArith Lia Strings.Byte.
From S2P Require Import Prelude.

(** ** What the contracts take from the machine and from libraries *)

Class Evm : Type := {
  keccak256_word : bytes → Z;
  (** [MerkleProof.verify(proof, root, leaf)] *)
  MerkleProof_verify : list Z → Z → Z → bool;
  (** The staticcalls to 0x06, 0x07 and 0x08: the output, or failure. *)
  ecAdd : list Z → option (Z * Z);
  ecMul : list Z → option (Z * Z);
  ecPairing : list Z → option Z;
}.

Definition uint256_max : Z := 2 ^ 256 - 1.

(** [uint256(bytes32(data[i:i+32]))] on data long enough. *)
Definition word_at (data : bytes) (i : nat) : Z := be_val (take 32 (drop i data)).

Definition G1Point : Type := Z * Z.
Definition G2Point : Type := (Z * Z) * (Z * Z).

Record IDAProvider : Type := mkDA {
  computeCommitment : bytes → bytes → option Z;
  validateDA : Z → bytes → option unit;
  mode : option Z;
}.

Record IVerifier : Type := mkVerifier {
  verifyProof : G1Point → G2Point → G1Point → list Z → option bool;
}.

(** What a call to an address without code gives: the call reverts. *)
Definition no_provider : IDAProvider := mkDA (λ _ _, None) (λ _ _, None) None.
Definition no_verifier : IVerifier := mkVerifier (λ _ _ _ _, None).

(** ** Data-availability providers *)

Section providers.
Context {evm : Evm}.

Definition CalldataDA : IDAProvider := {|
  computeCommitment := λ batchData _, Some (keccak256_word batchData);
  validateDA := λ _ _, Some tt;
  mode := Some 0;
|}.

Definition OffChainDA : IDAProvider := {|
  computeCommitment := λ _ daMeta,
    if (length daMeta =? 32)%nat then Some (word_at daMeta 0) else None;
  validateDA := λ _ _, Some tt;
  mode := Some 2;
|}.

(** [abi.decode(daMeta, (bytes32, uint8))]: at least two words, the second in
    the range of its type. *)
Definition decode_blob_meta (daMeta : bytes) : option (Z * Z) :=
  if (length daMeta <? 64)%nat then None
  else if 256 <=? word_at daMeta 32 then None
  else Some (word_at daMeta 0, word_at daMeta 32).

Definition BlobDA_computeCommitment (daMeta : bytes) : option Z :=
  '(expectedVersionedHash, _) ← decode_blob_meta daMeta;
  Some expectedVersionedHash.

Definition BlobDA_validateDA (_getBlobHash : Z → Z) (commitment : Z) (daMeta : bytes)
    : option unit :=
  '(expectedVersionedHash, blobIndex) ← decode_blob_meta daMeta;
  if expectedVersionedHash =? 0 then None
  else if negb (commitment =? expectedVersionedHash) then None
  else
    let actual := _getBlobHash blobIndex in
    if actual =? 0 then None
    else if negb (actual =? expectedVersionedHash) then None
    else Some tt.

(** [blobhash] reads the blobs of the transaction in course. *)
Definition BlobDA (blobhash : Z → Z) : IDAProvider := {|
  computeCommitment := λ _ daMeta, BlobDA_computeCommitment daMeta;
  validateDA := BlobDA_validateDA blobhash;
  mode := Some 1;
|}.

(** [TestBlobDA]: the state is [mockBlobHashes]. *)
Definition setMockBlobHash (index hash : Z) (mockBlobHashes : gmap Z Z) : gmap Z Z :=
  <[index := hash]> mockBlobHashes.

Definition TestBlobDA_getBlobHash (mockBlobHashes : gmap Z Z) (blobhash : Z → Z) (index : Z) : Z :=
  let m := default 0 (mockBlobHashes !! index) in
  if negb (m =? 0) then m else blobhash index.

Definition TestBlobDA (mockBlobHashes : gmap Z Z) (blobhash : Z → Z) : IDAProvider := {|
  computeCommitment := λ _ daMeta, BlobDA_computeCommitment daMeta;
  validateDA := BlobDA_validateDA (TestBlobDA_getBlobHash mockBlobHashes blobhash);
  mode := Some 1;
|}.

(** ** Verifiers *)

Record mock_verifier : Type := mkMock {
  shouldVerify : bool;
  checkInput : bool;
  expectedInput : list Z;
}.

Definition new_MockVerifier : mock_verifier := mkMock true false [0; 0; 0; 0].

Definition setShouldVerify (newShouldVerify : bool) (m : mock_verifier) : mock_verifier :=
  mkMock newShouldVerify (checkInput m) (expectedInput m).
Definition setExpectedInput (newInput : list Z) (m : mock_verifier) : mock_verifier :=
  mkMock (shouldVerify m) true newInput.

Definition MockVerifier_verifyProof (m : mock_verifier) (input : list Z) : bool :=
  if negb (shouldVerify m) then false
  else if checkInput m then bool_decide (input = expectedInput m)
  else true.

Definition MockVerifier (m : mock_verifier) : IVerifier :=
  mkVerifier (λ _ _ _ input, Some (MockVerifier_verifyProof m input)).

(** [Plonky2Verifier] and [Halo2Verifier] are stubs that accept everything. *)
Definition Plonky2Verifier : IVerifier := mkVerifier (λ _ _ _ _, Some true).
Definition Halo2Verifier : IVerifier := mkVerifier (λ _ _ _ _, Some true).

(** *** [Constants] and [Pairing] *)

Definition SNARK_SCALAR_FIELD : Z :=
  21888242871839275222246405745257275088548364400416034343698204186575808495617.
Definition PRIME_Q : Z :=
  21888242871839275222246405745257275088696311157297823662689037894645226208583.

Definition Pairing_negate (p : G1Point) : G1Point :=
  if (p.1 =? 0) && (p.2 =? 0) then (0, 0) else (p.1, PRIME_Q - p.2 mod PRIME_Q).

Definition Pairing_plus (p1 p2 : G1Point) : option G1Point := ecAdd [p1.1; p1.2; p2.1; p2.2].

Definition Pairing_scalarMul (p : G1Point) (s : Z) : option G1Point := ecMul [p.1; p.2; s].

(** One iteration of the loop that fills [input]. *)
Definition pairing_words (p : G1Point) (q : G2Point) : list Z :=
  [p.1; p.2; q.1.1; q.1.2; q.2.1; q.2.2].

Definition Pairing_pairing (a1 : G1Point) (a2 : G2Point) (b1 : G1Point) (b2 : G2Point)
    (c1 : G1Point) (c2 : G2Point) (d1 : G1Point) (d2 : G2Point) : option bool :=
  out ← ecPairing (pairing_words a1 a2 ++ pairing_words b1 b2 ++
                   pairing_words c1 c2 ++ pairing_words d1 d2);
  Some (negb (out =? 0)).

(** *** [Groth16Verifier] and [RealVerifier] *)

Record VerifyingKey : Type := mkVk {
  alfa1 : G1Point;
  beta2 : G2Point;
  gamma2 : G2Point;
  delta2 : G2Point;
  IC : list G1Point;
}.

(** The verifying key hard-coded in [Groth16Verifier]. *)
Definition Groth16Verifier_verifyingKey : VerifyingKey := {|
  alfa1 := (21822242540597157074012091638679474706577954402424279205403488398070144889097,
     11657470843581999353966660394575927570776613563673046916912564610407327428862);
  beta2 := ((21180897882515069725885483020567201309893203678491720762859409709185870490068,
      6161271991872527173248472514204045545864472835243725087823001342190361902077),
     (18952505539734862326214587730042924528149422638218478665084611027691778560242,
      4810988015609571482636222816020687626416722043859366308645988985624083634561));
  gamma2 := ((17777282119217853865067107735566039892478651452608010128675812763554289211969,
      5020934497712336544522874957938089460149347554708288586947657002612186811691),
     (20151585840224233659409238740223690311450403600777670959508317056108205014863,
      1350273452902826485012320557818788075206201436540820802206277682174694826423));
  delta2 := ((17057747211200797935640364186269398226117892394617811125319764057653677103855,
      3997846458537744497227948862370967106332058850562382389932795560333747416548),
     (16324491015466543966881665045657923853373833409710818107344196733526710690734,
      17314432875989702143791325718565779421295768075639140206142564600950427846134));
  IC := [
    (4061739729062729555241851009038059662275235444092958130654581472384697125907,
     12029951762153533807609673943046963226306499592951992082114840619778377684717);
    (471748696848346367690728219394419807330342235501937646861213327491933317101,
     6841400413466067383278971854372498523741953841316138260195907191368662899780);
    (18611617755817725192467262144159138580231708084474797623520557264676335396890,
     8979389552931687038736108923532726870335338305104916012579667445609777244879);
    (12579291583667349001977581338701385687602284275642654823322494276978089297227,
     13499846075284945950326453524488544582043172554366327231731354387469716735501);
    (16948595712768179289092235324398971592102672628665357883163838383944335672470,
     13213991630749406192127484312614659818746092847273214645959450821853331025445)
  ]
|}.

(** The one of [RealVerifier]. *)
Definition RealVerifier_verifyingKey : VerifyingKey := {|
  alfa1 := (19653235966401989816864491462017406529110581938577150188451447329893704720169,
     13008246822243593656322132252213975159948508750611636271140860124000885034827);
  beta2 := ((20181714086087284274513575734039800408935005334821172580620385175659085744300,
      12285379448060744572373693768390304801984785200522784264202516825521967984381),
     (1668480078190439365952843839040836164174790853850075719227640754772596906191,
      16693671663319739108928937924167460066340609924825209768462698565792846404425));
  gamma2 := ((17825177573485518853308894222597964956018685441930207792795785903784065395669,
      8713759399720148109183275351514947181762536586683198754910959833101348605530),
     (15470325608483369235472735414774789341718578729569018286442683077157074577230,
      343785599740725139408264406200576217714907969867538921002487699313564244503));
  delta2 := ((7906741351610419496877342830300726794549578660974514638272084357471221678493,
      15547621645864541430301184085476560719320674882102324347796527923028471867361),
     (12362777137443568022239269545409139871206368215358113535815590610869089173401,
      20904409981812296971977380133092784554492925954269502023146628769080534610261));
  IC := [
    (11249507495662698899265669139159192696888520903869720289070074571944422974516,
     10988251287812921925444947250581460247129331140350133376378788000132061254618);
    (21507747301119000992088367649076775671715617536056950066395861228395011383956,
     1817225819321218031444741247811581335750147776828051976088229212335827611763);
    (3926443225669847873907836154002539958909080131413062058419064458021711405708,
     12905095909219643478880896955376224154734007930258953581511411030592409845053);
    (12620638117016892520539620385565016812271521551772961093427847665943823297948,
     6052764783237730725967690762521203646058143214119557453401298935195998609694);
    (20008626605309389978832451055999411738137247564665401674832280561790159506027,
     7482188558501874318192664007444957281113776432548764000626549514150225082564)
  ]
|}.

(** The loop over the public inputs: [i] runs while both [input] and
    [IC[i + 1]] have an element. *)
Fixpoint vk_x_loop (ic : list G1Point) (input : list Z) (vk_x : G1Point) : option G1Point :=
  match input, ic with
  | x :: input', p :: ic' =>
      if SNARK_SCALAR_FIELD <=? x then None
      else
        m ← Pairing_scalarMul p x;
        vk_x' ← Pairing_plus vk_x m;
        vk_x_loop ic' input' vk_x'
  | _, _ => Some vk_x
  end.

Definition Groth16_verifyProof (vk : VerifyingKey) (a : G1Point) (b : G2Point) (c : G1Point)
    (input : list Z) : option bool :=
  ic0 ← head (IC vk);
  vk_x0 ← Pairing_plus (0, 0) ic0;
  vk_x ← vk_x_loop (tail (IC vk)) input vk_x0;
  Pairing_pairing (Pairing_negate a) b (alfa1 vk) (beta2 vk) vk_x (gamma2 vk) c (delta2 vk).

Definition Groth16Verifier : IVerifier :=
  mkVerifier (Groth16_verifyProof Groth16Verifier_verifyingKey).
Definition RealVerifier : IVerifier :=
  mkVerifier (Groth16_verifyProof RealVerifier_verifyingKey).

(** ** Facts the bridge's theorems use *)

Lemma vk_x_loop_in_field ic input vk_x r x :
  vk_x_loop ic input vk_x = Some r → (length input ≤ length ic)%nat → x ∈ input →
  x < SNARK_SCALAR_FIELD.
Proof.
  revert ic vk_x. induction input as [|y input IH]; intros ic vk_x; [by intros ? ? ?%not_elem_of_nil|].
  destruct ic as [|p ic]; cbn; [lia|].
  destruct (Z.leb_spec SNARK_SCALAR_FIELD y); [discriminate|].
  destruct (Pairing_scalarMul p y) as [m|]; cbn; [|discriminate].
  destruct (Pairing_plus vk_x m) as [v|]; cbn; [|discriminate].
  intros Hl Hn [->|Hx]%elem_of_cons; [done|]. eapply IH; [done|lia|done].
Qed.

(** A Groth16 verifier that answers has only seen inputs of the scalar field. *)
Lemma Groth16_inputs_in_field vk a b c input r :
  length (IC vk) = S (length input) → Groth16_verifyProof vk a b c input = Some r →
  Forall (λ x, x < SNARK_SCALAR_FIELD) input.
Proof.
  intros Hl H. unfold Groth16_verifyProof in H. destruct (IC vk) as [|p ic]; [discriminate|].
  cbn in H, Hl. destruct (Pairing_plus (0, 0) p) as [v|]; cbn in H; [|discriminate].
  destruct (vk_x_loop ic input v) as [x|] eqn:E; cbn in H; [|discriminate].
  apply Forall_forall. intros y Hy. eapply vk_x_loop_in_field; [done|lia|done].
Qed.

(** [negate] sees the ordinate of A modulo the base field only. *)
Lemma Pairing_negate_shift x y :
  0 < y → Pairing_negate (x, y + PRIME_Q) = Pairing_negate (x, y).
Proof.
  intros Hy. unfold Pairing_negate. cbn [fst snd].
  rewrite (proj2 (Z.eqb_neq (y + PRIME_Q) 0)), (proj2 (Z.eqb_neq y 0)) by (unfold PRIME_Q; lia).
  rewrite !andb_false_r. f_equal. f_equal.
  rewrite <- (Z.mul_1_l PRIME_Q) at 1. by rewrite Z.mod_add by (unfold PRIME_Q; lia).
Qed.

(** What a provider has checked when the two calls of [commitBatch] succeed. *)
Lemma BlobDA_accepts getHash daMeta cm :
  BlobDA_computeCommitment daMeta = Some cm →
  BlobDA_validateDA getHash cm daMeta = Some tt ↔
  cm ≠ 0 ∧ ∃ i, decode_blob_meta daMeta = Some (cm, i) ∧ getHash i = cm.
Proof.
  unfold BlobDA_computeCommitment, BlobDA_validateDA.
  destruct (decode_blob_meta daMeta) as [[h i]|]; cbn; [|discriminate].
  intros [= ->]. rewrite Z.eqb_refl. cbn.
  destruct (Z.eqb_spec cm 0); [naive_solver|].
  destruct (Z.eqb_spec (getHash i) 0), (Z.eqb_spec (getHash i) cm); cbn; naive_solver.
Qed.

End providers.
