(* ===== verification/Bridge.v ===== *)
(** * ZKRollupBridge: the contract

    The storage of [contracts/bridge/ZKRollupBridge.sol] is the record
    [bridge]; every external function is a computation [Tx] over it, which
    reverts with an error or returns with the new storage and the events
    emitted.  A revert returns no storage: what the function had written is
    lost, as on the machine.

    [ctx] is the environment of a call: sender, value, block, the provider and
    verifier contracts behind the addresses, [Ownable.owner()], and the outcome
    of the ERC-20 transfer.  [Ownable2Step], [ReentrancyGuard], [SafeERC20] and
    [MerkleProof] are OpenZeppelin code: [onlyOwner] compares the sender with
    [owner()], and [nonReentrant] makes every [withdraw] entered during a
    [withdraw] revert.  The recipient of a withdrawal runs arbitrary code: it
    reverts, or makes any calls to the bridge before it returns ([receiver]).

    The balance of the contract is part of the state, because [deposit] and
    [withdraw] are the operations that move it. *)

From stdpp Require Import base list option gmap strings.
From Stdlib Require Import ZArith Lia Strings.Byte.
From S2P Require Import Prelude RollupContracts.

(** ** Storage, events, errors *)

Record bridge : Type := mkBridge {
  latestStateRoot : Z;
  verifiers : gmap Z Z;
  sequencer : Z;
  nextBatchId : Z;
  batchCommitment : gmap Z Z;
  batchNewRoot : gmap Z Z;
  daProviders : gmap Z Z;
  daEnabled : gmap Z bool;
  nullifiers : gmap Z bool;
  forcedInclusionDelay : Z;
  forcedTxTimestamps : gmap Z Z;
  forcedTxQueue : list Z;
  forcedHead : nat;
  isFrozen : bool;
  optimisticMode : bool;
  challengePeriod : Z;
  pendingStateRoot : Z;
  pendingTimestamp : Z;
  balance : Z;
}.

(** Reading a mapping: the zero value where nothing was written. *)
Notation "m '@[' k ]" := (default 0 (m !! k)) (at level 20, format "m '@[' k ]").
Notation "m '?[' k ]" := (default false (m !! k)) (at level 20, format "m '?[' k ]").

Inductive event : Type :=
| Deposit (from to amount : Z)
| DepositERC20 (token from to amount : Z)
| Withdrawal (to amount withdrawalId : Z)
| SequencerUpdated (newSequencer : Z)
| BridgeFrozen (reason : string)
| BridgeUnfrozen
| DAProviderSet (daId provider : Z) (enabled : bool)
| VerifierSet (verifierId verifierAddress : Z)
| BatchCommitted (batchId daId verifierId daCommitment oldRoot newRoot : Z)
| BatchSoftCommitted (batchId stateRoot timestamp : Z)
| BatchDataPointer (batchId : Z) (daMeta : bytes)
| ForcedTransactionEnqueued (txHash deadlineBlock : Z)
| OptimisticRootFinalized (root : Z).

Inductive sol_error : Type :=
| ZeroDepositAmount | TransferFailed | AlreadyWithdrawn | InvalidMerkleProof | NotSequencer
| InvalidNewRoot | DAProviderNotEnabled | DAProviderAlreadySet | BridgeFrozenError | InvalidProof
| UnknownVerifier (verifierId : Z)
| Reason (msg : string)           (* revert("...") and require(_, "...") *)
| Panic                           (* checked arithmetic *)
| NoData                          (* revert(), value sent to a non-payable function *)
| CalleeReverted                  (* a failed call to a provider, verifier or token *)
| OwnableUnauthorizedAccount
| ReentrancyGuardReentrantCall.

Record ctx : Type := mkCtx {
  msg_sender : Z;
  msg_wei : N;
  block_number : Z;
  block_timestamp : Z;
  owner : Z;
  provider_at : Z → IDAProvider;
  verifier_at : Z → IVerifier;
  (** [safeTransferFrom] of this token, with these arguments, succeeds. *)
  erc20_ok : Z → Z → Z → bool;
}.

Definition msg_value (c : ctx) : Z := Z.of_N (msg_wei c).

(** ** Transactions as computations *)

Definition Tx (A : Type) : Type := bridge → sol_error + (A * bridge * list event).

#[export] Instance Tx_ret : MRet Tx := λ A a s, inr (a, s, []).
#[export] Instance Tx_bind : MBind Tx := λ A B k m s,
  match m s with
  | inl e => inl e
  | inr (a, s', l) =>
      match k a s' with
      | inl e => inl e
      | inr (b, s'', l') => inr (b, s'', l ++ l')
      end
  end.

Definition revert {A} (e : sol_error) : Tx A := λ _, inl e.
Definition emit (e : event) : Tx unit := λ s, inr (tt, s, [e]).
Definition get {A} (f : bridge → A) : Tx A := λ s, inr (f s, s, []).
Definition put (f : bridge → bridge) : Tx unit := λ s, inr (tt, f s, []).
(** [if (b) revert e;] *)
Definition revert_if (b : bool) (e : sol_error) : Tx unit :=
  if b then revert e else mret tt.
(** A call to another contract. *)
Definition callee {A} (o : option A) : Tx A :=
  match o with Some a => mret a | None => revert CalleeReverted end.
(** [x + y] on [uint256] *)
Definition checked_add (x y : Z) : Tx Z :=
  if uint256_max <? x + y then revert Panic else mret (x + y).

Definition onlyOwner (c : ctx) : Tx unit :=
  revert_if (negb (msg_sender c =? owner c)) OwnableUnauthorizedAccount.
Definition nonpayable (c : ctx) : Tx unit := revert_if (negb (msg_value c =? 0)) NoData.

(** *** Writing one field *)

Definition set_latestStateRoot (v : Z) (s : bridge) : bridge :=
  mkBridge v (verifiers s) (sequencer s) (nextBatchId s) (batchCommitment s) (batchNewRoot s)
    (daProviders s) (daEnabled s) (nullifiers s) (forcedInclusionDelay s) (forcedTxTimestamps s)
    (forcedTxQueue s) (forcedHead s) (isFrozen s) (optimisticMode s) (challengePeriod s)
    (pendingStateRoot s) (pendingTimestamp s) (balance s).
Definition set_verifiers (v : gmap Z Z) (s : bridge) : bridge :=
  mkBridge (latestStateRoot s) v (sequencer s) (nextBatchId s) (batchCommitment s)
    (batchNewRoot s) (daProviders s) (daEnabled s) (nullifiers s) (forcedInclusionDelay s)
    (forcedTxTimestamps s) (forcedTxQueue s) (forcedHead s) (isFrozen s) (optimisticMode s)
    (challengePeriod s) (pendingStateRoot s) (pendingTimestamp s) (balance s).
Definition set_sequencer (v : Z) (s : bridge) : bridge :=
  mkBridge (latestStateRoot s) (verifiers s) v (nextBatchId s) (batchCommitment s)
    (batchNewRoot s) (daProviders s) (daEnabled s) (nullifiers s) (forcedInclusionDelay s)
    (forcedTxTimestamps s) (forcedTxQueue s) (forcedHead s) (isFrozen s) (optimisticMode s)
    (challengePeriod s) (pendingStateRoot s) (pendingTimestamp s) (balance s).
Definition set_nextBatchId (v : Z) (s : bridge) : bridge :=
  mkBridge (latestStateRoot s) (verifiers s) (sequencer s) v (batchCommitment s) (batchNewRoot s)
    (daProviders s) (daEnabled s) (nullifiers s) (forcedInclusionDelay s) (forcedTxTimestamps s)
    (forcedTxQueue s) (forcedHead s) (isFrozen s) (optimisticMode s) (challengePeriod s)
    (pendingStateRoot s) (pendingTimestamp s) (balance s).
Definition set_batchCommitment (v : gmap Z Z) (s : bridge) : bridge :=
  mkBridge (latestStateRoot s) (verifiers s) (sequencer s) (nextBatchId s) v (batchNewRoot s)
    (daProviders s) (daEnabled s) (nullifiers s) (forcedInclusionDelay s) (forcedTxTimestamps s)
    (forcedTxQueue s) (forcedHead s) (isFrozen s) (optimisticMode s) (challengePeriod s)
    (pendingStateRoot s) (pendingTimestamp s) (balance s).
Definition set_batchNewRoot (v : gmap Z Z) (s : bridge) : bridge :=
  mkBridge (latestStateRoot s) (verifiers s) (sequencer s) (nextBatchId s) (batchCommitment s) v
    (daProviders s) (daEnabled s) (nullifiers s) (forcedInclusionDelay s) (forcedTxTimestamps s)
    (forcedTxQueue s) (forcedHead s) (isFrozen s) (optimisticMode s) (challengePeriod s)
    (pendingStateRoot s) (pendingTimestamp s) (balance s).
Definition set_daProviders (v : gmap Z Z) (s : bridge) : bridge :=
  mkBridge (latestStateRoot s) (verifiers s) (sequencer s) (nextBatchId s) (batchCommitment s)
    (batchNewRoot s) v (daEnabled s) (nullifiers s) (forcedInclusionDelay s)
    (forcedTxTimestamps s) (forcedTxQueue s) (forcedHead s) (isFrozen s) (optimisticMode s)
    (challengePeriod s) (pendingStateRoot s) (pendingTimestamp s) (balance s).
Definition set_daEnabled (v : gmap Z bool) (s : bridge) : bridge :=
  mkBridge (latestStateRoot s) (verifiers s) (sequencer s) (nextBatchId s) (batchCommitment s)
    (batchNewRoot s) (daProviders s) v (nullifiers s) (forcedInclusionDelay s)
    (forcedTxTimestamps s) (forcedTxQueue s) (forcedHead s) (isFrozen s) (optimisticMode s)
    (challengePeriod s) (pendingStateRoot s) (pendingTimestamp s) (balance s).
Definition set_nullifiers (v : gmap Z bool) (s : bridge) : bridge :=
  mkBridge (latestStateRoot s) (verifiers s) (sequencer s) (nextBatchId s) (batchCommitment s)
    (batchNewRoot s) (daProviders s) (daEnabled s) v (forcedInclusionDelay s)
    (forcedTxTimestamps s) (forcedTxQueue s) (forcedHead s) (isFrozen s) (optimisticMode s)
    (challengePeriod s) (pendingStateRoot s) (pendingTimestamp s) (balance s).
Definition set_forcedTxTimestamps (v : gmap Z Z) (s : bridge) : bridge :=
  mkBridge (latestStateRoot s) (verifiers s) (sequencer s) (nextBatchId s) (batchCommitment s)
    (batchNewRoot s) (daProviders s) (daEnabled s) (nullifiers s) (forcedInclusionDelay s) v
    (forcedTxQueue s) (forcedHead s) (isFrozen s) (optimisticMode s) (challengePeriod s)
    (pendingStateRoot s) (pendingTimestamp s) (balance s).
Definition set_forcedTxQueue (v : list Z) (s : bridge) : bridge :=
  mkBridge (latestStateRoot s) (verifiers s) (sequencer s) (nextBatchId s) (batchCommitment s)
    (batchNewRoot s) (daProviders s) (daEnabled s) (nullifiers s) (forcedInclusionDelay s)
    (forcedTxTimestamps s) v (forcedHead s) (isFrozen s) (optimisticMode s) (challengePeriod s)
    (pendingStateRoot s) (pendingTimestamp s) (balance s).
Definition set_isFrozen (v : bool) (s : bridge) : bridge :=
  mkBridge (latestStateRoot s) (verifiers s) (sequencer s) (nextBatchId s) (batchCommitment s)
    (batchNewRoot s) (daProviders s) (daEnabled s) (nullifiers s) (forcedInclusionDelay s)
    (forcedTxTimestamps s) (forcedTxQueue s) (forcedHead s) v (optimisticMode s)
    (challengePeriod s) (pendingStateRoot s) (pendingTimestamp s) (balance s).
Definition set_optimisticMode (v : bool) (s : bridge) : bridge :=
  mkBridge (latestStateRoot s) (verifiers s) (sequencer s) (nextBatchId s) (batchCommitment s)
    (batchNewRoot s) (daProviders s) (daEnabled s) (nullifiers s) (forcedInclusionDelay s)
    (forcedTxTimestamps s) (forcedTxQueue s) (forcedHead s) (isFrozen s) v (challengePeriod s)
    (pendingStateRoot s) (pendingTimestamp s) (balance s).
Definition set_challengePeriod (v : Z) (s : bridge) : bridge :=
  mkBridge (latestStateRoot s) (verifiers s) (sequencer s) (nextBatchId s) (batchCommitment s)
    (batchNewRoot s) (daProviders s) (daEnabled s) (nullifiers s) (forcedInclusionDelay s)
    (forcedTxTimestamps s) (forcedTxQueue s) (forcedHead s) (isFrozen s) (optimisticMode s) v
    (pendingStateRoot s) (pendingTimestamp s) (balance s).
Definition set_pendingStateRoot (v : Z) (s : bridge) : bridge :=
  mkBridge (latestStateRoot s) (verifiers s) (sequencer s) (nextBatchId s) (batchCommitment s)
    (batchNewRoot s) (daProviders s) (daEnabled s) (nullifiers s) (forcedInclusionDelay s)
    (forcedTxTimestamps s) (forcedTxQueue s) (forcedHead s) (isFrozen s) (optimisticMode s)
    (challengePeriod s) v (pendingTimestamp s) (balance s).
Definition set_pendingTimestamp (v : Z) (s : bridge) : bridge :=
  mkBridge (latestStateRoot s) (verifiers s) (sequencer s) (nextBatchId s) (batchCommitment s)
    (batchNewRoot s) (daProviders s) (daEnabled s) (nullifiers s) (forcedInclusionDelay s)
    (forcedTxTimestamps s) (forcedTxQueue s) (forcedHead s) (isFrozen s) (optimisticMode s)
    (challengePeriod s) (pendingStateRoot s) v (balance s).
Definition set_balance (v : Z) (s : bridge) : bridge :=
  mkBridge (latestStateRoot s) (verifiers s) (sequencer s) (nextBatchId s) (batchCommitment s)
    (batchNewRoot s) (daProviders s) (daEnabled s) (nullifiers s) (forcedInclusionDelay s)
    (forcedTxTimestamps s) (forcedTxQueue s) (forcedHead s) (isFrozen s) (optimisticMode s)
    (challengePeriod s) (pendingStateRoot s) (pendingTimestamp s) v.

(** ** The functions of the contract *)

Section bridge.
Context {evm : Evm}.

(** [constructor] *)
Definition new_ZKRollupBridge (_verifier _genesisRoot _forcedInclusionDelay : Z) : bridge := {|
  latestStateRoot := _genesisRoot;
  verifiers := {[0 := _verifier]};
  sequencer := 0;
  nextBatchId := 1;
  batchCommitment := ∅;
  batchNewRoot := ∅;
  daProviders := ∅;
  daEnabled := ∅;
  nullifiers := ∅;
  forcedInclusionDelay := _forcedInclusionDelay;
  forcedTxTimestamps := ∅;
  forcedTxQueue := [];
  forcedHead := 0;
  isFrozen := false;
  optimisticMode := false;
  challengePeriod := 7 * 24 * 60 * 60;
  pendingStateRoot := 0;
  pendingTimestamp := 0;
  balance := 0;
|}.

(** *** Deposits *)

Definition deposit (c : ctx) (to : Z) : Tx unit :=
  put (λ s, set_balance (balance s + msg_value c) s);;
  revert_if (msg_value c =? 0) ZeroDepositAmount;;
  emit (Deposit (msg_sender c) to (msg_value c)).

Definition depositERC20 (c : ctx) (token to amount : Z) : Tx unit :=
  nonpayable c;;
  revert_if (amount =? 0) ZeroDepositAmount;;
  callee (if erc20_ok c token (msg_sender c) amount then Some tt else None);;
  emit (DepositERC20 token (msg_sender c) to amount).

(** *** Administration *)

Definition setOptimisticMode (c : ctx) (_mode : bool) : Tx unit :=
  nonpayable c;; onlyOwner c;;
  put (set_optimisticMode _mode).

Definition setChallengePeriod (c : ctx) (_period : Z) : Tx unit :=
  nonpayable c;; onlyOwner c;;
  put (set_challengePeriod _period).

Definition setSequencer (c : ctx) (newSequencer : Z) : Tx unit :=
  nonpayable c;; onlyOwner c;;
  put (set_sequencer newSequencer);;
  emit (SequencerUpdated newSequencer).

Definition setDAProvider (c : ctx) (daId provider : Z) (enabled : bool) : Tx unit :=
  nonpayable c;; onlyOwner c;;
  old ← get (λ s, (daProviders s)@[daId]);
  oldEnabled ← get (λ s, (daEnabled s)?[daId]);
  revert_if (negb (old =? 0) && oldEnabled && negb (old =? provider)) DAProviderAlreadySet;;
  put (λ s, set_daProviders (<[daId := provider]> (daProviders s)) s);;
  put (λ s, set_daEnabled (<[daId := enabled]> (daEnabled s)) s);;
  emit (DAProviderSet daId provider enabled).

Definition setVerifier (c : ctx) (verifierId verifierAddress : Z) : Tx unit :=
  nonpayable c;; onlyOwner c;;
  put (λ s, set_verifiers (<[verifierId := verifierAddress]> (verifiers s)) s);;
  emit (VerifierSet verifierId verifierAddress).

(** *** Freezing and forced inclusion *)

Definition unfreeze (c : ctx) : Tx unit :=
  nonpayable c;; onlyOwner c;;
  frozen ← get isFrozen;
  revert_if (negb frozen) NoData;;
  put (set_isFrozen false);;
  emit BridgeUnfrozen.

(** The deadline of the oldest forced transaction has passed. *)
Definition deadline_missed (c : ctx) (s : bridge) : bool :=
  match forcedTxQueue s !! forcedHead s with
  | Some oldestTxHash => (forcedTxTimestamps s)@[oldestTxHash] <? block_number c
  | None => false
  end.

Definition freeze (c : ctx) : Tx unit :=
  nonpayable c;;
  missed ← get (deadline_missed c);
  if (missed : bool) then
    put (set_isFrozen true);;
    emit (BridgeFrozen "Censorship proven via freeze()")
  else revert (Reason "No censorship detected").

Definition forceTransaction (c : ctx) (_txHash : Z) : Tx unit :=
  nonpayable c;;
  frozen ← get isFrozen;
  revert_if frozen BridgeFrozenError;;
  delay ← get forcedInclusionDelay;
  deadline ← checked_add (block_number c) delay;
  put (λ s, set_forcedTxTimestamps (<[_txHash := deadline]> (forcedTxTimestamps s)) s);;
  put (λ s, set_forcedTxQueue (forcedTxQueue s ++ [_txHash]) s);;
  emit (ForcedTransactionEnqueued _txHash deadline).

Definition _requireSequencer (c : ctx) : Tx unit :=
  frozen ← get isFrozen;
  revert_if frozen BridgeFrozenError;;
  seq ← get sequencer;
  revert_if (negb (seq =? 0) && negb (msg_sender c =? seq)) NotSequencer.

(** *** Committing a batch *)

Definition censorship_check (c : ctx) : Tx unit :=
  missed ← get (deadline_missed c);
  if (missed : bool) then
    put (set_isFrozen true);;
    emit (BridgeFrozen "Forced transaction deadline missed");;
    revert BridgeFrozenError
  else mret tt.

(** [inputs]: both roots, then the low and the high half of the commitment. *)
Definition public_inputs (oldRoot newRoot daCommitment : Z) : list Z :=
  [oldRoot; newRoot; Z.land daCommitment (2 ^ 128 - 1); Z.shiftr daCommitment 128].

(** The proof points for verifier 0; the coordinates of B come as (c0, c1) and
    are passed as (c1, c0). *)
Definition decode_proof (verifierId : Z) (proof : bytes) : Tx (G1Point * G2Point * G1Point) :=
  if verifierId =? 0 then
    revert_if (negb (length proof =? 256)%nat) (Reason "Invalid proof length");;
    mret ((word_at proof 0, word_at proof 32),
          ((word_at proof 96, word_at proof 64), (word_at proof 160, word_at proof 128)),
          (word_at proof 192, word_at proof 224))
  else mret ((0, 0), ((0, 0), (0, 0)), (0, 0)).

(** [nextBatchId++], returning the old value. *)
Definition take_batchId : Tx Z :=
  batchId ← get nextBatchId;
  next ← checked_add batchId 1;
  put (set_nextBatchId next);;
  mret batchId.

Definition record_batch (batchId daCommitment newRoot : Z) : Tx unit :=
  put (λ s, set_batchCommitment (<[batchId := daCommitment]> (batchCommitment s)) s);;
  put (λ s, set_batchNewRoot (<[batchId := newRoot]> (batchNewRoot s)) s).

Definition _finalizeBatch (oldRoot newRoot daCommitment daMode verifierId : Z) (daMeta : bytes)
    : Tx unit :=
  revert_if (newRoot =? 0) InvalidNewRoot;;
  put (set_latestStateRoot newRoot);;
  batchId ← take_batchId;
  record_batch batchId daCommitment newRoot;;
  emit (BatchDataPointer batchId daMeta);;
  emit (BatchCommitted batchId daMode verifierId daCommitment oldRoot newRoot).

(** The branch taken in validity mode. *)
Definition commit_validity (c : ctx) (provider : IDAProvider) (verifier : IVerifier)
    (points : G1Point * G2Point * G1Point)
    (batchId oldRoot newRoot daCommitment verifierId : Z) (daMeta : bytes) : Tx unit :=
  let '(a, b, c') := points in
  ok ← callee (verifyProof verifier a b c' (public_inputs oldRoot newRoot daCommitment));
  revert_if (negb ok) InvalidProof;;
  emit (BatchSoftCommitted batchId newRoot (block_timestamp c));;
  daMode ← callee (mode provider);
  _finalizeBatch oldRoot newRoot daCommitment daMode verifierId daMeta.

(** The branch taken in optimistic mode. *)
Definition commit_optimistic (c : ctx) (provider : IDAProvider)
    (batchId oldRoot newRoot daCommitment verifierId : Z) (daMeta : bytes) : Tx unit :=
  revert_if (newRoot =? 0) InvalidNewRoot;;
  emit (BatchSoftCommitted batchId newRoot (block_timestamp c));;
  put (set_pendingStateRoot newRoot);;
  put (set_pendingTimestamp (block_timestamp c));;
  batchId ← take_batchId;
  record_batch batchId daCommitment newRoot;;
  emit (BatchDataPointer batchId daMeta);;
  daMode ← callee (mode provider);
  emit (BatchCommitted batchId daMode verifierId daCommitment oldRoot newRoot).

Definition commitBatch (c : ctx) (daId verifierId : Z) (batchData daMeta : bytes) (newRoot : Z)
    (proof : bytes) : Tx unit :=
  nonpayable c;;
  _requireSequencer c;;
  censorship_check c;;
  providerAddr ← get (λ s, (daProviders s)@[daId]);
  enabled ← get (λ s, (daEnabled s)?[daId]);
  revert_if ((providerAddr =? 0) || negb enabled) DAProviderNotEnabled;;
  let provider := provider_at c providerAddr in
  daCommitment ← callee (computeCommitment provider batchData daMeta);
  callee (validateDA provider daCommitment daMeta);;
  oldRoot ← get latestStateRoot;
  selectedVerifier ← get (λ s, (verifiers s)@[verifierId]);
  revert_if (selectedVerifier =? 0) (UnknownVerifier verifierId);;
  batchId ← get nextBatchId;
  points ← decode_proof verifierId proof;
  optimistic ← get optimisticMode;
  if (optimistic : bool)
  then commit_optimistic c provider batchId oldRoot newRoot daCommitment verifierId daMeta
  else commit_validity c provider (verifier_at c selectedVerifier) points
         batchId oldRoot newRoot daCommitment verifierId daMeta.

(** *** Optimistic fallback *)

Definition verifyFraudProof (c : ctx) (proof : bytes) : Tx unit :=
  nonpayable c;; revert (Reason "FraudProofNotImplemented").

Definition finalizeOptimisticRoot (c : ctx) : Tx unit :=
  nonpayable c;;
  optimistic ← get optimisticMode;
  revert_if (negb optimistic) (Reason "Not in optimistic mode");;
  root ← get pendingStateRoot;
  revert_if (root =? 0) (Reason "No pending root");;
  since ← get pendingTimestamp;
  period ← get challengePeriod;
  until ← checked_add since period;
  revert_if (negb (until <=? block_timestamp c)) (Reason "Challenge period not elapsed");;
  put (set_latestStateRoot root);;
  put (set_pendingStateRoot 0);;
  emit (OptimisticRootFinalized root).

(** ** Calls, and what a recipient does with one *)

(** A call to a function of the contract other than [withdraw]. *)
Inductive entry : Type :=
| CDeposit (to : Z)
| CDepositERC20 (token to amount : Z)
| CSetOptimisticMode (m : bool)
| CSetChallengePeriod (p : Z)
| CSetSequencer (a : Z)
| CSetDAProvider (daId provider : Z) (enabled : bool)
| CSetVerifier (verifierId a : Z)
| CUnfreeze
| CFreeze
| CForceTransaction (h : Z)
| CCommitBatch (daId verifierId : Z) (batchData daMeta : bytes) (newRoot : Z) (proof : bytes)
| CVerifyFraudProof (proof : bytes)
| CFinalizeOptimisticRoot.

Definition enter (c : ctx) (e : entry) : Tx unit :=
  match e with
  | CDeposit to => deposit c to
  | CDepositERC20 token to amount => depositERC20 c token to amount
  | CSetOptimisticMode m => setOptimisticMode c m
  | CSetChallengePeriod p => setChallengePeriod c p
  | CSetSequencer a => setSequencer c a
  | CSetDAProvider i p b => setDAProvider c i p b
  | CSetVerifier i a => setVerifier c i a
  | CUnfreeze => unfreeze c
  | CFreeze => freeze c
  | CForceTransaction h => forceTransaction c h
  | CCommitBatch d v bd dm r p => commitBatch c d v bd dm r p
  | CVerifyFraudProof p => verifyFraudProof c p
  | CFinalizeOptimisticRoot => finalizeOptimisticRoot c
  end.

(** The code of a recipient: it reverts, or makes these calls in turn (and may
    catch the ones that revert).  Its calls to [withdraw] are refused by the
    guard and change nothing, so they are not listed. *)
Definition receiver : Type := option (list (ctx * entry)).

(** A call whose failure is caught. *)
Definition attempt (ce : ctx * entry) : Tx unit := λ s,
  match enter ce.1 ce.2 s with
  | inl _ => inr (tt, s, [])
  | inr r => inr r
  end.

Fixpoint attempts (l : list (ctx * entry)) : Tx unit :=
  match l with
  | [] => mret tt
  | ce :: l' => attempt ce;; attempts l'
  end.

(** [to.call{value: amount}("")]: fails when the balance is short or the
    recipient reverts; else the value moves and the recipient runs. *)
Definition call_with_value (amount : Z) (recv : receiver) : Tx bool :=
  have ← get balance;
  match recv with
  | Some l =>
      if have <? amount then mret false
      else
        put (set_balance (have - amount));;
        attempts l;;
        mret true
  | None => mret false
  end.

(** [abi.encodePacked(to, amount, withdrawalId)] *)
Definition withdrawal_preimage (to amount withdrawalId : Z) : bytes :=
  be_enc 20 to ++ be_enc 32 amount ++ be_enc 32 withdrawalId.

Definition withdraw (c : ctx) (merkleProof : list Z) (to amount withdrawalId : Z)
    (recv : receiver) : Tx unit :=
  nonpayable c;;
  used ← get (λ s, (nullifiers s)?[withdrawalId]);
  revert_if used AlreadyWithdrawn;;
  let leaf := keccak256_word (withdrawal_preimage to amount withdrawalId) in
  root ← get latestStateRoot;
  revert_if (negb (MerkleProof_verify merkleProof root leaf)) InvalidMerkleProof;;
  put (λ s, set_nullifiers (<[withdrawalId := true]> (nullifiers s)) s);;
  success ← call_with_value amount recv;
  revert_if (negb success) TransferFailed;;
  emit (Withdrawal to amount withdrawalId).

(** A transaction on the contract, and a history of them: what reverts leaves
    no trace. *)
Inductive call : Type :=
| Enter (e : entry)
| CWithdraw (merkleProof : list Z) (to amount withdrawalId : Z) (recv : receiver).

Definition transact (c : ctx) (k : call) : Tx unit :=
  match k with
  | Enter e => enter c e
  | CWithdraw p to amount id recv => withdraw c p to amount id recv
  end.

Fixpoint history (l : list (ctx * call)) (s : bridge) : bridge * list event :=
  match l with
  | [] => (s, [])
  | (c, k) :: l' =>
      match transact c k s with
      | inl _ => history l' s
      | inr (_, s', ev) => let (s'', ev') := history l' s' in (s'', ev ++ ev')
      end
  end.

End bridge.
