(* ===== verification/BridgeProofs.v ===== *)
(** * ZKRollupBridge: what the contract guarantees

    [estep] is the specification of the functions other than [withdraw], as
    rules: which calls are accepted, in which storage they leave the contract
    and what they emit.  [enter_refines] shows that the executable contract
    accepts exactly those calls, and the invariants are proved by inversion of
    the rules.  Histories of transactions, with the calls a recipient makes in
    the middle of a withdrawal, are handled once, in [history_entries_ind]. *)

From stdpp Require Import base list option gmap strings.
From Stdlib Require Import ZArith Lia Strings.Byte.
From S2P Require Import Prelude RollupContracts Bridge.

(** ** Inverting a successful computation *)

Section inversion.
Context {A B : Type}.
Implicit Types (s : bridge) (l : list event).

Lemma Tx_bind_inv (m : Tx A) (k : A → Tx B) s b s2 l :
  (m ≫= k) s = inr (b, s2, l) ↔
  ∃ a s1 l1 l2, m s = inr (a, s1, l1) ∧ k a s1 = inr (b, s2, l2) ∧ l = l1 ++ l2.
Proof.
  unfold mbind, Tx_bind. split.
  - intros H. destruct (m s) as [|[[a s1] l1]]; [discriminate|].
    destruct (k a s1) as [|[[b' s2'] l2]] eqn:E; [discriminate|].
    injection H as -> -> <-. eauto 10.
  - by intros (a & s1 & l1 & l2 & -> & -> & ->).
Qed.

Lemma get_inv (f : bridge → A) s a s1 l : get f s = inr (a, s1, l) ↔ a = f s ∧ s1 = s ∧ l = [].
Proof. unfold get. naive_solver. Qed.

Lemma mret_inv (x : A) s a s1 l : (mret x : Tx A) s = inr (a, s1, l) ↔ a = x ∧ s1 = s ∧ l = [].
Proof. unfold mret, Tx_ret. naive_solver. Qed.

Lemma put_inv f s a s1 l : put f s = inr (a, s1, l) ↔ a = tt ∧ s1 = f s ∧ l = [].
Proof. unfold put. destruct a. naive_solver. Qed.

Lemma emit_inv e s a s1 l : emit e s = inr (a, s1, l) ↔ a = tt ∧ s1 = s ∧ l = [e].
Proof. unfold emit. destruct a. naive_solver. Qed.

Lemma revert_inv e s (a : A) s1 l : revert e s = inr (a, s1, l) ↔ False.
Proof. done. Qed.

Lemma revert_if_inv b e s a s1 l :
  revert_if b e s = inr (a, s1, l) ↔ b = false ∧ a = tt ∧ s1 = s ∧ l = [].
Proof. unfold revert_if, revert, mret, Tx_ret. destruct a, b; split; intros; destruct_and?; simplify_eq; auto. Qed.

Lemma callee_inv (o : option A) s a s1 l :
  callee o s = inr (a, s1, l) ↔ o = Some a ∧ s1 = s ∧ l = [].
Proof. unfold callee, revert, mret, Tx_ret. destruct o; split; intros; destruct_and?; simplify_eq; auto. Qed.

Lemma checked_add_inv x y s a s1 l :
  checked_add x y s = inr (a, s1, l) ↔ a = x + y ∧ x + y ≤ uint256_max ∧ s1 = s ∧ l = [].
Proof.
  unfold checked_add, revert, mret, Tx_ret.
  destruct (Z.ltb_spec uint256_max (x + y)); split; intros; destruct_and?; simplify_eq; auto; lia.
Qed.
End inversion.

Lemma Tx_bind_run {A B} (m : Tx A) (k : A → Tx B) s a s1 l1 b s2 l2 l :
  m s = inr (a, s1, l1) → k a s1 = inr (b, s2, l2) → l = l1 ++ l2 →
  (m ≫= k) s = inr (b, s2, l).
Proof. intros. apply Tx_bind_inv. eauto 10. Qed.

Lemma Tx_bind_inl {A B} (m : Tx A) (k : A → Tx B) s e :
  m s = inl e → (m ≫= k) s = inl e.
Proof. unfold mbind, Tx_bind. by intros ->. Qed.

Lemma Tx_bind_inr {A B} (m : Tx A) (k : A → Tx B) s a s1 l1 e :
  m s = inr (a, s1, l1) → k a s1 = inl e → (m ≫= k) s = inl e.
Proof. unfold mbind, Tx_bind. by intros -> ->. Qed.

(** [tx_fwd] takes apart the successful computations of the context;
    [tx_bwd] runs the computation of the goal, and leaves its guards. *)
Ltac tx_prim H L := apply L in H; destruct_and? H; subst.
Ltac tx_fwd :=
  repeat match goal with
  | H : (_ ≫= _) _ = inr _ |- _ => apply Tx_bind_inv in H as (?&?&?&?&?&?&?); subst
  | H : get _ _ = inr _ |- _ => tx_prim H (@get_inv)
  | H : put _ _ = inr _ |- _ => tx_prim H put_inv
  | H : emit _ _ = inr _ |- _ => tx_prim H emit_inv
  | H : revert _ _ = inr _ |- _ => discriminate H
  | H : revert_if _ _ _ = inr _ |- _ => tx_prim H revert_if_inv
  | H : callee _ _ = inr _ |- _ => tx_prim H (@callee_inv)
  | H : checked_add _ _ _ = inr _ |- _ => tx_prim H checked_add_inv
  | H : (mret _ : Tx _) _ = inr _ |- _ => tx_prim H (@mret_inv)
  | H : mret _ _ = inr _ |- _ => tx_prim H (@mret_inv)
  end; rewrite ?app_nil_l, ?app_nil_r in *; cbn [app] in *.
Ltac tx_bwd :=
  repeat match goal with
  | |- (_ ≫= _) _ = inr _ => eapply Tx_bind_run
  | |- get _ _ = inr _ => apply get_inv; split_and!; reflexivity
  | |- put _ _ = inr _ => apply put_inv; split_and!; reflexivity
  | |- emit _ _ = inr _ => apply emit_inv; split_and!; reflexivity
  | |- revert_if _ _ _ = inr _ => apply revert_if_inv; split_and!; [|reflexivity..]
  | |- callee _ _ = inr _ => apply callee_inv; split_and!; [|reflexivity..]
  | |- checked_add _ _ _ = inr _ => apply checked_add_inv; split_and!; [reflexivity| |reflexivity..]
  | |- mret _ _ = inr _ => apply mret_inv; split_and!; reflexivity
  end.

(** ** The rules *)

(** The storage after batch [nextBatchId] has been recorded. *)
Definition with_batch (cm root : Z) (s : bridge) : bridge :=
  let id := nextBatchId s in
  set_batchNewRoot (<[id := root]> (batchNewRoot s))
    (set_batchCommitment (<[id := cm]> (batchCommitment s)) (set_nextBatchId (id + 1) s)).

(** The points [commitBatch] hands to the verifier. *)
Definition proof_points (verifierId : Z) (proof : bytes) : G1Point * G2Point * G1Point :=
  if verifierId =? 0 then
    ((word_at proof 0, word_at proof 32),
     ((word_at proof 96, word_at proof 64), (word_at proof 160, word_at proof 128)),
     (word_at proof 192, word_at proof 224))
  else ((0, 0), ((0, 0), (0, 0)), (0, 0)).

Section spec.
Context {evm : Evm}.
Implicit Types (c : ctx) (s : bridge).

(** What must hold for a batch to be taken, in either mode: the bridge is live,
    the sender may commit, nobody is censored, the provider accepts the data,
    the verifier is known, the proof has the right shape. *)
Record admissible c daId verifierId (batchData daMeta proof : bytes) (newRoot cm daMode : Z) s
    : Prop := {
  adm_value : msg_value c = 0;
  adm_live : isFrozen s = false;
  adm_sequencer : sequencer s = 0 ∨ msg_sender c = sequencer s;
  adm_censorship : deadline_missed c s = false;
  adm_provider : (daProviders s)@[daId] ≠ 0;
  adm_enabled : (daEnabled s)?[daId] = true;
  adm_commitment : computeCommitment (provider_at c ((daProviders s)@[daId])) batchData daMeta = Some cm;
  adm_valid : validateDA (provider_at c ((daProviders s)@[daId])) cm daMeta = Some tt;
  adm_verifier : (verifiers s)@[verifierId] ≠ 0;
  adm_length : verifierId = 0 → length proof = 256%nat;
  adm_root : newRoot ≠ 0;
  adm_mode : mode (provider_at c ((daProviders s)@[daId])) = Some daMode;
  adm_id : nextBatchId s + 1 ≤ uint256_max;
}.

Definition proof_accepted c verifierId proof newRoot cm s : Prop :=
  let '(a, b, c') := proof_points verifierId proof in
  verifyProof (verifier_at c ((verifiers s)@[verifierId])) a b c'
    (public_inputs (latestStateRoot s) newRoot cm) = Some true.

Definition batch_events c verifierId daMeta newRoot cm daMode s : list event :=
  [BatchSoftCommitted (nextBatchId s) newRoot (block_timestamp c);
   BatchDataPointer (nextBatchId s) daMeta;
   BatchCommitted (nextBatchId s) daMode verifierId cm (latestStateRoot s) newRoot].

Definition from_owner c : Prop := msg_value c = 0 ∧ msg_sender c = owner c.

Inductive estep c s : entry → bridge → list event → Prop :=
| E_deposit to :
    msg_value c ≠ 0 →
    estep c s (CDeposit to) (set_balance (balance s + msg_value c) s)
      [Deposit (msg_sender c) to (msg_value c)]
| E_depositERC20 token to amount :
    msg_value c = 0 → amount ≠ 0 → erc20_ok c token (msg_sender c) amount = true →
    estep c s (CDepositERC20 token to amount) s [DepositERC20 token (msg_sender c) to amount]
| E_setOptimisticMode m :
    from_owner c → estep c s (CSetOptimisticMode m) (set_optimisticMode m s) []
| E_setChallengePeriod p :
    from_owner c → estep c s (CSetChallengePeriod p) (set_challengePeriod p s) []
| E_setSequencer a :
    from_owner c → estep c s (CSetSequencer a) (set_sequencer a s) [SequencerUpdated a]
| E_setDAProvider i p b :
    from_owner c →
    (daProviders s)@[i] = 0 ∨ (daEnabled s)?[i] = false ∨ (daProviders s)@[i] = p →
    estep c s (CSetDAProvider i p b)
      (set_daEnabled (<[i := b]> (daEnabled s)) (set_daProviders (<[i := p]> (daProviders s)) s))
      [DAProviderSet i p b]
| E_setVerifier i a :
    from_owner c →
    estep c s (CSetVerifier i a) (set_verifiers (<[i := a]> (verifiers s)) s) [VerifierSet i a]
| E_unfreeze :
    from_owner c → isFrozen s = true →
    estep c s CUnfreeze (set_isFrozen false s) [BridgeUnfrozen]
| E_freeze :
    msg_value c = 0 → deadline_missed c s = true →
    estep c s CFreeze (set_isFrozen true s) [BridgeFrozen "Censorship proven via freeze()"]
| E_forceTransaction h :
    msg_value c = 0 → isFrozen s = false →
    block_number c + forcedInclusionDelay s ≤ uint256_max →
    let d := block_number c + forcedInclusionDelay s in
    estep c s (CForceTransaction h)
      (set_forcedTxQueue (forcedTxQueue s ++ [h])
        (set_forcedTxTimestamps (<[h := d]> (forcedTxTimestamps s)) s))
      [ForcedTransactionEnqueued h d]
| E_commit_validity d v bd dm r p cm m :
    optimisticMode s = false → admissible c d v bd dm p r cm m s →
    proof_accepted c v p r cm s →
    estep c s (CCommitBatch d v bd dm r p) (with_batch cm r (set_latestStateRoot r s))
      (batch_events c v dm r cm m s)
| E_commit_optimistic d v bd dm r p cm m :
    optimisticMode s = true → admissible c d v bd dm p r cm m s →
    estep c s (CCommitBatch d v bd dm r p)
      (with_batch cm r (set_pendingTimestamp (block_timestamp c) (set_pendingStateRoot r s)))
      (batch_events c v dm r cm m s)
| E_finalize :
    msg_value c = 0 → optimisticMode s = true → pendingStateRoot s ≠ 0 →
    pendingTimestamp s + challengePeriod s ≤ uint256_max →
    pendingTimestamp s + challengePeriod s ≤ block_timestamp c →
    estep c s CFinalizeOptimisticRoot
      (set_pendingStateRoot 0 (set_latestStateRoot (pendingStateRoot s) s))
      [OptimisticRootFinalized (pendingStateRoot s)].

(** ** The contract implements the rules *)

Lemma onlyOwner_inv c s a s1 l :
  onlyOwner c s = inr (a, s1, l) ↔ msg_sender c = owner c ∧ a = tt ∧ s1 = s ∧ l = [].
Proof. unfold onlyOwner. rewrite revert_if_inv, negb_false_iff, Z.eqb_eq. done. Qed.

Lemma nonpayable_inv c s a s1 l :
  nonpayable c s = inr (a, s1, l) ↔ msg_value c = 0 ∧ a = tt ∧ s1 = s ∧ l = [].
Proof. unfold nonpayable. rewrite revert_if_inv, negb_false_iff, Z.eqb_eq. done. Qed.

Lemma requireSequencer_inv c s a s1 l :
  _requireSequencer c s = inr (a, s1, l) ↔
  isFrozen s = false ∧ (sequencer s = 0 ∨ msg_sender c = sequencer s) ∧ a = tt ∧ s1 = s ∧ l = [].
Proof.
  unfold _requireSequencer. split.
  - intros H. tx_fwd. split_and!; [done| |done..]. destruct (Z.eqb_spec (sequencer s) 0); [auto|].
    right. by apply Z.eqb_eq, negb_false_iff.
  - intros (Hf & Hs & -> & -> & ->). tx_bwd; try done.
    destruct Hs as [->| ->]; [done|]. by rewrite Z.eqb_refl, andb_false_r.
Qed.

Lemma censorship_check_inv c s a s1 l :
  censorship_check c s = inr (a, s1, l) ↔
  deadline_missed c s = false ∧ a = tt ∧ s1 = s ∧ l = [].
Proof.
  unfold censorship_check. split.
  - intros H. apply Tx_bind_inv in H as (m&?&?&?&[-> [-> ->]]%get_inv&H&->).
    destruct (deadline_missed c s); tx_fwd; auto.
  - intros (Hm & -> & -> & ->). tx_bwd; [|done]. rewrite Hm. tx_bwd.
Qed.

Lemma decode_proof_inv v p s a s1 l :
  decode_proof v p s = inr (a, s1, l) ↔
  (v = 0 → length p = 256%nat) ∧ a = proof_points v p ∧ s1 = s ∧ l = [].
Proof.
  unfold decode_proof, proof_points. destruct (Z.eqb_spec v 0); split.
  - intros H. tx_fwd. split_and!; [|done..]. intros _. by apply Nat.eqb_eq, negb_false_iff.
  - intros (Hl & -> & -> & ->). tx_bwd; [|done]. rewrite Hl by done. done.
  - intros H. tx_fwd. naive_solver.
  - intros (_ & -> & -> & ->). tx_bwd.
Qed.

Lemma take_batchId_inv s a s1 l :
  take_batchId s = inr (a, s1, l) ↔
  nextBatchId s + 1 ≤ uint256_max ∧ a = nextBatchId s ∧
  s1 = set_nextBatchId (nextBatchId s + 1) s ∧ l = [].
Proof.
  unfold take_batchId. split.
  - intros H. tx_fwd. auto.
  - intros (Hm & -> & -> & ->). tx_bwd; done.
Qed.

Ltac op_fwd :=
  repeat (progress tx_fwd || match goal with
  | H : onlyOwner _ _ = inr _ |- _ => tx_prim H onlyOwner_inv
  | H : nonpayable _ _ = inr _ |- _ => tx_prim H nonpayable_inv
  | H : _requireSequencer _ _ = inr _ |- _ => tx_prim H requireSequencer_inv
  | H : censorship_check _ _ = inr _ |- _ => tx_prim H censorship_check_inv
  | H : decode_proof _ _ _ = inr _ |- _ => tx_prim H decode_proof_inv
  | H : take_batchId _ = inr _ |- _ => tx_prim H take_batchId_inv
  | H : record_batch _ _ _ _ = inr _ |- _ => unfold record_batch in H
  | H : _ =? _ = false |- _ => apply Z.eqb_neq in H
  | H : negb _ = false |- _ => apply negb_false_iff in H
  | H : _ || _ = false |- _ => apply orb_false_iff in H as [? ?]
  | H : _ =? _ = true |- _ => apply Z.eqb_eq in H
  | H : _ <=? _ = true |- _ => apply Z.leb_le in H
  end).
Ltac op_bwd :=
  repeat (progress tx_bwd || match goal with
  | |- onlyOwner _ _ = inr _ => apply onlyOwner_inv; split_and!; [|reflexivity..]
  | |- nonpayable _ _ = inr _ => apply nonpayable_inv; split_and!; [|reflexivity..]
  | |- _requireSequencer _ _ = inr _ =>
      apply requireSequencer_inv; split_and!; [| |reflexivity..]
  | |- censorship_check _ _ = inr _ => apply censorship_check_inv; split_and!; [|reflexivity..]
  | |- decode_proof _ _ _ = inr _ => apply decode_proof_inv; split_and!; [|reflexivity..]
  | |- take_batchId _ = inr _ => apply take_batchId_inv; split_and!; [|reflexivity..]
  | |- record_batch _ _ _ _ = inr _ => unfold record_batch
  | |- (_ =? _) = false => apply Z.eqb_neq
  | |- negb _ = false => apply negb_false_iff
  | |- _ || _ = false => apply orb_false_iff; split
  | |- (_ =? _) = true => apply Z.eqb_eq
  | |- (_ <=? _) = true => apply Z.leb_le
  end).

Ltac destruct_unit := repeat match goal with x : () |- _ => destruct x end.

Lemma commitBatch_refines c s d v bd dm r p s' ev :
  commitBatch c d v bd dm r p s = inr (tt, s', ev) ↔ estep c s (CCommitBatch d v bd dm r p) s' ev.
Proof.
  split.
  - intros H. unfold commitBatch in H. op_fwd.
    destruct (optimisticMode s) eqn:Ho.
    + unfold commit_optimistic in *. op_fwd.
      match goal with Hc : computeCommitment _ _ _ = Some ?cm, Hm : mode _ = Some ?m |- _ =>
        apply (E_commit_optimistic c s d v bd dm r p cm m); [done|] end.
      destruct_unit. by constructor.
    + unfold commit_validity, _finalizeBatch in *. destruct (proof_points v p) as [[a b] c'] eqn:Ep.
      op_fwd.
      match goal with Hc : computeCommitment _ _ _ = Some ?cm, Hm : mode _ = Some ?m |- _ =>
        apply (E_commit_validity c s d v bd dm r p cm m); [done| |] end.
      * destruct_unit. by constructor.
      * unfold proof_accepted. rewrite Ep. by subst.
  - intros H. inversion H as [| | | | | | | | | | ?????? cm m Ho Ha Hp | ?????? cm m Ho Ha |];
      subst; destruct Ha; unfold commitBatch; op_bwd; try done.
    + rewrite Ho. unfold commit_validity, _finalizeBatch, proof_accepted in *.
      destruct (proof_points v p) as [[a b] c']. op_bwd; try done.
    + rewrite Ho. unfold commit_optimistic. op_bwd; try done.
Qed.

Lemma setDAProvider_guard old enabled p :
  negb (old =? 0) && enabled && negb (old =? p) = false ↔ old = 0 ∨ enabled = false ∨ old = p.
Proof.
  destruct (Z.eqb_spec old 0), enabled, (Z.eqb_spec old p); cbn; naive_solver.
Qed.

Ltac unfold_ops :=
  unfold deposit, depositERC20, setOptimisticMode, setChallengePeriod, setSequencer, setDAProvider,
    setVerifier, unfreeze, freeze, forceTransaction, verifyFraudProof, finalizeOptimisticRoot in *.

Lemma enter_sound c s e s' ev : enter c e s = inr (tt, s', ev) → estep c s e s' ev.
Proof.
  destruct e; cbn [enter]; [..|by apply commitBatch_refines| |]; intros H; unfold_ops; op_fwd;
    try by constructor.
  - destruct (erc20_ok _ _ _ _) eqn:?; [|done]. by constructor.
  - apply (E_setDAProvider c s); [done|]. by apply setDAProvider_guard.
  - destruct (deadline_missed c s) eqn:?; tx_fwd. by constructor.
  - by apply (E_forceTransaction c s).
Qed.

Lemma enter_complete c s e s' ev : estep c s e s' ev → enter c e s = inr (tt, s', ev).
Proof.
  intros H. destruct H; cbn [enter]; [..|apply commitBatch_refines; by econstructor|
    apply commitBatch_refines; by econstructor|];
    unfold from_owner in *; destruct_and?; unfold_ops; op_bwd; try done.
  - by rewrite H1.
  - by apply setDAProvider_guard.
  - rewrite H0. tx_bwd. done.
Qed.

Lemma enter_estep c s e s' ev : enter c e s = inr (tt, s', ev) ↔ estep c s e s' ev.
Proof. split; [apply enter_sound|apply enter_complete]. Qed.

(** ** Withdrawals and histories *)

(** The calls a recipient makes: each follows a rule, or is refused. *)
Inductive nested : list (ctx * entry) → bridge → bridge → list event → Prop :=
| N_nil s : nested [] s s []
| N_ok c e l s s1 s2 ev ev' :
    estep c s e s1 ev → nested l s1 s2 ev' → nested ((c, e) :: l) s s2 (ev ++ ev')
| N_refused c e l s s2 ev :
    (∀ s1 ev1, ¬ estep c s e s1 ev1) → nested l s s2 ev → nested ((c, e) :: l) s s2 ev.

Inductive tstep c s : call → bridge → list event → Prop :=
| T_enter e s' ev : estep c s e s' ev → tstep c s (Enter e) s' ev
| T_withdraw p to amount id l s' ev :
    msg_value c = 0 → (nullifiers s)?[id] = false →
    MerkleProof_verify p (latestStateRoot s)
      (keccak256_word (withdrawal_preimage to amount id)) = true →
    amount ≤ balance s →
    nested l (set_balance (balance s - amount) (set_nullifiers (<[id := true]> (nullifiers s)) s)) s' ev →
    tstep c s (CWithdraw p to amount id (Some l)) s' (ev ++ [Withdrawal to amount id]).

Lemma attempt_inv c e s u s' ev :
  attempt (c, e) s = inr (u, s', ev) ↔
  estep c s e s' ev ∨ (∀ s1 ev1, ¬ estep c s e s1 ev1) ∧ s' = s ∧ ev = [].
Proof.
  destruct u. unfold attempt. cbn. setoid_rewrite <- enter_estep.
  destruct (enter c e s) as [|[[[] s1] ev1]]; naive_solver.
Qed.

Lemma attempts_nested l s u s' ev : attempts l s = inr (u, s', ev) ↔ nested l s s' ev.
Proof.
  destruct u. revert s ev. induction l as [|[c e] l IH]; intros s ev; cbn [attempts].
  - rewrite mret_inv. split; [intros (_ & -> & ->); constructor|by inversion 1].
  - rewrite Tx_bind_inv. split.
    + intros (u & s1 & l1 & l2 & [?|(? & -> & ->)]%attempt_inv & ?%IH & ->);
        [by eapply N_ok|by apply N_refused].
    + inversion 1; subst; exists tt; do 3 eexists; (split; [apply attempt_inv|split; [by apply IH|]]);
        eauto.
Qed.

Lemma call_with_value_inv amount recv s ok s' ev :
  call_with_value amount recv s = inr (ok, s', ev) ∧ ok = true ↔
  ∃ l, recv = Some l ∧ amount ≤ balance s ∧ nested l (set_balance (balance s - amount) s) s' ev ∧ ok = true.
Proof.
  unfold call_with_value. split.
  - intros [H ->]. tx_fwd. destruct recv as [l|]; tx_fwd; [|done].
    destruct (Z.ltb_spec (balance s) amount); tx_fwd; [done|].
    match goal with H : attempts _ _ = _ |- _ => apply attempts_nested in H end. eauto.
  - intros (l & -> & Hb & Hn & ->). split; [|done]. eapply Tx_bind_run; [by apply get_inv| |done].
    cbn. destruct (Z.ltb_spec (balance s) amount); [lia|]. apply (attempts_nested _ _ tt) in Hn.
    tx_bwd; [done|done|]. by rewrite app_nil_r.
Qed.

Lemma transact_sound c k s s' ev : transact c k s = inr (tt, s', ev) → tstep c s k s' ev.
Proof.
  destruct k as [e|p to amount id recv]; cbn [transact]; intros H.
  - constructor. by apply enter_estep.
  - unfold withdraw in H. op_fwd.
    match goal with Hc : call_with_value _ _ _ = inr (?ok, _, _), Ht : ?ok = true |- _ =>
      destruct (proj1 (call_with_value_inv _ _ _ _ _ _) (conj Hc Ht)) as (l & -> & ? & ? & _) end.
    by apply T_withdraw.
Qed.

Lemma transact_complete c k s s' ev : tstep c s k s' ev → transact c k s = inr (tt, s', ev).
Proof.
  intros [e s1 ev1 H|p to amount id l s1 ev1 Hv Hn Hp Hb Hl]; cbn [transact]; [by apply enter_estep|].
  assert (Hcall : call_with_value amount (Some l)
    (set_nullifiers (<[id := true]> (nullifiers s)) s) = inr (true, s1, ev1)).
  { apply (call_with_value_inv _ _ _ true). exists l. done. }
  unfold withdraw. op_bwd; try done.
Qed.

(** Every state change of a history is a rule applied to an entry, a payment or
    a nullifier: a predicate those keep is kept by the history. *)
Definition entries_of (ck : ctx * call) : list (ctx * entry) :=
  match ck.2 with
  | Enter e => [(ck.1, e)]
  | CWithdraw _ _ _ _ (Some l) => l
  | CWithdraw _ _ _ _ None => []
  end.
Definition entries (l : list (ctx * call)) : list (ctx * entry) := l ≫= entries_of.

Section induction.
Context (P : bridge → Prop) (Q : ctx → entry → Prop).
Hypothesis P_estep : ∀ c e s s' ev, Q c e → P s → estep c s e s' ev → P s'.
Hypothesis P_balance : ∀ s v, P s → P (set_balance v s).
Hypothesis P_nullifiers : ∀ s v, P s → P (set_nullifiers v s).

Lemma nested_entries_ind l s s' ev :
  nested l s s' ev → Forall (λ ce, Q ce.1 ce.2) l → P s → P s'.
Proof.
  induction 1; intros HQ HP; [done|..]; apply Forall_cons in HQ as [HQ ?]; eauto.
Qed.

Lemma history_entries_ind l s :
  Forall (λ ce, Q ce.1 ce.2) (entries l) → P s → P (history l s).1.
Proof.
  revert s. induction l as [|[c k] l IH]; intros s HQ HP; [done|].
  change (entries ((c, k) :: l)) with (entries_of (c, k) ++ entries l) in HQ.
  apply Forall_app in HQ as [HQ1 HQ2]. cbn [history].
  destruct (transact c k s) as [|[[[] s'] ev]] eqn:E; [by apply IH|].
  specialize (IH s' HQ2). destruct (history l s') as [s2 ev2]. cbn in IH |- *. apply IH.
  apply transact_sound in E. destruct E as [e s1 ev1 H|]; cbn in HQ1.
  - rewrite Forall_singleton in HQ1. exact (P_estep c e s s1 ev1 HQ1 HP H).
  - eapply nested_entries_ind; eauto.
Qed.
End induction.

End spec.
