(* ===== verification/BridgeSafety.v ===== *)
(** * ZKRollupBridge: invariants, accounting, liveness

    The theorems about the rollup bridge.  They range over every history of
    transactions, from any senders, with any providers and verifiers, and with
    any calls made back into the bridge by the recipient of a withdrawal. *)

From stdpp Require Import base list option gmap strings.
From Stdlib Require Import ZArith Lia Strings.Byte.
From S2P Require Import Prelude RollupContracts Bridge BridgeProofs.

(** ** A small instance of the machine, for concrete runs *)

(** Hashes keep the low bits of their input, every Merkle proof whose first
    element is the leaf is accepted, and the precompiles return fixed points. *)
Definition model_evm : Evm := {|
  keccak256_word := λ b, Z.land (be_val b) (2 ^ 256 - 1);
  MerkleProof_verify := λ p _ leaf, bool_decide (head p = Some leaf);
  ecAdd := λ _, Some (1, 2);
  ecMul := λ _, Some (1, 2);
  ecPairing := λ _, Some 1;
|}.

(** The owner, 1, calls in block [n] at time [t]; address 100 is a
    [CalldataDA], 200 a [MockVerifier], 201 the [Groth16Verifier]. *)
Definition model_ctx (value : N) (n t : Z) : ctx := {|
  msg_sender := 1;
  msg_wei := value;
  block_number := n;
  block_timestamp := t;
  owner := 1;
  provider_at := λ a, if a =? 100 then @CalldataDA model_evm else no_provider;
  verifier_at := λ a,
    if a =? 200 then MockVerifier new_MockVerifier
    else if a =? 201 then @Groth16Verifier model_evm else no_verifier;
  erc20_ok := λ _ _ _, true;
|}.

Definition zero_proof : bytes := replicate 256 x00.

Section safety.
Context {evm : Evm}.
Implicit Types (c : ctx) (s : bridge) (ev : list event).

(** ** The contract follows its rules *)

(** C4: Every transaction on the bridge, withdrawals included, does exactly
    what the rules [tstep] say: it succeeds if and only if a rule applies, with
    that rule's storage and events. *)
Theorem transact_refines c k s s' ev :
  transact c k s = inr (tt, s', ev) ↔ tstep c s k s' ev.
Proof. split; [apply transact_sound|apply transact_complete]. Qed.

(** ** The batch ledger *)

Record ledger_inv (genesis : Z) (s : bridge) : Prop := {
  inv_next : 1 ≤ nextBatchId s;
  inv_commitments : ∀ id, is_Some (batchCommitment s !! id) ↔ 1 ≤ id < nextBatchId s;
  inv_roots : ∀ id, is_Some (batchNewRoot s !! id) ↔ 1 ≤ id < nextBatchId s;
  inv_nonzero : ∀ id r, batchNewRoot s !! id = Some r → r ≠ 0;
  inv_latest : latestStateRoot s = genesis ∨ ∃ id, batchNewRoot s !! id = Some (latestStateRoot s);
  inv_pending : pendingStateRoot s ≠ 0 → ∃ id, batchNewRoot s !! id = Some (pendingStateRoot s);
  inv_queue : ∀ h, h ∈ forcedTxQueue s → is_Some (forcedTxTimestamps s !! h);
  inv_head : forcedHead s = 0%nat;
}.

Lemma is_Some_insert_next (m : gmap Z Z) (next v id : Z) :
  1 ≤ next → (∀ i, is_Some (m !! i) ↔ 1 ≤ i < next) →
  is_Some (<[next := v]> m !! id) ↔ 1 ≤ id < next + 1.
Proof.
  intros Hn Hm. destruct (decide (id = next)) as [->|Hne].
  - rewrite lookup_insert_eq. split; [lia|eauto].
  - rewrite lookup_insert_ne, Hm by done. lia.
Qed.

Lemma lookup_insert_fresh (m : gmap Z Z) (next v : Z) (r : Z) :
  (∀ i, is_Some (m !! i) ↔ 1 ≤ i < next) →
  (∃ id, m !! id = Some r) → ∃ id, <[next := v]> m !! id = Some r.
Proof.
  intros Hm [id Hid]. exists id. rewrite lookup_insert_ne; [done|]. intros ->.
  destruct (proj1 (Hm id)); [eauto|lia].
Qed.

Lemma with_batch_inv g s cm r latest pending t :
  ledger_inv g s → r ≠ 0 → latest = latestStateRoot s ∨ latest = r →
  pending = pendingStateRoot s ∨ pending = r →
  ledger_inv g (with_batch cm r
    (set_latestStateRoot latest (set_pendingTimestamp t (set_pendingStateRoot pending s)))).
Proof.
  intros [] Hr Hlatest Hpending. constructor; cbn; try done.
  - lia.
  - intros id. by apply is_Some_insert_next.
  - intros id. by apply is_Some_insert_next.
  - intros id r' [[_ <-]|[_ ?]]%lookup_insert_Some; eauto.
  - destruct Hlatest as [->| ->]; [|right; eexists; apply lookup_insert_eq].
    destruct inv_latest0; [by left|right]. by apply lookup_insert_fresh.
  - intros ?. destruct Hpending as [->| ->]; [|eexists; apply lookup_insert_eq].
    apply lookup_insert_fresh; auto.
Qed.

Lemma ledger_inv_frame g s s' :
  nextBatchId s' = nextBatchId s → batchCommitment s' = batchCommitment s →
  batchNewRoot s' = batchNewRoot s → latestStateRoot s' = latestStateRoot s →
  pendingStateRoot s' = pendingStateRoot s → forcedTxTimestamps s' = forcedTxTimestamps s →
  forcedTxQueue s' = forcedTxQueue s → forcedHead s' = forcedHead s →
  ledger_inv g s → ledger_inv g s'.
Proof. intros E1 E2 E3 E4 E5 E6 E7 E8 []. constructor; rewrite ?E1, ?E2, ?E3, ?E4, ?E5, ?E6, ?E7, ?E8; done. Qed.

Lemma estep_ledger g c e s s' ev : ledger_inv g s → estep c s e s' ev → ledger_inv g s'.
Proof.
  intros Hi H. destruct H as [| | | | | | | | |h ??? d|d v bd dm r p cm m ? Ha|d v bd dm r p cm m ? Ha|];
    try (by apply (ledger_inv_frame g s)).
  - destruct Hi. constructor; cbn; try done. intros h' [?|Hh]%elem_of_app.
    + destruct (decide (h' = h)) as [->|]; [rewrite lookup_insert_eq; eauto|].
      rewrite lookup_insert_ne by done. auto.
    + apply list_elem_of_singleton in Hh as ->. rewrite lookup_insert_eq. eauto.
  - apply (with_batch_inv g s cm r r (pendingStateRoot s) (pendingTimestamp s)); auto. by destruct Ha.
  - apply (with_batch_inv g s cm r (latestStateRoot s) r (block_timestamp c)); auto. by destruct Ha.
  - destruct Hi. constructor; cbn; auto. done.
Qed.

(** C5: The batch ledger is sound after any history: the recorded batches are
    exactly numbers 1 to [nextBatchId - 1], none of their roots is zero, and the
    current state root, like a pending one, is the genesis root or the root of
    a recorded batch.  The head of the forced queue never moves. *)
Theorem ledger_invariant verifier genesis delay l :
  ledger_inv genesis (history l (new_ZKRollupBridge verifier genesis delay)).1.
Proof.
  apply (history_entries_ind (ledger_inv genesis) (λ _ _, True)).
  - intros. by eapply estep_ledger.
  - intros s v Hi. by apply (ledger_inv_frame genesis s).
  - intros s v Hi. by apply (ledger_inv_frame genesis s).
  - by apply Forall_true.
  - constructor; cbn; try done; try (left; done);
      try (intros id; rewrite lookup_empty; split; [by intros []|lia]).
    by intros h ?%not_elem_of_nil.
Qed.

(** ** Money *)

Definition deposited_by (e : event) : Z := match e with Deposit _ _ a => a | _ => 0 end.
Definition withdrawn_by (e : event) : Z := match e with Withdrawal _ a _ => a | _ => 0 end.
Definition deposited ev : Z := foldr (λ e n, deposited_by e + n) 0 ev.
Definition withdrawn ev : Z := foldr (λ e n, withdrawn_by e + n) 0 ev.
Definition withdrawn_id (e : event) : option Z :=
  match e with Withdrawal _ _ id => Some id | _ => None end.
Definition withdrawn_ids ev : list Z := omap withdrawn_id ev.

Lemma deposited_app ev1 ev2 : deposited (ev1 ++ ev2) = deposited ev1 + deposited ev2.
Proof. induction ev1; cbn; [done|]. unfold deposited in *. lia. Qed.
Lemma withdrawn_app ev1 ev2 : withdrawn (ev1 ++ ev2) = withdrawn ev1 + withdrawn ev2.
Proof. induction ev1; cbn; [done|]. unfold withdrawn in *. lia. Qed.
Lemma withdrawn_ids_app ev1 ev2 :
  withdrawn_ids (ev1 ++ ev2) = withdrawn_ids ev1 ++ withdrawn_ids ev2.
Proof. apply omap_app. Qed.

(** An entry pays nobody, and takes in what it reports. *)
Lemma estep_money c e s s' ev :
  estep c s e s' ev →
  nullifiers s' = nullifiers s ∧ balance s' = balance s + deposited ev ∧
  0 ≤ deposited ev ∧ withdrawn ev = 0 ∧ withdrawn_ids ev = [].
Proof.
  assert (0 ≤ msg_value c) by (unfold msg_value; lia).
  intros H'. destruct H'; cbn; split_and!; try done; unfold deposited; cbn; lia.
Qed.

Lemma nested_money l s s' ev :
  nested l s s' ev →
  nullifiers s' = nullifiers s ∧ balance s' = balance s + deposited ev ∧
  0 ≤ deposited ev ∧ withdrawn ev = 0 ∧ withdrawn_ids ev = [].
Proof.
  induction 1 as [|?????? ev ev' H%estep_money ? IH|]; [cbn; split_and!; lia || done| |done].
  destruct H as (?&?&?&?&E1), IH as (?&?&?&?&E2).
  rewrite deposited_app, withdrawn_app, withdrawn_ids_app, E1, E2. split_and!; congruence || lia || done.
Qed.

Record accounts s ev : Prop := {
  acc_once : NoDup (withdrawn_ids ev);
  acc_nullified : ∀ id, id ∈ withdrawn_ids ev ↔ (nullifiers s)?[id] = true;
  acc_balance : balance s = deposited ev - withdrawn ev;
  acc_solvent : 0 ≤ balance s;
}.

Lemma tstep_accounts c k s s' ev0 ev :
  accounts s ev0 → tstep c s k s' ev → accounts s' (ev0 ++ ev).
Proof.
  intros [H1 H2 H3 H4] [e s1 ev1 Hs|p to amount id l s1 ev1 Hv Hn Hp Hb Hl].
  - apply estep_money in Hs as (Hs1 & Hs2 & ? & Hs3 & Hs4).
    constructor; rewrite ?withdrawn_ids_app, ?deposited_app, ?withdrawn_app, ?Hs4, ?app_nil_r,
      ?Hs1, ?Hs2, ?Hs3; done || lia.
  - apply nested_money in Hl as (Hs1 & Hs2 & ? & Hs3 & Hs4). cbn in Hs1, Hs2.
    constructor; rewrite ?withdrawn_ids_app, ?deposited_app, ?withdrawn_app, ?Hs4, ?Hs1, ?Hs2, ?Hs3.
    + apply NoDup_app. split_and!; [done| |apply NoDup_singleton].
      intros id' Hid ->%list_elem_of_singleton. apply H2 in Hid. congruence.
    + intros id'. rewrite app_nil_l, elem_of_app, H2. cbn. rewrite list_elem_of_singleton.
      destruct (decide (id' = id)) as [->|]; [rewrite lookup_insert_eq; naive_solver|].
      rewrite lookup_insert_ne by done. naive_solver.
    + change (deposited [Withdrawal to amount id]) with 0.
      change (withdrawn [Withdrawal to amount id]) with (amount + 0). lia.
    + lia.
Qed.

Lemma history_accounts l s ev0 :
  accounts s ev0 → accounts (history l s).1 (ev0 ++ (history l s).2).
Proof.
  revert s ev0. induction l as [|[c k] l IH]; intros s ev0 Ha; cbn [history].
  - cbn. by rewrite app_nil_r.
  - destruct (transact c k s) as [|[[[] s'] ev]] eqn:E; [by apply IH|].
    apply transact_sound in E. specialize (IH s' (ev0 ++ ev) (tstep_accounts _ _ _ _ _ _ Ha E)).
    destruct (history l s') as [s2 ev2]. cbn in *. by rewrite app_assoc.
Qed.

(** C1: No withdrawal is paid twice, whatever recipients do when they are
    called: over any history the withdrawal identifiers paid are pairwise
    distinct and are exactly the nullifiers set; the bridge holds what was
    deposited minus what was withdrawn, which is never negative. *)
Theorem withdrawals_paid_once verifier genesis delay l :
  let '(s, ev) := history l (new_ZKRollupBridge verifier genesis delay) in
  NoDup (withdrawn_ids ev) ∧ (∀ id, id ∈ withdrawn_ids ev ↔ (nullifiers s)?[id] = true) ∧
  balance s = deposited ev - withdrawn ev ∧ 0 ≤ balance s.
Proof.
  destruct (history_accounts l (new_ZKRollupBridge verifier genesis delay) []) as [H1 H2 H3 H4].
  - constructor; cbn; [constructor| |done|done]. intros id. rewrite lookup_empty.
    split; [by intros ?%not_elem_of_nil|done].
  - cbn [app] in *. by destruct (history _ _).
Qed.

(** The bytes hashed into a withdrawal leaf determine the recipient, the
    amount and the identifier: two withdrawals that differ in any of them have
    different preimages. *)
Theorem withdrawal_preimage_binding to amount id to' amount' id' :
  0 ≤ to < 2 ^ 160 → 0 ≤ amount < 2 ^ 256 → 0 ≤ id < 2 ^ 256 →
  0 ≤ to' < 2 ^ 160 → 0 ≤ amount' < 2 ^ 256 → 0 ≤ id' < 2 ^ 256 →
  withdrawal_preimage to amount id = withdrawal_preimage to' amount' id' →
  to = to' ∧ amount = amount' ∧ id = id'.
Proof.
  intros ?????? H. unfold withdrawal_preimage in H.
  apply app_inj_1 in H as [Eto H]; [|by rewrite !be_enc_length].
  apply app_inj_1 in H as [Eamount Eid]; [|by rewrite !be_enc_length].
  split_and!; [by apply (be_enc_inj 20)|by apply (be_enc_inj 32)..].
Qed.

(** ** Who may change what *)

(** C13: The state root moves only in two ways.  In validity mode, by a batch
    that was admissible and whose proof the registered verifier accepted on the
    old root, the new root and both halves of the commitment; in optimistic
    mode, by finalising the pending root once its challenge period is over. *)
Theorem state_root_authorised c e s s' ev :
  enter c e s = inr (tt, s', ev) → latestStateRoot s' ≠ latestStateRoot s →
  (∃ d v bd dm p cm m, e = CCommitBatch d v bd dm (latestStateRoot s') p ∧
     optimisticMode s = false ∧ admissible c d v bd dm p (latestStateRoot s') cm m s ∧
     proof_accepted c v p (latestStateRoot s') cm s) ∨
  (e = CFinalizeOptimisticRoot ∧ optimisticMode s = true ∧
     latestStateRoot s' = pendingStateRoot s ∧ pendingStateRoot s' = 0 ∧
     pendingTimestamp s + challengePeriod s ≤ block_timestamp c).
Proof. intros H%enter_estep Hne. destruct H; try done; cbn in *; [left|right]; eauto 15. Qed.

(** Sequencer, verifiers, data-availability providers, mode and challenge
    period change only in calls of the owner, and a frozen bridge is unfrozen
    only by the owner. *)
Theorem configuration_owned c e s s' ev :
  enter c e s = inr (tt, s', ev) → msg_sender c ≠ owner c →
  sequencer s' = sequencer s ∧ verifiers s' = verifiers s ∧ daProviders s' = daProviders s ∧
  daEnabled s' = daEnabled s ∧ optimisticMode s' = optimisticMode s ∧
  challengePeriod s' = challengePeriod s ∧ (isFrozen s = true → isFrozen s' = true).
Proof.
  intros H%enter_estep Hne. destruct H; unfold from_owner in *; destruct_and?; try done; cbn;
    split_and!; try done; by destruct (isFrozen s).
Qed.

(** An enabled provider cannot be replaced: a call that succeeds leaves its
    address as it is, so it has to be disabled first. *)
Theorem enabled_provider_kept c e s s' ev i :
  enter c e s = inr (tt, s', ev) → (daProviders s)@[i] ≠ 0 → (daEnabled s)?[i] = true →
  (daProviders s')@[i] = (daProviders s)@[i].
Proof.
  intros H%enter_estep Hp He. destruct H as [| | | | |j p b ? Hg| | | | | | |]; try done. cbn.
  destruct (decide (i = j)) as [->|]; [|by rewrite lookup_insert_ne]. rewrite lookup_insert_eq.
  cbn. destruct Hg as [|[|]]; congruence.
Qed.

(** ** What a proof is about *)

Lemma halves z : 0 ≤ z → z = Z.land z (2 ^ 128 - 1) + 2 ^ 128 * Z.shiftr z 128.
Proof.
  intros Hz. change (2 ^ 128 - 1) with (Z.ones 128). rewrite Z.land_ones, Z.shiftr_div_pow2 by lia.
  pose proof (Z.div_mod z (2 ^ 128)). lia.
Qed.

(** The public inputs bind the proof to one transition and one commitment:
    equal inputs mean equal roots and equal commitments.  The halves of a
    32-byte commitment are scalars of BN254, so splitting it never makes a
    Groth16 verifier refuse a batch. *)
Theorem public_inputs_binding o n cm o' n' cm' :
  0 ≤ cm < 2 ^ 256 → 0 ≤ cm' < 2 ^ 256 →
  (public_inputs o n cm = public_inputs o' n' cm' → o = o' ∧ n = n' ∧ cm = cm') ∧
  Forall (λ x, 0 ≤ x < SNARK_SCALAR_FIELD) (drop 2 (public_inputs o n cm)).
Proof.
  intros Hc Hc'. split.
  - intros [= -> -> H1 H2]. split_and!; [done..|]. rewrite (halves cm), (halves cm') by lia.
    unfold Z.sub in *. cbn in *. by rewrite H1, H2.
  - cbn [drop public_inputs]. change (2 ^ 128 - 1) with (Z.ones 128).
    rewrite Z.land_ones, Z.shiftr_div_pow2 by lia.
    pose proof (Z.mod_pos_bound cm (2 ^ 128) ltac:(lia)).
    pose proof (Z.div_pos cm (2 ^ 128) ltac:(lia) ltac:(lia)).
    pose proof (Z.div_lt_upper_bound cm (2 ^ 128) (2 ^ 128) ltac:(lia) ltac:(lia)).
    assert (2 ^ 128 < SNARK_SCALAR_FIELD) by done.
    repeat constructor; lia.
Qed.

(** When verifier 0 is the Groth16 verifier, a batch committed in validity
    mode has its old and its new root in the scalar field.  So a bridge whose
    genesis root is outside the field never takes a Groth16 batch. *)
Theorem groth16_roots_in_field c d bd dm r p s s' ev :
  verifier_at c ((verifiers s)@[0]) = Groth16Verifier → optimisticMode s = false →
  commitBatch c d 0 bd dm r p s = inr (tt, s', ev) →
  latestStateRoot s < SNARK_SCALAR_FIELD ∧ r < SNARK_SCALAR_FIELD.
Proof.
  intros Hv Ho H%commitBatch_refines.
  inversion H as [| | | | | | | | | |?????? cm m _ Ha Hp|?????? cm m Ho' Ha|]; subst; [|congruence].
  unfold proof_accepted in Hp. rewrite Hv in Hp. cbn -[public_inputs Groth16_verifyProof] in Hp.
  apply Groth16_inputs_in_field in Hp; [|done].
  apply Forall_cons in Hp as [? Hp]. by apply Forall_cons in Hp as [? _].
Qed.

(** The Groth16 verifier reads the ordinate of A modulo the base field: A
    with ordinate [y] and with [y + q] are both accepted or both refused, so an
    accepted proof has a second accepted encoding. *)
Theorem groth16_proof_malleable vk x y b pc input :
  0 < y →
  Groth16_verifyProof vk (x, y + PRIME_Q) b pc input = Groth16_verifyProof vk (x, y) b pc input.
Proof. intros Hy. unfold Groth16_verifyProof. by rewrite Pairing_negate_shift. Qed.

(** ** Forced inclusion and freezing *)

(** [commitBatch] never freezes the bridge.  Past the deadline of the oldest
    forced transaction a permitted call writes [isFrozen], then reverts with
    [BridgeFrozenError], so the write is lost and the storage is the one before
    the call; the only function that can set the flag is [freeze]. *)
Theorem commitBatch_cannot_freeze c d v bd dm r p s :
  msg_value c = 0 → isFrozen s = false → sequencer s = 0 ∨ msg_sender c = sequencer s →
  deadline_missed c s = true →
  commitBatch c d v bd dm r p s = inl BridgeFrozenError ∧
  history [(c, Enter (CCommitBatch d v bd dm r p))] s = (s, []) ∧
  (∀ c' e s' ev, enter c' e s = inr (tt, s', ev) → isFrozen s' = true → e = CFreeze).
Proof.
  intros Hv Hf Hs Hd.
  assert (E : commitBatch c d v bd dm r p s = inl BridgeFrozenError).
  { unfold commitBatch. eapply Tx_bind_inr; [by apply nonpayable_inv|].
    eapply Tx_bind_inr; [by apply requireSequencer_inv|]. apply Tx_bind_inl.
    unfold censorship_check. by apply (Tx_bind_inr _ _ s true s []); [apply get_inv|]. }
  split_and!; [done|by cbn [history transact enter]; rewrite E|].
  intros c' e s' ev H%enter_estep Hf'. destruct H; try done; cbn in Hf'; congruence.
Qed.

(** C28: Once the deadline of the forced transaction at the head of the queue has
    passed, no batch is ever recorded again: the head never moves, so whatever
    is called, unfreezing included, the ledger stays as it is, unless the same
    transaction is forced again. *)
Theorem missed_deadline_stops_batches l h s :
  forcedTxQueue s !! forcedHead s = Some h →
  Forall (λ ce, (forcedTxTimestamps s)@[h] < block_number ce.1 ∧ ce.2 ≠ CForceTransaction h) (entries l) →
  nextBatchId (history l s).1 = nextBatchId s ∧ batchNewRoot (history l s).1 = batchNewRoot s ∧
  batchCommitment (history l s).1 = batchCommitment s.
Proof.
  intros Hh Hl. set (dl := (forcedTxTimestamps s)@[h]) in *.
  apply (history_entries_ind (λ s',
      (nextBatchId s' = nextBatchId s ∧ batchNewRoot s' = batchNewRoot s ∧
       batchCommitment s' = batchCommitment s) ∧
      forcedTxQueue s' !! forcedHead s' = Some h ∧ (forcedTxTimestamps s')@[h] = dl)
    (λ c e, dl < block_number c ∧ e ≠ CForceTransaction h)); [|done..].
  intros c e s1 s2 ev [Hb He] (Hn & Hq & Ht) H.
  assert (Hm : deadline_missed c s1 = true).
  { unfold deadline_missed. rewrite Hq, Ht. by apply Z.ltb_lt. }
  destruct H as [| | | | | | | | |h'|????????? Ha|????????? Ha|]; try done; cbn.
  - split_and!; [by destruct_and?..|by apply lookup_app_l_Some|].
    rewrite lookup_insert_ne by congruence. done.
  - apply adm_censorship in Ha. congruence.
  - apply adm_censorship in Ha. congruence.
Qed.

(** Forcing the transaction at the head of the queue once more, which
    anybody can do, moves its deadline: the censorship check passes again, and
    [freeze] is refused, for another [forcedInclusionDelay] blocks. *)
Theorem reforcing_moves_deadline c c' h s s' ev :
  forcedTxQueue s !! forcedHead s = Some h →
  forceTransaction c h s = inr (tt, s', ev) →
  block_number c' ≤ block_number c + forcedInclusionDelay s →
  deadline_missed c' s' = false ∧ ∀ r, freeze c' s' ≠ inr r.
Proof.
  intros Hh Hf Hb. apply (enter_sound c s (CForceTransaction h)) in Hf.
  inversion Hf as [| | | | | | | | |? ??? d| | |]; subst.
  assert (Hm : deadline_missed c'
    (set_forcedTxQueue (forcedTxQueue s ++ [h])
      (set_forcedTxTimestamps (<[h := d]> (forcedTxTimestamps s)) s)) = false).
  { unfold deadline_missed. cbn. rewrite (lookup_app_l_Some _ _ _ _ Hh), lookup_insert_eq.
    cbn. subst d. by apply Z.ltb_ge. }
  split; [done|]. intros [[[] s2] ev2] Hfr. apply (enter_sound c' _ CFreeze) in Hfr.
  inversion Hfr. congruence.
Qed.

(** ** Optimistic mode *)

(** An optimistic batch becomes the state root: committed at time [t] with
    root [r], it leaves the state root alone, and from [t + challengePeriod] on
    [finalizeOptimisticRoot] succeeds for anybody and makes [r] the state root. *)
Theorem optimistic_batch_finalizes c d v bd dm r p s s' ev c' :
  optimisticMode s = true → commitBatch c d v bd dm r p s = inr (tt, s', ev) →
  msg_value c' = 0 → block_timestamp c + challengePeriod s ≤ uint256_max →
  block_timestamp c + challengePeriod s ≤ block_timestamp c' →
  latestStateRoot s' = latestStateRoot s ∧
  ∃ s'', finalizeOptimisticRoot c' s' = inr (tt, s'', [OptimisticRootFinalized r]) ∧
    latestStateRoot s'' = r ∧ nextBatchId s'' = nextBatchId s + 1 ∧
    batchNewRoot s'' !! nextBatchId s = Some r.
Proof.
  intros Ho H%commitBatch_refines Hv Hmax Ht.
  inversion H as [| | | | | | | | | |?????? cm m Ho' Ha Hp|?????? cm m Ho' Ha|]; subst; [congruence|].
  split; [done|]. eexists. split.
  - apply (enter_complete c' _ CFinalizeOptimisticRoot). apply (E_finalize c'); try done.
    apply (adm_root _ _ _ _ _ _ _ _ _ _ Ha).
  - cbn. by rewrite lookup_insert_eq.
Qed.

End safety.

(** ** The hypotheses hold: concrete runs *)

Definition after (r : sol_error + (unit * bridge * list event)) (s : bridge) : bridge :=
  match r with inr (_, s', _) => s' | inl _ => s end.
Definition logs (r : sol_error + (unit * bridge * list event)) : list event :=
  match r with inr (_, _, ev) => ev | inl _ => [] end.

(** A bridge with genesis root 7, a delay of 10 blocks, the calldata provider,
    and the verifier at [v]; [mode] is optimistic or not. *)
Definition sample_bridge (v : Z) (optimistic : bool) : bridge :=
  (@history model_evm
    [(model_ctx 0 1 1000, Enter (CSetDAProvider 0 100 true));
     (model_ctx 0 1 1000, Enter (CSetOptimisticMode optimistic))]
    (new_ZKRollupBridge v 7 10)).1.

(** Block 20: transaction 77, forced in block 5, is late. *)
Definition censored_bridge : bridge :=
  (@history model_evm [(model_ctx 0 5 1050, Enter (CForceTransaction 77))]
     (sample_bridge 200 false)).1.

Definition sample_commit (c : ctx) (s : bridge) :=
  commitBatch c 0 0 [x01] [] 9 zero_proof s.

Lemma withdrawal_preimage_witness :
  5 = 2 + 3 ∧ 6 = 2 * 3 ∧ 7 = 10 - 3.
Proof. apply withdrawal_preimage_binding; [lia..|]. vm_compute. reflexivity. Defined.

Lemma state_root_witness :
  ∃ d v bd dm p cm m, CCommitBatch 0 0 [x01] [] 9 zero_proof = CCommitBatch d v bd dm 9 p ∧
    optimisticMode (sample_bridge 200 false) = false ∧
    admissible (model_ctx 0 20 2000) d v bd dm p 9 cm m (sample_bridge 200 false) ∧
    proof_accepted (model_ctx 0 20 2000) v p 9 cm (sample_bridge 200 false).
Proof.
  destruct (state_root_authorised (model_ctx 0 20 2000)
    (CCommitBatch 0 0 [x01] [] 9 zero_proof) (sample_bridge 200 false)
    (after (sample_commit (model_ctx 0 20 2000) (sample_bridge 200 false)) (sample_bridge 200 false))
    (logs (sample_commit (model_ctx 0 20 2000) (sample_bridge 200 false)))) as [H|H].
  - vm_compute. reflexivity.
  - vm_compute. discriminate.
  - exact H.
  - destruct H as [H _]. discriminate H.
Defined.

Lemma configuration_witness :
  isFrozen (set_isFrozen true censored_bridge) = true ∧
  sequencer (set_isFrozen true censored_bridge) = sequencer censored_bridge.
Proof.
  set (c := mkCtx 2 0 20 2000 1 (λ _, no_provider) (λ _, no_verifier) (λ _ _ _, true)).
  destruct (configuration_owned c CFreeze censored_bridge (set_isFrozen true censored_bridge)
    [BridgeFrozen "Censorship proven via freeze()"]) as (H & _).
  - vm_compute. reflexivity.
  - vm_compute. discriminate.
  - split; [reflexivity|exact H].
Defined.

Lemma enabled_provider_witness :
  (daProviders (after (setDAProvider (model_ctx 0 2 1000) 0 100 false (sample_bridge 200 false))
    (sample_bridge 200 false)))@[0] = 100.
Proof.
  rewrite (enabled_provider_kept (model_ctx 0 2 1000) (CSetDAProvider 0 100 false)
    (sample_bridge 200 false)
    (after (setDAProvider (model_ctx 0 2 1000) 0 100 false (sample_bridge 200 false))
      (sample_bridge 200 false))
    [DAProviderSet 0 100 false] 0).
  - vm_compute. reflexivity.
  - vm_compute. reflexivity.
  - vm_compute. discriminate.
  - vm_compute. reflexivity.
Defined.

Lemma public_inputs_witness :
  (public_inputs 7 9 (2 ^ 200 + 5) = public_inputs 7 9 (2 ^ 201 - 2 ^ 200 + 5) →
   7 = 7 ∧ 9 = 9 ∧ 2 ^ 200 + 5 = 2 ^ 201 - 2 ^ 200 + 5) ∧
  Forall (λ x, 0 ≤ x < SNARK_SCALAR_FIELD) (drop 2 (public_inputs 7 9 (2 ^ 200 + 5))).
Proof. apply public_inputs_binding; lia. Defined.

Lemma groth16_roots_witness :
  latestStateRoot (sample_bridge 201 false) < SNARK_SCALAR_FIELD ∧ 9 < SNARK_SCALAR_FIELD.
Proof.
  apply (@groth16_roots_in_field model_evm (model_ctx 0 20 2000) 0 [x01] [] 9 zero_proof
    (sample_bridge 201 false)
    (after (sample_commit (model_ctx 0 20 2000) (sample_bridge 201 false)) (sample_bridge 201 false))
    (logs (sample_commit (model_ctx 0 20 2000) (sample_bridge 201 false)))).
  - reflexivity.
  - vm_compute. reflexivity.
  - vm_compute. reflexivity.
Defined.

Lemma groth16_malleable_witness :
  @Groth16_verifyProof model_evm Groth16Verifier_verifyingKey (1, 2 + PRIME_Q) ((0, 0), (0, 0)) (1, 2)
    [1; 2; 3; 4] = Some true.
Proof.
  rewrite (@groth16_proof_malleable model_evm Groth16Verifier_verifyingKey 1 2); [|lia].
  vm_compute. reflexivity.
Defined.

Lemma commitBatch_cannot_freeze_witness :
  sample_commit (model_ctx 0 20 2000) censored_bridge = inl BridgeFrozenError.
Proof.
  apply (@commitBatch_cannot_freeze model_evm (model_ctx 0 20 2000) 0 0 [x01] [] 9 zero_proof censored_bridge).
  - reflexivity.
  - vm_compute. reflexivity.
  - left. vm_compute. reflexivity.
  - vm_compute. reflexivity.
Defined.

(** Freezing, unfreezing and committing past the deadline records nothing. *)
Lemma missed_deadline_witness :
  nextBatchId (@history model_evm
    [(model_ctx 0 20 2000, Enter CFreeze); (model_ctx 0 21 2000, Enter CUnfreeze);
     (model_ctx 0 22 2000, Enter (CCommitBatch 0 0 [x01] [] 9 zero_proof))] censored_bridge).1 =
  nextBatchId censored_bridge.
Proof.
  apply (@missed_deadline_stops_batches model_evm _ 77).
  - vm_compute. reflexivity.
  - repeat constructor; vm_compute; (reflexivity || discriminate).
Defined.

Lemma reforcing_witness :
  deadline_missed (model_ctx 0 30 3000)
    (after (forceTransaction (model_ctx 0 20 2000) 77 censored_bridge) censored_bridge) = false.
Proof.
  apply (reforcing_moves_deadline (model_ctx 0 20 2000) (model_ctx 0 30 3000) 77 censored_bridge
    (after (forceTransaction (model_ctx 0 20 2000) 77 censored_bridge) censored_bridge)
    (logs (forceTransaction (model_ctx 0 20 2000) 77 censored_bridge))).
  - vm_compute. reflexivity.
  - vm_compute. reflexivity.
  - vm_compute. discriminate.
Defined.

Lemma optimistic_witness :
  latestStateRoot (after (sample_commit (model_ctx 0 20 2000) (sample_bridge 200 true))
    (sample_bridge 200 true)) = 7.
Proof.
  apply (optimistic_batch_finalizes (model_ctx 0 20 2000) 0 0 [x01] [] 9 zero_proof
    (sample_bridge 200 true)
    (after (sample_commit (model_ctx 0 20 2000) (sample_bridge 200 true)) (sample_bridge 200 true))
    (logs (sample_commit (model_ctx 0 20 2000) (sample_bridge 200 true)))
    (model_ctx 0 30 700000)).
  - vm_compute. reflexivity.
  - vm_compute. reflexivity.
  - reflexivity.
  - vm_compute. discriminate.
  - vm_compute. discriminate.
Defined.
