(* ===== verification/RollupNode.v ===== *)
(** * The node and the file system the rollup scripts run on

    The scripts of [src/contracts/scripts] run under Hardhat: they deploy the
    contracts of [RollupContracts] and [Bridge], call them, and read and write
    JSON files.  A script is a computation [Script A] over a [net]: the accounts
    of the chain, the files, the environment and the console.

    Address text, contract-creation addresses and random bytes come from the
    class [Hardhat], whose documented behaviour is [HardhatLaws].  A transaction
    is mined in a block of its own, and one that reverts makes the call throw.
    A file holds text, or the text [JSON.stringify] gives for a value, which
    [JSON.parse] reads back; the directories written to exist. *)

From stdpp Require Import base list option gmap strings pretty.
From Stdlib Require Import ZArith Lia Ascii Strings.Byte.
From S2P Require Import Prelude Js RollupContracts Bridge.

(** ** Library interface *)

Class Hardhat : Type := {
  (** [ethers.getAddress]: the checksummed text of a 20-byte address. *)
  checksum : Z → string;
  isAddress : string → bool;
  (** The address a text accepted by [isAddress] stands for. *)
  address_value : string → Z;
  (** Address of the contract created by the deployer's [n]-th transaction. *)
  create_address : nat → Z;
  (** The [n]-th call of [ethers.randomBytes(32)]. *)
  random_bytes32 : nat → Z;
  (** The directory of the scripts. *)
  __dirname : string;
}.

Class HardhatLaws `{Hardhat} : Prop := {
  (** "0x" and forty digits *)
  checksum_hex a : hex_regex 40 (Some (checksum a)) = true;
  isAddress_checksum a : isAddress (checksum a) = true;
  address_value_checksum a : 0 ≤ a < 2 ^ 160 → address_value (checksum a) = a;
  (** Nonces have 64 bits. *)
  create_address_range n : Z.of_nat n < 2 ^ 64 → 0 < create_address n < 2 ^ 160;
  create_address_inj n m : Z.of_nat n < 2 ^ 64 → Z.of_nat m < 2 ^ 64 →
    create_address n = create_address m → n = m;
}.

(** ** Text *)

(** A 32-byte word as ethers shows it. *)
Definition bytes32_text (z : Z) : string := "0x" +:+ hex_digits (be_enc 32 z).

Definition ZeroHash : string := bytes32_text 0.

(** [BigInt(s)]; [None] is a SyntaxError. *)
Definition trim (s : string) : string := String.rev (trim_start (String.rev (trim_start s))).
Definition js_BigInt (s : string) : option Z :=
  match trim s with
  | EmptyString => Some 0
  | String "0" (String "x" d) =>
      if str_forallb is_hex_digit d then digits_prefix is_hex_digit 16 None d else None
  | String "-" d => if str_forallb is_digit d then Z.opp <$> digits_prefix is_digit 10 None d else None
  | d => if str_forallb is_digit d then digits_prefix is_digit 10 None d else None
  end.

(** *** Paths *)

Fixpoint normalize (acc : list string) (segments : list string) : list string :=
  match segments with
  | [] => reverse acc
  | w :: l =>
      if String.eqb w EmptyString || String.eqb w "." then normalize acc l
      else if String.eqb w ".." then normalize (tail acc) l
      else normalize (w :: acc) l
  end.
Definition absolute (p : string) : string := "/" +:+ js_join "/" (normalize [] (js_split "/" p)).

(** [path.resolve(p)] with the working directory, [path.join(dir, p)] for an
    absolute [dir], [path.basename(p)] and [path.basename(p, ext)]. *)
Definition path_resolve (cwd p : string) : string :=
  match p with
  | String "/" _ => absolute p
  | _ => absolute (cwd +:+ "/" +:+ p)
  end.
Definition path_join (dir p : string) : string := absolute (dir +:+ "/" +:+ p).
Definition basename (p : string) : string := default EmptyString (last (js_split "/" p)).
Definition basename_ext (p ext : string) : string :=
  let b := basename p in
  let k := (String.length b - String.length ext)%nat in
  if String.eqb (js_slice k b) ext && negb (String.eqb b ext) then String.substring 0 k b else b.

(** *** Values *)

(** [v.k], where [v] is an object. *)
Definition prop (k : string) (v : val) : val :=
  match v with
  | VObj l => default VUndef (snd ∘ snd <$> list_find (λ kv : string * val, kv.1 = k) l)
  | _ => VUndef
  end.

Definition truthy (v : val) : bool :=
  match v with
  | VUndef | VBool false | VNum 0 | VStr EmptyString => false
  | _ => true
  end.

(** [a || b] *)
Definition js_or (a b : val) : val := if truthy a then a else b.

(** [process.env.X || d] *)
Definition env_or (o : option string) (d : string) : string :=
  if str_truthy o then default d o else d.

(** ** The node *)

(** What is at an address.  The bridge comes with [Ownable.owner()]. *)
Inductive account : Type :=
| ABridge (own : Z) (b : bridge)
| AMockVerifier (m : mock_verifier)
| AGroth16Verifier
| APlonky2Verifier
| AHalo2Verifier
| ACalldataDA
| ABlobDA
| ATestBlobDA (mockBlobHashes : gmap Z Z)
| AOffChainDA
| ABaselineToken.

Inductive file : Type :=
| JsonText (v : val)
| Text (s : string).

Record net : Type := mkNet {
  n_chainId : Z;
  n_name : string;
  n_deployer : Z;
  n_nonce : nat;
  n_block : Z;
  n_time : Z;
  n_accounts : gmap Z account;
  n_files : gmap string file;
  n_dirs : list string;
  n_env : gmap string string;
  n_cwd : string;
  n_random : nat;
  n_out : list file;
}.

Definition set_accounts (a : gmap Z account) (n : net) : net :=
  mkNet (n_chainId n) (n_name n) (n_deployer n) (S (n_nonce n)) (n_block n + 1) (n_time n) a
    (n_files n) (n_dirs n) (n_env n) (n_cwd n) (n_random n) (n_out n).
Definition set_files (f : gmap string file) (n : net) : net :=
  mkNet (n_chainId n) (n_name n) (n_deployer n) (n_nonce n) (n_block n) (n_time n) (n_accounts n)
    f (n_dirs n) (n_env n) (n_cwd n) (n_random n) (n_out n).
Definition set_out (o : list file) (n : net) : net :=
  mkNet (n_chainId n) (n_name n) (n_deployer n) (n_nonce n) (n_block n) (n_time n) (n_accounts n)
    (n_files n) (n_dirs n) (n_env n) (n_cwd n) (n_random n) o.
Definition set_env (e : gmap string string) (n : net) : net :=
  mkNet (n_chainId n) (n_name n) (n_deployer n) (n_nonce n) (n_block n) (n_time n) (n_accounts n)
    (n_files n) (n_dirs n) e (n_cwd n) (n_random n) (n_out n).
Definition set_randoms (r : nat) (n : net) : net :=
  mkNet (n_chainId n) (n_name n) (n_deployer n) (n_nonce n) (n_block n) (n_time n) (n_accounts n)
    (n_files n) (n_dirs n) (n_env n) (n_cwd n) r (n_out n).

Definition Script (A : Type) : Type := net → outcome A * net.

#[export] Instance Script_ret : MRet Script := λ A a n, (Done a, n).
#[export] Instance Script_bind : MBind Script := λ A B k m n,
  match m n with
  | (Done a, n') => k a n'
  | (Throw e, n') => (Throw e, n')
  | (Hang, n') => (Hang, n')
  end.

Definition fail {A} (e : js_error) : Script A := λ n, (Throw e, n).
Definition read {A} (f : net → A) : Script A := λ n, (Done (f n), n).
Definition env (name : string) : Script (option string) := read (λ n, n_env n !! name).
(** [console.log] of a line, and of the JSON text of a value. *)
Definition print (line : string) : Script unit := λ n,
  (Done tt, set_out (n_out n ++ [Text line]) n).
Definition print_json (v : val) : Script unit := λ n,
  (Done tt, set_out (n_out n ++ [JsonText v]) n).
(** [if (b) throw e;] *)
Definition fail_if (b : bool) (e : js_error) : Script unit := if b then fail e else mret tt.

Fixpoint each {A} (l : list A) (f : A → Script unit) : Script unit :=
  match l with
  | [] => mret tt
  | x :: l' => f x;; each l' f
  end.

(** *** Files *)

Definition existsSync (p : string) : Script bool :=
  read (λ n, bool_decide (is_Some (n_files n !! p)) || bool_decide (p ∈ n_dirs n)).

Definition ENOENT : js_error := JsError "ENOENT: no such file or directory".
Definition readFileSync (p : string) : Script file := λ n,
  match n_files n !! p with Some f => (Done f, n) | None => (Throw ENOENT, n) end.
Definition writeFileSync (p : string) (f : file) : Script unit := λ n,
  (Done tt, set_files (<[p := f]> (n_files n)) n).
(** [JSON.parse] of a file's text: other text than JSON is a SyntaxError. *)
Definition JSON_parse (f : file) : Script val :=
  match f with JsonText v => mret v | Text _ => fail (JsError "SyntaxError") end.

(** *** Contracts *)

Section node.
Context {evm : Evm} {hh : Hardhat}.

(** The scripts send transactions without blobs. *)
Definition provider_of (o : option account) : IDAProvider :=
  match o with
  | Some ACalldataDA => CalldataDA
  | Some ABlobDA => BlobDA (λ _, 0)
  | Some (ATestBlobDA m) => TestBlobDA m (λ _, 0)
  | Some AOffChainDA => OffChainDA
  | _ => no_provider
  end.
Definition verifier_of (o : option account) : IVerifier :=
  match o with
  | Some (AMockVerifier m) => MockVerifier m
  | Some AGroth16Verifier => Groth16Verifier
  | Some APlonky2Verifier => Plonky2Verifier
  | Some AHalo2Verifier => Halo2Verifier
  | _ => no_verifier
  end.

(** The environment of a transaction of the deployer. *)
Definition tx_ctx (own : Z) (n : net) : ctx := {|
  msg_sender := n_deployer n;
  msg_wei := 0;
  block_number := n_block n + 1;
  block_timestamp := n_time n;
  owner := own;
  provider_at := λ a, provider_of (n_accounts n !! a);
  verifier_at := λ a, verifier_of (n_accounts n !! a);
  erc20_ok := λ _ _ _, false;
|}.

(** [factory.deploy(...)], [waitForDeployment()], [getAddress()] *)
Definition deploy (a : account) : Script Z := λ n,
  let addr := create_address (n_nonce n) in
  (Done addr, set_accounts (<[addr := a]> (n_accounts n)) n).

Definition CALL_EXCEPTION : js_error := EthersError "CALL_EXCEPTION".
Definition BAD_DATA : js_error := EthersError "BAD_DATA".

(** [await (await bridge.f(...)).wait()]; a call to an address that is not a
    contract does nothing. *)
Definition bridge_tx (addr : Z) (e : entry) : Script unit := λ n,
  match n_accounts n !! addr with
  | Some (ABridge own b) =>
      match enter (tx_ctx own n) e b with
      | inr (_, b', _) => (Done tt, set_accounts (<[addr := ABridge own b']> (n_accounts n)) n)
      | inl _ => (Throw CALL_EXCEPTION, n)
      end
  | Some _ => (Throw CALL_EXCEPTION, n)
  | None => (Done tt, set_accounts (n_accounts n) n)
  end.

Definition mock_blob_tx (addr index hash : Z) : Script unit := λ n,
  match n_accounts n !! addr with
  | Some (ATestBlobDA m) =>
      (Done tt, set_accounts (<[addr := ATestBlobDA (setMockBlobHash index hash m)]> (n_accounts n)) n)
  | Some _ => (Throw CALL_EXCEPTION, n)
  | None => (Done tt, set_accounts (n_accounts n) n)
  end.

(** A view function of the bridge; where there is no code the empty answer
    cannot be decoded. *)
Definition bridge_view {A} (addr : Z) (f : bridge → A) : Script A := λ n,
  match n_accounts n !! addr with
  | Some (ABridge _ b) => (Done (f b), n)
  | Some _ => (Throw CALL_EXCEPTION, n)
  | None => (Throw BAD_DATA, n)
  end.

Definition has_code (addr : Z) : Script bool := read (λ n, bool_decide (is_Some (n_accounts n !! addr))).

Definition randomBytes32 : Script Z := λ n,
  (Done (random_bytes32 (n_random n)), set_randoms (S (n_random n)) n).

End node.
