(* ===== verification/RollupScripts.v ===== *)
(** * The rollup scripts of [src/contracts/scripts]

    [deploy-local], [deploy-test-net], [generate-mock-batch], [verify-runtime],
    [verify-state], [export-abis], [deploy_baseline_temp] and [tmp_setup_da], one
    definition per script, on the node of [RollupNode].  The theorems follow the
    files from one script to the next: what [deploy-local] writes is what
    [verify-runtime] accepts, before and after a batch; what [deploy-test-net]
    writes is not; [verify-state] cannot succeed. *)

From stdpp Require Import base list option gmap strings pretty.
From Stdlib Require Import ZArith Lia Ascii Strings.Byte.
From S2P Require Import Prelude Js RollupContracts Bridge BridgeProofs RollupNode.

Section scripts.
Context {evm : Evm} {hh : Hardhat}.

(** ** deploy-local.ts *)

Definition localMockBlobHash : string :=
  "0x0100000000000000000000000000000000000000000000000000000000000000".
Definition localMockBlobHash_value : Z := 2 ^ 248.

Definition default_deployment : string := "deployments/hardhat-local.json".

(** The object [deployment]. *)
Definition local_deployment (network_name : string) (chainId deployer bridge mockVerifier calldataDA
    testBlobDA offchainDA : Z) (genesisRoot : string) : val :=
  VObj [
    ("network", VStr network_name);
    ("chainId", VNum chainId);
    ("deployer", VStr (checksum deployer));
    ("bridge", VStr (checksum bridge));
    ("verifier", VStr (checksum mockVerifier));
    ("mockVerifier", VStr (checksum mockVerifier));
    ("calldataDA", VStr (checksum calldataDA));
    ("blobDA", VStr (checksum testBlobDA));
    ("testBlobDA", VStr (checksum testBlobDA));
    ("offchainDA", VStr (checksum offchainDA));
    ("genesisRoot", VStr genesisRoot);
    ("daProviders", VObj [
      ("calldata", VObj [("id", VNum 0); ("address", VStr (checksum calldataDA))]);
      ("blob", VObj [("id", VNum 1); ("address", VStr (checksum testBlobDA))]);
      ("offchain", VObj [("id", VNum 2); ("address", VStr (checksum offchainDA))])]);
    ("mock_verifier", VStr (checksum mockVerifier));
    ("calldata_da", VStr (checksum calldataDA));
    ("test_blob_da", VStr (checksum testBlobDA));
    ("offchain_da", VStr (checksum offchainDA));
    ("genesis_root", VStr genesisRoot);
    ("local_mock_blob_hash", VStr localMockBlobHash)].

Definition deploy_local : Script unit :=
  deployer ← read n_deployer;
  network_name ← read n_name;
  chainId ← read n_chainId;
  let genesisRoot := ZeroHash in
  mockVerifier ← deploy (AMockVerifier new_MockVerifier);
  bridge ← deploy (ABridge deployer (new_ZKRollupBridge mockVerifier 0 0));
  calldataDA ← deploy ACalldataDA;
  testBlobDA ← deploy (ATestBlobDA ∅);
  mock_blob_tx testBlobDA 0 localMockBlobHash_value;;
  offchainDA ← deploy AOffChainDA;
  bridge_tx bridge (CSetDAProvider 0 calldataDA true);;
  bridge_tx bridge (CSetDAProvider 1 testBlobDA true);;
  bridge_tx bridge (CSetDAProvider 2 offchainDA true);;
  let deployment := local_deployment network_name chainId deployer bridge mockVerifier calldataDA
    testBlobDA offchainDA genesisRoot in
  out ← env "DEPLOYMENT_OUT";
  cwd ← read n_cwd;
  let outFile := path_resolve cwd (env_or out default_deployment) in
  writeFileSync outFile (JsonText deployment);;
  print ("MockVerifier: " +:+ checksum mockVerifier);;
  print ("CalldataDA: " +:+ checksum calldataDA);;
  print ("TestBlobDA: " +:+ checksum testBlobDA);;
  print ("OffChainDA: " +:+ checksum offchainDA);;
  print ("ZKRollupBridge: " +:+ checksum bridge);;
  print ("GenesisRoot: " +:+ genesisRoot);;
  print ("DeploymentOut: " +:+ outFile).

(** ** deploy-test-net.ts *)

(** A [bytes32] argument and a [uint256] argument given as text. *)
Definition INVALID_ARGUMENT : js_error := EthersError "INVALID_ARGUMENT".
Definition bytes32_arg (s : string) : Script Z :=
  match parse_hex s with
  | Some b => if (length b =? 32)%nat then mret (be_val b) else fail INVALID_ARGUMENT
  | None => fail INVALID_ARGUMENT
  end.
Definition uint256_arg (s : string) : Script Z :=
  match js_BigInt s with
  | Some z => if (0 <=? z) && (z <=? uint256_max) then mret z else fail INVALID_ARGUMENT
  | None => fail INVALID_ARGUMENT
  end.

(** Step 1: the verifier the environment asks for. *)
Definition deploy_verifier (use_mock : bool) : Script Z :=
  if use_mock then
    print "Using MockVerifier for simulation...";;
    a ← deploy (AMockVerifier new_MockVerifier);
    print ("MockVerifier deployed to: " +:+ checksum a);;
    mret a
  else
    a ← deploy AGroth16Verifier;
    print ("Groth16Verifier deployed to: " +:+ checksum a);;
    mret a.

Definition deploy_named (name : string) (a : account) : Script Z :=
  addr ← deploy a;
  print (name +:+ " deployed to: " +:+ checksum addr);;
  mret addr.

(** The object [deployments]. *)
Definition testnet_deployments (verifier calldataDA blobDA testBlobDA bridge : Z)
    (genesisRoot forceInclusionDelay : string) : val :=
  VObj [
    ("RealVerifier", VStr (checksum verifier));
    ("CalldataDA", VStr (checksum calldataDA));
    ("BlobDA", VStr (checksum blobDA));
    ("TestBlobDA", VStr (checksum testBlobDA));
    ("ZKRollupBridge", VStr (checksum bridge));
    ("Config", VObj [
      ("GenesisRoot", VStr genesisRoot);
      ("ForceInclusionDelay", VStr forceInclusionDelay)])].

Definition deployments_path : string := path_join __dirname "../../deployments.json".

Definition deploy_test_net : Script unit :=
  deployer ← read n_deployer;
  print ("Deploying contracts with the account: " +:+ checksum deployer);;
  envRoot ← env "GENESIS_ROOT";
  envDelay ← env "FORCE_INCLUSION_DELAY";
  let genesisRoot := env_or envRoot ZeroHash in
  let forceInclusionDelay := env_or envDelay "50" in
  print "Configuration:";;
  print (" - Genesis Root: " +:+ genesisRoot);;
  print (" - Force Inclusion Delay: " +:+ forceInclusionDelay +:+ " blocks");;
  useMock ← env "USE_MOCK_VERIFIER";
  verifierAddr ← deploy_verifier (bool_decide (useMock = Some "true"));
  plonky2Addr ← deploy_named "Plonky2Verifier" APlonky2Verifier;
  halo2Addr ← deploy_named "Halo2Verifier" AHalo2Verifier;
  calldataAddr ← deploy_named "CalldataDA" ACalldataDA;
  blobAddr ← deploy_named "BlobDA" ABlobDA;
  testBlobAddr ← deploy_named "TestBlobDA" (ATestBlobDA ∅);
  root ← bytes32_arg genesisRoot;
  delay ← uint256_arg forceInclusionDelay;
  bridgeAddr ← deploy_named "ZKRollupBridge"
    (ABridge deployer (new_ZKRollupBridge verifierAddr root delay));
  bridge_tx bridgeAddr (CSetVerifier 1 plonky2Addr);;
  print "Registered Plonky2Verifier (ID 1)";;
  bridge_tx bridgeAddr (CSetVerifier 2 halo2Addr);;
  print "Registered Halo2Verifier (ID 2)";;
  bridge_tx bridgeAddr (CSetDAProvider 0 calldataAddr true);;
  print "Registered CalldataDA (ID 0)";;
  bridge_tx bridgeAddr (CSetDAProvider 1 testBlobAddr true);;
  print "Registered TestBlobDA (ID 1)";;
  writeFileSync deployments_path (JsonText
    (testnet_deployments verifierAddr calldataAddr blobAddr testBlobAddr bridgeAddr genesisRoot
       forceInclusionDelay));;
  print ("Deployments saved to " +:+ deployments_path).

(** ** verify-runtime.ts *)

(** A property shown by a template literal. *)
Definition show_prop (v : val) : string :=
  match v with VStr s => s | VNum n => pretty n | VUndef => "undefined" | _ => "[object Object]" end.

Fixpoint first_address (deployment : val) (keys : list string) : option string :=
  match keys with
  | [] => None
  | k :: keys' =>
      match prop k deployment with
      | VStr value => if isAddress value then Some value else first_address deployment keys'
      | _ => first_address deployment keys'
      end
  end.

Definition requiredAddress (deployment : val) (keys : list string) : Script string :=
  match first_address deployment keys with
  | Some value => mret value
  | None => fail (JsError ("Missing deployment address for " +:+ js_join "/" keys))
  end.

Definition requireCode (label address : string) : Script unit :=
  code ← has_code (address_value address);
  fail_if (negb code) (JsError (label +:+ " has no contract code at " +:+ address)).

(** [deployment.chainId !== undefined && deployment.chainId !== chainId] *)
Definition chainId_differs (v : val) (chainId : Z) : bool :=
  match v with
  | VUndef => false
  | VNum n => negb (n =? chainId)
  | _ => true
  end.

(** One iteration of the loop over [providerChecks]. *)
Definition check_provider (bridge : Z) (check : Z * string * string) : Script unit :=
  let '(id, label, expected) := check in
  actual ← bridge_view bridge (λ b, checksum ((daProviders b)@[id]));
  enabled ← bridge_view bridge (λ b, (daEnabled b)?[id]);
  fail_if (negb (String.eqb (toLowerCase actual) (toLowerCase expected)) || negb enabled)
    (JsError ("DA provider " +:+ label +:+ " not wired: actual=" +:+ actual +:+ ", expected=" +:+
       expected +:+ ", enabled=" +:+ (if (enabled : bool) then "true" else "false"))).

Definition SyntaxError : js_error := JsError "SyntaxError: Cannot convert to a BigInt".
Definition bigint (s : string) : Script Z :=
  match js_BigInt s with Some z => mret z | None => fail SyntaxError end.

(** [v.toLowerCase()] *)
Definition lowercase_of (v : val) : Script string :=
  match v with
  | VStr s => mret (toLowerCase s)
  | _ => fail (JsTypeError "toLowerCase is not a function")
  end.

Definition verify_runtime : Script val :=
  fileEnv ← env "DEPLOYMENT_FILE";
  cwd ← read n_cwd;
  raw ← readFileSync (path_resolve cwd (env_or fileEnv default_deployment));
  deployment ← JSON_parse raw;
  chainId ← read n_chainId;
  fail_if (chainId_differs (prop "chainId" deployment) chainId) 
    (JsError ("Chain id mismatch: deployment=" +:+ show_prop (prop "chainId" deployment) +:+
       ", provider=" +:+ pretty chainId));;
  bridgeAddress ← requiredAddress deployment ["bridge"];
  verifierAddress ← requiredAddress deployment ["verifier"; "mockVerifier"; "mock_verifier"];
  calldataDAAddress ← requiredAddress deployment ["calldataDA"; "calldata_da"];
  blobDAAddress ← requiredAddress deployment ["blobDA"; "testBlobDA"; "test_blob_da"];
  offchainDAAddress ← requiredAddress deployment ["offchainDA"; "offchain_da"];
  requireCode "ZKRollupBridge" bridgeAddress;;
  requireCode "Verifier" verifierAddress;;
  requireCode "CalldataDA" calldataDAAddress;;
  requireCode "BlobDA" blobDAAddress;;
  requireCode "OffChainDA" offchainDAAddress;;
  let bridge := address_value bridgeAddress in
  root ← bridge_view bridge (λ b, bytes32_text (latestStateRoot b));
  next ← bridge_view bridge nextBatchId;
  each [(0, "calldata", calldataDAAddress); (1, "blob", blobDAAddress);
        (2, "offchain", offchainDAAddress)] (check_provider bridge);;
  verifierOnBridge ← bridge_view bridge (λ b, checksum ((verifiers b)@[0]));
  fail_if (negb (String.eqb (toLowerCase verifierOnBridge) (toLowerCase verifierAddress)))
    (JsError ("Verifier 0 not wired: actual=" +:+ verifierOnBridge +:+ ", expected=" +:+ verifierAddress));;
  minEnv ← env "EXPECT_MIN_NEXT_BATCH_ID";
  minNext ← bigint (env_or minEnv "1");
  fail_if (next <? minNext)
    (JsError ("Expected nextBatchId >= " +:+ pretty minNext +:+ ", got " +:+ pretty next));;
  changedEnv ← env "EXPECT_STATE_ROOT_CHANGED";
  let genesisRoot := js_or (js_or (prop "genesisRoot" deployment) (prop "genesis_root" deployment))
    (VStr ZeroHash) in
  (if bool_decide (changedEnv = Some "1") then
     g ← lowercase_of genesisRoot;
     fail_if (String.eqb (toLowerCase root) g) 
       (JsError ("State root did not change from genesis " +:+ show_prop genesisRoot))
   else mret tt);;
  g ← lowercase_of genesisRoot;
  let result := VObj [
    ("chainId", VNum chainId);
    ("bridge", VStr bridgeAddress);
    ("latestStateRoot", VStr root);
    ("genesisRoot", genesisRoot);
    ("nextBatchId", VStr (pretty next));
    ("daProviders", VObj [
      ("calldata", VStr calldataDAAddress);
      ("blob", VStr blobDAAddress);
      ("offchain", VStr offchainDAAddress)]);
    ("verifier", VStr verifierAddress);
    ("stateRootChanged", VBool (negb (String.eqb (toLowerCase root) g)))] in
  outFile ← env "RUNTIME_VALIDATION_OUT";
  (if str_truthy outFile
   then writeFileSync (path_resolve cwd (default EmptyString outFile)) (JsonText result)
   else mret tt);;
  print_json result;;
  mret result.

(** ** generate-mock-batch.ts *)

Definition nl : string := String "010" EmptyString.
Definition dq : string := String "034" EmptyString.

(** The template of [local_test.yaml], around its substitutions. *)
Definition config_head : string :=
  nl +:+ "network:" +:+ nl +:+
  "  rpc_url: " +:+ dq +:+ "http://127.0.0.1:8545" +:+ dq +:+ nl +:+
  "  chain_id: 31337" +:+ nl +:+ nl +:+
  "contracts:" +:+ nl +:+
  "  bridge: " +:+ dq.
Definition config_da : string :=
  dq +:+ nl +:+ nl +:+
  "da:" +:+ nl +:+
  "  mode: " +:+ dq +:+ "blob" +:+ dq +:+ nl +:+
  "  blob_binding: " +:+ dq +:+ "mock" +:+ dq +:+
  " # We use mock binding because we don't have real blobs" +:+ nl +:+
  "  blob_index: ".
Definition config_batch : string :=
  nl +:+ nl +:+
  "batch:" +:+ nl +:+
  "  data_file: " +:+ dq +:+ "../submitter/test_data.txt" +:+ dq +:+ nl +:+
  "  ".
Definition config_hash : string := dq +:+ nl +:+ "  blob_versioned_hash: " +:+ dq.
Definition config_tail : string :=
  dq +:+ nl +:+ nl +:+
  "resilience:" +:+ nl +:+
  "  max_retries: 1" +:+ nl +:+
  "  circuit_breaker_threshold: 1" +:+ nl.

Definition submitterConfig (bridge : string) (blobIndex : Z) (newRoot blobVersionedHash : string)
    : string :=
  config_head +:+ bridge +:+ config_da +:+ pretty blobIndex +:+ config_batch +:+
  "new_root: " +:+ dq +:+ newRoot +:+ config_hash +:+ blobVersionedHash +:+ config_tail.

(** [ethers.getContractAt(name, v)] needs an address. *)
Definition contract_address (v : val) : Script Z :=
  match v with
  | VStr s => if isAddress s then mret (address_value s) else fail INVALID_ARGUMENT
  | _ => fail INVALID_ARGUMENT
  end.

Definition submitter_dir : string := path_join __dirname "../../submitter".

Definition generate_mock_batch : Script unit :=
  print "Generating Mock Batch...";;
  found ← existsSync deployments_path;
  fail_if (negb found) (JsError "Deployments not found. Run deploy-test-net.ts first.");;
  raw ← readFileSync deployments_path;
  deployments ← JSON_parse raw;
  print "Loaded deployments:";;
  print_json deployments;;
  let blobIndex := 0 in
  hash ← randomBytes32;
  root ← randomBytes32;
  let blobVersionedHash := bytes32_text hash in
  let newRoot := bytes32_text root in
  print "Generated Batch Data:";;
  print (" - Versioned Hash: " +:+ blobVersionedHash);;
  print (" - New Root: " +:+ newRoot);;
  testBlobDA ← contract_address (prop "TestBlobDA" deployments);
  mock_blob_tx testBlobDA blobIndex hash;;
  print "Registered Mock Blob Hash on-chain.";;
  dirThere ← existsSync submitter_dir;
  if (dirThere : bool) then
    writeFileSync (path_join submitter_dir "local_test.yaml")
      (Text (submitterConfig (show_prop (prop "ZKRollupBridge" deployments)) blobIndex newRoot
        blobVersionedHash));;
    writeFileSync (path_join submitter_dir "test_data.txt") (Text "Local Test Batch Data");;
    print ("Config written to " +:+ path_join submitter_dir "local_test.yaml")
  else print "Submitter directory not found at ../../submitter".

(** ** verify-state.ts *)

Definition show_bool (b : bool) : string := if b then "true" else "false".

(** The getters of the public variables that take no argument, and how ethers
    shows their value. *)
Definition bridge_getters : list (string * (bridge → string)) := [
  ("latestStateRoot", λ b, bytes32_text (latestStateRoot b));
  ("sequencer", λ b, checksum (sequencer b));
  ("nextBatchId", λ b, pretty (nextBatchId b));
  ("forcedInclusionDelay", λ b, pretty (forcedInclusionDelay b));
  ("forcedHead", λ b, pretty (forcedHead b));
  ("isFrozen", λ b, show_bool (isFrozen b));
  ("optimisticMode", λ b, show_bool (optimisticMode b));
  ("challengePeriod", λ b, pretty (challengePeriod b));
  ("pendingStateRoot", λ b, bytes32_text (pendingStateRoot b));
  ("pendingTimestamp", λ b, pretty (pendingTimestamp b))].

(** [Bridge.name()]: a contract object has the functions of its ABI, the
    getters among them; any other property is undefined. *)
Definition contract_call (addr : Z) (name : string) : Script string :=
  match list_find (λ g : string * (bridge → string), g.1 = name) bridge_getters with
  | Some (_, (_, getter)) => bridge_view addr getter
  | None => fail (JsTypeError ("Bridge." +:+ name +:+ " is not a function"))
  end.

(** [/new_root: "(0x[0-9a-fA-F]+)"/], first match, group 1. *)
Fixpoint strip_prefix (p s : string) : option string :=
  match p, s with
  | EmptyString, _ => Some s
  | String a p', String b s' => if decide (a = b) then strip_prefix p' s' else None
  | String _ _, EmptyString => None
  end.
Fixpoint hex_run (s : string) : string * string :=
  match s with
  | String c s' => if is_hex_digit c then let (d, r) := hex_run s' in (String c d, r) else (EmptyString, s)
  | EmptyString => (EmptyString, EmptyString)
  end.
Definition match_here (s : string) : option string :=
  rest ← strip_prefix ("new_root: " +:+ dq +:+ "0x") s;
  let (d, r) := hex_run rest in
  match d, r with
  | String _ _, String "034" _ => Some ("0x" +:+ d)
  | _, _ => None
  end.
Fixpoint match_new_root (s : string) : option string :=
  match match_here s with
  | Some m => Some m
  | None => match s with String _ s' => match_new_root s' | EmptyString => None end
  end.

(** The text of a file; no text of [JSON.stringify] matches the expression
    above, where the quote follows the colon directly. *)
Definition file_text (f : file) : Script string :=
  match f with Text s => mret s | JsonText _ => mret EmptyString end.

(** [process.exit(1)] ends the script as a failure. *)
Definition exit_1 : js_error := JsError "process.exit(1)".

Definition verify_state : Script unit :=
  print "Verifying On-Chain State...";;
  found ← existsSync deployments_path;
  fail_if (negb found) (JsError "Deployments not found.");;
  raw ← readFileSync deployments_path;
  deployments ← JSON_parse raw;
  addr ← contract_address (prop "ZKRollupBridge" deployments);
  nextBatchId ← contract_call addr "nextBatchId";
  stateRoot ← contract_call addr "stateRoot";
  print "Current State:";;
  print (" - Next Batch ID: " +:+ nextBatchId);;
  print (" - State Root: " +:+ stateRoot);;
  config ← readFileSync (path_join __dirname "../../submitter/local_test.yaml");
  configContent ← file_text config;
  match match_new_root configContent with
  | None => fail (JsError "Could not parse expected root from config")
  | Some expectedRoot =>
      if String.eqb stateRoot expectedRoot
      then print "✅ SUCCESS: State Root matches expected value."
      else
        print "❌ FAILURE: State Root does NOT match.";;
        print ("   Expected: " +:+ expectedRoot);;
        print ("   Actual:   " +:+ stateRoot);;
        (if String.eqb nextBatchId "1"
         then print "   Reason: Batch was not committed (Next Batch ID is still 1)"
         else mret tt);;
        fail exit_1
  end.

(** ** export-abis.ts, deploy_baseline_temp.ts, tmp_setup_da.js *)

Definition ARTIFACTS_DIR : string := path_join __dirname "../artifacts/contracts".
Definition OUTPUT_DIR : string := path_join __dirname "../docs/abis".
Definition TARGET_CONTRACTS : list string := [
  "bridge/ZKRollupBridge.sol/ZKRollupBridge.json";
  "da/BlobDA.sol/BlobDA.json";
  "da/CalldataDA.sol/CalldataDA.json";
  "verifiers/RealVerifier.sol/RealVerifier.json";
  "interfaces/IDAProvider.sol/IDAProvider.json";
  "interfaces/IVerifier.sol/IVerifier.json"].

Definition abi_path (contractPath : string) : string :=
  path_join OUTPUT_DIR (basename_ext (basename contractPath) ".json" +:+ ".json").

Definition export_abi (contractPath : string) : Script unit :=
  let artifactPath := path_join ARTIFACTS_DIR contractPath in
  found ← existsSync artifactPath;
  if (found : bool) then
    raw ← readFileSync artifactPath;
    artifact ← JSON_parse raw;
    let contractName := basename_ext (basename contractPath) ".json" in
    writeFileSync (abi_path contractPath) (JsonText (prop "abi" artifact));;
    print ("Exported ABI for " +:+ contractName +:+ " to " +:+ abi_path contractPath)
  else print ("Artifact not found: " +:+ artifactPath).

Definition export_abis : Script unit := each TARGET_CONTRACTS export_abi.

Definition deploy_baseline : Script unit :=
  address ← deploy ABaselineToken;
  print ("BaselineToken: " +:+ checksum address);;
  cwd ← read n_cwd;
  writeFileSync (path_resolve cwd "../baseline_addr.txt") (Text (checksum address)).

Definition tmp_bridgeAddr : string := "0xe7f1725E7734CE288F8367e1Bb143E90bb3F0512".

(** The hash of the transaction, printed last, is left out. *)
Definition tmp_setup_da : Script unit :=
  offchainAddr ← deploy AOffChainDA;
  bridge_tx (address_value tmp_bridgeAddr) (CSetDAProvider 2 offchainAddr true);;
  print ("OffChainDA: " +:+ checksum offchainAddr).

End scripts.
