(* ===== verification/RollupProofs.v ===== *)
(** * The rollup scripts from end to end

    Each script is run symbolically, from any state of the node, and its result
    is what the next one reads. *)

From stdpp Require Import base list option gmap strings pretty.
From Stdlib Require Import ZArith Lia Ascii Strings.Byte.
From S2P Require Import Prelude Js RollupContracts Bridge BridgeProofs RollupNode RollupScripts.

(** ** Running a script *)

Lemma Script_bind_done {A B} (m : Script A) (k : A → Script B) n a n' :
  m n = (Done a, n') → (m ≫= k) n = k a n'.
Proof. unfold mbind, Script_bind. by intros ->. Qed.

Lemma create_address_ne `{HardhatLaws} i j :
  Z.of_nat i < 2 ^ 64 → Z.of_nat j < 2 ^ 64 → i ≠ j → create_address i ≠ create_address j.
Proof. intros Hi Hj Hne E%create_address_inj; done. Qed.

Ltac fields := cbn [n_chainId n_name n_deployer n_nonce n_block n_time n_accounts n_files n_dirs
  n_env n_cwd n_random n_out set_accounts set_files set_out set_randoms set_env].
Ltac lookups := repeat first
  [ rewrite lookup_insert_eq
  | rewrite lookup_insert_ne by (apply create_address_ne; lia) ].

Tactic Notation "run" tactic3(tac) := erewrite Script_bind_done; [|tac]; fields.

Section proofs.
Context {evm : Evm} {hh : Hardhat}.
Implicit Types (n : net).

Lemma bridge_tx_run addr e n own b b' ev :
  n_accounts n !! addr = Some (ABridge own b) → estep (tx_ctx own n) b e b' ev →
  bridge_tx addr e n = (Done tt, set_accounts (<[addr := ABridge own b']> (n_accounts n)) n).
Proof. intros Ha He%enter_complete. unfold bridge_tx. by rewrite Ha, He. Qed.

Lemma mock_blob_tx_run addr i h n m :
  n_accounts n !! addr = Some (ATestBlobDA m) →
  mock_blob_tx addr i h n =
    (Done tt, set_accounts (<[addr := ATestBlobDA (<[i := h]> m)]> (n_accounts n)) n).
Proof. intros Ha. unfold mock_blob_tx. by rewrite Ha. Qed.

Lemma deploy_run a n :
  deploy a n = (Done (create_address (n_nonce n)),
                set_accounts (<[create_address (n_nonce n) := a]> (n_accounts n)) n).
Proof. done. Qed.

Lemma bridge_view_run {A} addr (f : bridge → A) n own b :
  n_accounts n !! addr = Some (ABridge own b) → bridge_view addr f n = (Done (f b), n).
Proof. intros Ha. unfold bridge_view. by rewrite Ha. Qed.

Lemma fail_if_run b e n : b = false → fail_if b e n = (Done tt, n).
Proof. by intros ->. Qed.

Lemma requireCode_run label addr n :
  is_Some (n_accounts n !! address_value addr) → requireCode label addr n = (Done tt, n).
Proof.
  intros Ha. unfold requireCode. erewrite Script_bind_done; [|reflexivity].
  apply fail_if_run. by rewrite bool_decide_true.
Qed.

(** A provider set by the owner where there was none. *)
Definition with_provider (i p : Z) (b : bridge) : bridge :=
  set_daEnabled (<[i := true]> (daEnabled b)) (set_daProviders (<[i := p]> (daProviders b)) b).

Lemma set_fresh_provider own n b i p :
  n_deployer n = own → (daProviders b)@[i] = 0 →
  estep (tx_ctx own n) b (CSetDAProvider i p true) (with_provider i p b) [DAProviderSet i p true].
Proof. intros Ho Hp. constructor; [by split|by left]. Qed.

(** The bridge as [deploy-local] leaves it. *)
Definition local_bridge (verifier calldata blob offchain : Z) : bridge :=
  with_provider 2 offchain (with_provider 1 blob (with_provider 0 calldata
    (new_ZKRollupBridge verifier 0 0))).

(** Everything [verify-runtime] looks at after [deploy-local], with the state of
    the bridge left open. *)
Record runtime (mv br cd bl oc : Z) (b : bridge) (path : string) n : Prop := {
  rt_bridge : n_accounts n !! br = Some (ABridge (n_deployer n) b);
  rt_verifier : n_accounts n !! mv = Some (AMockVerifier new_MockVerifier);
  rt_calldata : n_accounts n !! cd = Some ACalldataDA;
  rt_blob : is_Some (n_accounts n !! bl);
  rt_offchain : is_Some (n_accounts n !! oc);
  rt_file : n_files n !! path = Some (JsonText
    (local_deployment (n_name n) (n_chainId n) (n_deployer n) br mv cd bl oc ZeroHash));
  rt_providers : daProviders b = daProviders (local_bridge mv cd bl oc);
  rt_enabled : daEnabled b = daEnabled (local_bridge mv cd bl oc);
  rt_verifiers : verifiers b = verifiers (local_bridge mv cd bl oc);
  rt_range : Forall (λ a, 0 < a < 2 ^ 160) [mv; br; cd; bl; oc];
}.

Definition deployment_path n (name : string) : string :=
  path_resolve (n_cwd n) (env_or (n_env n !! name) default_deployment).

End proofs.

Section laws.
Context {evm : Evm} {hh : Hardhat} {hl : HardhatLaws}.
Implicit Types (n : net).

Lemma deploy_local_spec n :
  Z.of_nat (5 + n_nonce n) < 2 ^ 64 →
  let addr i := create_address (i + n_nonce n) in
  ∃ n1, deploy_local n = (Done tt, n1) ∧
    runtime (addr 0%nat) (addr 1%nat) (addr 2%nat) (addr 3%nat) (addr 5%nat)
      (local_bridge (addr 0%nat) (addr 2%nat) (addr 3%nat) (addr 5%nat))
      (deployment_path n "DEPLOYMENT_OUT") n1 ∧
    n_env n1 = n_env n ∧ n_cwd n1 = n_cwd n ∧ n_chainId n1 = n_chainId n ∧
    n_deployer n1 = n_deployer n ∧ n_block n < n_block n1.
Proof.
  cbn [Nat.add]. destruct n as [ch nm dp nn bk tm acc fs ds ev cw rn out]. fields. intros Hnonce.
  unfold deploy_local.
  do 3 run reflexivity. do 4 run (apply deploy_run).
  run (apply mock_blob_tx_run; fields; lookups; reflexivity).
  run (apply deploy_run).
  do 3 run (eapply bridge_tx_run; [fields; lookups; reflexivity|by apply set_fresh_provider]).
  do 9 run reflexivity.
  eexists. split; [reflexivity|]. unfold deployment_path. fields.
  split_and!; [|reflexivity..|lia].
  constructor; fields; lookups; try reflexivity; eauto.
  repeat apply Forall_cons_2; [apply create_address_range; lia..|apply Forall_nil_2].
Qed.
Lemma readFileSync_run p f n : n_files n !! p = Some f → readFileSync p n = (Done f, n).
Proof. unfold readFileSync. by intros ->. Qed.

Lemma requiredAddress_run d keys a n :
  first_address d keys = Some (checksum a) → requiredAddress d keys n = (Done (checksum a), n).
Proof. unfold requiredAddress. by intros ->. Qed.

(** An address of the deployment file is found under its first key. *)
Lemma first_address_found d k keys a :
  prop k d = VStr (checksum a) → first_address d (k :: keys) = Some (checksum a).
Proof. intros Hp. cbn. by rewrite Hp, isAddress_checksum. Qed.

Lemma check_provider_run br id label a n own b :
  n_accounts n !! br = Some (ABridge own b) →
  (daProviders b)@[id] = a → (daEnabled b)?[id] = true →
  check_provider br (id, label, checksum a) n = (Done tt, n).
Proof.
  intros Hb Hp He. unfold check_provider.
  run (by eapply bridge_view_run). run (by eapply bridge_view_run).
  apply fail_if_run. by rewrite Hp, He, String.eqb_refl.
Qed.

Lemma each_run {A} (l : list A) (f : A → Script unit) n :
  Forall (λ x, f x n = (Done tt, n)) l → each l f n = (Done tt, n).
Proof. induction 1; [done|]. cbn [each]. by run eassumption. Qed.

(** [verify-runtime] on a node with the local deployment. *)
Lemma verify_runtime_run mv br cd bl oc b n k :
  runtime mv br cd bl oc b (deployment_path n "DEPLOYMENT_FILE") n →
  js_BigInt (env_or (n_env n !! "EXPECT_MIN_NEXT_BATCH_ID") "1") = Some k → k ≤ nextBatchId b →
  (n_env n !! "EXPECT_STATE_ROOT_CHANGED" = Some "1" →
   toLowerCase (bytes32_text (latestStateRoot b)) ≠ toLowerCase ZeroHash) →
  ∃ r n2, verify_runtime n = (Done r, n2) ∧
    prop "nextBatchId" r = VStr (pretty (nextBatchId b)) ∧
    prop "latestStateRoot" r = VStr (bytes32_text (latestStateRoot b)) ∧
    prop "stateRootChanged" r =
      VBool (negb (String.eqb (toLowerCase (bytes32_text (latestStateRoot b))) (toLowerCase ZeroHash))).
Proof.
  intros [] Hk Hmin Hch.
  repeat match goal with H : Forall _ (_ :: _) |- _ => apply Forall_cons in H as [? H] end.
  assert (Hd : ∀ a, 0 < a < 2 ^ 160 → address_value (checksum a) = a)
    by (intros; apply address_value_checksum; lia).
  unfold verify_runtime. do 2 run reflexivity.
  run (by apply readFileSync_run). do 2 run reflexivity.
  run (apply fail_if_run; change (negb (n_chainId n =? n_chainId n) = false); by rewrite Z.eqb_refl).
  do 5 run (apply requiredAddress_run, first_address_found; reflexivity).
  do 5 run (apply requireCode_run; rewrite Hd by done; by eauto).
  rewrite !Hd by done. do 2 run (by eapply bridge_view_run).
  run (apply each_run; repeat apply Forall_cons_2; [..|apply Forall_nil_2];
    (eapply check_provider_run; [done|by rewrite rt_providers0|by rewrite rt_enabled0])).
  run (by eapply bridge_view_run).
  run (apply fail_if_run; rewrite rt_verifiers0; cbn; by rewrite String.eqb_refl).
  run reflexivity. run (unfold bigint; by rewrite Hk).
  run (apply fail_if_run; by apply Z.ltb_ge). run reflexivity.
  set (root := toLowerCase (bytes32_text (latestStateRoot b))) in *.
  assert (Hroot : (if bool_decide (n_env n !! "EXPECT_STATE_ROOT_CHANGED" = Some "1")
      then fail_if (String.eqb root (toLowerCase ZeroHash))
        (JsError ("State root did not change from genesis " +:+ ZeroHash))
      else mret tt) n = (Done tt, n)).
  { case_bool_decide; [|done]. apply fail_if_run, String.eqb_neq. auto. }
  run (exact Hroot). run reflexivity. run reflexivity.
  destruct (str_truthy _); eexists _, _; (split; [reflexivity|done]).
Qed.

Lemma toLowerCase_hex l : toLowerCase (hex_digits l) = hex_digits l.
Proof. induction l as [|b l IH]; [done|]. cbn [hex_digits toLowerCase]. rewrite IH. by destruct b. Qed.

Lemma bytes32_text_lower z : toLowerCase (bytes32_text z) = bytes32_text z.
Proof. unfold bytes32_text. generalize (be_enc 32 z). intros l. cbn. by rewrite toLowerCase_hex. Qed.

Lemma parse_hex_text l : parse_hex ("0x" +:+ hex_digits l) = Some l.
Proof. exact (parse_hex_digits l). Qed.

Lemma bytes32_text_nonzero z : 0 < z < 2 ^ 256 → bytes32_text z ≠ ZeroHash.
Proof.
  intros Hz H%(f_equal parse_hex). unfold ZeroHash, bytes32_text in H.
  rewrite !parse_hex_text in H. apply (inj Some), (f_equal be_val) in H.
  rewrite !be_val_enc, Z.mod_small, Z.mod_0_l in H; lia.
Qed.

(** A calldata batch on the bridge of the local deployment. *)
Lemma local_commit_run mv br cd bl oc path n bd dm r proof :
  runtime mv br cd bl oc (local_bridge mv cd bl oc) path n → r ≠ 0 → length proof = 256%nat →
  ∃ b n', bridge_tx br (CCommitBatch 0 0 bd dm r proof) n = (Done tt, n') ∧
    runtime mv br cd bl oc b path n' ∧ nextBatchId b = 2 ∧ latestStateRoot b = r ∧
    n_env n' = n_env n ∧ n_cwd n' = n_cwd n.
Proof.
  intros [] Hr Hp. repeat match goal with H : Forall _ (_ :: _) |- _ => apply Forall_cons in H as [? H] end.
  exists (with_batch (keccak256_word bd) r (set_latestStateRoot r (local_bridge mv cd bl oc))).
  eexists. split.
  - eapply bridge_tx_run; [done|].
    apply (E_commit_validity _ _ 0 0 bd dm r proof (keccak256_word bd) 0); [done| |].
    + assert (Hcd : provider_at (tx_ctx (n_deployer n) n) ((daProviders (local_bridge mv cd bl oc))@[0])
        = CalldataDA) by (change (provider_of (n_accounts n !! cd) = CalldataDA); by rewrite rt_calldata0).
      constructor; rewrite ?Hcd; try done; [by left|change (cd ≠ 0); lia|change (mv ≠ 0); lia].
    + assert (Hmv : verifier_at (tx_ctx (n_deployer n) n) ((verifiers (local_bridge mv cd bl oc))@[0])
        = MockVerifier new_MockVerifier)
        by (change (verifier_of (n_accounts n !! mv) = MockVerifier new_MockVerifier);
            by rewrite rt_verifier0).
      unfold proof_accepted. by rewrite Hmv.
  - split_and!; [|reflexivity..].
    constructor; fields; try done; [by rewrite lookup_insert_eq|..|by apply lookup_insert_is_Some'; right|
      by apply lookup_insert_is_Some'; right|by repeat apply Forall_cons_2; [..|apply Forall_nil_2]];
      (rewrite lookup_insert_ne; [done|congruence]).
Qed.

(** C29: The local runtime works from end to end, whatever the state of the node
    it starts from: [deploy-local] completes and [verify-runtime] accepts what it
    wrote; any calldata batch with a 256-byte proof and a non-zero root is then
    committed; and [verify-runtime], now asked for two batches' worth of ids and a
    changed root, accepts again and reports the new root. *)
Theorem local_runtime_end_to_end n bd dm r proof :
  Z.of_nat (5 + n_nonce n) < 2 ^ 64 → 0 < r < 2 ^ 256 → length proof = 256%nat →
  deployment_path n "DEPLOYMENT_OUT" = deployment_path n "DEPLOYMENT_FILE" →
  n_env n !! "EXPECT_MIN_NEXT_BATCH_ID" = None → n_env n !! "EXPECT_STATE_ROOT_CHANGED" = None →
  ∃ n1 r1 n2 n3 r2 n4,
    deploy_local n = (Done tt, n1) ∧
    verify_runtime n1 = (Done r1, n2) ∧
    prop "nextBatchId" r1 = VStr "1" ∧ prop "stateRootChanged" r1 = VBool false ∧
    bridge_tx (create_address (1 + n_nonce n)) (CCommitBatch 0 0 bd dm r proof) n1 = (Done tt, n3) ∧
    verify_runtime (set_env (<["EXPECT_MIN_NEXT_BATCH_ID" := "2"]>
      (<["EXPECT_STATE_ROOT_CHANGED" := "1"]> (n_env n))) n3) = (Done r2, n4) ∧
    prop "nextBatchId" r2 = VStr "2" ∧ prop "latestStateRoot" r2 = VStr (bytes32_text r) ∧
    prop "stateRootChanged" r2 = VBool true.
Proof.
  intros Hnonce Hr Hp Hpath Hmin Hch.
  destruct (deploy_local_spec n Hnonce) as (n1 & E1 & Hrt & He & Hc & _).
  destruct (local_commit_run _ _ _ _ _ _ n1 bd dm r proof Hrt ltac:(lia) Hp)
    as (b & n3 & E3 & Hrt3 & Hnext & Hroot & He3 & Hc3).
  assert (Hf1 : deployment_path n1 "DEPLOYMENT_FILE" = deployment_path n "DEPLOYMENT_OUT")
    by (unfold deployment_path in *; by rewrite He, Hc).
  rewrite <- Hf1 in Hrt.
  destruct (verify_runtime_run _ _ _ _ _ _ n1 1 Hrt) as (r1 & n2 & E2 & A1 & _ & A3);
    [by rewrite He, Hmin|done|by rewrite He, Hch|].
  set (n3' := set_env (<["EXPECT_MIN_NEXT_BATCH_ID" := "2"]>
      (<["EXPECT_STATE_ROOT_CHANGED" := "1"]> (n_env n))) n3).
  assert (Hrt3' : runtime (create_address (0 + n_nonce n)) (create_address (1 + n_nonce n))
    (create_address (2 + n_nonce n)) (create_address (3 + n_nonce n)) (create_address (5 + n_nonce n))
    b (deployment_path n3' "DEPLOYMENT_FILE") n3').
  { replace (deployment_path n3' "DEPLOYMENT_FILE") with (deployment_path n "DEPLOYMENT_OUT").
    - by destruct Hrt3.
    - rewrite Hpath. unfold deployment_path, n3'. fields. rewrite Hc3, Hc.
      by rewrite !lookup_insert_ne. }
  destruct (verify_runtime_run _ _ _ _ _ _ n3' 2 Hrt3') as (r2 & n4 & E4 & B1 & B2 & B3).
  - unfold n3'. fields. by rewrite lookup_insert_eq.
  - by rewrite Hnext.
  - intros _. rewrite Hroot, !bytes32_text_lower. by apply bytes32_text_nonzero.
  - exists n1, r1, n2, n3, r2, n4. rewrite Hroot in B2, B3. rewrite Hnext in B1.
    rewrite bytes32_text_lower in B3.
    rewrite (proj2 (String.eqb_neq _ _)) in B3 by (by apply bytes32_text_nonzero).
    split_and!; done.
Qed.

End laws.

(** ** A concrete node *)

Definition model_hardhat : Hardhat := {|
  checksum := λ a, "0x" +:+ hex_digits (be_enc 20 a);
  isAddress := λ s, hex_regex 40 (Some s);
  address_value := λ s, default 0 (be_val <$> parse_hex s);
  create_address := λ n, Z.of_nat n mod 2 ^ 64 + 1;
  random_bytes32 := λ n, Z.of_nat n mod 2 ^ 64 + 1;
  __dirname := "/repo/contracts/scripts";
|}.

Lemma hex_digits_hex l : str_forallb is_hex_digit (hex_digits l) = true.
Proof.
  induction l as [|b l IH]; [done|]. destruct (hex_char_digit b) as (H1 & H2 & _).
  cbn [hex_digits str_forallb]. by rewrite H1, H2, IH.
Qed.

Lemma model_checksum_hex a : hex_regex 40 (Some ("0x" +:+ hex_digits (be_enc 20 a))) = true.
Proof.
  assert (Hl : length (be_enc 20 a) = 20%nat) by apply be_enc_length.
  revert Hl. generalize (be_enc 20 a). intros l Hl.
  change ((String.length (hex_digits l) =? 40)%nat && str_forallb is_hex_digit (hex_digits l) = true).
  by rewrite hex_digits_hex, hex_digits_length, Hl.
Qed.

#[export] Instance model_hardhat_laws : @HardhatLaws model_hardhat.
Proof.
  constructor; cbn [checksum isAddress address_value create_address model_hardhat].
  - apply model_checksum_hex.
  - apply model_checksum_hex.
  - intros a Ha. rewrite parse_hex_text. cbn [fmap option_fmap option_map default from_option id].
    rewrite be_val_enc. change (256 ^ Z.of_nat 20) with (2 ^ 160). apply Z.mod_small. lia.
  - intros n Hn. pose proof (Z.mod_pos_bound (Z.of_nat n) (2 ^ 64) ltac:(lia)). lia.
  - intros n m Hn Hm. rewrite !Z.mod_small by lia. lia.
Qed.

(** A machine whose hash is the value of the bytes; proofs are mocked here. *)
Definition node_evm : Evm := {|
  keccak256_word := be_val;
  MerkleProof_verify := λ _ _ _, false;
  ecAdd := λ _, None;
  ecMul := λ _, None;
  ecPairing := λ _, None;
|}.

Definition sample_net (e : gmap string string) : net :=
  mkNet 31337 "localhost" 4660 0 0 1700000000 ∅ ∅ ["/repo/submitter"] e "/repo/contracts" 0 [].

Lemma local_runtime_witness :
  is_done (@deploy_local node_evm model_hardhat (sample_net ∅)).1 = true.
Proof.
  destruct (@local_runtime_end_to_end node_evm model_hardhat model_hardhat_laws (sample_net ∅) [x01] []
    9 (replicate 256 x00)) as (n1 & _ & _ & _ & _ & _ & E & _).
  - vm_compute. reflexivity.
  - lia.
  - vm_compute. reflexivity.
  - reflexivity.
  - reflexivity.
  - reflexivity.
  - rewrite E. reflexivity.
Defined.
