(* ===== verification/TestnetProofs.v ===== *)
(** * The test-network pipeline

    [deploy-test-net], [generate-mock-batch] and the commit of the batch they
    prepare, run symbolically; the configuration file one script writes and
    another reads; what [verify-state] and [verify-runtime] make of the result. *)

From stdpp Require Import base list option gmap strings pretty.
From Stdlib Require Import ZArith Lia Ascii Strings.Byte.
From S2P Require Import Prelude Js RollupContracts Bridge BridgeProofs RollupNode RollupScripts RollupProofs.

Section laws.
Context {evm : Evm} {hh : Hardhat} {hl : HardhatLaws}.
Implicit Types (n : net).

(** ** The submitter's configuration *)

(** [pat] and [q] differ at some place of both. *)
Fixpoint mismatch (pat q : string) : bool :=
  match pat, q with
  | String a pat', String b q' => if decide (a = b) then mismatch pat' q' else true
  | _, _ => false
  end.
Fixpoint clean (pat p : string) : bool :=
  match p with
  | EmptyString => true
  | String _ p' => mismatch pat p && clean pat p'
  end.

Lemma strip_prefix_mismatch pat q s : mismatch pat q = true → strip_prefix pat (q +:+ s) = None.
Proof.
  revert q. induction pat as [|a pat IH]; intros [|b q]; cbn; try done. case_decide; [apply IH|done].
Qed.

(** The start of the regular expression, and text it cannot match in. *)
Definition root_start : string := "new_root: " +:+ dq +:+ "0x".

Lemma match_new_root_skip p s :
  clean root_start p = true → match_new_root (p +:+ s) = match_new_root s.
Proof.
  induction p as [|c p IH]; [done|]. intros [Hm Hc]%andb_prop.
  change (String c p +:+ s) with (String c (p +:+ s)). cbn [match_new_root].
  replace (match_here (String c (p +:+ s))) with (@None string); [by apply IH|].
  pose proof (strip_prefix_mismatch root_start (String c p) s Hm) as E.
  unfold match_here. change (strip_prefix _ _) with (strip_prefix root_start (String c p +:+ s)).
  by rewrite E.
Qed.

Lemma clean_no_n p : str_forallb (λ c, negb (bool_decide (c = "n"%char))) p = true → clean root_start p = true.
Proof.
  induction p as [|c p IH]; [done|]. intros [Hc Hp]%andb_prop. cbn [clean].
  rewrite IH, andb_true_r by done. unfold root_start. cbn [String.append mismatch].
  destruct (decide ("n"%char = c)) as [<-|]; [discriminate Hc|done].
Qed.

Lemma hex_run_digits l c s :
  is_hex_digit c = false → hex_run (hex_digits l +:+ String c s) = (hex_digits l, String c s).
Proof.
  intros Hc. induction l as [|b l IH]; cbn [hex_digits].
  - cbn. by rewrite Hc.
  - destruct (hex_char_digit b) as (H1 & H2 & _). cbn -[hex_char].
    by rewrite H1, H2, IH.
Qed.

Lemma match_new_root_found z s :
  match_new_root ("new_root: " +:+ dq +:+ bytes32_text z +:+ String "034" s) = Some (bytes32_text z).
Proof.
  unfold bytes32_text.
  assert (Hl : length (be_enc 32 z) = 32%nat) by apply be_enc_length.
  revert Hl. generalize (be_enc 32 z). intros [|b l]; [done|]. intros _.
  assert (E : match_here ("new_root: " +:+ dq +:+ ("0x" +:+ hex_digits (b :: l)) +:+ String "034" s)
    = Some ("0x" +:+ hex_digits (b :: l))).
  { unfold match_here.
    change (strip_prefix ("new_root: " +:+ dq +:+ "0x")
      ("new_root: " +:+ dq +:+ ("0x" +:+ hex_digits (b :: l)) +:+ String "034" s))
      with (Some (hex_digits (b :: l) +:+ String "034" s)). cbn [mbind option_bind].
    by rewrite hex_run_digits. }
  revert E. generalize ("new_root: " +:+ dq +:+ ("0x" +:+ hex_digits (b :: l)) +:+ String "034" s).
  intros t E. destruct t; cbn [match_new_root]; by rewrite E.
Qed.

(** An address text has no letter n. *)
Lemma hex_regex_no_n k s :
  hex_regex k (Some s) = true → str_forallb (λ c, negb (bool_decide (c = "n"%char))) s = true.
Proof.
  unfold hex_regex. cbn [js_show].
  destruct s as [|c0 s]; [done|]. destruct (decide (c0 = "0"%char)) as [->|Hc0].
  - destruct s as [|c1 s]; [done|]. destruct (decide (c1 = "x"%char)) as [->|Hc1].
    + intros [_ Hs]%andb_prop. cbn [str_forallb]. rewrite !bool_decide_false by done. cbn.
      induction s as [|c s IH]; [done|]. cbn in Hs. apply andb_prop in Hs as [Hc Hs].
      cbn [str_forallb]. rewrite (IH Hs), andb_true_r. rewrite bool_decide_false; [done|].
      intros ->. discriminate Hc.
    + by destruct c1 as [[] [] [] [] [] [] [] []].
  - by destruct c0 as [[] [] [] [] [] [] [] []].
Qed.

Lemma submitterConfig_root a z h :
  match_new_root (submitterConfig (checksum a) 0 (bytes32_text z) h) = Some (bytes32_text z).
Proof.
  unfold submitterConfig. rewrite match_new_root_skip by by vm_compute.
  rewrite match_new_root_skip by (eapply clean_no_n, hex_regex_no_n, checksum_hex).
  do 3 rewrite match_new_root_skip by by vm_compute.
  apply match_new_root_found.
Qed.

(** ** The test network *)

Definition with_verifier (i a : Z) (b : bridge) : bridge :=
  set_verifiers (<[i := a]> (verifiers b)) b.

Lemma set_verifier_run own n b i a :
  n_deployer n = own →
  estep (tx_ctx own n) b (CSetVerifier i a) (with_verifier i a b) [VerifierSet i a].
Proof. intros Ho. by constructor. Qed.

(** The bridge as [deploy-test-net] leaves it with the default configuration. *)
Definition testnet_bridge (v plonky2 halo2 calldata blob : Z) : bridge :=
  with_provider 1 blob (with_provider 0 calldata (with_verifier 2 halo2 (with_verifier 1 plonky2
    (new_ZKRollupBridge v 0 50)))).

Lemma deploy_named_run name a n :
  deploy_named name a n =
    (Done (create_address (n_nonce n)),
     set_out (n_out n ++ [Text (name +:+ " deployed to: " +:+ checksum (create_address (n_nonce n)))])
       (set_accounts (<[create_address (n_nonce n) := a]> (n_accounts n)) n)).
Proof. done. Qed.

Lemma deploy_mock_verifier_run n :
  deploy_verifier true n =
    (Done (create_address (n_nonce n)),
     set_out (n_out n ++ [Text "Using MockVerifier for simulation..."] ++
              [Text ("MockVerifier deployed to: " +:+ checksum (create_address (n_nonce n)))])
       (set_accounts (<[create_address (n_nonce n) := AMockVerifier new_MockVerifier]> (n_accounts n)) n)).
Proof.
  unfold deploy_verifier. do 3 (erewrite Script_bind_done; [|reflexivity]).
  unfold set_out, set_accounts. cbn. by rewrite <- app_assoc.
Qed.

Lemma uint256_arg_run s z n :
  js_BigInt s = Some z → 0 ≤ z ≤ uint256_max → uint256_arg s n = (Done z, n).
Proof.
  intros Hs [H1 H2]. unfold uint256_arg. by rewrite Hs, (proj2 (Z.leb_le _ _) H1), (proj2 (Z.leb_le _ _) H2).
Qed.

Lemma deploy_test_net_spec n :
  Z.of_nat (6 + n_nonce n) < 2 ^ 64 →
  n_env n !! "USE_MOCK_VERIFIER" = Some "true" → n_env n !! "GENESIS_ROOT" = None →
  n_env n !! "FORCE_INCLUSION_DELAY" = None →
  let addr i := create_address (i + n_nonce n) in
  ∃ n1, deploy_test_net n = (Done tt, n1) ∧
    n_accounts n1 !! addr 6%nat = Some (ABridge (n_deployer n)
      (testnet_bridge (addr 0%nat) (addr 1%nat) (addr 2%nat) (addr 3%nat) (addr 5%nat))) ∧
    n_accounts n1 !! addr 0%nat = Some (AMockVerifier new_MockVerifier) ∧
    n_accounts n1 !! addr 5%nat = Some (ATestBlobDA ∅) ∧
    n_files n1 !! deployments_path = Some (JsonText
      (testnet_deployments (addr 0%nat) (addr 3%nat) (addr 4%nat) (addr 5%nat) (addr 6%nat)
         ZeroHash "50")) ∧
    n_deployer n1 = n_deployer n ∧ n_dirs n1 = n_dirs n ∧ n_random n1 = n_random n.
Proof.
  cbn [Nat.add]. destruct n as [ch nm dp nn bk tm acc fs ds ev cw rn out]. fields.
  intros Hnonce Hmock Hroot Hdelay. unfold deploy_test_net.
  do 4 run reflexivity. rewrite Hroot, Hdelay. do 3 run reflexivity. run reflexivity.
  rewrite Hmock, bool_decide_true by done. run (apply deploy_mock_verifier_run).
  do 5 run (apply deploy_named_run).
  run (unfold bytes32_arg; cbn [env_or str_truthy]; unfold ZeroHash, bytes32_text;
    rewrite parse_hex_text, be_enc_length; reflexivity).
  run (apply (uint256_arg_run _ 50); [reflexivity|by vm_compute]).
  run (apply deploy_named_run).
  change (be_val (be_enc 32 0)) with 0.
  do 2 (run (eapply bridge_tx_run; [fields; lookups; reflexivity|by apply set_verifier_run]);
        run reflexivity).
  do 2 (run (eapply bridge_tx_run; [fields; lookups; reflexivity|by apply set_fresh_provider]);
        run reflexivity).
  run reflexivity. eexists. split; [reflexivity|]. fields.
  split_and!; lookups; reflexivity.
Qed.

Lemma Script_bind_inv {A B} (m : Script A) (k : A → Script B) n b n2 :
  (m ≫= k) n = (Done b, n2) → ∃ a n1, m n = (Done a, n1) ∧ k a n1 = (Done b, n2).
Proof. unfold mbind, Script_bind. destruct (m n) as [[a|e|] n1]; [eauto|done..]. Qed.

(** [verify-state] never succeeds: it calls [Bridge.stateRoot()], which is not
    a function of the contract (the getter is [latestStateRoot]), so it throws
    before it compares anything. *)
Theorem verify_state_never_succeeds n : is_done (verify_state n).1 = false.
Proof.
  destruct (verify_state n) as [[u|e|] n'] eqn:E; [exfalso|done..].
  unfold verify_state in E.
  do 7 (apply Script_bind_inv in E as (? & ? & _ & E)).
  apply Script_bind_inv in E as (? & ? & E & _). discriminate E.
Qed.

(** What is parsed back from the file [deploy-test-net] writes. *)
Lemma deploy_test_net_file n n1 :
  deploy_test_net n = (Done tt, n1) →
  ∃ v cd bl tb br root delay,
    n_files n1 !! deployments_path = Some (JsonText (testnet_deployments v cd bl tb br root delay)).
Proof.
  unfold deploy_test_net. intros E.
  do 25 (apply Script_bind_inv in E as (? & ? & _ & E)).
  apply Script_bind_inv in E as (? & ? & [= <- <-] & [= <-]). do 7 eexists. fields.
  by rewrite lookup_insert_eq.
Qed.

(** What [deploy-test-net] writes cannot be checked by [verify-runtime]: the
    file names its contracts differently, so the check stops at the first key it
    looks for, whatever was deployed. *)
Theorem testnet_deployment_unverifiable n n1 :
  deploy_test_net n = (Done tt, n1) → deployment_path n1 "DEPLOYMENT_FILE" = deployments_path →
  verify_runtime n1 = (Throw (JsError "Missing deployment address for bridge"), n1).
Proof.
  intros (v & cd & bl & tb & br & root & delay & Hf)%deploy_test_net_file Hp.
  unfold verify_runtime. do 2 run reflexivity.
  run (apply readFileSync_run; unfold deployment_path in Hp; by rewrite Hp).
  do 2 run reflexivity. by run (apply fail_if_run).
Qed.

(** *** Two files of one directory *)

Lemma js_split_last sep s w :
  str_forallb (λ c, negb (bool_decide (c = sep))) w = true →
  js_split sep (s +:+ String sep w) = js_split sep s ++ [w].
Proof.
  intros Hw. induction s as [|c s IH]; cbn [js_split String.append].
  - rewrite decide_True by done. by rewrite (js_split_word _ _ Hw).
  - case_decide; [by rewrite IH|]. rewrite IH.
    pose proof (js_split_nonempty sep s). by destruct (js_split sep s).
Qed.

Definition ordinary (w : string) : bool :=
  negb (String.eqb w EmptyString || String.eqb w ".") && negb (String.eqb w "..") &&
  str_forallb (λ c, negb (bool_decide (c = "/"%char))) w.

Lemma normalize_last acc l w :
  ordinary w = true → normalize acc (l ++ [w]) = normalize acc l ++ [w].
Proof.
  intros [[H1%negb_true_iff H2%negb_true_iff]%andb_prop _]%andb_prop.
  revert acc. induction l as [|x l IH]; intros acc; cbn [normalize app].
  - rewrite H1, H2. apply reverse_cons.
  - by repeat case_match; rewrite IH.
Qed.

Lemma str_app_assoc s1 s2 s3 : (s1 +:+ s2) +:+ s3 = s1 +:+ (s2 +:+ s3).
Proof. induction s1 as [|c s1 IH]; [done|]. cbn. by rewrite IH. Qed.

Lemma js_join_last sep l w : l ≠ [] → js_join sep (l ++ [w]) = js_join sep l +:+ String sep w.
Proof.
  induction l as [|x [|y l] IH]; intros Hl; [done|done|].
  change (js_join sep ((x :: y :: l) ++ [w])) with (x +:+ String sep (js_join sep ((y :: l) ++ [w]))).
  rewrite IH by done. change (js_join sep (x :: y :: l)) with (x +:+ String sep (js_join sep (y :: l))).
  by rewrite str_app_assoc.
Qed.

(** Files with different ordinary names in one directory have different paths. *)
Lemma path_join_inj dir w1 w2 :
  ordinary w1 = true → ordinary w2 = true → path_join dir w1 = path_join dir w2 → w1 = w2.
Proof.
  intros H1 H2. unfold path_join, absolute.
  change ("/" +:+ w1) with (String "/" w1). change ("/" +:+ w2) with (String "/" w2).
  rewrite !js_split_last by (by apply andb_prop in H1 as []; apply andb_prop in H2 as []).
  rewrite !normalize_last by done. destruct (normalize [] (js_split "/" dir)) as [|x l].
  - by intros [= ?].
  - rewrite !js_join_last by done. intros H%(inj (String.append "/")).
    apply (inj (String.append _)) in H. by injection H.
Qed.

(** *** The mock batch *)

Definition yaml_path : string := path_join submitter_dir "local_test.yaml".

Lemma contract_address_run v a n :
  v = VStr (checksum a) → 0 ≤ a < 2 ^ 160 → contract_address v n = (Done a, n).
Proof.
  intros -> Ha. unfold contract_address. by rewrite isAddress_checksum, address_value_checksum.
Qed.

Lemma generate_mock_batch_spec n v cd bl tb br root delay m :
  n_files n !! deployments_path = Some (JsonText (testnet_deployments v cd bl tb br root delay)) →
  0 < tb < 2 ^ 160 → n_accounts n !! tb = Some (ATestBlobDA m) → submitter_dir ∈ n_dirs n →
  let h := random_bytes32 (n_random n) in
  let r := random_bytes32 (S (n_random n)) in
  ∃ n', generate_mock_batch n = (Done tt, n') ∧
    n_accounts n' = <[tb := ATestBlobDA (<[0 := h]> m)]> (n_accounts n) ∧
    n_deployer n' = n_deployer n ∧
    n_files n' !! yaml_path =
      Some (Text (submitterConfig (checksum br) 0 (bytes32_text r) (bytes32_text h))).
Proof.
  destruct n as [ch nm dp nn bk tm acc fs ds ev cw rn out]. fields. intros Hf Htb Hacc Hdir.
  unfold generate_mock_batch. do 2 run reflexivity.
  run (apply fail_if_run; fields; by rewrite bool_decide_true by (rewrite Hf; eauto)).
  run (by apply readFileSync_run). do 8 run reflexivity.
  run (apply (contract_address_run _ tb); [reflexivity|lia]).
  run (by apply mock_blob_tx_run). do 2 run reflexivity.
  rewrite (bool_decide_true (submitter_dir ∈ ds)), orb_true_r by done.
  do 2 run reflexivity. eexists. split; [reflexivity|]. fields.
  split_and!; [done|done|]. rewrite lookup_insert_ne; [by rewrite lookup_insert_eq|].
  intros H%path_join_inj; done.
Qed.

(** [abi.encode(hash, index)], the metadata of a blob batch. *)
Definition blob_meta (hash index : Z) : bytes := be_enc 32 hash ++ be_enc 32 index.

Lemma decode_blob_meta_encode h i :
  0 ≤ h < 2 ^ 256 → 0 ≤ i < 256 → decode_blob_meta (blob_meta h i) = Some (h, i).
Proof.
  intros Hh Hi.
  assert (E0 : word_at (blob_meta h i) 0 = h).
  { unfold word_at, blob_meta. rewrite drop_0, take_app_length' by (by rewrite be_enc_length).
    rewrite be_val_enc. change (256 ^ Z.of_nat 32) with (2 ^ 256). apply Z.mod_small. lia. }
  assert (E1 : word_at (blob_meta h i) 32 = i).
  { unfold word_at, blob_meta. rewrite drop_app_length' by (by rewrite be_enc_length).
    rewrite take_ge by (by rewrite be_enc_length).
    rewrite be_val_enc. change (256 ^ Z.of_nat 32) with (2 ^ 256). apply Z.mod_small. lia. }
  unfold decode_blob_meta. rewrite E0, E1. unfold blob_meta at 1.
  rewrite length_app, !be_enc_length. cbn [Nat.add Nat.ltb Nat.leb].
  by rewrite (proj2 (Z.leb_gt 256 i)) by lia.
Qed.

(** A blob batch on the test-network bridge, once its hash is mocked. *)
Lemma testnet_commit_run n own v p2 h2 cd tb br m h r bd proof :
  n_accounts n !! br = Some (ABridge own (testnet_bridge v p2 h2 cd tb)) → n_deployer n = own →
  n_accounts n !! v = Some (AMockVerifier new_MockVerifier) →
  n_accounts n !! tb = Some (ATestBlobDA (<[0 := h]> m)) → v ≠ 0 → tb ≠ 0 →
  0 < h < 2 ^ 256 → r ≠ 0 → length proof = 256%nat →
  bridge_tx br (CCommitBatch 1 0 bd (blob_meta h 0) r proof) n =
    (Done tt, set_accounts (<[br := ABridge own (with_batch h r
      (set_latestStateRoot r (testnet_bridge v p2 h2 cd tb)))]> (n_accounts n)) n).
Proof.
  intros Hbr Hown Hv Htb Hv0 Htb0 Hh Hr Hp.
  pose proof (decode_blob_meta_encode h 0 ltac:(lia) ltac:(lia)) as Ed.
  assert (Ecm : BlobDA_computeCommitment (blob_meta h 0) = Some h)
    by (unfold BlobDA_computeCommitment; by rewrite Ed).
  revert Ed Ecm. generalize (blob_meta h 0). intros meta Ed Ecm. eapply bridge_tx_run; [done|].
  assert (Eda : provider_at (tx_ctx own n) ((daProviders (testnet_bridge v p2 h2 cd tb))@[1])
    = TestBlobDA (<[0 := h]> m) (λ _, 0))
    by (change (provider_of (n_accounts n !! tb) = TestBlobDA (<[0 := h]> m) (λ _, 0)); by rewrite Htb).
  assert (Ev : verifier_at (tx_ctx own n) ((verifiers (testnet_bridge v p2 h2 cd tb))@[0])
    = MockVerifier new_MockVerifier)
    by (change (verifier_of (n_accounts n !! v) = MockVerifier new_MockVerifier); by rewrite Hv).
  apply (E_commit_validity _ _ 1 0 bd meta r proof h 1); [done| |].
  - constructor; rewrite ?Eda; try done; [by left|].
    apply (BlobDA_accepts _ _ _ Ecm). split; [lia|]. exists 0. split; [done|].
    unfold TestBlobDA_getBlobHash. rewrite lookup_insert_eq. cbn [default from_option id].
    by rewrite (proj2 (Z.eqb_neq h 0) ltac:(lia)).
  - unfold proof_accepted. by rewrite Ev.
Qed.

(** The test-network pipeline commits its batch.  With the default
    configuration and the mock verifier, [deploy-test-net] and then
    [generate-mock-batch] complete, the blob batch they prepare is accepted by the
    bridge, its state root becomes the one generated, and that root is what the
    regular expression of [verify-state] finds in the configuration written. *)
Theorem testnet_batch_commits n bd proof :
  Z.of_nat (6 + n_nonce n) < 2 ^ 64 →
  n_env n !! "USE_MOCK_VERIFIER" = Some "true" → n_env n !! "GENESIS_ROOT" = None →
  n_env n !! "FORCE_INCLUSION_DELAY" = None → submitter_dir ∈ n_dirs n →
  let h := random_bytes32 (n_random n) in
  let r := random_bytes32 (S (n_random n)) in
  0 < h < 2 ^ 256 → 0 < r < 2 ^ 256 → length proof = 256%nat →
  let br := create_address (6 + n_nonce n) in
  ∃ n1 n2 n3 config,
    deploy_test_net n = (Done tt, n1) ∧ generate_mock_batch n1 = (Done tt, n2) ∧
    bridge_tx br (CCommitBatch 1 0 bd (blob_meta h 0) r proof) n2 = (Done tt, n3) ∧
    bridge_view br latestStateRoot n3 = (Done r, n3) ∧
    n_files n3 !! yaml_path = Some (Text config) ∧ match_new_root config = Some (bytes32_text r).
Proof.
  intros Hn Hm Hg Hd Hdir h r Hh Hr Hp br.
  destruct (deploy_test_net_spec n Hn Hm Hg Hd)
    as (n1 & E1 & Hbr & Hv & Htb & Hf & Hdep & Hdirs & Hrnd).
  rewrite <- Hdirs in Hdir.
  pose proof (λ i, create_address_range (i + n_nonce n)) as Hrange.
  destruct (generate_mock_batch_spec n1 _ _ _ _ _ _ _ _ Hf (Hrange 5%nat ltac:(lia)) Htb Hdir)
    as (n2 & E2 & Hacc & Hdep2 & Hyaml). rewrite Hrnd in Hacc, Hyaml.
  assert (Hbr2 : n_accounts n2 !! br = n_accounts n1 !! br).
  { rewrite Hacc, lookup_insert_ne; [done|]. apply create_address_ne; lia. }
  assert (Hv2 : n_accounts n2 !! create_address (0 + n_nonce n) = Some (AMockVerifier new_MockVerifier)).
  { rewrite Hacc, lookup_insert_ne; [done|]. apply create_address_ne; lia. }
  assert (Htb2 : n_accounts n2 !! create_address (5 + n_nonce n) = Some (ATestBlobDA (<[0 := h]> ∅)))
    by (by rewrite Hacc, lookup_insert_eq).
  fold br in Hbr. rewrite <- Hbr2 in Hbr.
  pose proof (testnet_commit_run n2 _ _ _ _ _ _ _ _ h r bd proof Hbr ltac:(congruence) Hv2 Htb2
    ltac:(pose proof (Hrange 0%nat); lia) ltac:(pose proof (Hrange 5%nat); lia) Hh ltac:(lia) Hp) as E3.
  eexists n1, n2, _, _. split; [exact E1|]. split; [exact E2|]. split; [exact E3|].
  split_and!; [|exact Hyaml|apply submitterConfig_root].
  erewrite bridge_view_run; [|fields; by rewrite lookup_insert_eq]. done.
Qed.

End laws.

(** ** Concrete runs *)

Definition testnet_env : gmap string string :=
  <["USE_MOCK_VERIFIER" := "true"]> {["DEPLOYMENT_FILE" := "/repo/deployments.json"]}.

Lemma testnet_unverifiable_witness :
  ∃ n1, @verify_runtime model_hardhat n1 =
    (Throw (JsError "Missing deployment address for bridge"), n1).
Proof.
  exists (@deploy_test_net node_evm model_hardhat (sample_net testnet_env)).2.
  apply (@testnet_deployment_unverifiable node_evm model_hardhat (sample_net testnet_env)).
  - vm_compute. reflexivity.
  - vm_compute. reflexivity.
Defined.

Lemma testnet_batch_witness :
  is_done (@deploy_test_net node_evm model_hardhat (sample_net testnet_env)).1 = true.
Proof.
  destruct (@testnet_batch_commits node_evm model_hardhat model_hardhat_laws (sample_net testnet_env)
    [x01] (replicate 256 x00)) as (n1 & _ & _ & _ & E & _).
  - vm_compute. reflexivity.
  - reflexivity.
  - reflexivity.
  - reflexivity.
  - vm_compute. left.
  - vm_compute. split; reflexivity.
  - vm_compute. split; reflexivity.
  - reflexivity.
  - rewrite E. reflexivity.
Defined.
