(* ===== verification/TokenMigration.v ===== *)
(** * Migration of bridged tokens (scripts/token-migration.ts)

    The commands that collect the tokens of the legacy bridge, from the L2 API
    page by page or from the deposit events on L1 range by range, merge two
    lists of tokens, and prepare the governance operations that move the funds,
    a given number of tokens per signature.  Loops carry fuel: [None] is an
    iteration that does not end.  The console output is not modelled. *)

From stdpp Require Import base list strings sorting.
From Stdlib Require Import ZArith Lia Ascii.
From S2P Require Import Prelude Js JsPartial Ethers DiamondCut Utils.

(** ** JavaScript objects used as sets, and arrays *)

(** [obj[key] = true]. *)
Definition add_key (keys : list string) (k : string) : list string :=
  if decide (k ∈ keys) then keys else keys ++ [k].

(** Array indices come first in [Object.keys], in numeric order. *)
Definition is_index (s : string) : bool :=
  str_forallb is_digit s && negb (String.eqb s "") &&
  (String.eqb s "0" || negb (starts_with "0" s)) && (dec_value s <? 2 ^ 32 - 1).

Definition index_le (a b : string) : Prop := dec_value a ≤ dec_value b.

#[export] Instance index_le_dec : RelDecision index_le.
Proof. intros a b. unfold index_le. apply _. Defined.

Definition object_keys (keys : list string) : list string :=
  merge_sort index_le (filter (λ k, is_index k = true) keys) ++
  filter (λ k, is_index k = false) keys.

(** [a.slice(from, to)]; negative indices count from the end. *)
Definition array_slice {A} (l : list A) (from to : Z) : list A :=
  let n := Z.of_nat (length l) in
  let clamp i := if i <? 0 then Z.max (n + i) 0 else Z.min i n in
  take (Z.to_nat (clamp to - clamp from)) (drop (Z.to_nat (clamp from)) l).

(** [+text]; a missing option is NaN. *)
Definition js_plus (o : option string) : R jsnum :=
  match o with None => mret None | Some s => Some <$> to_number s end.

(** ** Collecting the tokens *)

(** What [zks_getConfirmedTokens] returns of a token. *)
Record ApiToken := mkApiToken { l1Address : string; l2Address : string }.

Section sources.
(** [l2Provider.send("zks_getConfirmedTokens", [offset, limit])] *)
Variable send : Z → Z → outcome (list ApiToken).
(** [l1Provider.getBlockNumber()], and the tokens of the [DepositInitiated]
    events of a range of blocks, both ends included. *)
Variable getBlockNumber : outcome Z.
Variable deposits : Z → Z → outcome (list string).

Fixpoint api_pages (fuel : nat) (offset : Z) (result : list string) : R (list string) :=
  match fuel with
  | O => outside
  | S fuel' =>
      tokens ← lift (send offset 50);
      match tokens with
      | [] => mret result
      | _ => api_pages fuel' (offset + 50) (result ++ map l1Address tokens)
      end
  end.

Definition loadAllConfirmedTokensFromAPI (fuel : nat) : R (list string) := api_pages fuel 0 [].

Definition blocksRange : Z := 50000.

Fixpoint scan_blocks (fuel : nat) (startBlock endBlock : Z) (tokens : list string) : R (list string) :=
  if startBlock <=? endBlock then
    match fuel with
    | O => outside
    | S fuel' =>
        found ← lift (deposits startBlock (Z.min (startBlock + blocksRange) endBlock));
        scan_blocks fuel' (startBlock + blocksRange) endBlock (fold_left add_key found tokens)
    end
  else mret tokens.

(** A start block that is not a number makes the condition of the loop false. *)
Definition loadAllConfirmedTokensFromL1 (fuel : nat) (startBlock : jsnum) : R (list string) :=
  endBlock ← lift getBlockNumber;
  match startBlock with
  | None => mret []
  | Some b => object_keys <$> scan_blocks fuel b endBlock []
  end.

(** The action of get-confirmed-tokens: what it prints. *)
Definition get_confirmed_tokens (fuel : nat) (useL1 : bool) (startFromBlock : option string)
    (defaultBridge : outcome string) : R (list string) :=
  if useL1 then
    if str_truthy startFromBlock then
      bridge ← lift defaultBridge;
      block ← js_plus startFromBlock;
      loadAllConfirmedTokensFromL1 fuel block
    else throws (JsError "For L1 the starting block should be provided")
  else loadAllConfirmedTokensFromAPI fuel.

(** [contract.balanceOf(bridge)] of a token. *)
Variable balanceOf : string → string → outcome Z.

Fixpoint with_balance (bridge : string) (tokens : list string) : R (list string) :=
  match tokens with
  | [] => mret []
  | token :: tokens' =>
      balanceL1 ← lift (balanceOf token bridge);
      rest ← with_balance bridge tokens';
      mret (if 0 <? balanceL1 then token :: rest else rest)
  end.

(** The action of merge-confirmed-tokens on the two parsed lists. *)
Definition merge_confirmed_tokens (defaultBridge : outcome string) (fromL1 fromL2 : list string)
    : R (list string) :=
  bridge ← lift defaultBridge;
  let tokensFromL1 := map toLowerCase fromL1 in
  let tokensFromL2 := map toLowerCase fromL2 in
  let allTokens := fold_left add_key tokensFromL2 (fold_left add_key tokensFromL1 []) in
  with_balance bridge (object_keys allTokens).

End sources.

(** ** Preparing the governance operations *)

Record migration_options := mkMigrationOptions {
  sharedBridgeAddr : val;
  legacyBridgeAddr : val;
  eraChainAddr : val;
  eraChainId : val;
  gasPerToken : jsnum;
  delay : jsnum;
}.

Section operations.
Context `{EthersOps}.

(** A number handed to the ABI coder; NaN is refused. *)
Definition number_arg (n : jsnum) : R val :=
  match n with Some z => mret (VNum z) | None => throws invalid_hex end.

Definition migration_call (o : migration_options) (token : string) : R val :=
  let target := if String.eqb token ETH_ADDRESS_IN_CONTRACTS then eraChainAddr o
                else legacyBridgeAddr o in
  gas ← number_arg (gasPerToken o);
  data ← lift (or_throw invalid_hex (encodeFunctionData "L1AssetRouter" "safeTransferFundsFromLegacy"
                 [VStr token; target; eraChainId o; gas]));
  mret (VObj [("target", sharedBridgeAddr o); ("value", VNum 0); ("data", VStr data)]).

Fixpoint mapR {A B} (f : A → R B) (l : list A) : R (list B) :=
  match l with [] => mret [] | x :: l' => y ← f x; ys ← mapR f l'; mret (y :: ys) end.

Definition governance_op (calls : list val) : val :=
  VObj [("calls", VArr calls); ("predecessor", VStr HashZero); ("salt", VStr HashZero)].

Definition prepareGovernanceTokenMigrationCall (o : migration_options) (tokens : list string)
    : R (string * string) :=
  calls ← mapR (migration_call o) tokens;
  delay ← number_arg (delay o);
  scheduleCalldata ← lift (or_throw invalid_hex
    (encodeFunctionData "IGovernance" "scheduleTransparent" [governance_op calls; delay]));
  executeCalldata ← lift (or_throw invalid_hex
    (encodeFunctionData "IGovernance" "execute" [governance_op calls]));
  mret (scheduleCalldata, executeCalldata).

(** [for (i = 0; i < allTokens.length; i += tokensPerSignature)]; adding NaN
    ends the loop, and slicing up to NaN is slicing up to 0. *)
Fixpoint migration_loop (fuel : nat) (o : migration_options) (allTokens : list string) (i : Z)
    (tokensPerSignature : jsnum) : R (list (string * string)) :=
  if i <? Z.of_nat (length allTokens) then
    match fuel with
    | O => outside
    | S fuel' =>
        let to := match tokensPerSignature with
                  | Some n => Z.min (i + n) (Z.of_nat (length allTokens))
                  | None => 0
                  end in
        calldata ← prepareGovernanceTokenMigrationCall o (array_slice allTokens i to);
        rest ← (match tokensPerSignature with
                | Some n => migration_loop fuel' o allTokens (i + n) tokensPerSignature
                | None => mret []
                end);
        mret (calldata :: rest)
    end
  else mret [].

(** The action of prepare-migration-calldata: the operations it prints, to
    schedule and to execute. *)
Definition prepare_migration_calldata (fuel : nat) (o : migration_options) (tokensList : list string)
    (tokensPerSignature : option string) : R (list string * list string) :=
  let allTokens := tokensList ++ ["0x0000000000000000000000000000000000000001"] in
  n ← js_plus tokensPerSignature;
  ops ← migration_loop fuel o allTokens 0 n;
  mret (ops.*1, ops.*2).

End operations.

(** ** Loops *)

Lemma object_keys_perm keys : object_keys keys ≡ₚ keys.
Proof.
  unfold object_keys. rewrite merge_sort_Permutation.
  induction keys as [|k keys IH]; [done|]. rewrite !filter_cons.
  destruct (is_index k) eqn:E; cbn [decide decide_rel].
  - rewrite decide_True, decide_False by congruence. cbn. by rewrite IH.
  - rewrite decide_False, decide_True by congruence. by rewrite <- Permutation_middle, IH.
Qed.

Lemma add_keys_spec found tokens :
  NoDup tokens →
  NoDup (fold_left add_key found tokens) ∧
  ∀ t, t ∈ fold_left add_key found tokens ↔ t ∈ tokens ∨ t ∈ found.
Proof.
  revert tokens. induction found as [|k found IH]; intros tokens Hnd.
  - split; [done|]. intros t. cbn. rewrite elem_of_nil. tauto.
  - cbn [fold_left]. assert (Hk : NoDup (add_key tokens k) ∧ ∀ t, t ∈ add_key tokens k ↔ t ∈ tokens ∨ t = k).
    { unfold add_key. case_decide as Hin.
      - split; [done|]. intros t. split; [tauto|]. intros [|E]; [done|by subst].
      - split.
        + apply NoDup_app. split_and!; [done| |apply NoDup_singleton].
          intros x Hx E%list_elem_of_singleton. by subst.
        + intros t. by rewrite elem_of_app, list_elem_of_singleton. }
    destruct (IH _ (proj1 Hk)) as [H1 H2]. split; [done|].
    intros t. rewrite H2, (proj2 Hk), elem_of_cons. tauto.
Qed.

Section paging.
Context (send : Z → Z → outcome (list ApiToken)) (all : list ApiToken).
Hypothesis send_spec : ∀ offset limit, 0 ≤ offset → 0 ≤ limit →
  send offset limit = Done (take (Z.to_nat limit) (drop (Z.to_nat offset) all)).

Lemma api_pages_run fuel k result :
  (length all < (k + fuel - 1) * 50 + 1)%nat → (1 ≤ fuel)%nat →
  api_pages send fuel (Z.of_nat (k * 50)) result =
  Some (Done (result ++ map l1Address (drop (k * 50) all))).
Proof.
  revert k result. induction fuel as [|fuel IH]; intros k result Hf H1; [lia|]. cbn [api_pages].
  rewrite send_spec by lia. cbn [lift mbind R_bind]. rewrite Nat2Z.id.
  change (Z.to_nat 50) with 50%nat.
  destruct (decide (length all ≤ k * 50)%nat) as [Hle|Hgt].
  - rewrite (drop_ge all), take_nil by lia. cbn [map]. by rewrite app_nil_r.
  - destruct (take 50 (drop (k * 50) all)) as [|t ts] eqn:E.
    + exfalso. assert (El : length (take 50 (drop (k * 50) all)) = 0%nat) by (by rewrite E).
      rewrite length_take, length_drop in El. lia.
    + rewrite <- E. replace (Z.of_nat (k * 50) + 50) with (Z.of_nat (S k * 50)) by lia.
      rewrite IH by lia. rewrite <- app_assoc, <- map_app. do 4 f_equal.
      replace (S k * 50)%nat with (k * 50 + 50)%nat by lia. by rewrite <- drop_drop, take_drop.
Qed.
End paging.

Section scanning.
Context (deposits : Z → Z → outcome (list string)) (events : list (Z * string)).
Hypothesis deposits_spec : ∀ a b,
  deposits a b = Done (filter (λ e : Z * string, a ≤ e.1 ≤ b) events).*2.

(** Consecutive ranges share a block, and no block is left out. *)
Lemma scan_blocks_run fuel startBlock endBlock tokens :
  NoDup tokens → endBlock < startBlock + Z.of_nat fuel * blocksRange →
  ∃ r, scan_blocks deposits fuel startBlock endBlock tokens = Some (Done r) ∧ NoDup r ∧
    ∀ t, t ∈ r ↔ t ∈ tokens ∨ ∃ b, (b, t) ∈ events ∧ startBlock ≤ b ≤ endBlock.
Proof.
  unfold blocksRange. revert startBlock tokens.
  induction fuel as [|fuel IH]; intros startBlock tokens Hnd Hf; cbn [scan_blocks].
  - rewrite (proj2 (Z.leb_gt _ _)) by lia. exists tokens. split_and!; [done..|].
    intros t. split; [tauto|]. intros [|(b & _ & ?)]; [done|lia].
  - destruct (Z.leb_spec startBlock endBlock).
    + rewrite deposits_spec. cbn [lift mbind R_bind]. unfold blocksRange.
      set (found := (filter _ events).*2). destruct (add_keys_spec found tokens Hnd) as [Hnd' Hin].
      destruct (IH (startBlock + 50000) (fold_left add_key found tokens) Hnd' ltac:(lia))
        as (r & Hr & Hndr & Hr').
      exists r. split_and!; [done..|]. intros t. rewrite Hr', Hin. unfold found.
      rewrite list_elem_of_fmap. setoid_rewrite list_elem_of_filter. split.
      * intros [[?|([b u] & Eu & Hb & He)]|(b & He & Hb)]; [by left| |].
        -- right. exists b. cbn in Eu, Hb. subst u. split; [done|lia].
        -- right. exists b. split; [done|lia].
      * intros [?|(b & He & Hb)]; [by left; left|].
        destruct (decide (b ≤ startBlock + 50000)).
        -- left. right. exists (b, t). cbn. split_and!; [done|lia..|done].
        -- right. exists b. split; [done|lia].
    + exists tokens. split_and!; [done..|]. intros t. split; [tauto|].
      intros [|(b & _ & ?)]; [done|lia].
Qed.
End scanning.

Lemma with_balance_run (balanceOf : string → string → outcome Z) (balance : string → Z) bridge tokens :
  (∀ t, t ∈ tokens → balanceOf t bridge = Done (balance t)) →
  with_balance balanceOf bridge tokens = Some (Done (filter (λ t, 0 < balance t) tokens)).
Proof.
  induction tokens as [|t tokens IH]; intros Hb; [done|]. cbn [with_balance].
  rewrite Hb by constructor. cbn [lift mbind R_bind].
  rewrite IH by (intros; apply Hb; by constructor). cbn [mbind R_bind]. rewrite filter_cons.
  unfold mret, R_ret. destruct (Z.ltb_spec 0 (balance t)).
  - by rewrite decide_True by lia.
  - by rewrite decide_False by lia.
Qed.

Lemma array_slice_within {A} (l : list A) (i n : nat) :
  (i < length l)%nat →
  array_slice l (Z.of_nat i) (Z.min (Z.of_nat i + Z.of_nat n) (Z.of_nat (length l))) =
  take n (drop i l).
Proof.
  intros Hi. unfold array_slice. rewrite !(proj2 (Z.ltb_ge _ _)) by lia.
  replace (Z.to_nat (Z.min (Z.of_nat i) (Z.of_nat (length l)))) with i by lia.
  destruct (decide (i + n ≤ length l)%nat).
  - f_equal. lia.
  - rewrite !take_ge; [done|rewrite length_drop; lia..].
Qed.

Lemma array_slice_nothing {A} (l : list A) : array_slice l 0 0 = [].
Proof. unfold array_slice. cbn [Z.ltb Z.compare]. by rewrite Z.sub_diag. Qed.

(** ** What the operations are *)

(** The call that moves one token: the shared bridge takes it, without ether,
    from the Era chain if it is ether and from the legacy bridge otherwise. *)
Definition moves `{EthersOps} (o : migration_options) (gas : Z) (token : string) (call : val) : Prop :=
  ∃ data holder, call = VObj [("target", sharedBridgeAddr o); ("value", VNum 0); ("data", VStr data)] ∧
    encodeFunctionData "L1AssetRouter" "safeTransferFundsFromLegacy"
      [VStr token; holder; eraChainId o; VNum gas] = Some data ∧
    (token = ETH_ADDRESS_IN_CONTRACTS → holder = eraChainAddr o) ∧
    (token ≠ ETH_ADDRESS_IN_CONTRACTS → holder = legacyBridgeAddr o).

(** The two texts to sign for some tokens: the calls that schedule and execute
    one operation, without predecessor, that moves each of them once, in order. *)
Definition migrates `{EthersOps} (o : migration_options) (gas dl : Z) (tokens : list string)
    (signed : string * string) : Prop :=
  ∃ calls, Forall2 (moves o gas) tokens calls ∧
    let op := VObj [("calls", VArr calls); ("predecessor", VStr HashZero); ("salt", VStr HashZero)] in
    encodeFunctionData "IGovernance" "scheduleTransparent" [op; VNum dl] = Some signed.1 ∧
    encodeFunctionData "IGovernance" "execute" [op] = Some signed.2.

Section chunks.
Context `{EthersOps} (o : migration_options) (gas dl : Z).
Hypotheses (Hgas : gasPerToken o = Some gas) (Hdelay : delay o = Some dl).
Context (allTokens : list string).

Lemma migration_call_spec t x :
  migration_call o t = x →
  (∃ call, x = Some (Done call) ∧ ∀ call', moves o gas t call' ↔ call' = call) ∨
  x = Some (Throw invalid_hex) ∧ ∀ call, ¬ moves o gas t call.
Proof.
  intros <-. unfold migration_call. rewrite Hgas. cbn [number_arg mret R_ret mbind R_bind].
  set (holder := if String.eqb t ETH_ADDRESS_IN_CONTRACTS then eraChainAddr o else legacyBridgeAddr o).
  assert (Hh : ∀ h, ((t = ETH_ADDRESS_IN_CONTRACTS → h = eraChainAddr o) ∧
    (t ≠ ETH_ADDRESS_IN_CONTRACTS → h = legacyBridgeAddr o)) ↔ h = holder).
  { intros h. unfold holder. destruct (String.eqb_spec t ETH_ADDRESS_IN_CONTRACTS); naive_solver. }
  destruct (encodeFunctionData _ _ [VStr t; holder; eraChainId o; VNum gas]) as [data|] eqn:E.
  - left. eexists. split; [reflexivity|]. intros call'. split.
    + intros (d & h & -> & E' & Hth). apply Hh in Hth as ->. congruence.
    + intros ->. exists data, holder. by rewrite Hh.
  - right. split; [done|]. intros call (d & h & -> & E' & Hth). apply Hh in Hth as ->. congruence.
Qed.

Lemma migration_calls_spec tokens :
  (∃ calls, mapR (migration_call o) tokens = Some (Done calls) ∧
     ∀ calls', Forall2 (moves o gas) tokens calls' ↔ calls' = calls) ∨
  mapR (migration_call o) tokens = Some (Throw invalid_hex) ∧ ∀ calls, ¬ Forall2 (moves o gas) tokens calls.
Proof.
  induction tokens as [|t tokens IH]; cbn [mapR].
  { left. exists []. split; [done|]. intros calls'. split; [by intros ?%Forall2_nil_inv_l|intros ->; constructor]. }
  destruct (migration_call_spec t _ eq_refl) as [(call & -> & Hc)|[-> Hc]]; cbn [mbind R_bind].
  - destruct IH as [(calls & -> & Hcs)|[-> Hcs]]; cbn [mbind R_bind]; [left|right].
    + exists (call :: calls). split; [done|]. intros calls'. split.
      * intros (c & cs & ->%Hc & ->%Hcs & ->)%Forall2_cons_inv_l. done.
      * intros ->. constructor; [by apply Hc|by apply Hcs].
    + split; [done|]. intros calls' (? & ? & _ & Hf & _)%Forall2_cons_inv_l. by eapply Hcs.
  - right. split; [done|]. intros calls' (? & ? & Hm & _ & _)%Forall2_cons_inv_l. by eapply Hc.
Qed.

(** An operation is prepared, or it cannot be encoded. *)
Lemma prepare_spec tokens :
  (∃ op, prepareGovernanceTokenMigrationCall o tokens = Some (Done op) ∧ migrates o gas dl tokens op) ∨
  prepareGovernanceTokenMigrationCall o tokens = Some (Throw invalid_hex) ∧ ∀ op, ¬ migrates o gas dl tokens op.
Proof.
  unfold prepareGovernanceTokenMigrationCall, migrates.
  destruct (migration_calls_spec tokens) as [(calls & -> & Hc)|[-> Hc]]; cbn [mbind R_bind].
  2:{ right. split; [done|]. intros op (calls & Hf & _). by eapply Hc. }
  rewrite Hdelay. cbn [number_arg mret R_ret mbind R_bind]. setoid_rewrite Hc. unfold governance_op.
  destruct (encodeFunctionData "IGovernance" "scheduleTransparent" _) as [sch|] eqn:E1; cbn [or_throw lift mbind R_bind].
  2:{ right. split; [done|]. intros op (? & -> & E & _). congruence. }
  destruct (encodeFunctionData "IGovernance" "execute" _) as [exe|] eqn:E2; cbn [or_throw lift mbind R_bind].
  2:{ right. split; [done|]. intros op (? & -> & _ & E). congruence. }
  left. exists (sch, exe). split; [done|]. by exists calls.
Qed.

(** The result of the command on groups of tokens: one operation for each, or
    the error of the encoder, if some group cannot be encoded. *)
Definition signs (chunks : list (list string)) (r : outcome (list (string * string))) : Prop :=
  (∃ ops, r = Done ops ∧ Forall2 (migrates o gas dl) chunks ops) ∨
  r = Throw invalid_hex ∧ Exists (λ c, ∀ op, ¬ migrates o gas dl c op) chunks.

Lemma signs_cons c chunks r :
  signs chunks r →
  ∃ r', signs (c :: chunks) r' ∧
    (x ← prepareGovernanceTokenMigrationCall o c; rest ← Some r; mret (x :: rest)) = Some r'.
Proof.
  intros Hr. destruct (prepare_spec c) as [(op & -> & Hop)|[-> Hop]]; cbn [mbind R_bind].
  - destruct Hr as [(ops & -> & Hops)|[-> Hex]]; (eexists; split; [|reflexivity]); [left|right].
    + exists (op :: ops). split; [done|by constructor].
    + split; [done|by right].
  - eexists. split; [|reflexivity]. right. split; [done|by left].
Qed.

(** Groups of [n] from position [i] on. *)
Definition grouped (n i : nat) (chunks : list (list string)) : Prop :=
  concat chunks = drop i allTokens ∧
  ∀ j c, chunks !! j = Some c → c = take n (drop (i + j * n) allTokens) ∧ c ≠ [].

Lemma grouped_nil n i : (length allTokens ≤ i)%nat → grouped n i [].
Proof. intros Hi. split; [by rewrite drop_ge|done]. Qed.

Lemma grouped_cons n i chunks :
  (0 < n)%nat → (i < length allTokens)%nat → grouped n (i + n) chunks →
  grouped n i (take n (drop i allTokens) :: chunks).
Proof.
  intros Hn Hi [Hc Hg]. split; [cbn [concat]; by rewrite Hc, <- drop_drop, take_drop|].
  intros [|j] c Hj.
  - injection Hj as <-. split; [by rewrite Nat.add_0_r|]. intros E%(f_equal length).
    rewrite length_take, length_drop in E. cbn in E. lia.
  - destruct (Hg j c Hj) as [-> Hne]. split; [|done]. do 2 f_equal. lia.
Qed.

Lemma migration_loop_run fuel (i n : nat) :
  (0 < n)%nat → (length allTokens ≤ i + fuel)%nat →
  ∃ chunks r, migration_loop fuel o allTokens (Z.of_nat i) (Some (Z.of_nat n)) = Some r ∧
    grouped n i chunks ∧ signs chunks r.
Proof.
  intros Hn. assert (Hnil : signs [] (Done [])) by (left; by exists []).
  revert i. induction fuel as [|fuel IH]; intros i Hf; cbn [migration_loop].
  - rewrite (proj2 (Z.ltb_ge _ _)) by lia. exists [], (Done []). split_and!; [done|apply grouped_nil; lia|done].
  - destruct (Z.ltb_spec (Z.of_nat i) (Z.of_nat (length allTokens))) as [Hi|Hi].
    2:{ exists [], (Done []). split_and!; [done|apply grouped_nil; lia|done]. }
    rewrite array_slice_within by lia.
    destruct (IH (i + n)%nat ltac:(lia)) as (chunks & r & Hl & Hg & Hs).
    rewrite <- Nat2Z.inj_add, Hl.
    destruct (signs_cons (take n (drop i allTokens)) chunks r Hs) as (r' & Hs' & Er).
    exists (take n (drop i allTokens) :: chunks), r'. split_and!; [exact Er|apply grouped_cons; [done|lia|done]|done].
Qed.
End chunks.

(** ** Properties *)

(** the paging loop over the API ends, and returns the L1 address of every
    token of the list the API pages, in order. *)
Theorem api_tokens_complete (send : Z → Z → outcome (list ApiToken)) (all : list ApiToken) fuel :
  (∀ offset limit, 0 ≤ offset → 0 ≤ limit →
     send offset limit = Done (take (Z.to_nat limit) (drop (Z.to_nat offset) all))) →
  (length all ≤ 50 * fuel)%nat →
  loadAllConfirmedTokensFromAPI send (S fuel) = Some (Done (map l1Address all)).
Proof.
  intros Hs Hf. unfold loadAllConfirmedTokensFromAPI.
  pose proof (api_pages_run send all Hs (S fuel) 0 [] ltac:(lia) ltac:(lia)) as E. exact E.
Qed.

(** the scan of the L1 blocks ends; the tokens it returns are distinct, and
    are exactly those deposited in the blocks from the start block to the
    current one. *)
Theorem l1_tokens_complete getBlockNumber deposits (events : list (Z * string)) startBlock endBlock fuel :
  getBlockNumber = Done endBlock →
  (∀ a b, deposits a b = Done (filter (λ e : Z * string, a ≤ e.1 ≤ b) events).*2) →
  endBlock - startBlock < Z.of_nat fuel * 50000 →
  ∃ tokens,
    loadAllConfirmedTokensFromL1 getBlockNumber deposits fuel (Some startBlock) = Some (Done tokens) ∧
    NoDup tokens ∧ ∀ t, t ∈ tokens ↔ ∃ b, (b, t) ∈ events ∧ startBlock ≤ b ≤ endBlock.
Proof.
  intros Hb Hd Hf. unfold loadAllConfirmedTokensFromL1. rewrite Hb. cbn [lift mbind R_bind].
  destruct (scan_blocks_run deposits events Hd fuel startBlock endBlock [] ltac:(constructor))
    as (r & Hr & Hnd & Hin); [unfold blocksRange; lia|].
  exists (object_keys r). split_and!.
  - by apply R_fmap_run.
  - by rewrite object_keys_perm.
  - intros t. rewrite object_keys_perm, Hin, elem_of_nil. tauto.
Qed.

(** merging two lists of tokens returns each token of either list once, up
    to the case of its letters, if the bridge has a positive balance of it. *)
Theorem merge_tokens_spec balanceOf (balance : string → Z) bridge fromL1 fromL2 :
  (∀ t, balanceOf t bridge = Done (balance t)) →
  ∃ tokens, merge_confirmed_tokens balanceOf (Done bridge) fromL1 fromL2 = Some (Done tokens) ∧
    NoDup tokens ∧
    ∀ t, t ∈ tokens ↔ 0 < balance t ∧ ∃ u, (u ∈ fromL1 ∨ u ∈ fromL2) ∧ t = toLowerCase u.
Proof.
  intros Hb. unfold merge_confirmed_tokens. cbn [lift mbind R_bind].
  destruct (add_keys_spec (map toLowerCase fromL1) [] ltac:(constructor)) as [H1 E1].
  destruct (add_keys_spec (map toLowerCase fromL2) _ H1) as [H2 E2].
  eexists. split_and!.
  - by apply with_balance_run.
  - apply NoDup_filter. by rewrite object_keys_perm.
  - intros t. rewrite list_elem_of_filter, object_keys_perm, E2, E1, elem_of_nil.
    rewrite !list_elem_of_fmap. naive_solver.
Qed.


(** without the option --tokens-per-signature one operation without any
    call is prepared, whatever the list of tokens; with 0 the command never
    ends. *)
Theorem migration_needs_group_size `{EthersOps} o tokensList op :
  prepareGovernanceTokenMigrationCall o [] = Some (Done op) →
  (∀ fuel, prepare_migration_calldata (S fuel) o tokensList None = Some (Done ([op.1], [op.2]))) ∧
  (∀ fuel, prepare_migration_calldata fuel o tokensList (Some "0") = None).
Proof.
  intros Hop. assert (Hpos : (0 <? Z.of_nat (length (tokensList ++ [ETH_ADDRESS_IN_CONTRACTS]))) = true).
  { apply Z.ltb_lt. rewrite length_app. cbn. lia. }
  unfold ETH_ADDRESS_IN_CONTRACTS, ADDRESS_ONE in Hpos. split; intros fuel.
  - unfold prepare_migration_calldata. cbn [js_plus mret R_ret mbind R_bind migration_loop].
    rewrite Hpos, array_slice_nothing, Hop. by destruct op.
  - unfold prepare_migration_calldata. change (js_plus (Some "0")) with (Some (Done (Some 0)) : R jsnum).
    cbn [mbind R_bind]. induction fuel as [|fuel IH]; cbn [migration_loop]; rewrite Hpos; [done|].
    rewrite Z.min_l, Z.add_0_r, array_slice_nothing, Hop by lia. cbn [mbind R_bind].
    destruct (migration_loop fuel o _ 0 (Some 0)) as [[]|]; done.
Qed.

(** ** Witnesses *)

Definition sample_tokens : list ApiToken := replicate 60 (mkApiToken "0xaa" "0xbb").
Definition sample_send (offset limit : Z) : outcome (list ApiToken) :=
  Done (take (Z.to_nat limit) (drop (Z.to_nat offset) sample_tokens)).

Lemma api_tokens_witness :
  loadAllConfirmedTokensFromAPI sample_send 3 = Some (Done (map l1Address sample_tokens)).
Proof. apply (api_tokens_complete sample_send sample_tokens 2); [done|]. vm_compute. lia. Defined.

Definition sample_events : list (Z * string) := [(100, "0xaa"); (50100, "0xbb"); (50101, "0xaa"); (90000, "0xcc")].
Definition sample_deposits (a b : Z) : outcome (list string) :=
  Done (filter (λ e : Z * string, a ≤ e.1 ≤ b) sample_events).*2.

Lemma l1_tokens_witness :
  ∃ tokens, loadAllConfirmedTokensFromL1 (Done 80000) sample_deposits 2 (Some 100) = Some (Done tokens) ∧
    NoDup tokens ∧ ∀ t, t ∈ tokens ↔ ∃ b, (b, t) ∈ sample_events ∧ 100 ≤ b ≤ 80000.
Proof.
  apply (l1_tokens_complete (Done 80000) sample_deposits sample_events 100 80000 2);
    [reflexivity|reflexivity|lia].
Defined.

Definition sample_balance (t : string) : Z := if String.eqb t "0xaa" then 7 else 0.

Lemma merge_tokens_witness :
  ∃ tokens, merge_confirmed_tokens (λ t _, Done (sample_balance t)) (Done "0x01") ["0xAA"; "0xbb"] ["0xaa"] =
      Some (Done tokens) ∧ NoDup tokens ∧
    ∀ t, t ∈ tokens ↔ 0 < sample_balance t ∧ ∃ u, (u ∈ ["0xAA"; "0xbb"] ∨ u ∈ ["0xaa"]) ∧ t = toLowerCase u.
Proof. apply (merge_tokens_spec _ sample_balance). reflexivity. Defined.

Definition sample_options : migration_options :=
  mkMigrationOptions (VStr "0x01") (VStr "0x02") (VStr "0x03") (VStr "324") (Some 1000) (Some 0).


Lemma migration_group_witness :
  ∃ op, (∀ fuel, @prepare_migration_calldata model_ethers (S fuel) sample_options ["0xaa"] None =
      Some (Done ([op.1], [op.2]))) ∧
    (∀ fuel, @prepare_migration_calldata model_ethers fuel sample_options ["0xaa"] (Some "0") = None).
Proof.
  eexists. apply (@migration_needs_group_size model_ethers sample_options ["0xaa"]). reflexivity.
Defined.
