(* ===== verification/StorageReader.v ===== *)
(** * Reading contract storage by variable name

    scripts/read-variable.ts decodes a variable from raw storage words and the
    storage layout the Solidity compiler emits.  The section variables are what
    the script gets from elsewhere: [provider] answers [eth_getStorageAt],
    [types] is the [types] object of the layout.  The results are in the monad
    [R], whose fuel bounds the nesting of types; the theorems show that the
    variables they speak of are never outside the model.  The cache of the
    script is keyed by the identity of a BigNumber object and only saves
    requests, so [getStorageAt] is the request. *)

From stdpp Require Import base list strings pretty.
From Stdlib Require Import ZArith Lia Strings.Byte Ascii.
From S2P Require Import Prelude Js JsPartial Ethers.

(** ** The storage layout and the library calls *)

Record member := mkMember {
  m_label : string;
  m_slot : string;
  m_offset : Z;
  m_type : string;
}.

(** An entry of [types]; a field the compiler leaves out is [None]. *)
Record TypeNode := mkType {
  t_label : string;
  encoding : string;
  numberOfBytes : string;
  base : option string;
  key : option string;
  value : option string;
  members : list member;
}.

(** An entry of [storage]. *)
Record variable := mkVariable {
  v_label : string;
  v_slot : string;
  v_offset : Z;
  v_type : string;
}.

Record Layout := mkLayout {
  l_types : list (string * TypeNode);
  l_storage : list variable;
}.

(** The calls of ethers this script makes and the others do not. *)
Class DecoderOps := {
  (** [defaultAbiCoder.decode([label], data).toString()] *)
  abi_decode : string → string → option string;
  toUtf8String : string → option string;
  toUtf8Bytes : string → option bytes;
  (** [solidityKeccak256(["uint"], [n])] *)
  solidityKeccak256_uint : Z → option string;
}.

Section reader.
Context `{EthersOps} `{DecoderOps}.
Variable provider : string → Z → outcome string.
Variable address : string.
Variable types : list (string * TypeNode).

Definition getStorageAt (slot : Z) : R string := lift (provider address slot).

(** [types[t]], whose fields are read at once. *)
Definition type_of (t : string) : R TypeNode :=
  match head (filter (λ p : string * TypeNode, p.1 = t) types) with
  | Some p => mret p.2
  | None => throws (JsTypeError "Cannot read properties of undefined")
  end.

Definition bad_bignum : js_error := EthersError "INVALID_ARGUMENT".

(** ** Elementary values *)

Definition readBytes (slot shift bytes : Z) : R string :=
  data ← getStorageAt slot;
  mret ("0x" +:+ js_substr data (66 - bytes * 2 - shift * 2) (bytes * 2)).

(** The slot at which the contents of a dynamic value start. *)
Definition data_slot (slot : Z) : R Z :=
  hash ← lift (or_throw bad_bignum (solidityKeccak256_uint slot));
  lift (or_throw bad_bignum (bignum_from hash)).

(** The loop over the slots of a long byte string: every slot but the last is
    taken whole. *)
Fixpoint readSlots (n : nat) (slot lastLength : Z) : R string :=
  match n with
  | O => mret ""
  | S n' =>
      data ← getStorageAt slot;
      rest ← readSlots n' (slot + 1) lastLength;
      mret (js_substr data 2 (if (n' =? 0)%nat then lastLength * 2 else 64) +:+ rest)
  end.

(** The branch of a string of 32 bytes or more; NaN runs no iteration. *)
Definition readLongBytes (data : string) (slot : Z) : R string :=
  match js_parseInt16 data with
  | Some whole =>
      if Z.even whole || (MAX_SAFE <=? whole) then outside
      else
        let length := (whole - 1) / 2 in
        firstSlot ← data_slot slot;
        hex ← readSlots (Z.to_nat ((length + 31) / 32)) firstSlot (Z.rem length 32);
        mret ("0x" +:+ hex)
  | None => firstSlot ← data_slot slot; mret "0x"
  end.

Definition readDynamicBytes (slot : Z) : R string :=
  data ← getStorageAt slot;
  match js_parseInt16 (js_substr data 64 2) with
  | Some low =>
      if Z.rem low 2 =? 0 then mret ("0x" +:+ js_substr data 2 (2 * (low / 2)))
      else readLongBytes data slot
  | None => readLongBytes data slot
  end.

Definition readString (slot : Z) : R string :=
  hex ← readDynamicBytes slot;
  lift (or_throw bad_bignum (toUtf8String hex)).

Definition readNumber (slot shift : Z) (label : string) : R string :=
  bits ← to_number (if String.eqb (js_substr label 0 3) "int"
                    then js_slice 3 label else js_slice 4 label);
  if negb (bits mod 8 =? 0) then outside
  else
    data ← readBytes slot shift (bits / 8);
    data ← lift (or_throw bad_bignum (hexZeroPad data 32));
    lift (or_throw bad_bignum (abi_decode label data)).

Definition readBoolean (slot shift : Z) : R bool :=
  n ← readNumber slot shift "uint8";
  mret (negb (String.eqb n "0")).

Definition readAddress (slot shift : Z) : R string := readBytes slot shift 20.

Definition readEnum (slot shift bytes : Z) : R string :=
  readNumber slot shift ("uint" +:+ pretty (bytes * 8)).

Definition readPrimitive (slot shift : Z) (type : string) : R val :=
  if starts_with "t_int" type || starts_with "t_uint" type then
    t ← type_of type; VStr <$> readNumber slot shift (t_label t)
  else if String.eqb type "t_bool" then VBool <$> readBoolean slot shift
  else if String.eqb type "t_address" || String.eqb type "t_address_payable" then
    VStr <$> readAddress slot shift
  else if String.eqb type "t_bytes_storage" then VStr <$> readDynamicBytes slot
  else if starts_with "t_bytes" type then
    t ← type_of type; n ← to_number (numberOfBytes t); VStr <$> readBytes slot shift n
  else if String.eqb type "t_string_storage" then VStr <$> readString slot
  else if starts_with "t_enum" type then
    t ← type_of type; n ← to_number (numberOfBytes t); VStr <$> readEnum slot shift n
  else mret VUndef.

(** ** Structs and arrays *)

(** [Map.set]: an existing key keeps its place. *)
Fixpoint map_set {A} (k : string) (v : A) (l : list (string * A)) : list (string * A) :=
  match l with
  | [] => [(k, v)]
  | (k', v') :: l' => if decide (k' = k) then (k, v) :: l' else (k', v') :: map_set k v l'
  end.

Section nested.
(** [readVariable] on the nested types. *)
Variable rv : Z → Z → string → R val.

Fixpoint readMembers (ms : list member) (slot : Z) (data : list (string * val))
    : R (list (string * val)) :=
  match ms with
  | [] => mret data
  | m :: ms' =>
      s ← lift (bn_add slot (js_parseInt10 (m_slot m)));
      v ← rv s (m_offset m) (m_type m);
      readMembers ms' slot (map_set (m_label m) v data)
  end.

Definition readStruct (slot : Z) (type : string) : R val :=
  t ← type_of type; VObj <$> readMembers (members t) slot [].

(** The loop over elements of less than a slot: [shift] is the offset of the
    previous element. *)
Fixpoint packedCells (n : nat) (slot shift baseBytes : Z) (baseType : string) : R (list val) :=
  match n with
  | O => mret []
  | S n' =>
      let shift := shift + baseBytes in
      let '(slot, shift) := if 32 <? shift + baseBytes then (slot + 1, 0) else (slot, shift) in
      v ← rv slot shift baseType;
      vs ← packedCells n' slot shift baseBytes baseType;
      mret (v :: vs)
  end.

(** [a / b] as a JavaScript number that BigNumber.from accepts. *)
Definition exact_div (a b : Z) : outcome jsnum :=
  if a mod b =? 0 then Done (Some (a / b)) else Throw (EthersError "NUMERIC_FAULT").

(** The loop over elements of whole slots. *)
Fixpoint wideCells (n : nat) (slot baseBytes : Z) (baseType : string) : R (list val) :=
  match n with
  | O => mret []
  | S n' =>
      step ← lift (exact_div baseBytes 32);
      next ← lift (bn_add slot step);
      v ← rv slot 0 baseType;
      vs ← wideCells n' next baseBytes baseType;
      mret (v :: vs)
  end.

(** The number of elements of an array, and the slot of the first. *)
Definition arrayHead (slot : Z) (type : string) (t : TypeNode) : R (Z * Z) :=
  if String.eqb (encoding t) "dynamic_array" then
    n ← readNumber slot 0 "uint256";
    length ← to_number n;
    first ← data_slot slot;
    mret (length, first)
  else
    mret (default 0 (js_parseInt10 (js_substring type (js_lastIndexOf ")" type + 1)
                                      (js_lastIndexOf "_" type))), slot).

Definition readArray (slot : Z) (type : string) : R val :=
  t ← type_of type;
  let baseType := js_show (base t) in
  '(length, slot) ← arrayHead slot type t;
  b ← type_of baseType;
  baseBytes ← to_number (numberOfBytes b);
  VArr <$> (if baseBytes <? 32
            then packedCells (Z.to_nat length) slot (- baseBytes) baseBytes baseType
            else wideCells (Z.to_nat length) slot baseBytes baseType).

End nested.

Fixpoint readVariable (fuel : nat) (slot shift : Z) (type : string) : R val :=
  match fuel with
  | O => outside
  | S fuel' =>
      if starts_with "t_array" type then readArray (readVariable fuel') slot type
      else if starts_with "t_struct" type then readStruct (readVariable fuel') slot type
      else readPrimitive slot shift type
  end.

(** ** Parts of a variable *)

(** [+key] handed to the ABI coder. *)
Definition encodeKey (key type : string) : R string :=
  if String.eqb type "t_bool" then
    lift (or_throw bad_bignum (abi_encode ["bool"]
      [VBool (negb (String.eqb key "false" || String.eqb key "0"))]))
  else if String.eqb type "t_address" || String.eqb type "t_address_payable" then
    mret ("0x" +:+ padStart0 64 (if (String.length key =? 42)%nat then js_slice 2 key else key))
  else if String.eqb type "t_string_memory_ptr" then
    hexlify <$> lift (or_throw bad_bignum (toUtf8Bytes key))
  else if String.eqb type "t_bytes_memory_ptr" then
    mret (if String.eqb (js_substr key 0 2) "0x" then key else "0x" +:+ key)
  else
    t ← type_of type;
    n ← to_number key;
    lift (or_throw bad_bignum (abi_encode [t_label t] [VNum n])).

Section parts.
(** [readPartOfVariable] on the rest of [params]. *)
Variable part : Z → Z → string → R val.

Definition readPartOfStruct (slot : Z) (type last : string) : R val :=
  t ← type_of type;
  match head (filter (λ m, m_label m = last) (members t)) with
  | None => throws (JsError "Invalid field name of struct")
  | Some m =>
      s ← lift (bn_add slot (js_parseInt10 (m_slot m)));
      part s (m_offset m) (m_type m)
  end.

Definition readPartOfArray (slot : Z) (type last : string) : R val :=
  index ← to_number last;
  t ← type_of type;
  let baseType := js_show (base t) in
  slot ← (if String.eqb (encoding t) "dynamic_array" then data_slot slot else mret slot);
  b ← type_of baseType;
  baseBytes ← to_number (numberOfBytes b);
  if baseBytes <? 32 then
    let inOne := 32 / baseBytes in
    slot ← lift (bn_add slot (Some (index / inOne)));
    part slot (baseBytes * Z.rem index inOne) baseType
  else if MAX_SAFE <=? Z.abs (index * baseBytes) then outside
  else
    n ← lift (exact_div (index * baseBytes) 32);
    slot ← lift (bn_add slot n);
    part slot 0 baseType.

Definition readPartOfMap (slot : Z) (type key' : string) : R val :=
  t ← type_of type;
  encodedKey ← encodeKey key' (js_show (key t));
  encodedSlot ← lift (or_throw bad_bignum (abi_encode ["uint"] [VNum slot]));
  bytes ← lift (or_throw bad_bignum (arrayify (encodedKey +:+ js_slice 2 encodedSlot)));
  slot ← lift (or_throw bad_bignum (bignum_from (hexlify (keccak bytes))));
  part slot 0 (js_show (value t)).

End parts.

(** [params] in the order in which [pop] takes them. *)
Fixpoint readParts (fuel : nat) (params : list string) (slot shift : Z) (type : string) : R val :=
  match params with
  | [] => readVariable fuel slot shift type
  | last :: params' =>
      if starts_with "t_array" type then readPartOfArray (readParts fuel params') slot type last
      else if starts_with "t_struct" type then
        readPartOfStruct (readParts fuel params') slot type last
      else
        t ← type_of type;
        if String.eqb (encoding t) "mapping" then
          readPartOfMap (readParts fuel params') slot type last
        else readPrimitive slot shift type
  end.

Definition readPartOfVariable (fuel : nat) (slot shift : Z) (type : string) (params : list string)
    : R val :=
  readParts fuel (rev params) slot shift type.

End reader.

(** ** Names *)

Definition bad_name : js_error :=
  JsError "Field names, keys cannot contain square brackets or points".

(** The loop of [parseName] from the first point or bracket on; [isFirst] is
    [i === first]. *)
Fixpoint scanName (s : string) (isFirst bracket : bool) (str : string) (result : list string)
    : outcome (list string) :=
  match s with
  | EmptyString => if bracket then Throw (JsError "Invalid name") else Done (result ++ [str])
  | String c s' =>
      let pushed := if isFirst then result else result ++ [str] in
      if Ascii.eqb c "." then
        if bracket then Throw bad_name else scanName s' false bracket "" pushed
      else if Ascii.eqb c "[" then
        if bracket then Throw bad_name else scanName s' false true "" pushed
      else if Ascii.eqb c "]" then
        if negb bracket then Throw bad_name else scanName s' false false str result
      else scanName s' false bracket (str +:+ String c "") result
  end.

Definition parseName (fullName : string) : outcome (list string) :=
  let firstPoint := js_indexOf "." fullName in
  let firstBracket := js_indexOf "[" fullName in
  if (firstPoint =? -1) && (firstBracket =? -1) then Done []
  else
    let first := if firstPoint =? -1 then firstBracket
                 else if firstBracket =? -1 then firstPoint
                 else Z.min firstPoint firstBracket in
    result ← scanName (js_slice (Z.to_nat first) fullName) true false "" [];
    mret (rev result).

Definition getVariableName (fullName : string) : string :=
  let variableName :=
    if js_indexOf "[" fullName =? -1 then fullName
    else js_substr fullName 0 (js_indexOf "[" fullName) in
  if js_indexOf "." variableName =? -1 then variableName
  else js_substr variableName 0 (js_indexOf "." variableName).

(** ** Looking a variable up *)

(** The artifacts of the project: the fully qualified names, and the storage
    layout in the build information of one of them. *)
Record Artifacts := mkArtifacts {
  allFullyQualifiedNames : outcome (list string);
  storageLayout : string → string → string → outcome Layout;
}.

(** From contract name to qualified name and file; a later entry replaces an
    earlier one. *)
Definition contractMap (names : list string) : list (string * (string * string)) :=
  fold_left (λ acc fullName,
    let parts := js_split ":" fullName in
    map_set (js_show (parts !! 1%nat)) (fullName, js_show (parts !! 0%nat)) acc) names [].

Definition getValue `{EthersOps} `{DecoderOps} (provider : string → Z → outcome string)
    (artifacts : Artifacts) (fuel : nat) (address contractName name : string) : R val :=
  names ← lift (allFullyQualifiedNames artifacts);
  match head (filter (λ p : string * (string * string), p.1 = contractName) (contractMap names)) with
  | None => throws (JsError ("Unknown contract name, available contracts: " +:+
                             js_join "," (contractMap names).*1))
  | Some (_, (fullName, file)) =>
      layout ← lift (storageLayout artifacts fullName file contractName);
      params ← lift (parseName name);
      match last (filter (λ v, v_label v = getVariableName name) (l_storage layout)) with
      | None => throws (JsError "Invalid name")
      | Some variable =>
          slot ← lift (or_throw bad_bignum (bignum_from (v_slot variable)));
          readPartOfVariable provider address (l_types layout) fuel slot (v_offset variable)
            (v_type variable) params
      end
  end.
