(* ===== verification/StorageProofs.v ===== *)
(** * The storage reader against the layout rules of Solidity

    [holds] states, from the layout rules of the Solidity documentation, that a
    storage contains a value at a place; the reader returns exactly that value.
    Reading a part of a variable agrees with reading the variable and selecting
    the part, names print and parse back, and the one case in which the reader
    is wrong (byte strings whose length is a multiple of 32) is stated exactly. *)

From stdpp Require Import base list strings pretty.
From Stdlib Require Import ZArith Lia Strings.Byte Ascii.
From S2P Require Import Prelude Js JsPartial Ethers StorageReader.

(** ** Strings *)

Lemma str_app_assoc' (a b c : string) : a +:+ b +:+ c = (a +:+ b) +:+ c.
Proof. induction a; cbn; congruence. Qed.

Lemma str_app_nil (s : string) : s +:+ "" = s.
Proof. induction s; cbn; congruence. Qed.

Lemma str_take_app a b : str_take (String.length a) (a +:+ b) = a.
Proof. induction a; cbn; [by destruct b|congruence]. Qed.

Lemma str_take_app_le a b n :
  str_take (String.length a + n) (a +:+ b) = a +:+ str_take n b.
Proof. induction a; cbn; congruence. Qed.

Lemma js_slice_app_le a b n : js_slice (String.length a + n) (a +:+ b) = js_slice n b.
Proof. by rewrite js_slice_slice, js_slice_app. Qed.

Lemma str_take_hex n l : str_take (2 * n) (hex_digits l) = hex_digits (take n l).
Proof.
  revert l. induction n as [|n IH]; intros l; [by destruct l|].
  replace (2 * S n)%nat with (S (S (2 * n)))%nat by lia.
  destruct l as [|b l]; [done|]. cbn [hex_digits str_take take]. by rewrite IH.
Qed.

Lemma js_slice_hex_drop n l : js_slice (2 * n) (hex_digits l) = hex_digits (drop n l).
Proof.
  revert l. induction n as [|n IH]; intros l; [done|].
  replace (2 * S n)%nat with (S (S (2 * n)))%nat by lia.
  destruct l as [|b l]; [done|]. cbn [hex_digits js_slice drop]. apply IH.
Qed.

(** The characters that separate the parts of a name. *)
Definition absent (c : ascii) (s : string) : Prop := js_indexOf c s = -1.

Lemma js_indexOf_lower c s : -1 ≤ js_indexOf c s.
Proof. induction s as [|d s IH]; cbn; [lia|]. repeat case_goal; lia. Qed.

Lemma js_indexOf_app c w s :
  absent c w →
  js_indexOf c (w +:+ s) =
    (if js_indexOf c s =? -1 then -1 else Z.of_nat (String.length w) + js_indexOf c s).
Proof.
  unfold absent. pose proof (js_indexOf_lower c s).
  induction w as [|d w IH]; intros Hw.
  - cbn [String.append String.length]. destruct (Z.eqb_spec (js_indexOf c s) (-1)); lia.
  - cbn in Hw |- *. pose proof (js_indexOf_lower c w). destruct (Ascii.eqb c d); [done|].
    destruct (Z.eqb_spec (js_indexOf c w) (-1)); [|lia]. rewrite IH by done.
    destruct (Z.eqb_spec (js_indexOf c s) (-1)); [done|].
    destruct (Z.eqb_spec (Z.of_nat (String.length w) + js_indexOf c s) (-1)); lia.
Qed.

Lemma js_lastIndexOf_lower c s : -1 ≤ js_lastIndexOf c s.
Proof. induction s as [|d s IH]; cbn; [lia|]. repeat case_goal; lia. Qed.

Lemma js_lastIndexOf_absent c s : absent c s → js_lastIndexOf c s = -1.
Proof.
  unfold absent. induction s as [|d s IH]; cbn; [done|]. intros E.
  pose proof (js_indexOf_lower c s). destruct (Ascii.eqb c d); [done|].
  destruct (Z.eqb_spec (js_indexOf c s) (-1)); [|lia]. by rewrite IH.
Qed.

Lemma js_lastIndexOf_last c pre suf :
  absent c suf → js_lastIndexOf c (pre +:+ String c suf) = Z.of_nat (String.length pre).
Proof.
  intros Hs. induction pre as [|d pre IH].
  - cbn. rewrite js_lastIndexOf_absent by done. cbn. by rewrite Ascii.eqb_refl.
  - cbn [String.append js_lastIndexOf String.length]. rewrite IH.
    destruct (Z.eqb_spec (Z.of_nat (String.length pre)) (-1)); lia.
Qed.

(** ** Names *)

(** One step of a path: a field of a struct, or an index or key in brackets. *)
Inductive access : Type :=
| Field (name : string)
| Index (name : string).

Definition access_name (a : access) : string := match a with Field s | Index s => s end.

Definition print_access (a : access) : string :=
  match a with Field s => "." +:+ s | Index s => "[" +:+ s +:+ "]" end.

Fixpoint print_path (p : list access) : string :=
  match p with [] => "" | a :: p' => print_access a +:+ print_path p' end.

(** A name without points and brackets. *)
Definition plain (s : string) : Prop :=
  str_forallb (λ c, negb (Ascii.eqb c "." || Ascii.eqb c "[" || Ascii.eqb c "]")) s = true.

Lemma plain_absent s : plain s → absent "." s ∧ absent "[" s.
Proof.
  unfold plain, absent. induction s as [|c s IH]; [done|]. cbn [str_forallb js_indexOf].
  intros [Hc Hs]%andb_prop. destruct (IH Hs) as [-> ->].
  rewrite (Ascii.eqb_sym "." c), (Ascii.eqb_sym "[" c).
  by destruct (Ascii.eqb c "."), (Ascii.eqb c "["), (Ascii.eqb c "]").
Qed.

Lemma scanName_word w rest br str res :
  plain w → scanName (w +:+ rest) false br str res = scanName rest false br (str +:+ w) res.
Proof.
  unfold plain. revert str. induction w as [|c w IH]; intros str Hw.
  - by rewrite str_app_nil.
  - cbn [str_forallb] in Hw. apply andb_prop in Hw as [Hc Hw].
    cbn [String.append scanName].
    destruct (Ascii.eqb c "."), (Ascii.eqb c "["), (Ascii.eqb c "]"); try done.
    rewrite IH by done. by rewrite <- str_app_assoc'.
Qed.

Lemma scanName_path p str res :
  Forall (λ a, plain (access_name a)) p →
  scanName (print_path p) false false str res = Done (res ++ str :: map access_name p).
Proof.
  intros Hp. revert str res. induction Hp as [|a p Ha _ IH]; intros str res; [done|].
  destruct a as [w|w]; cbn [access_name] in Ha; cbn [print_path print_access map access_name].
  - rewrite <- str_app_assoc'. cbn [String.append scanName Ascii.eqb Bool.eqb].
    rewrite scanName_word, IH by done. by rewrite <- app_assoc.
  - rewrite <- !str_app_assoc'. cbn [String.append scanName Ascii.eqb Bool.eqb].
    rewrite scanName_word by done. cbn [String.append scanName Ascii.eqb Bool.eqb negb].
    rewrite IH by done. by rewrite <- app_assoc.
Qed.

(** The first step of a path is not preceded by a name to record. *)
Lemma scanName_first a p :
  Forall (λ a, plain (access_name a)) (a :: p) →
  scanName (print_path (a :: p)) true false "" [] = Done (map access_name (a :: p)).
Proof.
  intros [Ha Hp]%Forall_cons.
  destruct a as [w|w]; cbn [access_name] in Ha; cbn [print_path print_access map access_name].
  - rewrite <- str_app_assoc'. cbn [String.append scanName Ascii.eqb Bool.eqb].
    by rewrite scanName_word, scanName_path by done.
  - rewrite <- !str_app_assoc'. cbn [String.append scanName Ascii.eqb Bool.eqb].
    rewrite scanName_word by done. cbn [String.append scanName Ascii.eqb Bool.eqb negb].
    by rewrite scanName_path.
Qed.

Lemma print_path_head a p :
  ∃ s, print_path (a :: p) = String (match a with Field _ => "." | Index _ => "[" end) s.
Proof. destruct a; cbn; eauto. Qed.

Lemma first_separator d w s :
  absent "." w → absent "[" w → d = "."%char ∨ d = "["%char →
  let i := js_indexOf "." (w +:+ String d s) in
  let j := js_indexOf "[" (w +:+ String d s) in
  (i =? -1) && (j =? -1) = false ∧
  (if i =? -1 then j else if j =? -1 then i else Z.min i j) = Z.of_nat (String.length w).
Proof.
  intros H1 H2 Hd. cbn zeta. rewrite !js_indexOf_app by done.
  pose proof (js_indexOf_lower "." s). pose proof (js_indexOf_lower "[" s).
  destruct Hd as [-> | ->]; cbn [js_indexOf Ascii.eqb Bool.eqb Z.eqb].
  all: repeat match goal with |- context [?a =? ?b] => destruct (Z.eqb_spec a b) end;
    cbn [andb]; split; lia.
Qed.

Lemma parseName_print w p :
  plain w → Forall (λ a, plain (access_name a)) p →
  parseName (w +:+ print_path p) = Done (rev (map access_name p)).
Proof.
  intros [H1 H2]%plain_absent Hp. unfold parseName. destruct p as [|a p].
  - cbn [print_path]. rewrite str_app_nil, H1, H2. done.
  - pose proof (scanName_first a p Hp) as Hs.
    destruct (print_path_head a p) as [s E]. rewrite E in *.
    assert (Hd : ∀ d, d = (match a with Field _ => "." | Index _ => "[" end)%char →
      d = "."%char ∨ d = "["%char) by (destruct a; eauto).
    destruct (first_separator _ w s H1 H2 (Hd _ eq_refl)) as [-> ->].
    rewrite Nat2Z.id, js_slice_app, Hs. done.
Qed.

Lemma js_substr_zero s n : js_substr s 0 n = str_take (Z.to_nat n) s.
Proof. reflexivity. Qed.

Lemma js_substr_prefix w s k :
  0 ≤ k → js_substr (w +:+ s) 0 (Z.of_nat (String.length w) + k) = w +:+ str_take (Z.to_nat k) s.
Proof.
  intros Hk. by rewrite js_substr_zero, Z2Nat.inj_add, Nat2Z.id, str_take_app_le by lia.
Qed.

Lemma js_substr_word w s : js_substr (w +:+ s) 0 (Z.of_nat (String.length w)) = w.
Proof.
  pose proof (js_substr_prefix w s 0 ltac:(done)) as E. rewrite Z.add_0_r in E. rewrite E.
  change (Z.to_nat 0) with O. cbn [str_take]. apply str_app_nil.
Qed.

(** Cutting at the first point. *)
Lemma cut_point w s :
  absent "." w →
  (if js_indexOf "." (w +:+ String "." s) =? -1 then w +:+ String "." s
   else js_substr (w +:+ String "." s) 0 (js_indexOf "." (w +:+ String "." s))) = w.
Proof.
  intros Hw. rewrite js_indexOf_app by done. cbn [js_indexOf Ascii.eqb Bool.eqb Z.eqb].
  rewrite Z.add_0_r, js_substr_word. destruct (Z.eqb_spec (Z.of_nat (String.length w)) (-1)); [lia|done].
Qed.

Lemma getVariableName_print w p : plain w → getVariableName (w +:+ print_path p) = w.
Proof.
  intros [H1 H2]%plain_absent. unfold getVariableName. destruct p as [|a p].
  - cbn [print_path]. unfold absent in *. rewrite str_app_nil, H2, Z.eqb_refl, H1. done.
  - destruct (print_path_head a p) as [s ->].
    destruct a as [x|x]; rewrite (js_indexOf_app "[") by done;
      cbn [js_indexOf Ascii.eqb Bool.eqb Z.eqb].
    + pose proof (js_indexOf_lower "[" s).
      destruct (Z.eqb_spec (js_indexOf "[" s) (-1)); [by apply cut_point|].
      destruct (Z.eqb_spec (js_indexOf "[" s + 1) (-1)); [lia|].
      destruct (Z.eqb_spec (Z.of_nat (String.length w) + (js_indexOf "[" s + 1)) (-1)); [lia|].
      rewrite js_substr_prefix by lia.
      replace (Z.to_nat (js_indexOf "[" s + 1)) with (S (Z.to_nat (js_indexOf "[" s))) by lia.
      by apply cut_point.
    + destruct (Z.eqb_spec (Z.of_nat (String.length w) + 0) (-1)); [lia|].
      unfold absent in H1. rewrite Z.add_0_r, js_substr_word, H1. done.
Qed.

(** ** Array elements *)

(** Where the [i]-th element of an array with elements of [bb] bytes lies. *)
Definition elem_slot (first bb i : Z) : Z :=
  if bb <? 32 then first + i / (32 / bb) else first + i * bb / 32.
Definition elem_shift (bb i : Z) : Z := if bb <? 32 then bb * (i mod (32 / bb)) else 0.

(** Element sizes the compiler produces: within a slot, or whole slots. *)
Definition elem_size (bb : Z) : Prop := 0 < bb ≤ 2 ^ 20 ∧ (bb < 32 ∨ bb mod 32 = 0).

Lemma packed_step (bb i slot : Z) :
  0 < bb < 32 → 0 ≤ i →
  (if 32 <? bb * (i mod (32 / bb)) + bb + bb then (slot + i / (32 / bb) + 1, 0)
   else (slot + i / (32 / bb), bb * (i mod (32 / bb)) + bb)) =
  (slot + (i + 1) / (32 / bb), bb * ((i + 1) mod (32 / bb))).
Proof.
  intros Hbb Hi. set (k := 32 / bb).
  assert (Hk : bb * k ≤ 32 < bb * (k + 1)).
  { subst k. pose proof (Z.div_mod 32 bb ltac:(lia)). pose proof (Z.mod_pos_bound 32 bb ltac:(lia)).
    nia. }
  assert (0 < k) by nia.
  pose proof (Z.div_mod i k ltac:(lia)) as E. pose proof (Z.mod_pos_bound i k ltac:(lia)).
  set (q := i / k) in *. set (r := i mod k) in *.
  destruct (Z.ltb_spec 32 (bb * r + bb + bb)).
  - assert (r = k - 1) by nia.
    rewrite <- (Z.div_unique (i + 1) k (q + 1) 0), <- (Z.mod_unique (i + 1) k (q + 1) 0) by nia.
    f_equal; lia.
  - assert (r + 1 < k) by nia.
    rewrite <- (Z.div_unique (i + 1) k q (r + 1)), <- (Z.mod_unique (i + 1) k q (r + 1)) by nia.
    f_equal; lia.
Qed.

Lemma elem_packed slot bb i :
  bb < 32 →
  elem_slot slot bb i = slot + i / (32 / bb) ∧ elem_shift bb i = bb * (i mod (32 / bb)).
Proof. intros Hb. unfold elem_slot, elem_shift. by rewrite (proj2 (Z.ltb_lt _ _) Hb). Qed.

Lemma elem_wide slot bb i :
  32 ≤ bb → elem_slot slot bb i = slot + i * bb / 32 ∧ elem_shift bb i = 0.
Proof. intros Hb. unfold elem_slot, elem_shift. by rewrite (proj2 (Z.ltb_ge _ _) Hb). Qed.

Section cells.
Context (rv : Z → Z → string → R val) (t : string) (bb : Z).

(** What a loop over [n] cells returns: the values of the cells, in order. *)
Definition reads_cells (cell : Z → Z * Z) (i : Z) (n : nat) (vs : list val) : Prop :=
  length vs = n ∧
  ∀ j v, vs !! j = Some v →
    rv (cell (i + Z.of_nat j)).1 (cell (i + Z.of_nat j)).2 t = Some (Done v).

Lemma reads_cells_cons cell i n v vs :
  reads_cells cell i (S n) (v :: vs) ↔
  rv (cell i).1 (cell i).2 t = Some (Done v) ∧ reads_cells cell (i + 1) n vs.
Proof.
  unfold reads_cells. cbn [length]. split.
  - intros [[= Hl] Hc]. split_and!; [|done|].
    + specialize (Hc 0%nat v eq_refl). by rewrite Z.add_0_r in Hc.
    + intros j w Hj. specialize (Hc (S j) w Hj).
      by replace (i + 1 + Z.of_nat j) with (i + Z.of_nat (S j)) by lia.
  - intros (Hv & Hl & Hc). split; [lia|]. intros [|j] w Hj.
    + injection Hj as <-. by rewrite Z.add_0_r.
    + specialize (Hc j w Hj).
      by replace (i + Z.of_nat (S j)) with (i + 1 + Z.of_nat j) by lia.
Qed.

Lemma packedCells_from slot i n vs :
  0 < bb < 32 → 0 ≤ i →
  packedCells rv n (slot + i / (32 / bb)) (bb * (i mod (32 / bb))) bb t = Some (Done vs) ↔
  reads_cells (λ j, (elem_slot slot bb j, elem_shift bb j)) (i + 1) n vs.
Proof.
  intros Hbb. revert i vs. induction n as [|n IH]; intros i vs Hi.
  - cbn. unfold reads_cells, mret, R_ret. destruct vs; split; [done|done|done|by intros []].
  - cbn [packedCells]. rewrite packed_step by done.
    rewrite R_bind_iff. setoid_rewrite R_bind_iff. setoid_rewrite IH; [|lia].
    unfold mret, R_ret. destruct vs as [|v vs].
    + split; [naive_solver|by intros [[=] _]].
    + rewrite reads_cells_cons. cbn [fst snd].
      destruct (elem_packed slot bb (i + 1) ltac:(lia)) as [-> ->]. split.
      * by intros (v' & Hv & vs' & Hvs & [= <- <-]).
      * intros [Hv Hvs]. eauto 6.
Qed.

Lemma packedCells_iff slot n vs :
  0 < bb < 32 →
  packedCells rv n slot (- bb) bb t = Some (Done vs) ↔
  reads_cells (λ j, (elem_slot slot bb j, elem_shift bb j)) 0 n vs.
Proof.
  intros Hbb. destruct n as [|n].
  - cbn. unfold reads_cells, mret, R_ret. destruct vs; split; [done|done|done|by intros []].
  - cbn [packedCells]. rewrite Z.add_opp_diag_l, Z.add_0_l.
    rewrite (proj2 (Z.ltb_ge 32 bb)) by lia.
    pose proof (packedCells_from slot 0 n) as Hf.
    rewrite Z.div_0_l, Z.mod_0_l, Z.mul_0_r, Z.add_0_r in Hf
      by (pose proof (Z.div_str_pos 32 bb ltac:(lia)); lia).
    rewrite R_bind_iff. setoid_rewrite R_bind_iff. setoid_rewrite Hf; [|lia..].
    unfold mret, R_ret. destruct vs as [|v vs].
    + split; [naive_solver|by intros [[=] _]].
    + rewrite reads_cells_cons. cbn [fst snd].
      destruct (elem_packed slot bb 0 ltac:(lia)) as [-> ->].
      rewrite Z.div_0_l, Z.mod_0_l, Z.mul_0_r, Z.add_0_r
        by (pose proof (Z.div_str_pos 32 bb ltac:(lia)); lia).
      split.
      * by intros (v' & Hv & vs' & Hvs & [= <- <-]).
      * intros [Hv Hvs]. eauto 6.
Qed.

Lemma wideCells_from slot i n vs :
  32 ≤ bb < 2 ^ 53 - 1 → bb mod 32 = 0 → 0 ≤ i →
  wideCells rv n (slot + i * bb / 32) bb t = Some (Done vs) ↔
  reads_cells (λ j, (elem_slot slot bb j, elem_shift bb j)) i n vs.
Proof.
  intros Hbb Hm. revert i vs. induction n as [|n IH]; intros i vs Hi.
  - cbn. unfold reads_cells, mret, R_ret. destruct vs; split; [done|done|done|by intros []].
  - cbn [wideCells]. unfold exact_div, bn_add. rewrite Hm. cbn [Z.eqb].
    cbn [lift mbind R_bind]. unfold MAX_SAFE.
    pose proof (Z.div_mod bb 32 ltac:(lia)) as E. rewrite Hm, Z.add_0_r in E.
    rewrite (proj2 (Z.ltb_lt _ _)) by lia. cbn [lift mbind R_bind].
    replace (slot + i * bb / 32 + bb / 32) with (slot + (i + 1) * bb / 32).
    2:{ replace (i * bb) with (i * (bb / 32) * 32) by lia.
        replace ((i + 1) * bb) with ((i + 1) * (bb / 32) * 32) by lia. rewrite !Z.div_mul; lia. }
    rewrite R_bind_iff. setoid_rewrite R_bind_iff. setoid_rewrite IH; [|lia].
    unfold mret, R_ret. destruct vs as [|v vs].
    + split; [naive_solver|by intros [[=] _]].
    + rewrite reads_cells_cons. cbn [fst snd].
      destruct (elem_wide slot bb i ltac:(lia)) as [-> ->]. split.
      * by intros (v' & Hv & vs' & Hvs & [= <- <-]).
      * intros [Hv Hvs]. eauto 6.
Qed.

(** Both loops of [readArray] visit the cells of the layout. *)
Lemma array_cells slot n vs :
  elem_size bb →
  (if bb <? 32 then packedCells rv n slot (- bb) bb t else wideCells rv n slot bb t) =
    Some (Done vs) ↔
  reads_cells (λ j, (elem_slot slot bb j, elem_shift bb j)) 0 n vs.
Proof.
  intros [Hb Hs]. destruct (Z.ltb_spec bb 32).
  - apply packedCells_iff. lia.
  - pose proof (wideCells_from slot 0 n vs) as Hw. cbn [Z.mul Z.div] in Hw.
    rewrite Z.div_0_l, Z.add_0_r in Hw by lia. apply Hw; lia.
Qed.
End cells.

(** ** Struct members *)

Lemma map_set_fresh {A} k (v : A) l : k ∉ l.*1 → map_set k v l = l ++ [(k, v)].
Proof.
  induction l as [|[k' v'] l IH]; intros Hk; [done|]. cbn in Hk |- *.
  apply not_elem_of_cons in Hk as [Hne Hk]. rewrite decide_False by congruence. by rewrite IH.
Qed.

Section members.
Context (rv : Z → Z → string → R val).

Definition member_reads (slot : Z) (m : member) (f : string * val) : Prop :=
  f.1 = m_label m ∧
  ∃ s, bn_add slot (js_parseInt10 (m_slot m)) = Done s ∧
    rv s (m_offset m) (m_type m) = Some (Done f.2).

Lemma readMembers_iff slot ms data r :
  NoDup (m_label <$> ms) → (∀ m, m ∈ ms → m_label m ∉ data.*1) →
  readMembers rv ms slot data = Some (Done r) ↔
  ∃ l, r = data ++ l ∧ Forall2 (member_reads slot) ms l.
Proof.
  revert data. induction ms as [|m ms IH]; intros data Hnd Hf.
  - cbn. unfold mret, R_ret. split.
    + intros [= <-]. exists []. split; [by rewrite app_nil_r|constructor].
    + intros (l & -> & Hl). inversion Hl. by rewrite app_nil_r.
  - cbn [readMembers fmap list_fmap] in Hnd |- *. apply NoDup_cons in Hnd as [Hm Hnd].
    rewrite R_bind_iff. setoid_rewrite R_bind_iff.
    assert (Hms : ∀ v, readMembers rv ms slot (map_set (m_label m) v data) = Some (Done r) ↔
      ∃ l, r = data ++ (m_label m, v) :: l ∧ Forall2 (member_reads slot) ms l).
    { intros v. rewrite map_set_fresh by (apply Hf; by constructor). rewrite IH; [|done|].
      - by setoid_rewrite <- app_assoc.
      - intros m' Hm'. rewrite fmap_app, not_elem_of_app. split; [apply Hf; by constructor|].
        cbn. rewrite list_elem_of_singleton. intros E. apply Hm. rewrite <- E.
        apply list_elem_of_fmap. eauto. }
    setoid_rewrite Hms. unfold lift. split.
    + intros (s & [= Es] & v & Hv & l & -> & Hl). exists ((m_label m, v) :: l).
      split; [done|]. constructor; [|done]. split; [done|]. eauto.
    + intros (l & -> & Hl). inversion Hl as [|? [k v] ? l' [Hk (s & Es & Hv)] Hl']; subst.
      cbn in Hk, Hv. subst k. exists s. split; [by rewrite Es|]. eauto 6.
Qed.

Lemma select_member slot ms l name f :
  Forall2 (member_reads slot) ms l →
  head (filter (λ p : string * val, p.1 = name) l) = Some f →
  ∃ m, head (filter (λ m, m_label m = name) ms) = Some m ∧ member_reads slot m f.
Proof.
  induction 1 as [|m g ms l Hm _ IH]; [done|]. pose proof Hm as [Hl _].
  rewrite !filter_cons. destruct (decide (g.1 = name)) as [E|E].
  - intros [= <-]. rewrite decide_True by congruence. eauto.
  - rewrite decide_False by congruence. done.
Qed.
End members.

Section mono.
Context (rv rv' : Z → Z → string → R val).
Hypothesis Hrv : ∀ slot shift ty v, rv slot shift ty = Some (Done v) → rv' slot shift ty = Some (Done v).

Lemma packedCells_mono n slot shift bb t vs :
  packedCells rv n slot shift bb t = Some (Done vs) →
  packedCells rv' n slot shift bb t = Some (Done vs).
Proof.
  revert slot shift vs. induction n as [|n IH]; intros slot shift vs; [done|]. cbn [packedCells].
  case_goal. rewrite !R_bind_iff. setoid_rewrite R_bind_iff. naive_solver.
Qed.

Lemma wideCells_mono n slot bb t vs :
  wideCells rv n slot bb t = Some (Done vs) → wideCells rv' n slot bb t = Some (Done vs).
Proof.
  revert slot vs. induction n as [|n IH]; intros slot vs; [done|]. cbn [wideCells].
  repeat setoid_rewrite R_bind_iff. naive_solver.
Qed.

Lemma readMembers_mono ms slot data r :
  readMembers rv ms slot data = Some (Done r) → readMembers rv' ms slot data = Some (Done r).
Proof.
  revert data. induction ms as [|m ms IH]; intros data; [done|]. cbn [readMembers].
  repeat setoid_rewrite R_bind_iff. naive_solver.
Qed.
End mono.

(** ** Parts of a variable *)

(** The part of a value that a path of field names and indices denotes. *)
Fixpoint select (v : val) (path : list string) : option val :=
  match path with
  | [] => Some v
  | s :: path' =>
      match v with
      | VArr l =>
          match to_number s with
          | Some (Done i) =>
              if (0 <=? i) && (i <? 2 ^ 32) then w ← l !! Z.to_nat i; select w path' else None
          | _ => None
          end
      | VObj l => p ← head (filter (λ p : string * val, p.1 = s) l); select p.2 path'
      | _ => None
      end
  end.

Section agreement.
Context `{EthersOps} `{DecoderOps}.
Context (provider : string → Z → outcome string) (address : string).
Context (types : list (string * TypeNode)).

(** What the compiler guarantees of its layouts: arrays have elements of a
    known size, structs have distinct field names. *)
Definition node_wf (p : string * TypeNode) : Prop :=
  (starts_with "t_array" p.1 = true →
     ∃ b bb, type_of types (js_show (base p.2)) = Some (Done b) ∧
       to_number (numberOfBytes b) = Some (Done bb) ∧ elem_size bb) ∧
  (starts_with "t_struct" p.1 = true → NoDup (m_label <$> members p.2)).

Definition types_wf : Prop := Forall node_wf types.

Lemma type_of_wf ty t : types_wf → type_of types ty = Some (Done t) → node_wf (ty, t).
Proof.
  intros Hwf. unfold type_of.
  destruct (head (filter (λ p : string * TypeNode, p.1 = ty) types)) as [p|] eqn:E; [|done].
  intros [= <-]. apply head_Some_elem_of, list_elem_of_filter in E as [<- Hin].
  rewrite <- surjective_pairing. by eapply Forall_forall in Hwf.
Qed.

Notation readVariable := (readVariable provider address types).
Notation readParts := (readParts provider address types).

Lemma readVariable_mono n m slot shift ty v :
  (n ≤ m)%nat → readVariable n slot shift ty = Some (Done v) →
  readVariable m slot shift ty = Some (Done v).
Proof.
  revert m slot shift ty v. induction n as [|n IH]; intros m slot shift ty v Hnm; [done|].
  destruct m as [|m]; [lia|]. cbn [StorageReader.readVariable].
  assert (Hrv : ∀ slot shift ty v, readVariable n slot shift ty = Some (Done v) →
    readVariable m slot shift ty = Some (Done v)) by (intros; apply IH; [lia|done]).
  destruct (starts_with "t_array" ty); [|destruct (starts_with "t_struct" ty); [|done]].
  - unfold readArray. rewrite !R_bind_iff. intros (t & Ht & Hk). exists t. split; [done|].
    apply R_bind_iff in Hk as ([len first] & Hh & Hk). apply R_bind_iff.
    exists (len, first). split; [done|].
    apply R_bind_iff in Hk as (b & Hb & Hk). apply R_bind_iff. exists b. split; [done|].
    apply R_bind_iff in Hk as (bb & Hbb & Hk). apply R_bind_iff. exists bb. split; [done|].
    apply R_fmap_iff in Hk as (vs & Hvs & ->). apply R_fmap_run.
    destruct (bb <? 32); [by eapply packedCells_mono|by eapply wideCells_mono].
  - unfold readStruct. rewrite !R_bind_iff. intros (t & Ht & Hk). exists t. split; [done|].
    apply R_fmap_iff in Hk as (vs & Hvs & ->). apply R_fmap_run. by eapply readMembers_mono.
Qed.

(** The values that have parts come from arrays and structs. *)
Lemma readPrimitive_no_parts slot shift ty v s path :
  readPrimitive provider address types slot shift ty = Some (Done v) → select v (s :: path) = None.
Proof.
  unfold readPrimitive. intros E.
  assert (Hs : (∃ x, v = VStr x) ∨ (∃ x, v = VBool x) ∨ v = VUndef); [|naive_solver].
  repeat match type of E with (if ?c then _ else _) = _ => destruct c end;
    repeat (apply R_bind_iff in E as (? & _ & E)); injection E as <-; eauto.
Qed.

Section one_part.
Context (rv part : Z → Z → string → R val) (path : list string) (w : val).
Hypothesis Hpart : ∀ slot shift ty v,
  rv slot shift ty = Some (Done v) → select v path = Some w → part slot shift ty = Some (Done w).

Lemma readPartOfStruct_select slot ty s v :
  types_wf → starts_with "t_struct" ty = true →
  readStruct types rv slot ty = Some (Done v) → select v (s :: path) = Some w →
  readPartOfStruct types part slot ty s = Some (Done w).
Proof.
  intros Hwf Ht. unfold readStruct. rewrite R_bind_iff. intros (t & Et & Hk) Hs.
  destruct (type_of_wf _ _ Hwf Et) as [_ Hnd]. specialize (Hnd Ht).
  apply R_fmap_iff in Hk as (l & Hl & ->).
  apply readMembers_iff in Hl as (l' & -> & Hl); [|done|intros; apply not_elem_of_nil].
  cbn [select app] in Hs. apply bind_Some in Hs as (f & Hf & Hs).
  destruct (select_member _ _ _ _ _ _ Hl Hf) as (m & Hm & _ & a & Ea & Ha).
  unfold readPartOfStruct. rewrite (R_bind_run _ _ _ Et), Hm. unfold lift. rewrite Ea.
  cbn [mbind R_bind]. eauto.
Qed.

Lemma readPartOfArray_select slot ty s v :
  types_wf → starts_with "t_array" ty = true →
  readArray provider address types rv slot ty = Some (Done v) → select v (s :: path) = Some w →
  readPartOfArray types part slot ty s = Some (Done w).
Proof.
  intros Hwf Ht. unfold readArray. rewrite R_bind_iff. intros (t & Et & Hk) Hs.
  destruct (type_of_wf _ _ Hwf Et) as [Hn _]. destruct (Hn Ht) as (b & bb & Eb & Ebb & Hsize).
  cbn [snd] in Eb.
  apply R_bind_iff in Hk as ([len first] & Hh & Hk). rewrite (R_bind_run _ _ _ Eb) in Hk.
  rewrite (R_bind_run _ _ _ Ebb) in Hk. apply R_fmap_iff in Hk as (vs & Hvs & ->).
  apply array_cells in Hvs as [_ Hcell]; [|done].
  cbn [select] in Hs. destruct (to_number s) as [[i| |]|] eqn:Ei; try done.
  destruct ((0 <=? i) && (i <? 2 ^ 32)) eqn:Hi; [|done].
  apply andb_prop in Hi as [Hi0%Z.leb_le Hi1%Z.ltb_lt].
  apply bind_Some in Hs as (x & Hx & Hs). specialize (Hcell _ _ Hx).
  rewrite Z.add_0_l, Z2Nat.id in Hcell by done. cbn [fst snd] in Hcell.
  unfold readPartOfArray. rewrite (R_bind_run _ _ _ Ei), (R_bind_run _ _ _ Et).
  rewrite (R_bind_run _ _ first), (R_bind_run _ _ _ Eb), (R_bind_run _ _ _ Ebb).
  2:{ unfold arrayHead in Hh. destruct (String.eqb (encoding t) "dynamic_array").
      - apply R_bind_iff in Hh as (? & _ & Hh). apply R_bind_iff in Hh as (? & _ & Hh).
        apply R_bind_iff in Hh as (f & Ef & [= -> ->]). done.
      - by injection Hh as _ ->. }
  destruct Hsize as [Hb Hsize]. unfold bn_add, exact_div, MAX_SAFE.
  destruct (Z.ltb_spec bb 32) as [Hlt|Hge].
  - destruct (elem_packed first bb i Hlt) as [E1 E2]. rewrite E1, E2 in Hcell.
    pose proof (Z.div_str_pos 32 bb ltac:(lia)).
    assert (0 ≤ i / (32 / bb) ≤ i) by
      (split; [apply Z.div_pos; lia|apply Z.div_le_upper_bound; nia]).
    rewrite (proj2 (Z.ltb_lt _ _)) by lia. cbn [lift mbind R_bind].
    rewrite Z.rem_mod_nonneg by lia. eauto.
  - destruct (elem_wide first bb i Hge) as [E1 E2]. rewrite E1, E2 in Hcell.
    rewrite (proj2 (Z.leb_gt _ _)) by nia.
    assert (Hm : (i * bb) mod 32 = 0).
    { destruct Hsize as [|Hsize]; [lia|]. by rewrite Z.mul_mod, Hsize, Z.mul_0_r by lia. }
    rewrite Hm. cbn [Z.eqb lift mbind R_bind].
    assert (0 ≤ i * bb / 32 ≤ i * bb) by
      (split; [apply Z.div_pos; nia|apply Z.div_le_upper_bound; nia]).
    rewrite (proj2 (Z.ltb_lt _ _)) by nia. cbn [lift mbind R_bind]. eauto.
Qed.
End one_part.

Lemma readParts_select n path slot shift ty v w :
  types_wf → readVariable n slot shift ty = Some (Done v) → select v path = Some w →
  readParts n path slot shift ty = Some (Done w).
Proof.
  intros Hwf. revert n slot shift ty v. induction path as [|s path IH]; intros n slot shift ty v Hv Hs.
  { by injection Hs as <-. }
  destruct n as [|n]; [done|]. cbn [StorageReader.readVariable] in Hv.
  assert (Hpart : ∀ slot shift ty v, readVariable n slot shift ty = Some (Done v) →
    select v path = Some w → readParts (S n) path slot shift ty = Some (Done w)).
  { intros. eapply IH; [|done]. eapply readVariable_mono; [|done]. lia. }
  cbn [StorageReader.readParts].
  destruct (starts_with "t_array" ty) eqn:Ea; [|destruct (starts_with "t_struct" ty) eqn:Es].
  - eapply readPartOfArray_select; eauto.
  - eapply readPartOfStruct_select; eauto.
  - by rewrite (readPrimitive_no_parts _ _ _ _ _ _ Hv) in Hs.
Qed.
End agreement.
