(* ===== verification/StorageLayout.v ===== *)
(** * What the storage reader returns

    [holds] says, following the layout rules of the Solidity documentation,
    that a storage contains a value of a type at a slot and an offset.  The
    reader returns that value as [shown] gives it, which loses the last slot of
    a byte string that fills it, and a name with a path returns the part the
    path denotes. *)

From stdpp Require Import base list strings pretty.
From Stdlib Require Import ZArith Lia Strings.Byte Ascii.
From S2P Require Import Prelude Js JsPartial Ethers StorageReader StorageProofs.

(** ** Decimal text *)

Lemma dec_value_from_app acc s :
  dec_value_from acc s = acc * 10 ^ Z.of_nat (String.length s) + dec_value s.
Proof.
  unfold dec_value. revert acc. induction s as [|c s IH]; intros acc; cbn [dec_value_from String.length].
  - cbn. lia.
  - rewrite (IH (acc * 10 + digit_val c)), (IH (0 * 10 + digit_val c)), Nat2Z.inj_succ, Z.pow_succ_r by lia.
    ring.
Qed.

Lemma pretty_N_char_digit x :
  (x < 10)%N → is_digit (pretty_N_char x) = true ∧ digit_val (pretty_N_char x) = Z.of_N x.
Proof.
  intros Hx. assert (x ∈ [0; 1; 2; 3; 4; 5; 6; 7; 8; 9]%N) as Hin.
  { rewrite !elem_of_cons. lia. }
  rewrite !elem_of_cons, elem_of_nil in Hin. destruct_or! Hin; subst; done.
Qed.

Lemma pretty_N_go_spec x s :
  str_forallb is_digit s = true →
  str_forallb is_digit (pretty_N_go x s) = true ∧
  dec_value (pretty_N_go x s) = Z.of_N x * 10 ^ Z.of_nat (String.length s) + dec_value s ∧
  (String.length s ≤ String.length (pretty_N_go x s))%nat.
Proof.
  revert s. induction (N.lt_wf_0 x) as [x _ IH]; intros s Hs.
  destruct (decide (x = 0)%N) as [->|]; [rewrite pretty_N_go_0; split_and!; [done|lia|lia]|].
  rewrite pretty_N_go_step by lia.
  destruct (pretty_N_char_digit (x `mod` 10)) as [Hd Hv]; [by apply N.mod_lt|].
  destruct (IH (x `div` 10)%N ltac:(apply N.div_lt; lia) (String (pretty_N_char (x `mod` 10)) s))
    as (H1 & H2 & H3).
  { cbn. by rewrite Hd, Hs. }
  cbn [String.length] in *. split_and!; [done| |lia]. rewrite H2. unfold dec_value at 1.
  cbn [dec_value_from]. rewrite dec_value_from_app, Hv, Nat2Z.inj_succ, Z.pow_succ_r by lia.
  rewrite N2Z.inj_div, N2Z.inj_mod. pose proof (Z.div_mod (Z.of_N x) 10 ltac:(lia)). nia.
Qed.

(** Decimal text of a non-negative number. *)
Lemma pretty_digits z :
  0 ≤ z → str_forallb is_digit (pretty z) = true ∧ dec_value (pretty z) = z ∧ pretty z ≠ "".
Proof.
  intros Hz. destruct z as [|p|p]; [done| |lia].
  change (pretty (Z.pos p)) with (pretty_N_go (N.pos p) "").
  destruct (pretty_N_go_spec (N.pos p) "" eq_refl) as (H1 & H2 & _).
  assert (Hv : dec_value (pretty_N_go (N.pos p) "") = Z.pos p).
  { rewrite H2. change (dec_value "") with 0.
    change (10 ^ Z.of_nat (String.length "")) with 1. lia. }
  split_and!; [done|done|]. intros E. rewrite E in Hv. done.
Qed.

Lemma to_number_pretty z : 0 ≤ z < MAX_SAFE → to_number (pretty z) = Some (Done z).
Proof.
  intros Hz. destruct (pretty_digits z ltac:(lia)) as (Hd & Hv & Hne).
  unfold to_number. rewrite Hd, Hv, (proj2 (Z.ltb_lt _ _)) by lia.
  rewrite (proj2 (String.eqb_neq _ _) Hne). cbn [andb negb].
  destruct (pretty z) as [|c s] eqn:E; [done|].
  cbn in Hd. apply andb_prop in Hd as [Hc _]. apply is_digit_cases in Hc.
  rewrite !elem_of_cons, elem_of_nil in Hc. by destruct_or! Hc; subst c.
Qed.

Lemma js_parseInt10_pretty z : 0 ≤ z → js_parseInt10 (pretty z) = Some z.
Proof.
  intros Hz. destruct (pretty_digits z Hz) as (Hd & Hv & Hne).
  destruct (pretty z) as [|c s] eqn:E; [done|]. pose proof Hd as Hd'.
  cbn in Hd. apply andb_prop in Hd as [Hc Hs].
  assert (Hp : digits_prefix is_digit 10 None (String c s) = Some z).
  { cbn [digits_prefix]. rewrite Hc, digits_prefix_value by done. by rewrite <- Hv. }
  apply is_digit_cases in Hc. rewrite !elem_of_cons, elem_of_nil in Hc.
  by destruct_or! Hc; subst c.
Qed.

(** ** Words as text *)

Lemma be_enc_app a b z : be_enc (a + b) z = be_enc a (z / 256 ^ Z.of_nat b) ++ be_enc b z.
Proof.
  revert z. induction b as [|b IH]; intros z.
  - rewrite Nat.add_0_r, app_nil_r. by rewrite Z.div_1_r.
  - rewrite Nat.add_succ_r. cbn [be_enc]. rewrite IH, app_assoc.
    rewrite Nat2Z.inj_succ, Z.pow_succ_r, Z.div_div by lia. done.
Qed.

Definition word_text (w : Z) : string := "0x" +:+ hex_digits (be_enc 32 w).

Lemma js_substr_word_text w (k n : nat) :
  js_substr (word_text w) (2 + 2 * Z.of_nat k) (2 * Z.of_nat n) =
  hex_digits (take n (drop k (be_enc 32 w))).
Proof.
  unfold js_substr, word_text. rewrite (proj2 (Z.ltb_ge _ _)) by lia.
  replace (Z.to_nat (2 * Z.of_nat n)) with (2 * n)%nat by lia.
  replace (Z.to_nat (2 + 2 * Z.of_nat k)) with (String.length "0x" + 2 * k)%nat
    by (cbn [String.length]; lia).
  by rewrite js_slice_app_le, js_slice_hex_drop, str_take_hex.
Qed.

(** The bytes of a field of [n] bytes at offset [shift] of a word. *)
Lemma word_field w shift n :
  0 ≤ shift → 0 ≤ n → shift + n ≤ 32 →
  js_substr (word_text w) (66 - n * 2 - shift * 2) (n * 2) =
  hex_digits (be_enc (Z.to_nat n) (w / 256 ^ shift)).
Proof.
  intros Hs Hn Hsn.
  replace (66 - n * 2 - shift * 2) with (2 + 2 * Z.of_nat (Z.to_nat (32 - n - shift))) by lia.
  replace (n * 2) with (2 * Z.of_nat (Z.to_nat n)) by lia.
  rewrite js_substr_word_text. f_equal.
  replace 32%nat with (Z.to_nat (32 - n - shift) + (Z.to_nat n + Z.to_nat shift))%nat by lia.
  rewrite !be_enc_app, drop_app_length', take_app_length' by (by rewrite be_enc_length).
  by rewrite Z2Nat.id.
Qed.

Lemma hex_byte_value b :
  js_parseInt16 (hex_digits [b]) = Some (byte_val b).
Proof. by destruct b; vm_compute. Qed.

Lemma hex_prefix_value acc l :
  digits_prefix is_hex_digit 16 (Some acc) (hex_digits l) =
  Some (acc * 256 ^ Z.of_nat (length l) + be_val l).
Proof.
  revert acc. induction l as [|b l IH]; intros acc.
  - cbn. f_equal. lia.
  - cbn [hex_digits digits_prefix default option_fmap option_map].
    destruct (hex_char_digit b) as (H1 & H2 & _). rewrite H1, H2. cbn [default].
    assert (Hb : digit_val (hex_char (byte_val b / 16)) * 16 + digit_val (hex_char (byte_val b mod 16)) =
      byte_val b) by (by destruct b; vm_compute).
    rewrite IH, be_val_cons. cbn [length]. rewrite Nat2Z.inj_succ, Z.pow_succ_r by lia.
    set (d1 := digit_val (hex_char (byte_val b / 16))) in *.
    set (d2 := digit_val (hex_char (byte_val b mod 16))) in *. clearbody d1 d2.
    rewrite <- Hb. f_equal. cbn [from_option id]. ring.
Qed.

Lemma parse_word_text w : js_parseInt16 (word_text w) = Some (w mod 2 ^ 256).
Proof.
  change (digits_prefix is_hex_digit 16 None (hex_digits (be_enc 32 w)) = Some (w mod 2 ^ 256)).
  change (2 ^ 256) with (256 ^ Z.of_nat 32). rewrite <- be_val_enc.
  pose proof (be_enc_length 32 w) as Hl. destruct (be_enc 32 w) as [|b l]; [done|].
  pose proof (hex_prefix_value 0 (b :: l)) as E. rewrite Z.mul_0_l, Z.add_0_l in E.
  rewrite <- E. cbn [hex_digits digits_prefix].
  destruct (hex_char_digit b) as (H1 & _). by rewrite H1.
Qed.

(** ** Documented behaviour of the decoder *)

(** The number a [bits]-bit two's complement pattern denotes. *)
Definition from_twos (bits x : Z) : Z := if x <? 2 ^ (bits - 1) then x else x - 2 ^ bits.

Definition int_bits (bits : Z) : Prop := 8 ≤ bits ≤ 256 ∧ bits mod 8 = 0.

Class DecoderLaws `{EthersOps} `{DecoderOps} : Prop := {
  decode_uint bits data b : int_bits bits → parse_hex data = Some b → length b = 32%nat →
    abi_decode ("uint" +:+ pretty bits) data = Some (pretty (be_val b mod 2 ^ bits));
  decode_int bits data b : int_bits bits → parse_hex data = Some b → length b = 32%nat →
    abi_decode ("int" +:+ pretty bits) data = Some (pretty (from_twos bits (be_val b mod 2 ^ bits)));
  keccak_uint n : 0 ≤ n < 2 ^ 256 →
    solidityKeccak256_uint n = Some (hexlify (keccak (be_enc 32 n)));
  abi_word_uint n : 0 ≤ n < 2 ^ 256 → abi_word "uint" (VNum n) = Some (be_enc 32 n);
  bignum_from_dec s : str_forallb is_digit s = true → s ≠ "" → bignum_from s = Some (dec_value s);
}.

(** ** Elementary values *)

(** The number in [n] bytes at offset [shift] of a word. *)
Definition field (w shift n : Z) : Z := (w / 256 ^ shift) mod 256 ^ n.

Definition in_slot (slot shift n : Z) : Prop :=
  0 ≤ slot < 2 ^ 256 ∧ 0 ≤ shift ∧ 1 ≤ n ∧ shift + n ≤ 32.

(** The text of a field, as addresses and fixed-size bytes are shown. *)
Definition field_text (w shift n : Z) : string :=
  "0x" +:+ hex_digits (be_enc (Z.to_nat n) (w / 256 ^ shift)).

(** The slot after which the contents of a dynamic value are stored. *)
Definition content_slot `{EthersOps} (slot : Z) : Z := be_val (keccak (be_enc 32 slot)).

(** A byte string as Solidity stores it: up to 31 bytes next to twice their
    number, longer ones in the slots from the hash of the slot on. *)
Definition stores_bytes `{EthersOps} (st : Z → Z) (slot : Z) (b : bytes) : Prop :=
  0 ≤ slot < 2 ^ 256 ∧
  if (length b <? 32)%nat then
    be_enc 32 (st slot) = b ++ replicate (31 - length b) x00 ++ [byte_of (2 * Z.of_nat (length b))]
  else
    st slot mod 2 ^ 256 = 2 * Z.of_nat (length b) + 1 ∧
    2 * Z.of_nat (length b) + 1 < MAX_SAFE ∧
    content_slot slot + Z.of_nat (length b) ≤ 2 ^ 256 ∧
    ∀ i : nat, (32 * i < length b)%nat →
      ∃ pad, be_enc 32 (st (content_slot slot + Z.of_nat i)) = take 32 (drop (32 * i) b) ++ pad.

(** ** Values in storage and as the script shows them *)

(** A value of a state variable, as Solidity has it. *)
Inductive stored :=
| SInt (z : Z)
| SBool (b : bool)
| SFixed (b : bytes)
| SBytes (b : bytes)
| SString (b : bytes)
| SArray (l : list stored)
| SStruct (fields : list (string * stored)).

(** What the script shows of a byte string: the last slot of a long one is
    lost when it is full. *)
Definition read_back (b : bytes) : bytes :=
  if (length b <? 32)%nat then b
  else if (length b mod 32 =? 0)%nat then take (length b - 32) b else b.

(** The value the script makes of it, unless a string is not UTF-8. *)
Fixpoint shown `{DecoderOps} (v : stored) : option val :=
  match v with
  | SInt z => Some (VStr (pretty z))
  | SBool b => Some (VBool b)
  | SFixed b => Some (VStr ("0x" +:+ hex_digits b))
  | SBytes b => Some (VStr ("0x" +:+ hex_digits (read_back b)))
  | SString b => VStr <$> toUtf8String ("0x" +:+ hex_digits (read_back b))
  | SArray l => VArr <$> mapM shown l
  | SStruct fields => VObj <$> mapM (λ f : string * stored, pair f.1 <$> shown f.2) fields
  end.

Section layout.
Context `{EthersLaws} `{HD : DecoderOps} `{!DecoderLaws}.
Context (provider : string → Z → outcome string) (address : string).
Context (types : list (string * TypeNode)) (st : Z → Z).
Hypothesis provider_spec :
  ∀ slot, 0 ≤ slot < 2 ^ 256 → provider address slot = Done (word_text (st slot)).

Lemma getStorageAt_run slot :
  0 ≤ slot < 2 ^ 256 → getStorageAt provider address slot = Some (Done (word_text (st slot))).
Proof. intros Hs. unfold getStorageAt, lift. by rewrite provider_spec. Qed.

Lemma readBytes_run slot shift n :
  in_slot slot shift n →
  readBytes provider address slot shift n = Some (Done (field_text (st slot) shift n)).
Proof.
  intros (Hs & Hsh & Hn & Hsn). unfold readBytes. rewrite (R_bind_run _ _ _ (getStorageAt_run _ Hs)).
  rewrite word_field by lia. done.
Qed.

Lemma padded_field slot shift n :
  in_slot slot shift n →
  ∃ data b, hexZeroPad (field_text (st slot) shift n) 32 = Some data ∧
    parse_hex data = Some b ∧ length b = 32%nat ∧ be_val b = field (st slot) shift n.
Proof.
  intros (Hs & Hsh & Hn & Hsn). unfold field_text.
  destruct (hexZeroPad_spec ("0x" +:+ hex_digits (be_enc (Z.to_nat n) (st slot / 256 ^ shift)))
    (be_enc (Z.to_nat n) (st slot / 256 ^ shift)) 32) as (data & Hd & Hp).
  - apply parse_hex_digits.
  - rewrite be_enc_length. lia.
  - eexists _, _. split_and!; [done|done| |].
    + rewrite length_app, length_replicate, be_enc_length. lia.
    + rewrite be_val_pad, be_val_enc, Z2Nat.id by lia. done.
Qed.

Lemma field_small w shift n : 0 ≤ n → field w shift n mod 2 ^ (n * 8) = field w shift n.
Proof.
  intros Hn. unfold field. change (256 ^ n) with ((2 ^ 8) ^ n).
  rewrite <- Z.pow_mul_r, (Z.mul_comm 8 n) by lia.
  apply Z.mod_mod. pose proof (Z.pow_pos_nonneg 2 (n * 8)). lia.
Qed.

Lemma readNumber_run slot shift n label v :
  in_slot slot shift n →
  (label = "uint" +:+ pretty (n * 8) ∧ v = field (st slot) shift n ∨
   label = "int" +:+ pretty (n * 8) ∧ v = from_twos (n * 8) (field (st slot) shift n)) →
  readNumber provider address slot shift label = Some (Done (pretty v)).
Proof.
  intros Hi Hl. pose proof Hi as (Hs & Hsh & Hn & Hsn).
  assert (Hb : int_bits (n * 8)) by (split; [lia|by rewrite Z.mod_mul]).
  unfold readNumber. rewrite (R_bind_run _ _ (n * 8)).
  2:{ rewrite <- (to_number_pretty (n * 8)) by (unfold MAX_SAFE; lia).
      destruct Hl as [[-> _]|[-> _]]; reflexivity. }
  rewrite Z.mod_mul, Z.div_mul by lia. cbn [Z.eqb negb].
  rewrite (R_bind_run _ _ _ (readBytes_run _ _ _ Hi)).
  destruct (padded_field _ _ _ Hi) as (data & b & Hp & Hx & Hlen & Hv).
  rewrite Hp. cbn [or_throw lift mbind R_bind]. unfold lift.
  destruct Hl as [[-> ->]|[-> ->]].
  - rewrite (decode_uint (n * 8) data b), Hv, field_small by (done || lia). done.
  - rewrite (decode_int (n * 8) data b), Hv, field_small by (done || lia). done.
Qed.

Lemma data_slot_run slot :
  0 ≤ slot < 2 ^ 256 → data_slot slot = Some (Done (content_slot slot)).
Proof.
  intros Hs. unfold data_slot. rewrite keccak_uint by done. cbn [or_throw lift mbind R_bind].
  unfold lift. rewrite (bignum_from_spec _ (keccak (be_enc 32 slot))).
  - done.
  - apply parse_hex_hexlify.
  - intros E. pose proof (keccak_length (be_enc 32 slot)) as Hl. by rewrite E in Hl.
Qed.

(** ** Byte strings *)

#[local] Ltac Zify.zify_post_hook ::= Z.to_euclidean_division_equations.

Lemma js_substr_head w (n : nat) :
  js_substr (word_text w) 2 (2 * Z.of_nat n) = hex_digits (take n (be_enc 32 w)).
Proof. exact (js_substr_word_text w 0 n). Qed.

Lemma readSlots_run h (b : bytes) (n i L : nat) :
  0 ≤ h → h + Z.of_nat (length b) ≤ 2 ^ 256 →
  (∀ i : nat, (32 * i < length b)%nat →
     ∃ pad, be_enc 32 (st (h + Z.of_nat i)) = take 32 (drop (32 * i) b) ++ pad) →
  (32 * (i + n) < length b ≤ 32 * (i + S n))%nat → (32 * (i + n) + L ≤ length b)%nat →
  readSlots provider address (S n) (h + Z.of_nat i) (Z.of_nat L) =
  Some (Done (hex_digits (take (32 * n + L) (drop (32 * i) b)))).
Proof.
  intros Hh Hb Hst. revert i. induction n as [|n IH]; intros i Hn HL.
  - cbn [readSlots Nat.eqb].
    rewrite (R_bind_run _ _ _ (getStorageAt_run (h + Z.of_nat i) ltac:(lia))).
    cbn [mbind R_bind mret R_ret]. destruct (Hst i ltac:(lia)) as [pad Hp].
    rewrite Z.mul_comm, js_substr_head, Hp, take_app_le, take_take, str_app_nil
      by (rewrite length_take, length_drop; lia).
    replace (L `min` 32)%nat with (32 * 0 + L)%nat by lia. done.
  - cbn [readSlots]. change (S n =? 0)%nat with false. cbn iota.
    rewrite (R_bind_run _ _ _ (getStorageAt_run (h + Z.of_nat i) ltac:(lia))).
    replace (h + Z.of_nat i + 1) with (h + Z.of_nat (S i)) by lia.
    pose proof (IH (S i) ltac:(lia) ltac:(lia)) as E. cbn [readSlots] in E.
    rewrite (R_bind_run _ _ _ E). cbn [mret R_ret].
    destruct (Hst i ltac:(lia)) as [pad Hp].
    change 64 with (2 * Z.of_nat 32). rewrite js_substr_head, Hp, take_app_le, take_take
      by (rewrite length_take, length_drop; lia).
    rewrite <- hex_digits_app. unfold mret, R_ret. do 3 f_equal.
    replace (32 * S i)%nat with (32 * i + 32)%nat by lia. rewrite <- drop_drop.
    replace (32 * S n + L)%nat with (32 + (32 * n + L))%nat by lia.
    by rewrite Nat.min_id, take_take_drop.
Qed.

Lemma low_byte_run w :
  js_parseInt16 (js_substr (word_text w) 64 2) = Some (w mod 256).
Proof.
  pose proof (js_substr_word_text w 31 1) as E.
  change (2 + 2 * Z.of_nat 31) with 64 in E. change (2 * Z.of_nat 1) with 2 in E.
  rewrite E. change (be_enc 32 w) with (be_enc 31 (w / 256) ++ [byte_of w]).
  rewrite drop_app_length' by (by rewrite be_enc_length). cbn [take].
  by rewrite hex_byte_value, byte_val_of.
Qed.

Lemma short_bytes_run slot (b : bytes) :
  (length b < 32)%nat → 0 ≤ slot < 2 ^ 256 →
  be_enc 32 (st slot) = b ++ replicate (31 - length b) x00 ++ [byte_of (2 * Z.of_nat (length b))] →
  readDynamicBytes provider address slot = Some (Done ("0x" +:+ hex_digits b)).
Proof.
  intros Hl Hs E. unfold readDynamicBytes.
  rewrite (R_bind_run _ _ _ (getStorageAt_run _ Hs)), low_byte_run.
  assert (Hlow : st slot mod 256 = 2 * Z.of_nat (length b)).
  { change (be_enc 32 (st slot)) with (be_enc 31 (st slot / 256) ++ [byte_of (st slot)]) in E.
    rewrite app_assoc in E. apply app_inj_tail in E as [_ E].
    rewrite <- byte_val_of, E, byte_val_of, Z.mod_small by lia. done. }
  rewrite Hlow, Z.mul_comm, Z.rem_mul by lia. cbn [Z.eqb].
  rewrite Z.div_mul, js_substr_head, E, take_app_length by lia. done.
Qed.

(** The number of slots of a long byte string and the length of the last. *)
Lemma slot_count (len : nat) :
  (32 ≤ len)%nat →
  let n := ((len - 1) / 32)%nat in
  Z.to_nat ((Z.of_nat len + 31) / 32) = S n ∧ Z.rem (Z.of_nat len) 32 = Z.of_nat (len mod 32) ∧
  (32 * (0 + n) < len ≤ 32 * (0 + S n))%nat ∧
  (32 * n + len mod 32 = if len mod 32 =? 0 then len - 32 else len)%nat.
Proof.
  intros Hl n. pose proof (Nat.div_mod_eq (len - 1) 32) as E. fold n in E.
  pose proof (Nat.mod_upper_bound (len - 1) 32 ltac:(lia)).
  pose proof (Nat.div_mod_eq len 32). pose proof (Nat.mod_upper_bound len 32 ltac:(lia)).
  split_and!; [lia| |lia|lia|].
  - by rewrite Z.rem_mod_nonneg, Nat2Z.inj_mod by lia.
  - destruct (Nat.eqb_spec (len mod 32) 0); lia.
Qed.

Lemma long_bytes_run slot (b : bytes) :
  (32 ≤ length b)%nat → stores_bytes st slot b →
  readDynamicBytes provider address slot = Some (Done ("0x" +:+ hex_digits (read_back b))).
Proof.
  intros Hl [Hs Hb]. rewrite (proj2 (Nat.ltb_ge _ _) Hl) in Hb.
  destruct Hb as (Hw & Hsafe & Hend & Hst). unfold readDynamicBytes.
  rewrite (R_bind_run _ _ _ (getStorageAt_run _ Hs)), low_byte_run.
  assert (Hodd : Z.rem (st slot mod 256) 2 = 1).
  { pose proof (Z.mod_pos_bound (st slot) 256 ltac:(lia)).
    assert (E : (st slot mod 2 ^ 256) mod 256 = st slot mod 256)
      by (apply Z.mod_mod_divide; by exists (2 ^ 248)).
    rewrite Hw in E. rewrite Z.rem_mod_nonneg, <- E, Z.mod_mod_divide by (lia || by exists 128).
    clear. lia. }
  rewrite Hodd. cbn [Z.eqb]. unfold readLongBytes. rewrite parse_word_text, Hw.
  assert (Hev : Z.even (2 * Z.of_nat (length b) + 1) = false)
    by (by rewrite Z.even_add, Z.even_mul).
  rewrite Hev, (proj2 (Z.leb_gt _ _) Hsafe). cbn [orb].
  replace ((2 * Z.of_nat (length b) + 1 - 1) / 2) with (Z.of_nat (length b)) by lia.
  rewrite (R_bind_run _ _ _ (data_slot_run _ Hs)).
  set (n := ((length b - 1) / 32)%nat).
  destruct (slot_count (length b) Hl) as (E1 & E2 & E3 & E4). fold n in E1, E3, E4.
  rewrite E1, E2.
  pose proof (readSlots_run (content_slot slot) b n 0 (length b mod 32)) as E.
  rewrite Z.add_0_r, Nat.mul_0_r, drop_0 in E.
  rewrite (R_bind_run _ _ _ (E ltac:(apply be_val_range) Hend Hst E3 ltac:(lia))).
  unfold mret, R_ret, read_back. do 4 f_equal. rewrite (proj2 (Nat.ltb_ge _ _) Hl).
  rewrite E4. destruct (Nat.eqb_spec (length b mod 32) 0); [done|]. by rewrite take_ge.
Qed.

Lemma readDynamicBytes_run slot (b : bytes) :
  stores_bytes st slot b →
  readDynamicBytes provider address slot = Some (Done ("0x" +:+ hex_digits (read_back b))).
Proof.
  intros Hb. destruct (Nat.ltb_spec (length b) 32) as [Hl|Hl]; [|by apply long_bytes_run].
  destruct Hb as [Hs Hb]. unfold read_back. rewrite (proj2 (Nat.ltb_lt _ _) Hl) in Hb |- *.
  by apply short_bytes_run.
Qed.

(** ** The layout of a value *)

(** Values of elementary types. *)
Inductive prim_holds (slot shift : Z) : string → stored → Prop :=
| holds_uint ty t n :
    starts_with "t_uint" ty = true → type_of types ty = Some (Done t) →
    t_label t = "uint" +:+ pretty (n * 8) → in_slot slot shift n →
    prim_holds slot shift ty (SInt (field (st slot) shift n))
| holds_int ty t n :
    starts_with "t_int" ty = true → type_of types ty = Some (Done t) →
    t_label t = "int" +:+ pretty (n * 8) → in_slot slot shift n →
    prim_holds slot shift ty (SInt (from_twos (n * 8) (field (st slot) shift n)))
| holds_bool :
    in_slot slot shift 1 →
    prim_holds slot shift "t_bool" (SBool (negb (field (st slot) shift 1 =? 0)))
| holds_address ty :
    ty = "t_address" ∨ ty = "t_address_payable" → in_slot slot shift 20 →
    prim_holds slot shift ty (SFixed (be_enc 20 (field (st slot) shift 20)))
| holds_fixed_bytes ty t n :
    starts_with "t_bytes" ty = true → ty ≠ "t_bytes_storage" → type_of types ty = Some (Done t) →
    numberOfBytes t = pretty n → in_slot slot shift n →
    prim_holds slot shift ty (SFixed (be_enc (Z.to_nat n) (field (st slot) shift n)))
| holds_enum ty t n :
    starts_with "t_enum" ty = true → type_of types ty = Some (Done t) →
    numberOfBytes t = pretty n → in_slot slot shift n →
    prim_holds slot shift ty (SInt (field (st slot) shift n))
| holds_bytes b : stores_bytes st slot b → prim_holds slot shift "t_bytes_storage" (SBytes b)
| holds_string b : stores_bytes st slot b → prim_holds slot shift "t_string_storage" (SString b).

(** Number of elements and first slot of an array. *)
Definition array_at (slot : Z) (ty : string) (t : TypeNode) (len first : Z) : Prop :=
  if String.eqb (encoding t) "dynamic_array" then
    in_slot slot 0 32 ∧ len = field (st slot) 0 32 ∧ len < MAX_SAFE ∧ first = content_slot slot
  else (∃ pre, ty = pre +:+ ")" +:+ pretty len +:+ "_storage") ∧ first = slot.

(** [holds n slot shift ty v]: the storage contains the value [v] of type [ty]
    at [slot] and byte offset [shift], with types nested at most [n] deep. *)
Fixpoint holds (n : nat) (slot shift : Z) (ty : string) (v : stored) : Prop :=
  match n with
  | O => False
  | S n' =>
      if starts_with "t_array" ty then
        ∃ t b bb first vs, v = SArray vs ∧ type_of types ty = Some (Done t) ∧
          type_of types (js_show (base t)) = Some (Done b) ∧
          numberOfBytes b = pretty bb ∧ elem_size bb ∧
          array_at slot ty t (Z.of_nat (length vs)) first ∧
          ∀ i w, vs !! i = Some w →
            holds n' (elem_slot first bb (Z.of_nat i)) (elem_shift bb (Z.of_nat i))
              (js_show (base t)) w
      else if starts_with "t_struct" ty then
        ∃ t fs, v = SStruct fs ∧ type_of types ty = Some (Done t) ∧ NoDup (m_label <$> members t) ∧
          Forall2 (λ m f, f.1 = m_label m ∧ ∃ k, m_slot m = pretty k ∧ 0 ≤ k < MAX_SAFE ∧
            holds n' (slot + k) (m_offset m) (m_type m) f.2) (members t) fs
      else prim_holds slot shift ty v
  end.

Lemma str_take_slice n s : s = str_take n s +:+ js_slice n s.
Proof. revert s. induction n; intros [|c s]; cbn; [done..|]. by rewrite <- IHn. Qed.

Lemma starts_with_inv p s : starts_with p s = true → ∃ rest, s = p +:+ rest.
Proof.
  unfold starts_with. intros E%String.eqb_eq. rewrite js_substr_zero, Nat2Z.id in E.
  exists (js_slice (String.length p) s). rewrite <- E at 1. apply str_take_slice.
Qed.

Lemma pretty_bool x : 0 ≤ x → String.eqb (pretty x) "0" = (x =? 0).
Proof.
  intros Hx. destruct (Z.eqb_spec x 0) as [->|Hne]; [done|]. apply String.eqb_neq.
  intros E. apply Hne. by apply (inj pretty).
Qed.

Lemma field_nonneg w shift n : 0 ≤ n → 0 ≤ field w shift n.
Proof. intros Hn. apply Z.mod_pos_bound. apply Z.pow_pos_nonneg; lia. Qed.

Lemma be_enc_mod n z : be_enc n (z mod 256 ^ Z.of_nat n) = be_enc n z.
Proof. rewrite <- be_val_enc. rewrite <- (be_enc_length n z) at 1. apply be_enc_val. Qed.

Lemma field_text_shown w shift n :
  0 ≤ n → field_text w shift n = "0x" +:+ hex_digits (be_enc (Z.to_nat n) (field w shift n)).
Proof.
  intros Hn. unfold field_text, field. rewrite <- (be_enc_mod (Z.to_nat n) (w / 256 ^ shift)), Z2Nat.id by done. done.
Qed.

Lemma readPrimitive_run slot shift ty v x :
  prim_holds slot shift ty v → shown v = Some x →
  readPrimitive provider address types slot shift ty = Some (Done x).
Proof.
  intros Hv. destruct Hv as [ty t n Hp Ht Hl Hi|ty t n Hp Ht Hl Hi|Hi|ty Hty Hi|ty t n Hp Hne Ht Hl Hi
    |ty t n Hp Ht Hl Hi|b Hb|b Hb]; unfold readPrimitive; cbn [shown]; [intros Hx; apply Some_inj in Hx; subst x..|].
  - rewrite Hp, orb_true_r, (R_bind_run _ _ _ Ht). apply R_fmap_run.
    eapply readNumber_run; [done|]. by left.
  - rewrite Hp, (R_bind_run _ _ _ Ht). apply R_fmap_run.
    eapply readNumber_run; [done|]. by right.
  - cbn. apply R_fmap_run. unfold readBoolean.
    rewrite (R_bind_run _ _ (pretty (field (st slot) shift 1))).
    + by rewrite pretty_bool by (by apply field_nonneg).
    + eapply readNumber_run; [done|]. by left.
  - change 20%nat with (Z.to_nat 20). rewrite <- field_text_shown by done.
    destruct Hty as [-> | ->]; by apply R_fmap_run, readBytes_run.
  - pose proof Hi as (_ & ? & ? & ?).
    destruct (starts_with_inv _ _ Hp) as [rest E].
    assert (Hc : starts_with "t_int" ty || starts_with "t_uint" ty = false ∧
      String.eqb ty "t_bool" = false ∧ String.eqb ty "t_address" || String.eqb ty "t_address_payable" = false)
      by (subst ty; done).
    destruct Hc as (-> & -> & ->). rewrite (proj2 (String.eqb_neq _ _) Hne), Hp, (R_bind_run _ _ _ Ht).
    rewrite Hl, (R_bind_run _ _ n) by (apply to_number_pretty; unfold MAX_SAFE; lia).
    rewrite <- field_text_shown by lia. by apply R_fmap_run, readBytes_run.
  - pose proof Hi as (_ & ? & ? & ?).
    destruct (starts_with_inv _ _ Hp) as [rest E].
    assert (Hc : starts_with "t_int" ty || starts_with "t_uint" ty = false ∧
      String.eqb ty "t_bool" = false ∧
      String.eqb ty "t_address" || String.eqb ty "t_address_payable" = false ∧
      String.eqb ty "t_bytes_storage" = false ∧ starts_with "t_bytes" ty = false ∧
      String.eqb ty "t_string_storage" = false) by (subst ty; done).
    destruct Hc as (-> & -> & -> & -> & -> & ->). rewrite Hp, (R_bind_run _ _ _ Ht).
    rewrite Hl, (R_bind_run _ _ n) by (apply to_number_pretty; unfold MAX_SAFE; lia).
    apply R_fmap_run. eapply readNumber_run; [done|]. by left.
  - change (VStr <$> readDynamicBytes provider address slot = Some (Done (VStr ("0x" +:+ hex_digits (read_back b))))).
    by apply R_fmap_run, readDynamicBytes_run.
  - intros (s & Hs & ->)%fmap_Some. change (VStr <$> readString provider address slot = Some (Done (VStr s))).
    apply R_fmap_run. unfold readString. by rewrite (R_bind_run _ _ _ (readDynamicBytes_run _ _ Hb)), Hs.
Qed.

Lemma absent_digits c s : is_digit c = false → str_forallb is_digit s = true → absent c s.
Proof.
  unfold absent. intros Hc. induction s as [|d s IH]; [done|]. cbn. intros [Hd Hs]%andb_prop.
  rewrite IH by done. destruct (Ascii.eqb_spec c d) as [->|]; [congruence|done].
Qed.

Lemma static_length pre len :
  0 ≤ len →
  let ty := pre +:+ ")" +:+ pretty len +:+ "_storage" in
  js_substring ty (js_lastIndexOf ")" ty + 1) (js_lastIndexOf "_" ty) = pretty len.
Proof.
  intros Hlen ty. destruct (pretty_digits len Hlen) as (Hd & _ & _).
  assert (E1 : js_lastIndexOf ")" ty = Z.of_nat (String.length pre)).
  { unfold ty. cbn [String.append]. apply js_lastIndexOf_last. unfold absent.
    rewrite js_indexOf_app by (by apply absent_digits). done. }
  assert (E2 : js_lastIndexOf "_" ty = Z.of_nat (String.length (pre +:+ ")" +:+ pretty len))).
  { unfold ty. rewrite !str_app_assoc'. by apply js_lastIndexOf_last. }
  rewrite E1, E2. unfold js_substring. rewrite !str_length_app. cbn [String.length].
  set (a := Z.max 0 _). set (b := Z.max 0 _).
  assert (Ha : a = Z.of_nat (String.length (pre +:+ ")"))).
  { unfold a, ty. rewrite !str_length_app. cbn [String.length]. lia. }
  assert (Hb : b = Z.of_nat (String.length (pre +:+ ")")) + Z.of_nat (String.length (pretty len))).
  { unfold b, ty. rewrite !str_length_app. cbn [String.length]. lia. }
  replace (Z.to_nat (Z.min a b)) with (String.length (pre +:+ ")")) by lia.
  replace (Z.to_nat (Z.max a b - Z.min a b)) with (String.length (pretty len)) by lia.
  unfold ty. by rewrite (str_app_assoc' pre ")"), js_slice_app, str_take_app.
Qed.

Lemma arrayHead_run slot ty t len first :
  0 ≤ len → array_at slot ty t len first →
  arrayHead provider address slot ty t = Some (Done (len, first)).
Proof.
  intros Hlen. unfold array_at, arrayHead.
  destruct (String.eqb (encoding t) "dynamic_array").
  - intros (Hi & Hf & Hmax & ->).
    rewrite (R_bind_run _ _ (pretty len)) by (eapply (readNumber_run slot 0 32); [done|]; by left).
    rewrite (R_bind_run _ _ len) by (apply to_number_pretty; lia).
    rewrite (R_bind_run _ _ _ (data_slot_run slot ltac:(apply Hi))). done.
  - intros [[pre Hty] ->]. pose proof (static_length pre len Hlen) as E. cbn zeta in E.
    rewrite Hty, E, js_parseInt10_pretty by done. done.
Qed.

Lemma readVariable_run n slot shift ty v x :
  holds n slot shift ty v → shown v = Some x →
  readVariable provider address types n slot shift ty = Some (Done x).
Proof.
  revert slot shift ty v x. induction n as [|n IH]; intros slot shift ty v x; [done|].
  cbn [holds readVariable].
  destruct (starts_with "t_array" ty); [|destruct (starts_with "t_struct" ty)].
  - intros (t & b & bb & first & vs & -> & Ht & Hb & Hbb & Hsize & Hat & Hvs) (xs & Hx%mapM_Some & ->)%fmap_Some.
    rewrite (Forall2_length _ _ _ Hx) in Hat.
    unfold readArray. rewrite (R_bind_run _ _ _ Ht).
    rewrite (R_bind_run _ _ _ (arrayHead_run _ _ _ _ _ (Nat2Z.is_nonneg _) Hat)).
    rewrite (R_bind_run _ _ _ Hb), Hbb, (R_bind_run _ _ bb).
    2:{ destruct Hsize. apply to_number_pretty. unfold MAX_SAFE. lia. }
    apply R_fmap_run, array_cells; [done|]. rewrite Nat2Z.id. split; [done|].
    intros j w Hj. rewrite Z.add_0_l. destruct (Forall2_lookup_r _ _ _ _ _ Hx Hj) as (u & Hu & Hw).
    by eapply IH; [apply Hvs|].
  - intros (t & fs & -> & Ht & Hnd & Hfs) (xs & Hx%mapM_Some & ->)%fmap_Some.
    unfold readStruct. rewrite (R_bind_run _ _ _ Ht).
    apply R_fmap_run, readMembers_iff; [done|intros; apply not_elem_of_nil|].
    exists xs. split; [done|]. clear Ht Hnd. revert xs Hx. induction Hfs as [|m f ms fs Hf Hfs IHfs]; intros xs Hx;
      [apply Forall2_nil_inv_l in Hx as ->; constructor|].
    apply Forall2_cons_inv_l in Hx as (y & ys & (z & Hz & ->)%fmap_Some & Hys & ->).
    constructor; [|by apply IHfs]. destruct Hf as (Hl & k & Hk & Hk' & Hf). split; [done|].
    exists (slot + k). split; [|by eapply IH].
    unfold bn_add. rewrite Hk, js_parseInt10_pretty, Z.abs_eq by apply Hk'.
    by rewrite (proj2 (Z.ltb_lt _ _) (proj2 Hk')).
  - apply readPrimitive_run.
Qed.
End layout.

(** ** An executable decoder *)
Module ModelDecoder.

Definition decode (label data : string) : option string :=
  b ← parse_hex data;
  if starts_with "uint" label then
    Some (pretty (be_val b mod 2 ^ dec_value (js_slice 4 label)))
  else if starts_with "int" label then
    let bits := dec_value (js_slice 3 label) in
    Some (pretty (from_twos bits (be_val b mod 2 ^ bits)))
  else None.

Fixpoint text (b : bytes) : string :=
  match b with [] => "" | c :: b' => String (ascii_of_byte c) (text b') end.

Fixpoint bytes_of (s : string) : bytes :=
  match s with EmptyString => [] | String c s' => byte_of_ascii c :: bytes_of s' end.

End ModelDecoder.

Definition model_decoder : DecoderOps := {|
  abi_decode := ModelDecoder.decode;
  toUtf8String s := ModelDecoder.text <$> parse_hex s;
  toUtf8Bytes s := Some (ModelDecoder.bytes_of s);
  solidityKeccak256_uint n := Some (@hexlify model_ethers (@keccak model_ethers (be_enc 32 n)));
|}.

#[export] Instance model_decoder_laws : @DecoderLaws model_ethers model_decoder.
Proof.
  split.
  - intros bits data b [Hb _] Hp _. cbn. unfold ModelDecoder.decode. rewrite Hp.
    cbn -[pretty Z.pow]. destruct (pretty_digits bits ltac:(lia)) as (_ & -> & _). done.
  - intros bits data b [Hb _] Hp _. cbn. unfold ModelDecoder.decode. rewrite Hp.
    cbn -[pretty Z.pow from_twos]. destruct (pretty_digits bits ltac:(lia)) as (_ & -> & _). done.
  - done.
  - intros n Hn. cbn. rewrite (proj2 (Z.leb_le _ _)), (proj2 (Z.ltb_lt _ _)) by lia. done.
  - intros s Hs Hne. cbn. unfold ModelEthers.bignum_of_hex.
    assert (E : parse_hex s = None ∨ parse_hex s = Some []).
    { destruct s as [|c [|d s]]; [by left| |]; [by destruct c as [[] [] [] [] [] [] [] []]; left|].
      cbn [str_forallb] in Hs. apply andb_prop in Hs as [_ Hs]. apply andb_prop in Hs as [Hd _].
      left. apply is_digit_cases in Hd. rewrite !elem_of_cons, elem_of_nil in Hd.
      destruct_or! Hd; subst d; by destruct c as [[] [] [] [] [] [] [] []]. }
    apply String.eqb_neq in Hne. destruct E as [-> | ->]; by rewrite Hs, Hne.
Qed.
