(* ===== verification/StorageTheorems.v ===== *)
(** * Correctness of read-variable.ts

    The properties of the storage reader, each with a concrete storage as
    witness: what a name returns, that parts agree with wholes, where mapping
    entries are looked up, how names parse, and what happens to byte strings. *)

From stdpp Require Import base list strings pretty.
From Stdlib Require Import ZArith Lia Strings.Byte Ascii.
From S2P Require Import Prelude Js JsPartial Ethers StorageReader StorageProofs StorageLayout.

(** ** Mapping keys *)

(** The bytes a key contributes to the hash, as the Solidity documentation
    defines them for numbers, addresses and strings. *)
Inductive key_bytes `{DecoderOps} (types : list (string * TypeNode)) : string → string → bytes → Prop :=
| key_uint t z :
    type_of types "t_uint256" = Some (Done t) → t_label t = "uint256" → 0 ≤ z < MAX_SAFE →
    key_bytes types "t_uint256" (pretty z) (be_enc 32 z)
| key_address a :
    length a = 20%nat → key_bytes types "t_address" ("0x" +:+ hex_digits a) (replicate 12 x00 ++ a)
| key_string s b :
    toUtf8Bytes s = Some b → key_bytes types "t_string_memory_ptr" s b.

Section mapping.
Context `{EthersLaws} `{HD : DecoderOps} `{!DecoderLaws}.

Lemma abi_encode_word ty v w :
  static_type ty = true → abi_word ty v = Some w → abi_encode [ty] [v] = Some (hexlify w).
Proof.
  intros Ht Hw. apply abi_encode_static; [by cbn; rewrite Ht|done|].
  unfold abi_words. cbn. rewrite Hw. cbn. by rewrite app_nil_r.
Qed.

Lemma encodeKey_run types kt k b :
  key_bytes types kt k b → encodeKey types k kt = Some (Done ("0x" +:+ hex_digits b)).
Proof.
  intros Hk. destruct Hk as [t z Ht Hl Hz|a Ha|s b Hs]; unfold encodeKey.
  - change ((t ← type_of types "t_uint256"; n ← to_number (pretty z);
      lift (or_throw bad_bignum (abi_encode [t_label t] [VNum n]))) =
      Some (Done ("0x" +:+ hex_digits (be_enc 32 z)))).
    rewrite (R_bind_run _ _ _ Ht), (R_bind_run _ _ z) by (by apply to_number_pretty).
    assert (z < 2 ^ 256) by (unfold MAX_SAFE in Hz; lia).
    rewrite Hl, (abi_encode_word "uint256" (VNum z) (be_enc 32 z)) by (done || apply abi_word_uint256; lia).
    by rewrite hexlify_spec.
  - change (Some (Done ("0x" +:+ padStart0 64 (if (String.length ("0x" +:+ hex_digits a) =? 42)%nat
      then js_slice 2 ("0x" +:+ hex_digits a) else "0x" +:+ hex_digits a))) =
      Some (Done ("0x" +:+ hex_digits (replicate 12 x00 ++ a)))).
    rewrite str_length_app, hex_digits_length, Ha. cbn [String.length Nat.add Nat.mul Nat.eqb].
    change (js_slice 2 ("0x" +:+ hex_digits a)) with (hex_digits a).
    unfold padStart0. rewrite hex_digits_length, Ha, hex_digits_app. reflexivity.
  - change (hexlify <$> lift (or_throw bad_bignum (toUtf8Bytes s)) = Some (Done ("0x" +:+ hex_digits b))).
    rewrite Hs. rewrite <- hexlify_spec. done.
Qed.

Lemma readPartOfMap_run types part slot ty t k b :
  type_of types ty = Some (Done t) → key_bytes types (js_show (key t)) k b → 0 ≤ slot < 2 ^ 256 →
  readPartOfMap types part slot ty k =
  part (be_val (keccak (b ++ be_enc 32 slot))) 0 (js_show (value t)).
Proof.
  intros Ht Hk Hs. unfold readPartOfMap.
  rewrite (R_bind_run _ _ _ Ht), (R_bind_run _ _ _ (encodeKey_run _ _ _ _ Hk)).
  rewrite (abi_encode_word "uint" (VNum slot) (be_enc 32 slot)) by (done || by apply abi_word_uint).
  cbn [or_throw lift mbind R_bind]. rewrite hexlify_spec.
  change (js_slice 2 ("0x" +:+ hex_digits (be_enc 32 slot))) with (hex_digits (be_enc 32 slot)).
  rewrite <- str_app_assoc', <- hex_digits_app, arrayify_spec.
  assert (E : ∀ l, parse_hex ("0x" +:+ hex_digits l) = Some l) by apply parse_hex_digits.
  rewrite E. cbn [or_throw lift mbind R_bind].
  rewrite (bignum_from_spec _ (keccak (b ++ be_enc 32 slot))).
  - done.
  - apply parse_hex_hexlify.
  - intros E'. pose proof (keccak_length (b ++ be_enc 32 slot)) as Hl. by rewrite E' in Hl.
Qed.
End mapping.

(** ** The properties *)

(** C21: A variable name with a path of fields and indices returns the part of
    the stored value that the path denotes, for every value laid out by the
    rules of Solidity: numbers, booleans, addresses, fixed-size bytes, enums, byte
    strings, strings, structs and static or dynamic arrays of them, nested to any
    depth.  Numbers come out in decimal, addresses and bytes in hexadecimal and
    strings decoded; of a byte string or string whose length is a positive multiple
    of 32 the last 32 bytes are missing.  The compiler's layout is well formed and
    has the variable, the lengths are below 2^53, and every string, as far as it is
    read, is UTF-8. *)
Theorem getValue_reads `{EthersLaws} `{HD : DecoderOps} `{!DecoderLaws}
    provider artifacts (st : Z → Z) address contractName names fullName file layout
    name path var slot n v x w :
  (∀ slot, 0 ≤ slot < 2 ^ 256 → provider address slot = Done (word_text (st slot))) →
  allFullyQualifiedNames artifacts = Done names →
  head (filter (λ p : string * (string * string), p.1 = contractName) (contractMap names)) =
    Some (contractName, (fullName, file)) →
  storageLayout artifacts fullName file contractName = Done layout →
  types_wf (l_types layout) →
  last (filter (λ v, v_label v = name) (l_storage layout)) = Some var →
  v_slot var = pretty slot → 0 ≤ slot →
  holds (l_types layout) st n slot (v_offset var) (v_type var) v → shown v = Some x →
  plain name → Forall (λ a, plain (access_name a)) path →
  select x (map access_name path) = Some w →
  getValue provider artifacts n address contractName (name +:+ print_path path) = Some (Done w).
Proof.
  intros Hp Hn Hc Hl Hwf Hv Hslot Hpos Hh Hx Hname Hpath Hs. unfold getValue, lift.
  rewrite Hn. cbn [mbind R_bind]. rewrite Hc, Hl. cbn [mbind R_bind].
  rewrite parseName_print, getVariableName_print by done. cbn [mbind R_bind]. rewrite Hv, Hslot.
  destruct (pretty_digits slot Hpos) as (Hd & Hval & Hne).
  rewrite bignum_from_dec, Hval by done. cbn [or_throw mbind R_bind].
  unfold readPartOfVariable. rewrite rev_involutive.
  eapply readParts_select; [done| |done]. by eapply readVariable_run.
Qed.

(** reading one part of a variable is the same as reading the variable and
    taking the part, whatever the storage answers: the direct computation of
    the slot and offset of an element agrees with the loop over the array. *)
Theorem parts_agree_with_whole `{EthersOps} `{DecoderOps} provider address types
    n slot shift ty v params w :
  types_wf types →
  readVariable provider address types n slot shift ty = Some (Done v) →
  select v (rev params) = Some w →
  readPartOfVariable provider address types n slot shift ty params = Some (Done w).
Proof. intros Hwf Hv Hs. unfold readPartOfVariable. by eapply readParts_select. Qed.

(** an entry of a mapping is read at the hash of its padded key and the
    slot of the mapping, and the rest of the path continues there. *)
Theorem mapping_entry_slot `{EthersLaws} `{HD : DecoderOps} `{!DecoderLaws}
    provider address types n slot shift ty t k b params :
  type_of types ty = Some (Done t) → encoding t = "mapping" →
  starts_with "t_array" ty = false → starts_with "t_struct" ty = false →
  key_bytes types (js_show (key t)) k b → 0 ≤ slot < 2 ^ 256 →
  readPartOfVariable provider address types n slot shift ty (params ++ [k]) =
  readPartOfVariable provider address types n (be_val (keccak (b ++ be_enc 32 slot))) 0
    (js_show (value t)) params.
Proof.
  intros Ht He Ha Hst Hk Hs. unfold readPartOfVariable. rewrite rev_app_distr.
  cbn [rev app readParts]. rewrite Ha, Hst, (R_bind_run _ _ _ Ht), He. cbn [String.eqb Ascii.eqb Bool.eqb].
  by apply readPartOfMap_run.
Qed.

(** C40: printing a path after a variable name and parsing the result gives back
    the variable name and the steps of the path, last step first. *)
Theorem name_roundtrip name path :
  plain name → Forall (λ a, plain (access_name a)) path →
  getVariableName (name +:+ print_path path) = name ∧
  parseName (name +:+ print_path path) = Done (rev (map access_name path)).
Proof.
  intros Hn Hp. split; [by apply getVariableName_print|by apply parseName_print].
Qed.

(** a byte string read from storage is complete exactly when it is shorter
    than 32 bytes or its length is not a multiple of 32; otherwise its last 32
    bytes are missing. *)
Theorem dynamic_bytes_read `{EthersLaws} `{HD : DecoderOps} `{!DecoderLaws}
    provider address (st : Z → Z) slot (b : bytes) :
  (∀ slot, 0 ≤ slot < 2 ^ 256 → provider address slot = Done (word_text (st slot))) →
  stores_bytes st slot b →
  ∃ r, readDynamicBytes provider address slot = Some (Done ("0x" +:+ hex_digits r)) ∧
    (if decide (length b < 32 ∨ length b mod 32 ≠ 0)%nat then r = b
     else length r = (length b - 32)%nat ∧ r = take (length r) b).
Proof.
  intros Hp Hb. exists (read_back b). split; [by eapply readDynamicBytes_run|].
  unfold read_back. destruct (Nat.ltb_spec (length b) 32); [by rewrite decide_True by lia|].
  destruct (Nat.eqb_spec (length b mod 32) 0).
  - rewrite decide_False by lia. rewrite length_take. split; [lia|]. f_equal. lia.
  - by rewrite decide_True by lia.
Qed.

(** ** Witnesses *)

Definition plain_type (label size : string) : TypeNode := mkType label "inplace" size None None None [].

Definition item_type : string := "t_struct(Item)7_storage".
Definition items_type : string := "t_array(t_struct(Item)7_storage)dyn_storage".
Definition balances_type : string := "t_mapping(t_address,t_uint256)".

Definition balances_node : TypeNode :=
  mkType "mapping(address => uint256)" "mapping" "32" None (Some "t_address") (Some "t_uint256") [].

Definition sample_types : list (string * TypeNode) := [
  ("t_uint256", plain_type "uint256" "32");
  ("t_uint64", plain_type "uint64" "8");
  ("t_address", plain_type "address" "20");
  (item_type, mkType "struct Item" "inplace" "64" None None None
     [mkMember "id" "0" 0 "t_uint64"; mkMember "paid" "0" 8 "t_bool"; mkMember "total" "1" 0 "t_uint256"]);
  (items_type, mkType "struct Item[]" "dynamic_array" "32" (Some item_type) None None []);
  (balances_type, balances_node)].

Definition sample_layout : Layout :=
  mkLayout sample_types [mkVariable "balances" "2" 0 balances_type; mkVariable "items" "3" 0 items_type;
    mkVariable "note" "4" 0 "t_bytes_storage"].

Definition sample_artifacts : Artifacts :=
  mkArtifacts (Done ["contracts/Shop.sol:Shop"]) (λ _ _ _, Done sample_layout).

(** Two items from slot [content_slot 3] on, two slots each, and a byte string
    of 64 bytes from [content_slot 4] on. *)
Definition sample_storage (slot : Z) : Z :=
  if slot =? 3 then 2
  else if slot =? 126 then 7 + 2 ^ 64
  else if slot =? 127 then 1000
  else if slot =? 128 then 8
  else if slot =? 129 then 2000
  else if slot =? 4 then 129
  else if slot =? 157 then be_val (replicate 32 x61)
  else if slot =? 158 then be_val (replicate 32 x62)
  else 0.

Definition sample_provider (address : string) (slot : Z) : outcome string :=
  Done (word_text (sample_storage slot)).

Definition item (id total : Z) (paid : bool) : stored :=
  SStruct [("id", SInt id); ("paid", SBool paid); ("total", SInt total)].

Definition sample_items : stored := SArray [item 7 1000 true; item 8 2000 false].

Lemma sample_types_wf : types_wf sample_types.
Proof.
  repeat (apply Forall_cons_2; [split; try discriminate|]); [| |constructor].
  - intros _. apply (bool_decide_unpack _). vm_compute. exact I.
  - intros _. eexists _, 64. split; [reflexivity|]. split; [reflexivity|]. split; [lia|by right].
Qed.

Lemma sample_item_holds k id total paid :
  0 ≤ k < 2 ^ 256 - 1 →
  id = field (sample_storage k) 0 8 → paid = negb (field (sample_storage k) 8 1 =? 0) →
  total = field (sample_storage (k + 1)) 0 32 →
  @holds model_ethers sample_types sample_storage 2 k 0 item_type (item id total paid).
Proof.
  intros Hk E1 E2 E3. cbn [holds]. change (starts_with "t_array" item_type) with false.
  change (starts_with "t_struct" item_type) with true. cbn iota. unfold item. rewrite E1, E2, E3.
  eexists _, _. split; [reflexivity|]. split; [reflexivity|].
  split; [apply (bool_decide_unpack _); vm_compute; exact I|].
  repeat (apply Forall2_cons; split); [| | |constructor].
  - split; [reflexivity|]. exists 0. split; [reflexivity|]. split; [done|]. rewrite Z.add_0_r.
    eapply (holds_uint _ _ _ _ _ _ 8); [reflexivity|reflexivity|reflexivity|]. unfold in_slot. cbn. lia.
  - split; [reflexivity|]. exists 0. split; [reflexivity|]. split; [done|]. rewrite Z.add_0_r.
    apply holds_bool. unfold in_slot. cbn. lia.
  - split; [reflexivity|]. exists 1. split; [reflexivity|]. split; [done|].
    eapply (holds_uint _ _ _ _ _ _ 32); [reflexivity|reflexivity|reflexivity|]. unfold in_slot. cbn. lia.
Qed.

Lemma sample_items_hold :
  @holds model_ethers sample_types sample_storage 3 3 0 items_type sample_items.
Proof.
  change (∃ t b bb first vs, sample_items = SArray vs ∧
    type_of sample_types items_type = Some (Done t) ∧
    type_of sample_types (js_show (base t)) = Some (Done b) ∧ numberOfBytes b = pretty bb ∧
    elem_size bb ∧
    @array_at model_ethers sample_storage 3 items_type t (Z.of_nat (length vs)) first ∧
    ∀ i w, vs !! i = Some w →
      @holds model_ethers sample_types sample_storage 2
        (elem_slot first bb (Z.of_nat i)) (elem_shift bb (Z.of_nat i)) (js_show (base t)) w).
  eexists _, _, 64, 126, _. split; [reflexivity|]. split; [reflexivity|]. split; [reflexivity|].
  split; [reflexivity|]. split; [split; [lia|by right]|]. split.
  - unfold array_at. cbn [encoding String.eqb Ascii.eqb Bool.eqb].
    split; [unfold in_slot; lia|]. split; [reflexivity|]. split; [reflexivity|].
    vm_compute. reflexivity.
  - intros [|[|i]] w [= <-]; apply sample_item_holds; vm_compute;
      first [reflexivity | split; [discriminate|reflexivity]].
Qed.

(** A byte string of two slots. *)
Definition sample_note : stored := SBytes (replicate 32 x61 ++ replicate 32 x62).

Lemma sample_note_holds : @holds model_ethers sample_types sample_storage 3 4 0 "t_bytes_storage" sample_note.
Proof.
  apply holds_bytes. split; [lia|]. split_and!; [reflexivity|reflexivity|vm_compute; discriminate|].
  intros i Hi. exists []. cbn in Hi. assert (i = 0%nat ∨ i = 1%nat) as [-> | ->] by lia; vm_compute; reflexivity.
Qed.

(** An element of the array is read; of the byte string the second slot is missing. *)
Lemma getValue_reads_witness :
  @getValue model_ethers model_decoder sample_provider sample_artifacts 3 "0x1234" "Shop"
    "items[1].total" = Some (Done (VStr "2000")) ∧
  @getValue model_ethers model_decoder sample_provider sample_artifacts 3 "0x1234" "Shop"
    "note" = Some (Done (VStr ("0x" +:+ hex_digits (replicate 32 x61)))).
Proof.
  split.
  - apply (@getValue_reads model_ethers model_ethers_laws model_decoder model_decoder_laws
      sample_provider sample_artifacts sample_storage "0x1234" "Shop" ["contracts/Shop.sol:Shop"]
      "contracts/Shop.sol:Shop" "contracts/Shop.sol" sample_layout "items" [Index "1"; Field "total"]
      (mkVariable "items" "3" 0 items_type) 3 3 sample_items
      (default VUndef (@shown model_decoder sample_items))).
    + reflexivity.
    + reflexivity.
    + vm_compute. reflexivity.
    + reflexivity.
    + apply sample_types_wf.
    + vm_compute. reflexivity.
    + reflexivity.
    + lia.
    + apply sample_items_hold.
    + vm_compute. reflexivity.
    + reflexivity.
    + repeat constructor.
    + vm_compute. reflexivity.
  - apply (@getValue_reads model_ethers model_ethers_laws model_decoder model_decoder_laws
      sample_provider sample_artifacts sample_storage "0x1234" "Shop" ["contracts/Shop.sol:Shop"]
      "contracts/Shop.sol:Shop" "contracts/Shop.sol" sample_layout "note" []
      (mkVariable "note" "4" 0 "t_bytes_storage") 4 3 sample_note
      (default VUndef (@shown model_decoder sample_note))).
    + reflexivity.
    + reflexivity.
    + vm_compute. reflexivity.
    + reflexivity.
    + apply sample_types_wf.
    + vm_compute. reflexivity.
    + reflexivity.
    + lia.
    + apply sample_note_holds.
    + vm_compute. reflexivity.
    + reflexivity.
    + constructor.
    + vm_compute. reflexivity.
Defined.

Lemma parts_agree_witness :
  @readPartOfVariable model_ethers model_decoder sample_provider "0x1234" sample_types 3 3 0
    items_type ["paid"; "0"] = Some (Done (VBool true)).
Proof.
  apply (@parts_agree_with_whole model_ethers model_decoder sample_provider "0x1234" sample_types
    3 3 0 items_type (default VUndef (@shown model_decoder sample_items)) ["paid"; "0"]).
  - apply sample_types_wf.
  - vm_compute. reflexivity.
  - vm_compute. reflexivity.
Defined.

Lemma mapping_entry_witness :
  @readPartOfVariable model_ethers model_decoder sample_provider "0x1234" sample_types 1 2 0
    balances_type ["0x" +:+ hex_digits (be_enc 20 5)] =
  @readPartOfVariable model_ethers model_decoder sample_provider "0x1234" sample_types 1
    (be_val (@keccak model_ethers ((replicate 12 x00 ++ be_enc 20 5) ++ be_enc 32 2))) 0 "t_uint256" [].
Proof.
  apply (@mapping_entry_slot model_ethers model_ethers_laws model_decoder model_decoder_laws
    sample_provider "0x1234" sample_types 1 2 0 balances_type balances_node
    ("0x" +:+ hex_digits (be_enc 20 5)) (replicate 12 x00 ++ be_enc 20 5) []).
  - reflexivity.
  - reflexivity.
  - reflexivity.
  - reflexivity.
  - apply key_address. reflexivity.
  - lia.
Defined.

Lemma name_roundtrip_witness :
  getVariableName "s.chains[270].admin" = "s" ∧
  parseName "s.chains[270].admin" = Done ["admin"; "270"; "chains"].
Proof.
  apply (name_roundtrip "s" [Field "chains"; Index "270"; Field "admin"]).
  - reflexivity.
  - repeat constructor.
Defined.

(** A string of 32 bytes: its slot is lost. *)
Definition full_slot (slot : Z) : Z :=
  if slot =? 0 then 65 else be_val (replicate 32 x61).

Lemma dynamic_bytes_witness :
  ∃ r, @readDynamicBytes model_ethers model_decoder (λ _ slot, Done (word_text (full_slot slot)))
      "0x1234" 0 = Some (Done ("0x" +:+ hex_digits r)) ∧
    (if decide (32 < 32 ∨ 32 mod 32 ≠ 0)%nat then r = replicate 32 x61
     else length r = (32 - 32)%nat ∧ r = take (length r) (replicate 32 x61)).
Proof.
  apply (@dynamic_bytes_read model_ethers model_ethers_laws model_decoder model_decoder_laws
    (λ _ slot, Done (word_text (full_slot slot))) "0x1234" full_slot 0 (replicate 32 x61)).
  - reflexivity.
  - split; [lia|]. split_and!; [reflexivity|reflexivity|vm_compute; discriminate|].
    intros i Hi. exists []. assert (i = 0%nat) as -> by (cbn in Hi; lia). vm_compute. reflexivity.
Defined.
