(* ===== verification/SequencerTypes.v ===== *)
(** * Sequencer: data ([sequencer/src/types.rs], [config.rs])

    Transactions as the sequencer stores and sends them.  Addresses are the
    integers of their 20 bytes, amounts are [U256], counters are [u64]. *)

From stdpp Require Import base gmap list strings pretty.
From Stdlib Require Import ZArith Lia Floats.SpecFloat.
From S2P Require Import Prelude Rust.

(** Hash functions: library code with outputs of 32 bytes. *)
Class Hashing := {
  keccak256 : bytes → bytes;
  sha256 : bytes → bytes;
}.
Class HashingLaws `{Hashing} : Prop := {
  keccak256_length b : length (keccak256 b) = 32%nat;
  sha256_length b : length (sha256 b) = 32%nat;
}.

(** Two different inputs with the same hash among inputs that are given. *)
Definition collision_in (h : bytes → bytes) (inputs : list bytes) : Prop :=
  ∃ x y, x ∈ inputs ∧ y ∈ inputs ∧ x ≠ y ∧ h x = h y.

#[export] Instance collision_in_dec h inputs : Decision (collision_in h inputs).
Proof.
  destruct (decide (Exists (λ x, Exists (λ y, x ≠ y ∧ h x = h y) inputs) inputs)) as [Hex|Hex]; [left|right].
  - abstract (destruct (proj1 (Exists_exists _ _) Hex) as (x & Hx & (y & Hy & Hne & E)%Exists_exists);
      by exists x, y).
  - abstract (intros (x & y & Hx & Hy & Hne & E); apply Hex, Exists_exists; exists x; split; [done|];
      apply Exists_exists; by exists y).
Defined.

Lemma no_collision_inj h inputs x y :
  ¬ collision_in h inputs → x ∈ inputs → y ∈ inputs → h x = h y → x = y.
Proof. intros Hc Hx Hy E. destruct (decide (x = y)); [done|]. destruct Hc. by exists x, y. Qed.

Record UserTransaction := mkUserTx {
  u_from : Z;
  u_to : Z;
  u_value : Z;
  u_nonce : Z;
  u_gas_price : Z;
  u_gas_limit : Z;
  u_signature : bytes;
  u_timestamp : Z;
  u_boost_bid : option Z;
}.

#[export] Instance UserTransaction_eq_dec : EqDecision UserTransaction.
Proof. solve_decision. Defined.

(** The bytes [UserTransaction::hash] passes to Keccak-256. *)
Definition user_tx_bytes (tx : UserTransaction) : bytes :=
  be_enc 20 (u_from tx) ++ be_enc 20 (u_to tx) ++ be_enc 32 (u_value tx) ++
  be_enc 8 (u_nonce tx) ++ be_enc 32 (u_gas_price tx) ++ be_enc 8 (u_timestamp tx) ++
  be_enc 32 (default 0 (u_boost_bid tx)).

Definition user_tx_hash `{Hashing} (tx : UserTransaction) : bytes := keccak256 (user_tx_bytes tx).

Inductive ForcedEventType := Deposit | ForcedExit.

#[export] Instance ForcedEventType_eq_dec : EqDecision ForcedEventType.
Proof. solve_decision. Defined.

Record ForcedTransaction := mkForcedTx {
  f_tx_hash : bytes;
  f_from : Z;
  f_to : Z;
  f_value : Z;
  f_nonce : Z;
  f_gas_limit : Z;
  f_l1_tx_hash : bytes;
  f_l1_block_number : Z;
  f_event_type : ForcedEventType;
  f_timestamp : Z;
}.

#[export] Instance ForcedTransaction_eq_dec : EqDecision ForcedTransaction.
Proof. solve_decision. Defined.

Record PooledTransaction := mkPooledTx {
  p_tx : UserTransaction;
  arrived_at : Z;
  pool_entry_at : Z;
  validation_latency_ms : Z;
}.

#[export] Instance PooledTransaction_eq_dec : EqDecision PooledTransaction.
Proof. solve_decision. Defined.

(** [PooledTransaction::new] *)
Definition new_pooled (tx : UserTransaction) (arrived entry : Z) : PooledTransaction :=
  mkPooledTx tx arrived entry (sat_sub entry arrived).

Notation sender t := (u_from (p_tx t)).
Notation gas_price_of t := (u_gas_price (p_tx t)).
Notation timestamp_of t := (u_timestamp (p_tx t)).
Notation nonce_of t := (u_nonce (p_tx t)).
Notation of_sender s l := (filter (λ t, sender t = s) l).

(** The fields of a transaction are within the widths of their Rust types. *)
Definition wf_user_tx (tx : UserTransaction) : Prop :=
  0 ≤ u_from tx < 2 ^ 160 ∧ 0 ≤ u_to tx < 2 ^ 160 ∧ is_u256 (u_value tx) ∧ is_u64 (u_nonce tx) ∧
  is_u256 (u_gas_price tx) ∧ is_u64 (u_gas_limit tx) ∧ is_u64 (u_timestamp tx) ∧
  is_u256 (default 0 (u_boost_bid tx)).

#[export] Instance wf_user_tx_dec tx : Decision (wf_user_tx tx).
Proof. apply _. Defined.

(** [value.to_string().len()] *)
Definition digits (z : Z) : Z := Z.of_nat (String.length (pretty z)).

Definition pooled_bytes (p : PooledTransaction) : Z :=
  let tx := p_tx p in
  20 + 20 + 32 + 8 + 32 + 8 + 65 + digits (u_value tx) + digits (u_gas_price tx) +
  digits (u_nonce tx) + digits (u_gas_limit tx) + digits (u_timestamp tx) +
  match u_boost_bid tx with Some b => digits b | None => 4 end.

Inductive Transaction :=
| Normal (p : PooledTransaction)
| Forced (f : ForcedTransaction).

#[export] Instance Transaction_eq_dec : EqDecision Transaction.
Proof. solve_decision. Defined.

Definition gas_limit (t : Transaction) : Z :=
  match t with Normal p => u_gas_limit (p_tx p) | Forced f => f_gas_limit f end.

Definition arrival_timestamp_ms (t : Transaction) : Z :=
  match t with Normal p => arrived_at p | Forced f => sat_mul u64_max (f_timestamp f) 1000 end.

Definition estimated_encoded_bytes (t : Transaction) : Z :=
  match t with
  | Normal p => pooled_bytes p
  | Forced f => 20 + 20 + 32 + 8 + 32 + 8 + 8 + digits (f_value f) + digits (f_nonce f) +
                digits (f_gas_limit f) + digits (f_l1_block_number f) + digits (f_timestamp f)
  end.

Record AccountState := mkAccountState {
  a_address : Z;
  a_balance : Z;
  a_nonce : Z;
}.

Record Batch := mkBatch {
  batch_id : Z;
  transactions : list Transaction;
  prev_state_root : bytes;
  b_timestamp : Z;
}.

Inductive ValidationError :=
| InvalidSignature
| InvalidNonce (expected got : Z)
| InsufficientBalance (required available : Z).

#[export] Instance ValidationError_eq_dec : EqDecision ValidationError.
Proof. solve_decision. Defined.

Record BatchConfig := mkBatchConfig {
  max_batch_size : Z;
  timeout_interval_ms : Z;
  min_batch_size : Z;
  max_gas_limit : Z;
  batch_policy : string;
  adaptive_low_load_threshold : Z;
  adaptive_medium_load_threshold : Z;
  adaptive_small_batch_size : Z;
  adaptive_medium_batch_size : Z;
  adaptive_large_batch_size : Z;
  adaptive_small_timeout_ms : Z;
  adaptive_medium_timeout_ms : Z;
  adaptive_large_timeout_ms : Z;
  blob_target_bytes : Z;
  blob_fill_target : f64;
}.

(** The serde defaults of the optional fields. *)
Definition default_config (size timeout min_size gas : Z) : BatchConfig :=
  mkBatchConfig size timeout min_size gas "fixed" 50 200 50 100 500 500 1000 2000
    131072 (f64_ratio 8106479329266893 53).

Lemma digits_nonneg z : 0 ≤ digits z.
Proof. unfold digits. lia. Qed.

Lemma pooled_bytes_nonneg p : 0 ≤ pooled_bytes p.
Proof.
  unfold pooled_bytes, digits. destruct (u_boost_bid (p_tx p)); lia.
Qed.

(** ** What a signature covers *)

(** The fields that enter the hash; no bid and a zero bid are the same. *)
Definition signed_fields (tx : UserTransaction) : Z * Z * Z * Z * Z * Z * Z :=
  (u_from tx, u_to tx, u_value tx, u_nonce tx, u_gas_price tx, u_timestamp tx,
   default 0 (u_boost_bid tx)).

(** Peel the first field off two equal encodings. *)
Lemma be_enc_app_inj n x y l l' :
  0 ≤ x < 256 ^ Z.of_nat n → 0 ≤ y < 256 ^ Z.of_nat n →
  be_enc n x ++ l = be_enc n y ++ l' → x = y ∧ l = l'.
Proof.
  intros Hx Hy E. apply app_inj_1 in E as [E ->]; [|by rewrite !be_enc_length].
  split; [|done]. by eapply be_enc_inj.
Qed.

Lemma user_tx_bytes_inj a b :
  wf_user_tx a → wf_user_tx b → user_tx_bytes a = user_tx_bytes b → signed_fields a = signed_fields b.
Proof.
  unfold user_tx_bytes, wf_user_tx, signed_fields, is_u256, is_u64, u256_max, u64_max. intros Ha Hb E.
  destruct Ha as (?&?&?&?&?&?&?&?), Hb as (?&?&?&?&?&?&?&?).
  do 6 (apply be_enc_app_inj in E as [-> E]; [|cbn; lia..]).
  apply be_enc_inj in E as ->; [done|cbn; lia..].
Qed.

(** The hash that is signed determines sender, receiver, value, nonce, gas
    price, timestamp and bid unless the two encodings collide, and nothing else:
    transactions that differ in their gas limit have the same hash. *)
Theorem user_tx_hash_covers `{Hashing} a b :
  wf_user_tx a → wf_user_tx b →
  (signed_fields a = signed_fields b → user_tx_hash a = user_tx_hash b) ∧
  (user_tx_hash a = user_tx_hash b →
    signed_fields a = signed_fields b ∨ collision_in keccak256 [user_tx_bytes a; user_tx_bytes b]).
Proof.
  intros Ha Hb. unfold user_tx_hash. split.
  - unfold signed_fields, user_tx_bytes. by intros [= -> -> -> -> -> -> ->].
  - intros E. destruct (decide (user_tx_bytes a = user_tx_bytes b)) as [Eb|Hne].
    + left. by apply user_tx_bytes_inj.
    + right. exists (user_tx_bytes a), (user_tx_bytes b). rewrite !elem_of_cons. naive_solver.
Qed.

(** ** An executable instance *)

Definition model_hash (b : bytes) : bytes := take 32 (b ++ replicate 32 Byte.x00).

Definition model_hashing : Hashing := {| keccak256 := model_hash; sha256 := model_hash |}.

Lemma model_hashing_laws : @HashingLaws model_hashing.
Proof.
  split; intros b; cbn; unfold model_hash; rewrite length_take, length_app, length_replicate; lia.
Qed.

Module SequencerSamples.

(** A signature that spells out the address of the signer. *)
Definition model_sign (a : Z) : bytes :=
  replicate 12 Byte.x00 ++ be_enc 20 a ++ replicate 32 Byte.x00 ++ [Byte.x1b].

Definition sample_user (from to value nonce gas_price : Z) : UserTransaction :=
  mkUserTx from to value nonce gas_price 10 (model_sign from) 0 None.

Definition sample_pooled (from nonce gas_price : Z) : PooledTransaction :=
  mkPooledTx (sample_user from 9 5 nonce gas_price) 0 0 0.

End SequencerSamples.
