(* ===== verification/SequencerPool.v ===== *)
(** * Sequencer: transaction pool and forced queue
      ([sequencer/src/pool/tx_pool.rs], [pool/forced_queue.rs])

    Each operation holds the write lock of its queue, so it is a function on
    the queue.  The blob-aware selection [take_blob_packed] is proved to split
    the pool into two parts in arrival order, within the count and the byte
    budget, leaving out nothing that would still have fitted. *)

From stdpp Require Import base gmap list sorting.
From Stdlib Require Import ZArith Lia.
From S2P Require Import Prelude Rust SequencerTypes.

Record TransactionPool := mkPool {
  pool_txs : list PooledTransaction;
  total_received : Z;
}.

Definition new_pool : TransactionPool := mkPool [] 0.

(** [TransactionPool::add] *)
Definition pool_add (tx : PooledTransaction) (p : TransactionPool) : TransactionPool :=
  mkPool (pool_txs p ++ [tx]) (wrap64 (total_received p + 1)).

Definition get_pending (max : Z) (p : TransactionPool) : list PooledTransaction * TransactionPool :=
  let n := Z.to_nat (Z.min max (Z.of_nat (length (pool_txs p)))) in
  (take n (pool_txs p), mkPool (drop n (pool_txs p)) (total_received p)).

(** ** Blob packing *)

Definition candidate : Type := nat * PooledTransaction * Z.

Definition packing_le (a b : candidate) : bool :=
  match a.2 ?= b.2 with
  | Gt => true
  | Lt => false
  | Eq => match u_gas_price (p_tx a.1.2) ?= u_gas_price (p_tx b.1.2) with
          | Gt => true
          | Lt => false
          | Eq => (a.1.1 <=? b.1.1)%nat
          end
  end.

Definition indexed : Type := nat * PooledTransaction.
Definition index_le (a b : indexed) : bool := (a.1 <=? b.1)%nat.

(** The loop over the candidates: selected, remainder, [used_bytes]. *)
Fixpoint pack (max_count max_bytes : Z) (cs : list candidate)
    (selected remainder : list indexed) (used_bytes : Z) : list indexed * list indexed * Z :=
  match cs with
  | [] => (selected, remainder, used_bytes)
  | (idx, tx, size) :: cs =>
      let fits_count := Z.of_nat (length selected) <? max_count in
      let fits_bytes := sat_add u64_max used_bytes size <=? max_bytes in
      if fits_count && fits_bytes
      then pack max_count max_bytes cs (selected ++ [(idx, tx)]) remainder
             (sat_add u64_max used_bytes size)
      else pack max_count max_bytes cs selected (remainder ++ [(idx, tx)]) used_bytes
  end.

Definition take_blob_packed (max_count max_bytes : Z) (p : TransactionPool)
    : (list PooledTransaction * Z) * TransactionPool :=
  let drained : list indexed := imap (λ idx tx, (idx, tx)) (pool_txs p) in
  let candidates := (λ d : indexed, (d.1, d.2, pooled_bytes d.2)) <$> drained in
  let '(selected, remainder, used_bytes) :=
    pack max_count max_bytes (sort_by packing_le candidates) [] [] 0 in
  ((snd <$> sort_by index_le selected, used_bytes),
   mkPool (snd <$> sort_by index_le remainder) (total_received p)).

Definition pool_pending_count (p : TransactionPool) : Z := Z.of_nat (length (pool_txs p)).
Definition pool_total_bytes (p : TransactionPool) : Z := sum64 (pooled_bytes <$> pool_txs p).
Definition pool_is_empty (p : TransactionPool) : bool := bool_decide (pool_txs p = []).

(** ** Forced queue *)

Definition ForcedQueue : Type := list ForcedTransaction.
Definition forced_add (tx : ForcedTransaction) (q : ForcedQueue) : ForcedQueue := q ++ [tx].
Definition get_all (q : ForcedQueue) : list ForcedTransaction * ForcedQueue := (q, []).
Definition forced_pending_count (q : ForcedQueue) : Z := Z.of_nat (length q).
Definition forced_is_empty (q : ForcedQueue) : bool := bool_decide (q = []).

(** ** The selection splits the pool *)

(** The transactions of [l] whose positions are kept, in their order. *)
Definition pick (keep : nat → bool) (l : list PooledTransaction) : list PooledTransaction :=
  snd <$> filter (λ x : indexed, keep x.1 = true) (imap (λ idx tx, (idx, tx)) l).

Definition sizes (l : list indexed) : Z := sumZ ((λ x : indexed, pooled_bytes x.2) <$> l).

Lemma sizes_app l l' : sizes (l ++ l') = sizes l + sizes l'.
Proof. unfold sizes. by rewrite fmap_app, sumZ_app. Qed.

Lemma sizes_nonneg l : 0 ≤ sizes l.
Proof.
  apply sumZ_nonneg. rewrite Forall_fmap. apply Forall_true. intros x. apply pooled_bytes_nonneg.
Qed.

(** A transaction that no longer fits beside the selected ones. *)
Definition left_out (max_count max_bytes : Z) (n : nat) (used : Z) (x : indexed) : Prop :=
  max_count ≤ Z.of_nat n ∨ max_bytes < used + pooled_bytes x.2.

Definition sized (c : candidate) : Prop := c.2 = pooled_bytes c.1.2.

Lemma pack_spec max_count max_bytes cs sel rem used :
  max_bytes < u64_max →
  Forall sized cs →
  used = sizes sel → used ≤ max_bytes → Z.of_nat (length sel) ≤ Z.max 0 max_count →
  Forall (left_out max_count max_bytes (length sel) used) rem →
  let '(sel', rem', used') := pack max_count max_bytes cs sel rem used in
  sel' ++ rem' ≡ₚ (fst <$> cs) ++ sel ++ rem ∧
  used' = sizes sel' ∧ used' ≤ max_bytes ∧ Z.of_nat (length sel') ≤ Z.max 0 max_count ∧
  Forall (left_out max_count max_bytes (length sel') used') rem'.
Proof.
  intros Hmax Hcs. revert sel rem used.
  induction Hcs as [|[[idx tx] size] cs Hc Hcs IH]; intros sel rem used -> Hu Hl Hr; cbn [pack].
  { done. }
  unfold sized in Hc. cbn in Hc. subst size.
  pose proof (pooled_bytes_nonneg tx). unfold sat_add.
  destruct (_ && _) eqn:E.
  - apply andb_true_iff in E as [E1 E2]. apply Z.ltb_lt in E1. apply Z.leb_le in E2.
    assert (S : sizes (sel ++ [(idx, tx)]) = sizes sel + pooled_bytes tx)
      by (rewrite sizes_app; unfold sizes; cbn; lia).
    rewrite Z.min_l by lia.
    specialize (IH (sel ++ [(idx, tx)]) rem (sizes sel + pooled_bytes tx)).
    destruct (pack _ _ _ _ _ _) as [[sel' rem'] used'].
    destruct IH as (IH & ?); [lia|lia|rewrite length_app; cbn; lia| |].
    { eapply Forall_impl; [exact Hr|]. unfold left_out. rewrite length_app. cbn. lia. }
    split; [|done]. rewrite IH. cbn. rewrite <- !(assoc_L (++)), !Permutation_middle. cbn. done.
  - specialize (IH sel (rem ++ [(idx, tx)]) (sizes sel)).
    destruct (pack _ _ _ _ _ _) as [[sel' rem'] used'].
    destruct IH as (IH & ?); [done|done|done| |].
    { apply Forall_app_2; [done|]. constructor; [|constructor]. unfold left_out. cbn. lia. }
    split; [|done]. rewrite IH. cbn. rewrite !(assoc_L (++)), <- Permutation_cons_append. done.
Qed.

Lemma index_le_sorted l :
  StronglySorted (λ a b : indexed, a.1 < b.1)%nat (imap (λ idx tx, (idx, tx)) l).
Proof.
  enough (E : ∀ n, StronglySorted (λ a b : indexed, a.1 < b.1)%nat
    (imap (λ idx tx, (n + idx, tx))%nat l)) by exact (E 0%nat).
  induction l as [|x l IH]; intros n; cbn; [constructor|]. constructor.
  - erewrite imap_ext; [apply (IH (S n))|]. intros i y _. cbn. f_equal. lia.
  - apply Forall_lookup_2. intros i y. rewrite list_lookup_imap. intros (z & _ & ->)%fmap_Some.
    cbn. lia.
Qed.

Lemma sorted_filter {A} (R : A → A → Prop) (P : A → Prop) `{∀ x, Decision (P x)} l :
  StronglySorted R l → StronglySorted R (filter P l).
Proof.
  induction 1 as [|x l Hs IH Hx]; [constructor|]. rewrite filter_cons. case_decide; [|done].
  constructor; [done|]. rewrite Forall_forall in *. intros y [_ ?]%list_elem_of_filter. auto.
Qed.

(** Sorting by position restores arrival order. *)
Lemma sort_index_unique l l' :
  l ≡ₚ l' → StronglySorted (λ a b : indexed, a.1 < b.1)%nat l' → sort_by index_le l = l'.
Proof.
  intros Hp Hs. apply (StronglySorted_unique_strong (λ a b, index_le a b = true)).
  - intros x y Hx Hy. unfold index_le. rewrite !Nat.leb_le. intros ??.
    rewrite elem_of_sort_by, Hp in Hx. assert (E : x.1 = y.1) by lia. clear -Hs Hx Hy E.
    induction Hs as [|z l Hs IH Hz]; [by apply elem_of_nil in Hx|].
    rewrite Forall_forall in Hz. rewrite elem_of_cons in Hx, Hy.
    destruct Hx as [->|Hx], Hy as [->|Hy]; [done|specialize (Hz _ Hy); lia|
      specialize (Hz _ Hx); lia|auto].
  - apply sort_by_sorted; unfold index_le; [intros ??|intros ???]; rewrite !Nat.leb_le; lia.
  - clear Hp. induction Hs as [|x l' Hs IH Hx]; constructor; [done|].
    eapply Forall_impl; [exact Hx|]. unfold index_le. cbn. intros y ?. apply Nat.leb_le. lia.
  - by rewrite sort_by_perm.
Qed.

Lemma split_by_position (sel rem : list indexed) l :
  sel ++ rem ≡ₚ imap (λ idx tx, (idx, tx)) l →
  let keep i := bool_decide (i ∈ sel.*1) in
  (sort_by index_le sel).*2 = pick keep l ∧ (sort_by index_le rem).*2 = pick (negb ∘ keep) l.
Proof.
  intros Hp keep. set (E := imap _ l) in *.
  pose proof (index_le_sorted l) as Hs. fold E in Hs.
  assert (Hn : NoDup (sel ++ rem).*1).
  { rewrite Hp. clear -Hs. induction Hs as [|x E Hs IH Hx]; cbn; constructor; [|done].
    intros (y & Hy & Hi)%list_elem_of_fmap. rewrite Forall_forall in Hx. specialize (Hx y Hi).
    lia. }
  rewrite fmap_app, NoDup_app in Hn. destruct Hn as (_ & Hd & _).
  assert (F : ∀ P `{∀ x : indexed, Decision (P x)}, filter P E ≡ₚ filter P sel ++ filter P rem).
  { intros P ?. by rewrite <- Hp, filter_app. }
  split; unfold pick; fold E; f_equal; (apply sort_index_unique; [|by apply sorted_filter]);
    rewrite F; unfold keep; cbn.
  - rewrite filter_all, filter_none, app_nil_r; [done|..].
    + intros x Hx. rewrite bool_decide_eq_true. intros Hi. apply (Hd x.1 Hi).
      by apply list_elem_of_fmap_2.
    + intros x Hx. rewrite bool_decide_eq_true. by apply list_elem_of_fmap_2.
  - rewrite filter_none, filter_all; [done|..].
    + intros x Hx. rewrite negb_true_iff, bool_decide_eq_false. intros Hi.
      apply (Hd x.1 Hi). by apply list_elem_of_fmap_2.
    + intros x Hx. rewrite negb_true_iff, bool_decide_eq_false. intros Hi. apply Hi.
      by apply list_elem_of_fmap_2.
Qed.

Lemma pick_complement keep l : pick keep l ++ pick (negb ∘ keep) l ≡ₚ l.
Proof.
  unfold pick. rewrite <- fmap_app.
  rewrite (list_filter_iff (λ x : indexed, (negb ∘ keep) x.1 = true)
    (λ x : indexed, ¬ keep x.1 = true)).
  - rewrite filter_app_complement. clear.
    enough (E : ∀ n, snd <$> imap (λ idx tx, (n + idx, tx))%nat l = l) by (by rewrite <- (E 0%nat) at 2).
    induction l as [|x l IH]; intros n; cbn; [done|]. f_equal. rewrite <- (IH (S n)) at 2. f_equal.
    apply imap_ext. intros i y _. cbn. f_equal. lia.
  - intros x. cbn. destruct (keep x.1); naive_solver.
Qed.

Lemma take_blob_packed_spec p max_count max_bytes :
  0 ≤ max_bytes < u64_max →
  let '((sel, used), p') := take_blob_packed max_count max_bytes p in
  (∃ keep, sel = pick keep (pool_txs p) ∧ pool_txs p' = pick (negb ∘ keep) (pool_txs p)) ∧
  Z.of_nat (length sel) ≤ Z.max 0 max_count ∧
  used = sumZ (pooled_bytes <$> sel) ∧ used ≤ max_bytes ∧
  (∀ tx, tx ∈ pool_txs p' →
    max_count ≤ Z.of_nat (length sel) ∨ max_bytes < used + pooled_bytes tx) ∧
  total_received p' = total_received p.
Proof.
  intros Hm. unfold take_blob_packed.
  set (E := imap _ _). set (cs := sort_by packing_le _).
  assert (Hcs : Forall sized cs).
  { unfold cs. rewrite sort_by_perm, Forall_fmap. by apply Forall_true. }
  assert (Hf : fst <$> cs ≡ₚ E).
  { unfold cs. rewrite sort_by_perm, <- list_fmap_compose.
    apply reflexive_eq. rewrite <- (list_fmap_id E) at 2. apply list_fmap_ext. by intros ? []. }
  pose proof (pack_spec max_count max_bytes cs [] [] 0 ltac:(lia) Hcs eq_refl ltac:(lia)
    ltac:(cbn; lia) (Forall_nil_2 _)) as Hp.
  destruct (pack _ _ _ _ _ _) as [[sel rem] used]. destruct Hp as (Hp & -> & Hu & Hl & Hr).
  rewrite !app_nil_r, Hf in Hp. destruct (split_by_position _ _ _ Hp) as [Hs Hs'].
  cbn [pool_txs total_received].
  assert (Hlen : length (sort_by index_le sel).*2 = length sel)
    by by rewrite length_fmap, sort_by_length.
  split; [by eexists|]. rewrite Hlen. split_and!; try done.
  - unfold sizes. apply sumZ_perm. rewrite <- list_fmap_compose. by rewrite sort_by_perm.
  - intros tx (x & -> & Hx)%list_elem_of_fmap. rewrite elem_of_sort_by in Hx.
    rewrite Forall_forall in Hr. by apply Hr.
Qed.

(** C19: [take_blob_packed] splits the pool: the selected transactions and those
    that stay keep their arrival order; the selection respects the count and
    the byte budget, reports its exact size, and is maximal: nothing that
    stays would still fit. *)
Theorem take_blob_packed_splits p max_count max_bytes :
  0 ≤ max_bytes < u64_max →
  let '((sel, used), p') := take_blob_packed max_count max_bytes p in
  (∃ keep, sel = pick keep (pool_txs p) ∧ pool_txs p' = pick (negb ∘ keep) (pool_txs p)) ∧
  Z.of_nat (length sel) ≤ Z.max 0 max_count ∧
  used = sumZ (pooled_bytes <$> sel) ∧ used ≤ max_bytes ∧
  (∀ tx, tx ∈ pool_txs p' →
    max_count ≤ Z.of_nat (length sel) ∨ max_bytes < used + pooled_bytes tx) ∧
  total_received p' = total_received p.
Proof. apply take_blob_packed_spec. Qed.

Module PoolSamples.
Import SequencerSamples.

Definition sample_pool : TransactionPool :=
  mkPool [sample_pooled 1 0 7; sample_pooled 2 0 9; sample_pooled 1 1 8] 3.

Lemma take_blob_packed_witness :
  let r := take_blob_packed 2 1000 sample_pool in
  (length r.1.1 = 2)%nat ∧ r.1.2 ≤ 1000 ∧ length (pool_txs r.2) = 1%nat.
Proof.
  cbn zeta. assert (Hb : 0 ≤ 1000 < u64_max) by (split; vm_compute; done || discriminate).
  pose proof (take_blob_packed_splits sample_pool 2 1000 Hb) as Hs.
  destruct (take_blob_packed 2 1000 sample_pool) as [[sel used] p'] eqn:E.
  destruct Hs as (_ & _ & _ & Hu & _). split; [|split; [exact Hu|]].
  - revert E. vm_compute. by intros [= <- _ _].
  - revert E. vm_compute. by intros [= _ _ <-].
Defined.

End PoolSamples.
