(* ===== verification/SequencerPolicies.v ===== *)
(** * Sequencer: scheduling policies and scheduler
      ([sequencer/src/scheduler/policies.rs], [scheduler/scheduler.rs])

    Three policies share one loop: group the transactions by sender, sort each
    group by nonce, and repeatedly emit the best first transaction of a group.
    They differ in the comparison, which is a parameter of the loop here.  The
    groups are in a [HashMap]: results hold for every iteration order.  [None]
    is a panic. *)

From stdpp Require Import base gmap list sorting strings.
From Stdlib Require Import ZArith Lia.
From S2P Require Import Prelude Rust SequencerTypes.

Notation queues := (gmap Z (list PooledTransaction)).

(** [grouped.entry(tx.tx.from).or_default().push(tx)] for every transaction. *)
Definition group_by_sender (txs : list PooledTransaction) : queues :=
  foldl (λ g tx, <[sender tx := default [] (g !! sender tx) ++ [tx]]> g) ∅ txs.

Definition nonce_le (a b : PooledTransaction) : bool := nonce_of a <=? nonce_of b.

(** ** The comparisons: is [next] better than [best]? *)

Definition better_fn : Type := PooledTransaction → PooledTransaction → option bool.

Definition fee_better : better_fn := λ next best,
  Some match gas_price_of next ?= gas_price_of best with
       | Gt => true
       | Eq => timestamp_of next <? timestamp_of best
       | Lt => false
       end.

Definition time_boost_better (time_window_ms : Z) : better_fn := λ next best,
  if time_window_ms =? 0 then None else
  let window_next := timestamp_of next / time_window_ms in
  let window_best := timestamp_of best / time_window_ms in
  Some match window_next ?= window_best with
       | Lt => true
       | Gt => false
       | Eq =>
           match default 0 (u_boost_bid (p_tx next)) ?= default 0 (u_boost_bid (p_tx best)) with
           | Gt => true
           | Lt => false
           | Eq => match gas_price_of next ?= gas_price_of best with
                   | Gt => true
                   | Lt => false
                   | Eq => timestamp_of next <? timestamp_of best
                   end
           end
       end.

Definition blob_better : better_fn := λ next best,
  Some match pooled_bytes next ?= pooled_bytes best with
       | Gt => true
       | Lt => false
       | Eq => match gas_price_of next ?= gas_price_of best with
               | Gt => true
               | Lt => false
               | Eq => timestamp_of next <? timestamp_of best
               end
       end.

(** ** The loop *)

Section grouped.
Context `{HashIter (list PooledTransaction)} (better : better_fn).

Definition consider (best : option (Z * PooledTransaction)) (entry : Z * list PooledTransaction)
    : option (option (Z * PooledTransaction)) :=
  match entry.2 with
  | [] => Some best
  | next :: _ =>
      match best with
      | None => Some (Some (entry.1, next))
      | Some (_, best_tx) =>
          is_better ← better next best_tx;
          Some (if (is_better : bool) then Some (entry.1, next) else best)
      end
  end.

(** [for (sender, queue) in &grouped] *)
Fixpoint best_sender (best : option (Z * PooledTransaction))
    (entries : list (Z * list PooledTransaction)) : option (option (Z * PooledTransaction)) :=
  match entries with
  | [] => Some best
  | e :: entries => best' ← consider best e; best_sender best' entries
  end.

(** [while !grouped.is_empty()]; every turn takes one transaction, so their
    number bounds the turns. *)
Fixpoint drain (fuel : nat) (grouped : queues) (ordered : list PooledTransaction)
    : option (list PooledTransaction) :=
  match fuel with
  | O => Some ordered
  | S fuel =>
      if decide (grouped = ∅) then Some ordered else
      best ← best_sender None (hash_iter grouped);
      match best with
      | None => Some ordered
      | Some (s, _) =>
          match grouped !! s with
          | Some (tx :: queue) =>
              drain fuel (if decide (queue = []) then delete s grouped else <[s := queue]> grouped)
                (ordered ++ [tx])
          | _ => None
          end
      end
  end.

Definition order_grouped (txs : list PooledTransaction) : option (list PooledTransaction) :=
  drain (length txs) (sort_by nonce_le <$> group_by_sender txs) [].

End grouped.

(** ** Policies *)

Inductive SchedulingPolicyType :=
| Fcfs
| FeePriority
| TimeBoost (time_window_ms : Z)
| FairBft
| BlobPacking.

Section policies.
Context `{HashIter (list PooledTransaction)}.

(** [create_policy] and [SchedulingPolicy::order_transactions]. *)
Definition order_transactions (policy : SchedulingPolicyType) (txs : list PooledTransaction)
    : option (list PooledTransaction) :=
  match policy with
  | Fcfs => Some txs
  | FeePriority => order_grouped fee_better txs
  | TimeBoost w => order_grouped (time_boost_better w) txs
  | FairBft => Some (sort_by (λ a b, timestamp_of a <=? timestamp_of b) txs)
  | BlobPacking => order_grouped blob_better txs
  end.

Definition policy_name (policy : SchedulingPolicyType) : string :=
  match policy with
  | Fcfs => "FCFS"
  | FeePriority => "FeePriority"
  | TimeBoost _ => "TimeBoost"
  | FairBft => "FairBFT"
  | BlobPacking => "BlobPacking"
  end.

(** [Scheduler::schedule] *)
Definition schedule (policy : SchedulingPolicyType) (forced : list ForcedTransaction)
    (normal : list PooledTransaction) : option (list Transaction) :=
  ordered_normal ← order_transactions policy normal;
  Some ((Forced <$> forced) ++ (Normal <$> ordered_normal)).

End policies.

(** ** Grouping *)

Lemma group_lookup txs s :
  group_by_sender txs !! s = match of_sender s txs with [] => None | l => Some l end.
Proof.
  unfold group_by_sender. induction txs as [|tx txs IH] using rev_ind; [done|].
  rewrite foldl_snoc, filter_app, (filter_singleton _ _ []).
  match goal with |- context [foldl ?f ∅ txs] => set (g := foldl f ∅ txs) in * end.
  destruct (decide (sender tx = s)) as [<-|Hs].
  - rewrite lookup_insert_eq, IH. destruct (of_sender _ txs); done.
  - rewrite lookup_insert_ne, IH, app_nil_r; done.
Qed.

(** The queues hold, per sender, the transactions of [l]. *)
Definition holds (g : queues) (l : list PooledTransaction) : Prop :=
  ∀ s, g !! s = match of_sender s l with [] => None | q => Some q end.

Lemma filter_cons_split {A} (P : A → Prop) `{∀ x, Decision (P x)} l x r :
  filter P l = x :: r → ∃ a b, l = a ++ x :: b ∧ filter P a = [] ∧ filter P b = r ∧ P x.
Proof.
  induction l as [|y l IH]; [done|]. rewrite filter_cons. case_decide.
  - intros [= <- <-]. by exists [], l.
  - intros (a & b & -> & Ha & Hb)%IH. exists (y :: a), b. by rewrite filter_cons_False.
Qed.

Lemma perm_by_key {A} (key : A → Z) l l' :
  (∀ k, filter (λ x, key x = k) l ≡ₚ filter (λ x, key x = k) l') → l ≡ₚ l'.
Proof.
  revert l'. induction l as [|x l IH]; intros l' Hk.
  - destruct l' as [|y l']; [done|]. specialize (Hk (key y)).
    rewrite filter_cons_True in Hk by done. by apply Permutation_nil_cons in Hk.
  - assert (Hx : x ∈ l').
    { assert (Hf : x ∈ filter (λ y, key y = key x) l').
      { rewrite <- Hk, filter_cons_True by done. left. }
      by apply list_elem_of_filter in Hf as [_ ?]. }
    apply elem_of_Permutation in Hx as [t Ht]. rewrite Ht. constructor. apply IH. intros k.
    specialize (Hk k). rewrite Ht, !filter_cons in Hk. case_decide; [|done].
    by apply Permutation_cons_inv in Hk.
Qed.

(** ** Every turn emits a best first transaction *)

(** A strict preference: [better] never panics, is transitive and irreflexive. *)
Class Preference (better : better_fn) : Prop := {
  better_total a b : is_Some (better a b);
  better_trans a b c : better a b = Some true → better b c = Some true → better a c = Some true;
  better_irrefl a : better a a = Some false;
}.

(** Lexicographic comparisons are strict orders. *)
Ltac lex_preference :=
  repeat case Z.compare_spec; intros; simplify_eq; try done; try lia;
  f_equal; repeat match goal with H : Some _ = Some _ |- _ => injection H as H end;
  rewrite ?Z.ltb_lt, ?Z.ltb_ge in *; lia.

#[export] Instance fee_preference : Preference fee_better.
Proof.
  split; unfold fee_better; [by eauto|intros a b c|intros a];
    lex_preference.
Qed.

#[export] Instance blob_preference : Preference blob_better.
Proof.
  split; unfold blob_better; [by eauto|intros a b c|intros a];
    lex_preference.
Qed.

Lemma time_boost_preference w : w ≠ 0 → Preference (time_boost_better w).
Proof.
  intros Hw. apply Z.eqb_neq in Hw.
  split; unfold time_boost_better; rewrite Hw; [by eauto|intros a b c|intros a];
    lex_preference.
Qed.

Lemma nonce_sort_of_sender s txs :
  of_sender s (sort_by nonce_le txs) = sort_by nonce_le (of_sender s txs).
Proof.
  apply filter_sort_by_comm; unfold nonce_le; [intros ??|intros ???]; rewrite !Z.leb_le; lia.
Qed.

Section greedy.
Context `{HashIterLaws (list PooledTransaction)} (better : better_fn) `{!Preference better}.

Lemma best_sender_spec entries best (seen : list PooledTransaction) :
  (best = None → entries ≠ []) → Forall (λ e, e.2 ≠ []) entries →
  (∀ y, y ∈ seen → ∃ b, best = Some b ∧ better y b.2 = Some false) →
  ∃ s x, best_sender better best entries = Some (Some (s, x)) ∧
    (best = Some (s, x) ∨ ∃ q, (s, x :: q) ∈ entries) ∧
    (∀ y, y ∈ seen → better y x = Some false) ∧
    (∀ e y q, e ∈ entries → e.2 = y :: q → better y x = Some false).
Proof.
  intros Hne Hq. revert best seen Hne.
  induction Hq as [|[s q] entries Hq _ IH]; intros best seen Hne Hseen.
  - destruct best as [[s x]|]; [|by destruct Hne]. exists s, x. split_and!; try by auto.
    + intros y Hy. by destruct (Hseen y Hy) as (? & [= <-] & ?).
    + by intros ??? ?%elem_of_nil.
  - destruct q as [|n q]; [done|]. cbn [best_sender].
    assert (Hstep : ∃ b', consider better best (s, n :: q) = Some (Some b') ∧
      (best = Some b' ∨ b' = (s, n)) ∧
      ∀ y, y ∈ n :: seen → better y b'.2 = Some false).
    { unfold consider. cbn. destruct best as [[s' b]|]; cbn.
      - destruct (better_total n b) as [[] E]; rewrite E; cbn; eexists;
          (split; [reflexivity|]); (split; [by auto|]); cbn;
          intros y [->|Hy]%elem_of_cons; try done; try apply better_irrefl;
          destruct (Hseen y Hy) as (? & [= <-] & Hyb); cbn in Hyb; [|done].
        destruct (better_total y n) as [[] En]; [|done].
        by rewrite (better_trans y n b En E) in Hyb.
      - eexists. split; [done|]. split; [by auto|]. cbn.
        intros y [->|Hy]%elem_of_cons; [apply better_irrefl|].
        by destruct (Hseen y Hy) as (? & ? & ?). }
    destruct Hstep as (b' & -> & Hb' & Hs'). cbn.
    destruct (IH (Some b') (n :: seen)) as (s1 & x1 & -> & Hin & Hs1 & He); [done|by eauto|].
    exists s1, x1. split_and!; [done| | |].
    + destruct Hin as [[= ->]|[q' ?]]; [|right; exists q'; by right].
      destruct Hb' as [->|[= -> ->]]; [by left|]. right. exists q. by left.
    + intros y ?. apply Hs1. by right.
    + intros e y q' [->|Hin']%elem_of_cons; [|by eauto]. cbn. intros [= -> ->]. apply Hs1. by left.
Qed.

(** Taking the first transaction of a sender out of its queue. *)
Lemma holds_take g l s x q :
  holds g l → g !! s = Some (x :: q) →
  ∃ l', holds (if decide (q = []) then delete s g else <[s := q]> g) l' ∧
    length l = S (length l') ∧ sender x = s ∧
    (∀ k, of_sender k l = if decide (k = s) then x :: of_sender k l' else of_sender k l').
Proof.
  intros Hg Hs. pose proof (Hg s) as Hgs. rewrite Hs in Hgs.
  destruct (of_sender s l) as [|x' q'] eqn:El; [done|]. injection Hgs as <- <-.
  destruct (filter_cons_split _ _ _ _ El) as (a & b & -> & Ha & Hb & Hx).
  assert (Hk : ∀ k, of_sender k (a ++ x :: b) =
    if decide (k = s) then x :: of_sender k (a ++ b) else of_sender k (a ++ b)).
  { intros k. rewrite !filter_app, filter_cons. destruct (decide (k = s)) as [->|Hne].
    - by rewrite decide_True, Ha.
    - rewrite decide_False; [done|]. intros <-. congruence. }
  exists (a ++ b). split; [|by rewrite !length_app, <- Nat.add_succ_r]. intros k.
  specialize (Hg k). rewrite Hk in Hg. rewrite filter_app in *.
  destruct (decide (q = [])) as [->|Hq], (decide (k = s)) as [->|Hne].
  - by rewrite lookup_delete_eq, Ha, Hb.
  - by rewrite lookup_delete_ne.
  - rewrite lookup_insert_eq, Ha, Hb. by destruct q.
  - by rewrite lookup_insert_ne.
Qed.

(** Each transaction is preferred to the first remaining one of any other sender. *)
Fixpoint greedy (l : list PooledTransaction) : Prop :=
  match l with
  | [] => True
  | x :: r =>
      (∀ y, head (of_sender (sender y) r) = Some y → sender y ≠ sender x →
        better y x = Some false) ∧ greedy r
  end.

Lemma drain_spec fuel g ordered l :
  holds g l → (length l ≤ fuel)%nat →
  ∃ out, drain better fuel g ordered = Some (ordered ++ out) ∧
    (∀ s, of_sender s out = of_sender s l) ∧ greedy out.
Proof.
  revert g ordered l. induction fuel as [|fuel IH]; intros g ordered l Hg Hf; cbn [drain].
  { destruct l; [|cbn in Hf; lia]. exists []. by rewrite app_nil_r. }
  destruct (decide (g = ∅)) as [->|Hne].
  { exists []. rewrite app_nil_r. split_and!; try done. intros s. specialize (Hg s).
    rewrite lookup_empty in Hg. by destruct (of_sender s l). }
  assert (Hin : ∀ s q, (s, q) ∈ hash_iter g ↔ g !! s = Some q)
    by (intros; by rewrite hash_iter_perm, elem_of_map_to_list).
  destruct (best_sender_spec (hash_iter g) None []) as (s & x & -> & Hx & _ & Hbest).
  { intros _ E. apply Hne. rewrite <- map_to_list_empty_iff. apply Permutation_nil_r.
    by rewrite <- hash_iter_perm, E. }
  { apply Forall_forall. intros [k q] Hk%Hin. cbn. intros ->. specialize (Hg k). rewrite Hk in Hg.
    by destruct (of_sender k l). }
  { by intros y ?%elem_of_nil. }
  destruct Hx as [?|[q Hq%Hin]]; [done|]. cbn. rewrite Hq.
  destruct (holds_take g l s x q Hg Hq) as (l' & Hg' & Hl & Hsx & Hk).
  destruct (IH _ (ordered ++ [x]) l' Hg') as (out & -> & Hout & Hgr); [lia|].
  exists (x :: out). split_and!; [by rewrite <- (assoc_L (++))| |split; [|done]].
  - intros k. rewrite Hk, filter_cons, Hsx, Hout. by repeat case_decide; simplify_eq.
  - intros y Hy Hne'. rewrite Hout in Hy. specialize (Hk (sender y)).
    rewrite decide_False in Hk by congruence. specialize (Hg (sender y)).
    rewrite Hk in Hg. destruct (of_sender (sender y) l') as [|y' r] eqn:E; [done|].
    cbn in Hy. injection Hy as ->. apply Hin in Hg. by eapply Hbest.
Qed.

Lemma order_grouped_spec txs :
  ∃ out, order_grouped better txs = Some out ∧ out ≡ₚ txs ∧
    (∀ s, of_sender s out = sort_by nonce_le (of_sender s txs)) ∧ greedy out.
Proof.
  assert (Hh : holds (sort_by nonce_le <$> group_by_sender txs) (sort_by nonce_le txs)).
  { intros s. rewrite lookup_fmap, group_lookup, nonce_sort_of_sender.
    destruct (of_sender s txs) as [|x r] eqn:E; [done|].
    change (sort_by nonce_le <$> Some (x :: r)) with (Some (sort_by nonce_le (x :: r))).
    destruct (sort_by nonce_le (x :: r)) eqn:Es; [|done].
    pose proof (sort_by_perm nonce_le (x :: r)) as Hp. rewrite Es in Hp.
    by apply Permutation_nil_cons in Hp. }
  destruct (drain_spec (length txs) _ [] _ Hh) as (out & E & Hs & Hg).
  { by rewrite sort_by_length. }
  exists out. split_and!; [done| | |done].
  - apply (perm_by_key (λ t, sender t)). intros k. rewrite Hs, nonce_sort_of_sender.
    apply sort_by_perm.
  - intros s. by rewrite Hs, nonce_sort_of_sender.
Qed.
End greedy.

(** ** The policies *)

(** The transactions of each sender are in nonce order. *)
Definition nonce_ordered (l : list PooledTransaction) : Prop :=
  ∀ s, sorted_by nonce_le (of_sender s l).

(** The comparison of a policy that groups by sender. *)
Definition policy_better (policy : SchedulingPolicyType) : option better_fn :=
  match policy with
  | FeePriority => Some fee_better
  | TimeBoost w => Some (time_boost_better w)
  | BlobPacking => Some blob_better
  | Fcfs | FairBft => None
  end.

Lemma nonce_sort_sorted l : sorted_by nonce_le (sort_by nonce_le l).
Proof.
  apply sort_by_sorted; unfold nonce_le; [intros ??|intros ???]; rewrite !Z.leb_le; lia.
Qed.

Lemma policy_preference policy better :
  policy_better policy = Some better → policy ≠ TimeBoost 0 → Preference better.
Proof.
  destruct policy; intros [= <-] Hne; try apply _. apply time_boost_preference. congruence.
Qed.

(** C18: The policies that group by sender never panic on a usable configuration
    and return a permutation of their input in which every sender's
    transactions are in nonce order and every position holds a most preferred
    transaction among the first remaining ones of all senders, whatever the
    iteration order of the hash map. *)
Theorem grouped_policy_correct `{HashIterLaws (list PooledTransaction)} policy better txs :
  policy_better policy = Some better → policy ≠ TimeBoost 0 →
  ∃ out, order_transactions policy txs = Some out ∧ out ≡ₚ txs ∧ nonce_ordered out ∧
    (∀ s, of_sender s out = sort_by nonce_le (of_sender s txs)) ∧ greedy better out.
Proof.
  intros Hb Hw. pose proof (policy_preference policy better Hb Hw).
  destruct (order_grouped_spec better txs) as (out & E & Hp & Hs & Hg).
  exists out. split_and!; try done.
  - by destruct policy; inversion Hb; subst.
  - intros s. rewrite Hs. apply nonce_sort_sorted.
Qed.

Lemma order_transactions_perm `{HashIterLaws (list PooledTransaction)} policy txs :
  policy ≠ TimeBoost 0 → ∃ out, order_transactions policy txs = Some out ∧ out ≡ₚ txs.
Proof.
  intros Hw. destruct (policy_better policy) as [better|] eqn:E.
  - pose proof (policy_preference policy better E Hw).
    destruct (order_grouped_spec better txs) as (out & Eo & Hp & _). exists out. split; [|done].
    by destruct policy; inversion E; subst.
  - destruct policy; try done; eexists; (split; [reflexivity|]); [done|]. apply sort_by_perm.
Qed.

Module PolicySamples.
Import SequencerSamples.

Lemma grouped_policy_witness :
  ∃ out, @order_transactions (model_iter (list PooledTransaction)) FeePriority
    [sample_pooled 1 1 8; sample_pooled 2 0 5; sample_pooled 1 0 7] = Some out ∧
    nonce_ordered out ∧ length out = 3%nat.
Proof.
  destruct (@grouped_policy_correct (model_iter _) (model_iter_laws _) FeePriority fee_better
    [sample_pooled 1 1 8; sample_pooled 2 0 5; sample_pooled 1 0 7]) as (out & E & Hp & Hn & _).
  - reflexivity.
  - discriminate.
  - exists out. split; [exact E|]. split; [exact Hn|]. by rewrite (Permutation_length Hp).
Defined.

End PolicySamples.
