(* ===== verification/SequencerAdmission.v ===== *)
(** * Sequencer: admission of transactions
      ([state/cache.rs], [validation/validator.rs], [api/server.rs])

    The account cache, the validator and the request handlers of the API.  A
    handler takes the lock of the cache or of the pool several times; between
    two of them other handlers run.  [handle_tx] is a handler that runs alone;
    [handler_step] is one lock acquisition of it, and [interleave] runs several
    handlers, one step at a time. *)

From stdpp Require Import base gmap list.
From Stdlib Require Import ZArith Lia.
From S2P Require Import Prelude Rust SequencerTypes SequencerPool.

(** [Signature::recover] of ethers: the address that signed the hash. *)
Class SigRecover := recover : bytes → bytes → option Z.

(** ** The account cache *)

Record StateCache := mkCache {
  accounts : gmap Z AccountState;
  cache_hits : Z;
  cache_misses : Z;
  stale_nonce_rejections : Z;
  last_sync_ms : Z;
}.

Definition new_cache : StateCache := mkCache ∅ 0 0 0 0.

Definition set_accounts (m : gmap Z AccountState) (c : StateCache) : StateCache :=
  mkCache m (cache_hits c) (cache_misses c) (stale_nonce_rejections c) (last_sync_ms c).

Definition get_balance (c : StateCache) (a : Z) : option Z := a_balance <$> accounts c !! a.
Definition get_nonce (c : StateCache) (a : Z) : option Z := a_nonce <$> accounts c !! a.

Definition default_account (a : Z) : AccountState := mkAccountState a 0 0.

Definition get_or_init_account (a : Z) (c : StateCache) : AccountState * StateCache :=
  match accounts c !! a with
  | Some account =>
      (account, mkCache (accounts c) (wrap64 (cache_hits c + 1)) (cache_misses c)
                  (stale_nonce_rejections c) (last_sync_ms c))
  | None =>
      (default_account a, mkCache (accounts c) (cache_hits c) (wrap64 (cache_misses c + 1))
                            (stale_nonce_rejections c) (last_sync_ms c))
  end.

Definition increment_nonce (a : Z) (c : StateCache) : StateCache :=
  match accounts c !! a with
  | Some account =>
      set_accounts (<[a := mkAccountState (a_address account) (a_balance account)
                             (wrap64 (a_nonce account + 1))]> (accounts c)) c
  | None => set_accounts (<[a := mkAccountState a 0 1]> (accounts c)) c
  end.

Definition deduct_balance (a amount : Z) (c : StateCache) : StateCache :=
  match accounts c !! a with
  | Some account =>
      set_accounts (<[a := mkAccountState (a_address account) (sat_sub (a_balance account) amount)
                             (a_nonce account)]> (accounts c)) c
  | None => c
  end.

(** [StateCache::update] at time [now]. *)
Definition cache_update (st : AccountState) (now : Z) (c : StateCache) : StateCache :=
  mkCache (<[a_address st := st]> (accounts c)) (cache_hits c) (cache_misses c)
    (stale_nonce_rejections c) now.

(** ** The validator *)

Section admission.
Context `{Hashing} `{SigRecover}.

Definition verify_signature (tx : UserTransaction) : result ValidationError unit :=
  match recover (u_signature tx) (user_tx_hash tx) with
  | Some recovered_address => if recovered_address =? u_from tx then Ok tt else Err InvalidSignature
  | None => Err InvalidSignature
  end.

Definition check_nonce (tx : UserTransaction) (c : StateCache)
    : result ValidationError unit * StateCache :=
  let '(account, c) := get_or_init_account (u_from tx) c in
  (if u_nonce tx =? a_nonce account then Ok tt
   else Err (InvalidNonce (a_nonce account) (u_nonce tx)), c).

(** [value + gas_price * gas_limit], which panics when it overflows. *)
Definition total_cost (tx : UserTransaction) : option Z :=
  gas_cost ← u256_mul (u_gas_price tx) (u_gas_limit tx); u256_add (u_value tx) gas_cost.

Definition check_balance (tx : UserTransaction) (c : StateCache)
    : result ValidationError unit * StateCache :=
  let '(account, c) := get_or_init_account (u_from tx) c in
  (match total_cost tx with
   | None => Panicked
   | Some required => if a_balance account <? required
                      then Err (InsufficientBalance required (a_balance account)) else Ok tt
   end, c).

Definition validate (tx : UserTransaction) (c : StateCache)
    : result ValidationError unit * StateCache :=
  match verify_signature tx with
  | Ok _ => match check_nonce tx c with
            | (Ok _, c) => check_balance tx c
            | (e, c) => (e, c)
            end
  | e => (e, c)
  end.

(** ** The handlers *)

Record AppState := mkApp {
  state_cache : StateCache;
  tx_pool : TransactionPool;
}.

(** A request: the transaction and the times of its arrival and pool entry. *)
Record Request := mkRequest {
  r_tx : UserTransaction;
  r_arrived_at : Z;
  r_entry_at : Z;
}.

(** [handle_send_transaction] and [handle_rest_tx] on a transaction that was
    parsed: the answer is accepted, rejected, or none after a panic. *)
Definition handle_tx (r : Request) (st : AppState) : result ValidationError unit * AppState :=
  let tx := r_tx r in
  match validate tx (state_cache st) with
  | (Ok _, c) =>
      match total_cost tx with
      | None => (Panicked, mkApp c (tx_pool st))
      | Some cost =>
          (Ok tt, mkApp (increment_nonce (u_from tx) (deduct_balance (u_from tx) cost c))
                    (pool_add (new_pooled tx (r_arrived_at r) (r_entry_at r)) (tx_pool st)))
      end
  | (e, c) => (e, mkApp c (tx_pool st))
  end.

(** ** One lock at a time *)

(** Where a handler is: before validation, after the nonce check, after the
    balance check, after the deduction, after the increment, or answered. *)
Inductive pc :=
| Received | NonceChecked | Validated | Deducted | Incremented
| Answered (answer : result ValidationError unit).

Definition handler_step (r : Request) (p : pc) (st : AppState) : pc * AppState :=
  let tx := r_tx r in
  let c := state_cache st in
  match p with
  | Received =>
      match verify_signature tx with
      | Ok _ => match check_nonce tx c with
                | (Ok _, c) => (NonceChecked, mkApp c (tx_pool st))
                | (e, c) => (Answered e, mkApp c (tx_pool st))
                end
      | e => (Answered e, st)
      end
  | NonceChecked =>
      match check_balance tx c with
      | (Ok _, c) => (Validated, mkApp c (tx_pool st))
      | (e, c) => (Answered e, mkApp c (tx_pool st))
      end
  | Validated =>
      match total_cost tx with
      | None => (Answered Panicked, st)
      | Some cost => (Deducted, mkApp (deduct_balance (u_from tx) cost c) (tx_pool st))
      end
  | Deducted => (Incremented, mkApp (increment_nonce (u_from tx) c) (tx_pool st))
  | Incremented =>
      (Answered (Ok tt),
       mkApp c (pool_add (new_pooled tx (r_arrived_at r) (r_entry_at r)) (tx_pool st)))
  | Answered a => (Answered a, st)
  end.

(** Handlers and the shared state. *)
Definition system : Type := list (Request * pc) * AppState.

Inductive interleave : system → system → Prop :=
| interleave_step before r p after st :
    interleave (before ++ (r, p) :: after, st)
      (before ++ (r, (handler_step r p st).1) :: after, (handler_step r p st).2).

Definition reachable : system → system → Prop := rtc interleave.

(** All requests received and none handled. *)
Definition start (rs : list Request) (st : AppState) : system := ((λ r, (r, Received)) <$> rs, st).

Fixpoint handler_steps (n : nat) (r : Request) (p : pc) (st : AppState) : pc * AppState :=
  match n with
  | O => (p, st)
  | S n => let '(p, st) := handler_step r p st in handler_steps n r p st
  end.

(** A handler that runs alone takes at most five steps and behaves as [handle_tx]. *)
Lemma handler_steps_alone r st :
  handler_steps 5 r Received st =
    let '(a, st') := handle_tx r st in (Answered a, st').
Proof.
  destruct st as [c p]. unfold handle_tx, validate. cbn [handler_steps handler_step state_cache tx_pool].
  destruct (verify_signature (r_tx r)); [|done..].
  destruct (check_nonce (r_tx r) c) as [[] c1]; [|done..]. cbn.
  destruct (check_balance (r_tx r) c1) as [[] c2]; [|done..]. cbn.
  by destruct (total_cost (r_tx r)).
Qed.

(** ** What the cache says of an account *)

Definition nonce_at (c : StateCache) (a : Z) : Z := default 0 (get_nonce c a).
Definition balance_at (c : StateCache) (a : Z) : Z := default 0 (get_balance c a).

Lemma get_or_init_account_spec a c :
  let '(account, c') := get_or_init_account a c in
  a_nonce account = nonce_at c a ∧ a_balance account = balance_at c a ∧ accounts c' = accounts c.
Proof.
  unfold get_or_init_account, nonce_at, balance_at, get_nonce, get_balance.
  by destruct (accounts c !! a).
Qed.

Lemma nonce_at_accounts c c' a : accounts c' = accounts c → nonce_at c' a = nonce_at c a.
Proof. unfold nonce_at, get_nonce. by intros ->. Qed.

Lemma balance_at_accounts c c' a : accounts c' = accounts c → balance_at c' a = balance_at c a.
Proof. unfold balance_at, get_balance. by intros ->. Qed.

Lemma nonce_at_deduct c a b x : nonce_at (deduct_balance b x c) a = nonce_at c a.
Proof.
  unfold nonce_at, get_nonce, deduct_balance. destruct (accounts c !! b) eqn:E; [|done]. cbn.
  destruct (decide (a = b)) as [->|]; [by rewrite lookup_insert_eq, E|by rewrite lookup_insert_ne].
Qed.

Lemma balance_at_increment c a b : balance_at (increment_nonce b c) a = balance_at c a.
Proof.
  unfold balance_at, get_balance, increment_nonce. destruct (accounts c !! b) eqn:E; cbn;
  (destruct (decide (a = b)) as [->|];
    [by rewrite lookup_insert_eq, E|by rewrite lookup_insert_ne]).
Qed.

Lemma nonce_at_increment c a b :
  nonce_at (increment_nonce b c) a = if decide (a = b) then wrap64 (nonce_at c b + 1) else nonce_at c a.
Proof.
  unfold nonce_at, get_nonce, increment_nonce. destruct (accounts c !! b) eqn:E; cbn;
  (destruct (decide (a = b)) as [->|]; [by rewrite lookup_insert_eq|by rewrite lookup_insert_ne]).
Qed.

Lemma balance_at_deduct c a b x :
  0 ≤ x → 0 ≤ balance_at c b →
  balance_at (deduct_balance b x c) a =
    if decide (a = b) then sat_sub (balance_at c b) x else balance_at c a.
Proof.
  unfold balance_at, get_balance, deduct_balance. intros Hx Hb.
  destruct (accounts c !! b) eqn:E; cbn.
  - destruct (decide (a = b)) as [->|]; [by rewrite lookup_insert_eq|by rewrite lookup_insert_ne].
  - destruct (decide (a = b)) as [->|]; [|done]. rewrite E. cbn. unfold sat_sub. lia.
Qed.

Lemma check_nonce_spec tx c :
  let '(a, c') := check_nonce tx c in
  accounts c' = accounts c ∧
  a = if u_nonce tx =? nonce_at c (u_from tx) then Ok tt
      else Err (InvalidNonce (nonce_at c (u_from tx)) (u_nonce tx)).
Proof.
  unfold check_nonce. pose proof (get_or_init_account_spec (u_from tx) c) as Hg.
  destruct (get_or_init_account _ c) as [acc c']. destruct Hg as (-> & _ & ->). done.
Qed.

Lemma check_balance_spec tx c :
  let '(a, c') := check_balance tx c in
  accounts c' = accounts c ∧
  a = match total_cost tx with
      | None => Panicked
      | Some required => if balance_at c (u_from tx) <? required
                         then Err (InsufficientBalance required (balance_at c (u_from tx))) else Ok tt
      end.
Proof.
  unfold check_balance. pose proof (get_or_init_account_spec (u_from tx) c) as Hg.
  destruct (get_or_init_account _ c) as [acc c']. destruct Hg as (_ & -> & ->). done.
Qed.

(** The conditions of admission. *)
Definition admissible (tx : UserTransaction) (c : StateCache) (cost : Z) : Prop :=
  verify_signature tx = Ok tt ∧ u_nonce tx = nonce_at c (u_from tx) ∧
  total_cost tx = Some cost ∧ cost ≤ balance_at c (u_from tx).

Lemma validate_spec tx c :
  accounts (validate tx c).2 = accounts c ∧
  ((validate tx c).1 = Ok tt ↔ ∃ cost, admissible tx c cost).
Proof.
  unfold validate, admissible. destruct (verify_signature tx) as [[]|e|]; [|naive_solver..].
  pose proof (check_nonce_spec tx c) as Hn. destruct (check_nonce tx c) as [a c1].
  destruct Hn as [Hc ->]. destruct (Z.eqb_spec (u_nonce tx) (nonce_at c (u_from tx))); [|naive_solver].
  pose proof (check_balance_spec tx c1) as Hb. destruct (check_balance tx c1) as [b c2].
  destruct Hb as [Hc' ->]. cbn. split; [congruence|].
  rewrite (balance_at_accounts c) by done.
  destruct (total_cost tx) as [cost|]; [|naive_solver].
  destruct (Z.ltb_spec (balance_at c (u_from tx)) cost); naive_solver lia.
Qed.

(** A request that is not accepted changes neither accounts nor pool; one that
    is accepted was signed by its sender, had the expected nonce and was
    affordable, is charged, counted, and appended to the pool. *)
Lemma handle_tx_spec r st :
  let '(a, st') := handle_tx r st in
  let tx := r_tx r in
  let c := state_cache st in
  (a = Ok tt ↔ ∃ cost, admissible tx c cost) ∧
  (a ≠ Ok tt → accounts (state_cache st') = accounts c ∧ tx_pool st' = tx_pool st) ∧
  (a = Ok tt → ∃ cost c', admissible tx c cost ∧ accounts c' = accounts c ∧
    st' = mkApp (increment_nonce (u_from tx) (deduct_balance (u_from tx) cost c'))
            (pool_add (new_pooled tx (r_arrived_at r) (r_entry_at r)) (tx_pool st))).
Proof.
  unfold handle_tx. pose proof (validate_spec (r_tx r) (state_cache st)) as [Hc Hv].
  destruct (validate _ _) as [[[]|e|] c]; cbn in *.
  - destruct (proj1 Hv eq_refl) as (cost & Ha). pose proof Ha as (_ & _ & Ht & _). rewrite Ht.
    split; [naive_solver|]. split; [done|]. intros _. by exists cost, c.
  - split; [done|]. split; [done|]. done.
  - split; [done|]. split; [done|]. done.
Qed.

(** ** Handlers one after another *)

Definition handle_all (rs : list Request) (st : AppState) : AppState :=
  foldl (λ st r, (handle_tx r st).2) st rs.

(** What the pool holds of a request that is accepted. *)
Definition pooled_of (r : Request) : PooledTransaction :=
  new_pooled (r_tx r) (r_arrived_at r) (r_entry_at r).

Definition costs (l : list PooledTransaction) : Z :=
  sumZ ((λ p, default 0 (total_cost (p_tx p))) <$> l).

Lemma costs_app l l' : costs (l ++ l') = costs l + costs l'.
Proof. unfold costs. by rewrite fmap_app, sumZ_app. Qed.

Lemma total_cost_nonneg tx cost : wf_user_tx tx → total_cost tx = Some cost → 0 ≤ cost.
Proof.
  unfold wf_user_tx, total_cost, u256_mul, u256_add, is_u256, is_u64. intros Hwf E.
  apply bind_Some in E as (g & Hg & E). repeat case_match; simplify_eq; nia.
Qed.

(** What was added to the pool agrees with what the cache was charged. *)
Definition ledger (c0 c : StateCache) (added : list PooledTransaction) : Prop :=
  Forall (λ p, verify_signature (p_tx p) = Ok tt ∧ wf_user_tx (p_tx p) ∧
               is_Some (total_cost (p_tx p))) added ∧
  ∀ s, let mine := of_sender s added in
    (λ p, nonce_of p) <$> mine = (λ i, nonce_at c0 s + Z.of_nat i) <$> seq 0 (length mine) ∧
    nonce_at c s = nonce_at c0 s + Z.of_nat (length mine) ∧
    balance_at c s + costs mine = balance_at c0 s ∧ 0 ≤ balance_at c s.

Lemma ledger_accept c0 c c' added tx cost t1 t2 :
  ledger c0 c added → wf_user_tx tx → admissible tx c cost → accounts c' = accounts c →
  nonce_at c (u_from tx) < u64_max → 0 ≤ nonce_at c (u_from tx) →
  ledger c0 (increment_nonce (u_from tx) (deduct_balance (u_from tx) cost c'))
    (added ++ [new_pooled tx t1 t2]).
Proof.
  intros [Hv Hl] Hwf (Hsig & Hn & Ht & Hb) Hc Hlt Hge. split.
  { apply Forall_app_2; [done|]. apply Forall_singleton. cbn. by eauto. }
  pose proof (total_cost_nonneg tx cost Hwf Ht).
  intros s. destruct (Hl s) as (Hs1 & Hs2 & Hs3 & Hs4). destruct (Hl (u_from tx)) as (_ & _ & _ & Hp).
  rewrite nonce_at_increment, balance_at_increment, !nonce_at_deduct, balance_at_deduct
    by (rewrite ?(balance_at_accounts c) by done; lia).
  rewrite !(nonce_at_accounts c c'), !(balance_at_accounts c c') by done.
  rewrite filter_app, filter_cons, filter_nil. cbn [new_pooled p_tx].
  destruct (decide (u_from tx = s)) as [<-|Hne].
  - rewrite decide_True by done. cbn zeta in *. rewrite fmap_app, costs_app, length_app.
    cbn [length]. rewrite seq_app, fmap_app, Hs1. cbn. rewrite Hn, Hs2. split_and!; [done| | |].
    + rewrite ?decide_True by done. unfold wrap64. rewrite Z.mod_small by (unfold u64_max in *; lia). lia.
    + rewrite decide_True, Ht by done. cbn. unfold sat_sub. lia.
    + rewrite decide_True by done. unfold sat_sub. lia.
  - rewrite app_nil_r, !decide_False by congruence. done.
Qed.

Lemma handle_all_ledger rs st :
  Forall (λ r, wf_user_tx (r_tx r)) rs →
  (∀ s, 0 ≤ balance_at (state_cache st) s) →
  (∀ s, 0 ≤ nonce_at (state_cache st) s ∧
        nonce_at (state_cache st) s + Z.of_nat (length rs) ≤ u64_max) →
  ∃ added, pool_txs (tx_pool (handle_all rs st)) = pool_txs (tx_pool st) ++ added ∧
    added `sublist_of` (pooled_of <$> rs) ∧
    ledger (state_cache st) (state_cache (handle_all rs st)) added.
Proof.
  intros Hwf Hb Hn. induction rs as [|r rs IH] using rev_ind.
  { exists []. rewrite app_nil_r. split_and!; [done..|]. split; [done|]. intros s. cbn.
    specialize (Hb s). split_and!; unfold costs, sumZ; cbn; try done; lia. }
  apply Forall_app in Hwf as [Hwf Hr]. rewrite Forall_singleton in Hr.
  destruct IH as (added & Hp & Hsub & Hl); [done| |].
  { intros s. specialize (Hn s). rewrite length_app in Hn. lia. }
  unfold handle_all. rewrite foldl_snoc, fmap_app. fold (handle_all rs st).
  pose proof (handle_tx_spec r (handle_all rs st)) as Hs.
  destruct (handle_tx r _) as [a st']. destruct Hs as (_ & Hrej & Hacc). cbn [snd].
  destruct (decide (a = Ok tt)) as [->|Ha].
  - destruct (Hacc eq_refl) as (cost & c' & Hadm & Hc' & ->). cbn [state_cache tx_pool].
    exists (added ++ [pooled_of r]). split_and!.
    + cbn. by rewrite Hp, <- (assoc_L (++)).
    + by apply sublist_app.
    + destruct (proj2 Hl (u_from (r_tx r))) as (_ & Hnn & _). cbn zeta in Hnn.
      specialize (Hn (u_from (r_tx r))). rewrite length_app in Hn. cbn in Hn.
      pose proof (length_filter (λ t, sender t = u_from (r_tx r)) added).
      apply sublist_length in Hsub. rewrite length_fmap in Hsub.
      eapply ledger_accept; try eassumption; lia.
  - destruct (Hrej Ha) as [Hc ->]. exists added. split_and!; [done|by apply sublist_inserts_r|].
    destruct Hl as [? Hl]. split; [done|]. intros s.
    rewrite (nonce_at_accounts _ _ s Hc), (balance_at_accounts _ _ s Hc). apply Hl.
Qed.

(** C9: Handled one after another, requests are charged exactly for what enters
    the pool: per sender the pooled nonces are consecutive from the cached
    nonce, and the costs of the pooled transactions plus the remaining balance
    are the initial balance. *)
Theorem admission_ledger rs st :
  Forall (λ r, wf_user_tx (r_tx r)) rs →
  (∀ s, 0 ≤ balance_at (state_cache st) s) →
  (∀ s, 0 ≤ nonce_at (state_cache st) s ∧
        nonce_at (state_cache st) s + Z.of_nat (length rs) ≤ u64_max) →
  ∃ added, pool_txs (tx_pool (handle_all rs st)) = pool_txs (tx_pool st) ++ added ∧
    added `sublist_of` (pooled_of <$> rs) ∧
    ledger (state_cache st) (state_cache (handle_all rs st)) added.
Proof. apply handle_all_ledger. Qed.

(** ** Handlers that interleave *)

Lemma interleave_at before r p after st p' st' :
  handler_step r p st = (p', st') →
  interleave (before ++ (r, p) :: after, st) (before ++ (r, p') :: after, st').
Proof. intros E. pose proof (interleave_step before r p after st) as Hi. by rewrite E in Hi. Qed.

(** Two handlers of the same request, both past validation before either of
    them updates the cache: both accept it. *)
Theorem same_request_accepted_twice r st :
  (validate (r_tx r) (state_cache st)).1 = Ok tt →
  ∃ st', reachable (start [r; r] st) ([(r, Answered (Ok tt)); (r, Answered (Ok tt))], st') ∧
    let t := new_pooled (r_tx r) (r_arrived_at r) (r_entry_at r) in
    pool_txs (tx_pool st') = pool_txs (tx_pool st) ++ [t; t].
Proof.
  intros Hv. apply validate_spec in Hv as (cost & Hsig & Hn & Ht & Hb).
  destruct st as [c p]. cbn in *.
  assert (Step : ∀ c', accounts c' = accounts c → ∃ c1 c2, accounts c2 = accounts c ∧
    (∀ q, handler_step r Received (mkApp c' q) = (NonceChecked, mkApp c1 q)) ∧
    (∀ q, handler_step r NonceChecked (mkApp c1 q) = (Validated, mkApp c2 q))).
  { intros c' Hc'. cbn. rewrite Hsig.
    pose proof (check_nonce_spec (r_tx r) c') as Hcn.
    destruct (check_nonce (r_tx r) c') as [a c1]. destruct Hcn as [Hc1 ->].
    rewrite (nonce_at_accounts c), Hn, Z.eqb_refl by done.
    pose proof (check_balance_spec (r_tx r) c1) as Hcb.
    exists c1. destruct (check_balance (r_tx r) c1) as [a c2]. destruct Hcb as [Hc2 ->].
    rewrite Ht, (balance_at_accounts c), (proj2 (Z.ltb_ge _ _) Hb) by congruence.
    exists c2. split; [congruence|done]. }
  destruct (Step c eq_refl) as (c1 & c2 & Hc2 & S1 & S2).
  destruct (Step c2 Hc2) as (c3 & c4 & Hc4 & S3 & S4).
  set (dec := λ c, increment_nonce (u_from (r_tx r)) (deduct_balance (u_from (r_tx r)) cost c)).
  set (t := new_pooled _ _ _).
  exists (mkApp (dec (dec c4)) (pool_add t (pool_add t p))).
  split; [|by cbn; rewrite <- (assoc_L (++))].
  assert (Hlast : ∀ hs1 hs2 c q, reachable (hs1 ++ (r, Validated) :: hs2, mkApp c q)
    (hs1 ++ (r, Answered (Ok tt)) :: hs2, mkApp (dec c) (pool_add t q))).
  { intros hs1 hs2 d q. eapply rtc_l; [eapply interleave_at; cbn; by rewrite Ht|].
    eapply rtc_l; [by eapply interleave_at|]. by eapply rtc_l; [by eapply interleave_at|]. }
  unfold start. cbn.
  eapply rtc_l; [apply (interleave_at [] r Received [(r, Received)] _ _ _ (S1 p))|].
  eapply rtc_l; [apply (interleave_at [] r NonceChecked [(r, Received)] _ _ _ (S2 p))|].
  eapply rtc_l; [apply (interleave_at [(r, Validated)] r Received [] _ _ _ (S3 p))|].
  eapply rtc_l; [apply (interleave_at [(r, Validated)] r NonceChecked [] _ _ _ (S4 p))|].
  etrans; [apply (Hlast [] [(r, Validated)])|]. apply (Hlast [(r, Answered (Ok tt))] []).
Qed.

(** How far a handler is. *)
Definition is_accepted (p : pc) : bool := match p with Answered (Ok _) => true | _ => false end.
Definition past_increment (p : pc) : bool :=
  match p with Incremented => true | _ => is_accepted p end.
Definition past_signature (p : pc) : bool :=
  match p with NonceChecked | Validated | Deducted => true | _ => past_increment p end.

(** The requests answered with acceptance, and the handlers of [s] that have
    incremented its nonce. *)
Definition accepted (hs : list (Request * pc)) : list Request :=
  fst <$> filter (λ h, is_accepted h.2 = true) hs.
Definition increments (s : Z) (hs : list (Request * pc)) : nat :=
  length (filter (λ h, u_from (r_tx h.1) = s ∧ past_increment h.2 = true) hs).

Record concurrent_inv (rs : list Request) (st : AppState) (sys : system) : Prop := {
  ci_requests : sys.1.*1 = rs;
  ci_pool : pool_txs (tx_pool sys.2) ≡ₚ pool_txs (tx_pool st) ++ (pooled_of <$> accepted sys.1);
  ci_nonce s : nonce_at (state_cache sys.2) s =
    nonce_at (state_cache st) s + Z.of_nat (increments s sys.1);
  ci_balance s : 0 ≤ balance_at (state_cache sys.2) s ≤ balance_at (state_cache st) s;
  ci_signed h : h ∈ sys.1 → past_signature h.2 = true → verify_signature (r_tx h.1) = Ok tt;
}.

(** The four kinds of step: a check, the deduction, the increment, the pool. *)
Lemma handler_step_kind r p st :
  let '(p', st') := handler_step r p st in
  (accounts (state_cache st') = accounts (state_cache st) ∧ tx_pool st' = tx_pool st ∧
   is_accepted p' = is_accepted p ∧ past_increment p' = past_increment p ∧
   (past_signature p' = true → past_signature p = true ∨ verify_signature (r_tx r) = Ok tt)) ∨
  (∃ cost, p = Validated ∧ p' = Deducted ∧ total_cost (r_tx r) = Some cost ∧
    st' = mkApp (deduct_balance (u_from (r_tx r)) cost (state_cache st)) (tx_pool st)) ∨
  (p = Deducted ∧ p' = Incremented ∧
    st' = mkApp (increment_nonce (u_from (r_tx r)) (state_cache st)) (tx_pool st)) ∨
  (p = Incremented ∧ p' = Answered (Ok tt) ∧
    st' = mkApp (state_cache st) (pool_add (pooled_of r) (tx_pool st))).
Proof.
  destruct p; cbn [handler_step]; try by naive_solver.
  - destruct (verify_signature (r_tx r)) as [[]|e|] eqn:Hv; [|by left..].
    pose proof (check_nonce_spec (r_tx r) (state_cache st)) as Hn.
    destruct (check_nonce _ _) as [[]]; destruct Hn as [Hn ?]; left; split_and!; by auto.
  - pose proof (check_balance_spec (r_tx r) (state_cache st)) as Hn.
    destruct (check_balance _ _) as [[]]; destruct Hn as [Hn ?]; left; split_and!; by auto.
  - destruct (total_cost (r_tx r)) eqn:E; [|by left]. right. left. by eauto.
Qed.

Lemma increments_cons s r p hs :
  increments s ((r, p) :: hs) =
    ((if decide (u_from (r_tx r) = s ∧ past_increment p = true) then 1 else 0) + increments s hs)%nat.
Proof. unfold increments. rewrite filter_cons. cbn [fst snd]. repeat case_decide; tauto || done. Qed.

Lemma increments_app s hs hs' : increments s (hs ++ hs') = (increments s hs + increments s hs')%nat.
Proof. unfold increments. by rewrite filter_app, length_app. Qed.

Lemma increments_le s hs : (increments s hs ≤ length hs)%nat.
Proof. apply length_filter. Qed.

Lemma accepted_middle hs r p hs' :
  accepted (hs ++ (r, p) :: hs') =
    accepted hs ++ (if is_accepted p then [r] else []) ++ accepted hs'.
Proof.
  unfold accepted. rewrite filter_app, filter_cons, fmap_app. f_equal.
  destruct (is_accepted p) eqn:E; by case_decide; cbn in *; rewrite ?E in *.
Qed.

Lemma concurrent_inv_step rs st sys sys' :
  Forall (λ r, wf_user_tx (r_tx r)) rs →
  (∀ s, 0 ≤ nonce_at (state_cache st) s ∧
        nonce_at (state_cache st) s + Z.of_nat (length rs) ≤ u64_max) →
  concurrent_inv rs st sys → interleave sys sys' → concurrent_inv rs st sys'.
Proof.
  intros Hwf Hmax [Hr Hp Hn Hb Hs] Hi. destruct Hi as [before r p after st1]. cbn [fst snd] in *.
  assert (Hwr : wf_user_tx (r_tx r)).
  { rewrite Forall_forall in Hwf. apply Hwf. rewrite <- Hr, fmap_app.
    apply elem_of_app. right. by left. }
  pose proof (handler_step_kind r p st1) as Hk.
  destruct (handler_step r p st1) as [p' st']. cbn [fst snd].
  rewrite accepted_middle in Hp.
  assert (Hsig : past_signature p' = true → past_signature p = true ∨ verify_signature (r_tx r) = Ok tt)
    by (destruct Hk as [(?&?&?&?&?)|[(?&->&->&_)|[(->&->&_)|(->&->&_)]]]; auto).
  split; cbn [fst snd].
  - by rewrite fmap_app in *.
  - rewrite accepted_middle.
    destruct Hk as [(_&->&->&_)|[(?&->&->&_&->)|[(->&->&->)|(->&->&->)]]]; cbn in *; try done.
    rewrite Hp, !fmap_app. cbn. rewrite <- !(assoc_L (++)). do 2 f_equiv.
    by rewrite <- Permutation_cons_append.
  - intros s. specialize (Hn s). rewrite increments_app, increments_cons in *.
    destruct Hk as [(Ha&_&_&->&_)|[(?&->&->&_&->)|[(->&->&->)|(->&->&->)]]]; cbn in *.
    + by rewrite (nonce_at_accounts _ _ s Ha).
    + by rewrite nonce_at_deduct.
    + rewrite nonce_at_increment. rewrite decide_False in Hn by naive_solver.
      destruct (decide (s = _)) as [->|Hne]; [|rewrite decide_False by naive_solver; lia].
      rewrite decide_True by done. rewrite Hn. specialize (Hmax (u_from (r_tx r))).
      pose proof (increments_le (u_from (r_tx r)) before).
      pose proof (increments_le (u_from (r_tx r)) after).
      rewrite <- Hr, length_fmap, length_app in Hmax. cbn in Hmax.
      unfold wrap64. rewrite Z.mod_small by (unfold u64_max in *; lia). lia.
    + done.
  - intros s. specialize (Hb s) as Hbs.
    destruct Hk as [(Ha&_&_&_&_)|[(cost&->&->&Ht&->)|[(->&->&->)|(->&->&->)]]]; cbn in *.
    + by rewrite (balance_at_accounts _ _ s Ha).
    + pose proof (total_cost_nonneg _ _ Hwr Ht). pose proof (Hb (u_from (r_tx r))).
      rewrite balance_at_deduct by lia. unfold sat_sub. case_decide; subst; lia.
    + by rewrite balance_at_increment.
    + done.
  - intros h Hh Hps. apply elem_of_app in Hh as [Hh|[->|Hh]%elem_of_cons].
    + apply Hs; [|done]. apply elem_of_app. by left.
    + cbn in *. destruct (Hsig Hps) as [Hps'|]; [|done].
      apply (Hs (r, p)); [|done]. apply elem_of_app. right. by left.
    + apply Hs; [|done]. apply elem_of_app. right. by right.
Qed.

(** C17: However the handlers interleave, the pool holds exactly the requests that
    were answered with acceptance, once for each answer, every one of them
    signed by its sender; the cached nonce of a sender counts the handlers
    that passed its increment; and balances only decrease and stay
    non-negative. *)
Theorem interleaved_admission rs st sys :
  Forall (λ r, wf_user_tx (r_tx r)) rs →
  (∀ s, 0 ≤ nonce_at (state_cache st) s ∧
        nonce_at (state_cache st) s + Z.of_nat (length rs) ≤ u64_max) →
  (∀ s, 0 ≤ balance_at (state_cache st) s) →
  reachable (start rs st) sys → concurrent_inv rs st sys.
Proof.
  intros Hwf Hmax Hb Hr.
  revert Hr. apply (rtc_ind_r (λ sys, concurrent_inv rs st sys)).
  - assert (Hstart : ∀ h, h ∈ (start rs st).1 → h.2 = Received).
    { by intros h (r & -> & _)%list_elem_of_fmap. }
    split; cbn [start fst snd] in *.
    + by rewrite <- list_fmap_compose, list_fmap_id.
    + unfold accepted. rewrite filter_none; [by rewrite app_nil_r|].
      intros h Hh. rewrite (Hstart h Hh). naive_solver.
    + intros s. unfold increments. rewrite filter_none; [cbn; lia|].
      intros h Hh. rewrite (Hstart h Hh). naive_solver.
    + intros s. specialize (Hb s). lia.
    + intros h Hh. by rewrite (Hstart h Hh).
  - intros sys1 sys2 _ Hi Hinv. by eapply concurrent_inv_step.
Qed.

End admission.

Module AdmissionSamples.
Import SequencerSamples.
#[local] Existing Instance model_hashing.

(** The signer a model signature spells out; the last byte is a recovery
    identifier, one with 27 added, or one that contains a chain identifier. *)
#[export] Instance model_recover : SigRecover := λ sig _,
  let v := byte_val (default Byte.x00 (sig !! 64%nat)) in
  if (length sig =? 65)%nat && ((v <? 2) || (v =? 27) || (v =? 28) || (35 <=? v))
  then Some (be_val (drop 12 (take 32 sig))) else None.

(** Account 1 may spend 100; three requests cost 45 each. *)
Definition sample_app : AppState :=
  mkApp (mkCache {[1 := mkAccountState 1 100 0]} 0 0 0 0) (mkPool [] 0).

Definition sample_request (k : Z) : Request := mkRequest (sample_user 1 2 5 k 4) 0 0.

Definition sample_requests : list Request := sample_request <$> [0; 1; 2].

Lemma sample_requests_wf : Forall (λ r, wf_user_tx (r_tx r)) sample_requests.
Proof. repeat apply Forall_cons_2; try apply Forall_nil_2; vm_compute; repeat split; done || discriminate. Qed.

Lemma sample_balances a : 0 ≤ balance_at (state_cache sample_app) a.
Proof.
  unfold balance_at, get_balance. cbn. destruct (decide (a = 1)) as [->|Hne].
  - vm_compute. discriminate.
  - by rewrite lookup_singleton_ne.
Qed.

Lemma sample_nonces a :
  0 ≤ nonce_at (state_cache sample_app) a ∧
  nonce_at (state_cache sample_app) a + Z.of_nat (length sample_requests) ≤ u64_max.
Proof.
  unfold nonce_at, get_nonce. cbn -[u64_max]. destruct (decide (a = 1)) as [->|Hne].
  - split; vm_compute; discriminate.
  - rewrite lookup_singleton_ne by done. split; vm_compute; discriminate.
Qed.

(** The third request is not covered. *)
Lemma admission_ledger_witness :
  ∃ added, pool_txs (tx_pool (handle_all sample_requests sample_app)) = added ∧
    length added = 2%nat ∧
    ledger (state_cache sample_app) (state_cache (handle_all sample_requests sample_app)) added.
Proof.
  destruct (admission_ledger sample_requests sample_app) as (added & E & _ & Hl).
  - apply sample_requests_wf.
  - apply sample_balances.
  - apply sample_nonces.
  - exists added. split; [exact E|]. split; [|exact Hl].
    change (pool_txs (tx_pool sample_app) ++ added) with added in E. rewrite <- E.
    vm_compute. reflexivity.
Defined.

(** The [i]-th handler takes a step. *)
Definition schedule_one (sys : system) (i : nat) : system :=
  match sys.1 !! i with
  | Some (r, p) =>
      (take i sys.1 ++ (r, (handler_step r p sys.2).1) :: drop (S i) sys.1, (handler_step r p sys.2).2)
  | None => sys
  end.

Lemma schedule_reachable picks sys : reachable sys (foldl schedule_one sys picks).
Proof.
  revert sys. induction picks as [|i picks IH]; intros sys; [apply rtc_refl|]. cbn.
  transitivity (schedule_one sys i); [|apply IH]. unfold schedule_one.
  destruct sys as [l st]. cbn. destruct (l !! i) as [[r p]|] eqn:E; [|apply rtc_refl].
  apply rtc_once. rewrite <- (take_drop_middle l i (r, p) E) at 1. constructor.
Qed.

(** The first two handlers pass their checks before either spends. *)
Definition sample_system : system :=
  foldl schedule_one (start [sample_request 0; sample_request 0] sample_app)
    [0; 1; 0; 1; 0; 0; 0; 1; 1; 1]%nat.

Lemma interleaved_admission_witness :
  concurrent_inv [sample_request 0; sample_request 0] sample_app sample_system ∧
  length (pool_txs (tx_pool sample_system.2)) = 2%nat.
Proof.
  split; [|vm_compute; reflexivity].
  apply (interleaved_admission [sample_request 0; sample_request 0] sample_app).
  - repeat apply Forall_cons_2; try apply Forall_nil_2; vm_compute; repeat split; done || discriminate.
  - intros a. destruct (sample_nonces a) as [Hn Hm]. split; [exact Hn|]. cbn [length] in *.
    change (length sample_requests) with 3%nat in Hm. lia.
  - apply sample_balances.
  - apply schedule_reachable.
Defined.

End AdmissionSamples.
