(* ===== verification/SequencerBatch.v ===== *)
(** * Sequencer: batch engine, trigger, registry and orchestrator
      ([batch/engine.rs], [batch/trigger.rs], [registry/database.rs],
       [batch/orchestrator.rs])

    [produce_batch] takes forced and pooled transactions, defers what exceeds
    the gas limit, orders the rest and seals a batch; [iteration] is one turn of
    the orchestrator's loop.  A panic ends the orchestrator's task but not the
    API server, so the state it leaves is part of its result. *)

From stdpp Require Import base gmap list sorting strings.
From Stdlib Require Import ZArith Lia Floats.SpecFloat.
From S2P Require Import Prelude Rust SequencerTypes SequencerPool SequencerPolicies.

(** ** Engine *)

Definition can_add_transaction (cfg : BatchConfig) (current_txs : list Transaction)
    (new_tx : Transaction) : bool :=
  let current_gas := sum64 (gas_limit <$> current_txs) in
  let total_gas := sat_add u64_max current_gas (gas_limit new_tx) in
  total_gas <=? max_gas_limit cfg.

(** [create_batch] at time [now]: the batch and the next identifier. *)
Definition create_batch (txs : list Transaction) (now next_batch_id : Z) : Batch * Z :=
  (mkBatch next_batch_id txs (replicate 32 Byte.x00) now, wrap64 (next_batch_id + 1)).

Definition set_next_batch_id (id : Z) : Z := Z.max id 1.

(** ** Trigger *)

Inductive TriggerReason := ForcedTransactions | SizeThreshold | Timeout.

Definition is_adaptive (cfg : BatchConfig) : bool :=
  eq_ignore_ascii_case (batch_policy cfg) "adaptive".

Definition target_batch_size_for_depth (cfg : BatchConfig) (pending_count : Z) : Z :=
  if is_adaptive cfg then
    if pending_count <? adaptive_low_load_threshold cfg
    then Z.min (adaptive_small_batch_size cfg) (max_batch_size cfg)
    else if pending_count <=? adaptive_medium_load_threshold cfg
    then Z.min (adaptive_medium_batch_size cfg) (max_batch_size cfg)
    else Z.min (adaptive_large_batch_size cfg) (max_batch_size cfg)
  else max_batch_size cfg.

Definition timeout_for_depth (cfg : BatchConfig) (pending_count : Z) : Z :=
  if is_adaptive cfg then
    if pending_count <? adaptive_low_load_threshold cfg then adaptive_small_timeout_ms cfg
    else if pending_count <=? adaptive_medium_load_threshold cfg
    then adaptive_medium_timeout_ms cfg
    else adaptive_large_timeout_ms cfg
  else timeout_interval_ms cfg.

Definition target_fill_bytes (cfg : BatchConfig) : Z :=
  f64_to_u64 (f64_mul (f64_of_int (blob_target_bytes cfg)) (blob_fill_target cfg)).

(** [should_seal]; [da_mode] is the value of the environment variables,
    [elapsed] the milliseconds since the last batch. *)
Definition should_seal (cfg : BatchConfig) (da_mode : string) (elapsed : Z)
    (q : ForcedQueue) (p : TransactionPool) : option TriggerReason :=
  if 0 <? forced_pending_count q then Some ForcedTransactions else
  let normal_count := pool_pending_count p in
  if target_batch_size_for_depth cfg normal_count <=? normal_count then Some SizeThreshold else
  if eq_ignore_ascii_case da_mode "blob" && (target_fill_bytes cfg <=? pool_total_bytes p) &&
     (0 <? pool_total_bytes p) then Some SizeThreshold else
  if timeout_for_depth cfg normal_count <=? elapsed then
    if min_batch_size cfg <=? normal_count then Some Timeout
    else if 0 <? normal_count then Some Timeout
    else None
  else None.

(** ** Registry *)

Record BatchMetadata := mkMetadata {
  m_batch_id : Z;
  m_tx_count : Z;
  m_forced_tx_count : Z;
  m_timestamp : Z;
  m_scheduling_policy : string;
}.

(** The table of batches, whose primary key is the identifier. *)
Definition registry_store (m : BatchMetadata) (t : gmap Z BatchMetadata) : option (gmap Z BatchMetadata) :=
  match t !! m_batch_id m with
  | Some _ => None
  | None => Some (<[m_batch_id m := m]> t)
  end.

(** [SELECT MAX(batch_id)] plus one, or one. *)
Definition get_next_batch_id (t : gmap Z BatchMetadata) : Z :=
  match map_to_list t with
  | [] => 1
  | (k, _) :: l => foldr Z.max k l.*1 + 1
  end.

(** ** Producing a batch *)

Record Sequencer := mkSequencer {
  forced_queue : ForcedQueue;
  pool : TransactionPool;
  next_batch_id : Z;
}.

(** The two loops that drop what exceeds the gas limit: [wrap] makes a
    transaction of an item, [base] is what the batch already has. *)
Fixpoint gas_select {A} (cfg : BatchConfig) (wrap : A → Transaction) (base : list Transaction)
    (txs accepted deferred : list A) : list A * list A :=
  match txs with
  | [] => (accepted, deferred)
  | tx :: txs =>
      if can_add_transaction cfg (base ++ (wrap <$> accepted)) (wrap tx)
      then gas_select cfg wrap base txs (accepted ++ [tx]) deferred
      else gas_select cfg wrap base txs accepted (deferred ++ [tx])
  end.

(** [U256::as_u128], which panics. *)
Definition as_u128 (z : Z) : option Z := if z <=? u128_max then Some z else None.

(** [total_gas_price_wei] and [fee_proxy_wei]. *)
Fixpoint fee_totals (txs : list Transaction) (price proxy : Z) : option (Z * Z) :=
  match txs with
  | [] => Some (price, proxy)
  | Normal p :: txs =>
      g ← as_u128 (gas_price_of p);
      fee_totals txs (sat_add u128_max price g)
        (sat_add u128_max proxy (sat_mul u128_max g (u_gas_limit (p_tx p))))
  | Forced _ :: txs => fee_totals txs price proxy
  end.

Definition batch_fee (txs : list Transaction) : Z :=
  foldl (λ acc tx, match tx with Normal p => sat_add u256_max acc (gas_price_of p) | Forced _ => acc end)
    0 txs.

Definition fee_of (tx : Transaction) : Z :=
  match tx with Normal p => gas_price_of p | Forced _ => 0 end.

(** [actual_fee] and [optimal_fee]; the ratio of the two is taken in [u128]. *)
Definition mev_metrics (ordered : list Transaction) : option (Z * Z) :=
  let sorted_by_fee := sort_by (λ a b, fee_of b <=? fee_of a) ordered in
  let actual_fee := batch_fee ordered in
  let optimal_fee := batch_fee sorted_by_fee in
  if optimal_fee =? 0 then Some (actual_fee, optimal_fee)
  else _ ← as_u128 actual_fee; _ ← as_u128 optimal_fee; Some (actual_fee, optimal_fee).

Definition wait_time (now_ms : Z) (tx : Transaction) : Z := sat_sub now_ms (arrival_timestamp_ms tx).

(** The result of [produce_batch]: the batch and what its metrics are computed
    from. *)
Record ProducedBatch := mkProduced {
  pb_batch : Batch;
  pb_mempool_depth_at_batch : Z;
  pb_tx_arrival_time_ms : Z;
  pb_total_gas_limit : Z;
  pb_total_gas_price_wei : Z;
  pb_fee_proxy_wei : Z;
  pb_wait_times : list Z;
  pb_actual_fee : Z;
  pb_optimal_fee : Z;
}.

Definition minimum (l : list Z) : Z := match l with [] => 0 | x :: l => foldr Z.min x l end.

Section orchestrator.
Context `{HashIter (list PooledTransaction)} (cfg : BatchConfig) (policy : SchedulingPolicyType).

(** The transactions of the next batch: forced, normal, and the state with
    what was not taken or deferred back in its queue. *)
Definition take_transactions (s : Sequencer)
    : list ForcedTransaction * list PooledTransaction * Z * Sequencer :=
  let '(forced_txs, q) := get_all (forced_queue s) in
  let '(accepted_forced, deferred_forced) := gas_select cfg Forced [] forced_txs [] [] in
  let q := foldl (λ q tx, forced_add tx q) q deferred_forced in
  let normal_pool_depth := pool_pending_count (pool s) in
  let n_forced := Z.of_nat (length accepted_forced) in
  let max_normal_txs := sat_sub (target_batch_size_for_depth cfg normal_pool_depth) n_forced in
  let remaining_blob_bytes :=
    sat_sub (blob_target_bytes cfg) (sum64 (estimated_encoded_bytes <$> (Forced <$> accepted_forced))) in
  let '(normal_txs, p) :=
    if bool_decide (policy_name policy = "BlobPacking")
    then let '((sel, _), p) := take_blob_packed max_normal_txs remaining_blob_bytes (pool s) in (sel, p)
    else get_pending max_normal_txs (pool s) in
  let '(accepted_normal, deferred_normal) :=
    gas_select cfg Normal (Forced <$> accepted_forced) normal_txs [] [] in
  let p := foldl (λ p tx, pool_add tx p) p deferred_normal in
  (accepted_forced, accepted_normal, sat_add u64_max normal_pool_depth n_forced,
   mkSequencer q p (next_batch_id s)).

(** [produce_batch] at time [now_ms]. *)
Definition produce_batch (now_ms : Z) (s : Sequencer)
    : result string (option ProducedBatch) * Sequencer :=
  let '(forced_inner, normal_inner, depth, s) := take_transactions s in
  if bool_decide (forced_inner = []) && bool_decide (normal_inner = []) then (Ok None, s) else
  match schedule policy forced_inner normal_inner with
  | None => (Panicked, s)
  | Some ordered_txs =>
      match fee_totals ordered_txs 0 0 with
      | None => (Panicked, s)
      | Some (price, proxy) =>
          match mev_metrics ordered_txs with
          | None => (Panicked, s)
          | Some (actual, optimal) =>
              let '(batch, next) := create_batch ordered_txs (now_ms / 1000) (next_batch_id s) in
              (Ok (Some (mkProduced batch depth (minimum (arrival_timestamp_ms <$> ordered_txs))
                           (sum64 (gas_limit <$> ordered_txs)) price proxy
                           (wait_time now_ms <$> ordered_txs) actual optimal)),
               mkSequencer (forced_queue s) (pool s) next)
          end
      end
  end.

(** ** The loop *)

(** An answer of the executor to one publication, or a timeout. *)
Inductive publish_outcome := Responded (is_accepted : bool) | ConnectionError | TimedOut.

(** [publish_batch_to_executor]: the outcome of attempt [k] is [once k]. *)
Fixpoint publish_batch_to_executor (attempts : nat) (attempt : nat)
    (once : nat → publish_outcome) : result string bool :=
  match attempts with
  | O => Err "failed to publish batch to executor"
  | S attempts =>
      match once attempt with
      | Responded b => Ok b
      | ConnectionError | TimedOut => publish_batch_to_executor attempts (S attempt) once
      end
  end.

Record Orchestrator := mkOrchestrator {
  o_seq : Sequencer;
  o_registry : gmap Z BatchMetadata;
  (** the batches handed to [publish_batch_to_executor], and whether it answered *)
  o_published : list (Batch * result string bool);
  o_last_batch_ms : Z;
}.

(** What the environment supplies to one turn. *)
Record TurnEnv := mkTurn {
  t_now_ms : Z;
  t_da_mode : string;
  t_store_fails : bool;
  t_attempts : nat;
  t_once : nat → publish_outcome;
}.

Definition is_forced (tx : Transaction) : bool := match tx with Forced _ => true | Normal _ => false end.

Definition metadata_of (b : Batch) : BatchMetadata :=
  mkMetadata (batch_id b) (Z.of_nat (length (transactions b)))
    (Z.of_nat (length (filter (λ tx, is_forced tx = true) (transactions b))))
    (b_timestamp b) (policy_name policy).

(** One turn of the loop of [start]: the batch it sealed, if any. *)
Definition iteration (env : TurnEnv) (o : Orchestrator) : result string (option Batch) * Orchestrator :=
  let s := o_seq o in
  match should_seal cfg (t_da_mode env) (t_now_ms env - o_last_batch_ms o) (forced_queue s) (pool s) with
  | None => (Ok None, o)
  | Some _ =>
      match produce_batch (t_now_ms env) s with
      | (Ok (Some produced), s) =>
          let batch := pb_batch produced in
          let registry :=
            if t_store_fails env then o_registry o
            else default (o_registry o) (registry_store (metadata_of batch) (o_registry o)) in
          let '(_, q) := get_all (forced_queue s) in
          (Ok (Some batch),
           mkOrchestrator (mkSequencer q (pool s) (next_batch_id s)) registry
             (o_published o ++ [(batch, publish_batch_to_executor (t_attempts env) 1 (t_once env))])
             (t_now_ms env))
      | (Ok None, s) => (Ok None, mkOrchestrator s (o_registry o) (o_published o) (o_last_batch_ms o))
      | (Err e, s) => (Ok None, mkOrchestrator s (o_registry o) (o_published o) (o_last_batch_ms o))
      | (Panicked, s) => (Panicked, mkOrchestrator s (o_registry o) (o_published o) (o_last_batch_ms o))
      end
  end.

End orchestrator.

(** ** Selection by gas *)

Definition gas_of (txs : list Transaction) : Z := sumZ (gas_limit <$> txs).

Lemma gas_of_app l l' : gas_of (l ++ l') = gas_of l + gas_of l'.
Proof. unfold gas_of. by rewrite fmap_app, sumZ_app. Qed.

Lemma gas_of_perm l l' : l ≡ₚ l' → gas_of l = gas_of l'.
Proof. intros E. apply sumZ_perm. by rewrite E. Qed.

Definition has_gas (tx : Transaction) : Prop := 0 ≤ gas_limit tx.

Lemma gas_of_nonneg l : Forall has_gas l → 0 ≤ gas_of l.
Proof. intros Hl. apply sumZ_nonneg. by rewrite Forall_fmap. Qed.

Lemma gas_of_exact l : Forall has_gas l → gas_of l ≤ u64_max → sum64 (gas_limit <$> l) = gas_of l.
Proof. intros Hl Hs. apply sum64_exact; [by rewrite Forall_fmap|done]. Qed.

(** Below the width of a [u64], [can_add_transaction] compares the real sums. *)
Lemma can_add_transaction_spec cfg txs tx :
  max_gas_limit cfg < u64_max → Forall has_gas txs → gas_of txs ≤ max_gas_limit cfg →
  can_add_transaction cfg txs tx = (gas_of txs + gas_limit tx <=? max_gas_limit cfg).
Proof.
  intros Hm Hl Hs. unfold can_add_transaction. rewrite gas_of_exact by (done || lia).
  unfold sat_add. apply Bool.eq_iff_eq_true. rewrite !Z.leb_le. lia.
Qed.

Section gas_select.
Context {A : Type} (cfg : BatchConfig) (wrap : A → Transaction) (base : list Transaction).
Hypothesis max_fits : max_gas_limit cfg < u64_max.
Hypothesis base_gas : Forall has_gas base.

(** The loop splits its input in order; what it accepts fits, and each item it
    defers would not have fitted. *)
Lemma gas_select_spec txs accepted deferred :
  Forall (λ x, has_gas (wrap x)) (accepted ++ txs) →
  gas_of (base ++ (wrap <$> accepted)) ≤ max_gas_limit cfg →
  ∃ a d, gas_select cfg wrap base txs accepted deferred = (accepted ++ a, deferred ++ d) ∧
    a ++ d ≡ₚ txs ∧ a `sublist_of` txs ∧ d `sublist_of` txs ∧
    gas_of (base ++ (wrap <$> (accepted ++ a))) ≤ max_gas_limit cfg ∧
    Forall (λ x, max_gas_limit cfg < gas_of (base ++ (wrap <$> (accepted ++ a))) + gas_limit (wrap x)) d.
Proof.
  revert accepted deferred. induction txs as [|tx txs IH]; intros accepted deferred Hg Hb; cbn [gas_select].
  { exists [], []. rewrite !app_nil_r. by repeat split. }
  assert (Hacc : Forall has_gas (base ++ (wrap <$> accepted))).
  { apply Forall_app_2; [done|]. rewrite Forall_fmap. by apply Forall_app in Hg as [? _]. }
  rewrite can_add_transaction_spec by done.
  destruct (Z.leb_spec (gas_of (base ++ (wrap <$> accepted)) + gas_limit (wrap tx)) (max_gas_limit cfg)).
  - destruct (IH (accepted ++ [tx]) deferred) as (a & d & -> & Hp & Ha & Hd & Hs & Hf).
    { by rewrite <- (assoc_L (++)). }
    { rewrite fmap_app, (assoc_L (++)), gas_of_app. unfold gas_of at 2. cbn. lia. }
    exists (tx :: a), d. rewrite <- !(assoc_L (++)) in *. cbn in *. split_and!; try done.
    + by constructor.
    + by constructor.
    + by constructor.
  - destruct (IH accepted (deferred ++ [tx])) as (a & d & -> & Hp & Ha & Hd & Hs & Hf); [|done|].
    { apply Forall_app in Hg as [? Hg]. inversion Hg. by apply Forall_app_2. }
    exists a, (tx :: d). rewrite <- !(assoc_L (++)). cbn. split_and!; try done.
    + by rewrite <- Permutation_middle, Hp.
    + by constructor.
    + by constructor.
    + constructor; [|done]. rewrite fmap_app, (assoc_L (++)), gas_of_app.
      assert (0 ≤ gas_of (wrap <$> a)); [|lia]. apply gas_of_nonneg. rewrite Forall_fmap.
      apply Forall_app in Hg as [_ Hg]. inversion Hg; subst.
      by eapply Forall_sublist_of.
Qed.
End gas_select.

(** ** A batch *)

(** Sizes and gas limits of the configuration are below the width of their type. *)
Record wf_config (cfg : BatchConfig) : Prop := {
  wf_gas : 0 ≤ max_gas_limit cfg < u64_max;
  wf_blob : 0 ≤ blob_target_bytes cfg < u64_max;
}.

Record wf_sequencer (s : Sequencer) : Prop := {
  wf_forced_gas : Forall (λ f, has_gas (Forced f)) (forced_queue s);
  wf_normal_gas : Forall (λ p, has_gas (Normal p)) (pool_txs (pool s));
  wf_prices : Forall (λ p, 0 ≤ gas_price_of p) (pool_txs (pool s));
}.

Lemma foldl_forced_add q l : foldl (λ q tx, forced_add tx q) q l = q ++ l.
Proof.
  revert q. induction l as [|x l IH]; intros q; cbn; [by rewrite app_nil_r|].
  rewrite IH. unfold forced_add. by rewrite <- (assoc_L (++)).
Qed.

Lemma foldl_pool_add p l : pool_txs (foldl (λ p tx, pool_add tx p) p l) = pool_txs p ++ l.
Proof.
  revert p. induction l as [|x l IH]; intros p; cbn; [by rewrite app_nil_r|].
  rewrite IH. cbn. by rewrite <- (assoc_L (++)).
Qed.

Lemma get_pending_spec max p :
  let '(l, p') := get_pending max p in
  l ++ pool_txs p' = pool_txs p ∧ Z.of_nat (length l) ≤ Z.max 0 max.
Proof.
  unfold get_pending. cbn. split; [apply take_drop|]. rewrite length_take. lia.
Qed.

Section produce.
Context `{HashIterLaws (list PooledTransaction)} (cfg : BatchConfig) (policy : SchedulingPolicyType).
Hypothesis Hcfg : wf_config cfg.

(** Taking normal transactions, by either route, splits the pool. *)
Lemma take_normal_splits max bytes p :
  0 ≤ bytes < u64_max →
  let '(l, p') :=
    if bool_decide (policy_name policy = "BlobPacking")
    then let '((sel, _), p) := take_blob_packed max bytes p in (sel, p)
    else get_pending max p in
  l ++ pool_txs p' ≡ₚ pool_txs p ∧ Z.of_nat (length l) ≤ Z.max 0 max.
Proof.
  intros Hb. case_bool_decide.
  - pose proof (take_blob_packed_spec p max bytes Hb) as Ht.
    destruct (take_blob_packed _ _ _) as [[sel used] p'].
    destruct Ht as ((keep & -> & ->) & ? & _). split; [apply pick_complement|done].
  - pose proof (get_pending_spec max p) as Hg. destruct (get_pending _ _) as [l p'].
    destruct Hg as [<- ?]. done.
Qed.

Lemma take_transactions_spec s :
  wf_sequencer s →
  let '(fs, ns, _, s') := take_transactions cfg policy s in
  fs `sublist_of` forced_queue s ∧ fs ++ forced_queue s' ≡ₚ forced_queue s ∧
  ns ++ pool_txs (pool s') ≡ₚ pool_txs (pool s) ∧ next_batch_id s' = next_batch_id s ∧
  gas_of ((Forced <$> fs) ++ (Normal <$> ns)) ≤ max_gas_limit cfg ∧
  Z.of_nat (length ns) ≤ sat_sub (target_batch_size_for_depth cfg (pool_pending_count (pool s)))
                            (Z.of_nat (length fs)) ∧
  Forall (λ f, max_gas_limit cfg < gas_of (Forced <$> fs) + f_gas_limit f) (forced_queue s').
Proof.
  intros [Hf Hn _]. destruct Hcfg as [Hg Hb]. unfold take_transactions. cbn [get_all].
  destruct (gas_select_spec cfg Forced [] ltac:(lia) (Forall_nil_2 _) (forced_queue s) [] [])
    as (fs & df & -> & Hp & Hs & _ & Hgf & Hdf); [done|cbn; unfold gas_of; cbn; lia|]. cbn [app] in *.
  rewrite foldl_forced_add. cbn [app].
  set (max := sat_sub _ (Z.of_nat (length fs))). set (bytes := sat_sub _ _).
  pose proof (take_normal_splits max bytes (pool s)) as Ht.
  destruct (if bool_decide _ then _ else _) as [normal p'].
  destruct Ht as [Hperm Hlen].
  { pose proof (sum64_nonneg (estimated_encoded_bytes <$> (Forced <$> fs))).
    unfold bytes, sat_sub. lia. }
  assert (Hfs : Forall has_gas (Forced <$> fs)).
  { rewrite Forall_fmap. eapply Forall_sublist_of; [done|exact Hf]. }
  destruct (gas_select_spec cfg Normal (Forced <$> fs) ltac:(lia) Hfs normal [] [])
    as (ns & dn & -> & Hpn & Hsn & _ & Hgn & _); [|by rewrite app_nil_r|].
  { cbn. rewrite <- Hperm in Hn. by apply Forall_app in Hn as [? _]. }
  cbn [app forced_queue pool next_batch_id] in *. rewrite foldl_pool_add. split_and!; try done.
  - rewrite <- Hperm, <- Hpn, <- !(assoc_L (++)). f_equiv. apply Permutation_app_comm.
  - apply sublist_length in Hsn. unfold max, sat_sub in *. lia.
Qed.

(** The sum of the gas prices of normal transactions. *)
Definition prices (l : list PooledTransaction) : Z := sumZ ((λ p, gas_price_of p) <$> l).

Lemma prices_app l l' : prices (l ++ l') = prices l + prices l'.
Proof. unfold prices. by rewrite fmap_app, sumZ_app. Qed.

Lemma prices_perm l l' : l ≡ₚ l' → prices l = prices l'.
Proof. intros E. apply sumZ_perm. by rewrite E. Qed.

Lemma prices_nonneg l : Forall (λ p, 0 ≤ gas_price_of p) l → 0 ≤ prices l.
Proof. intros Hl. apply sumZ_nonneg. by rewrite Forall_fmap. Qed.

Lemma as_u128_Some z : z ≤ u128_max → as_u128 z = Some z.
Proof. intros Hz. unfold as_u128. by rewrite (proj2 (Z.leb_le _ _) Hz). Qed.

Lemma as_u128_None z : u128_max < z → as_u128 z = None.
Proof. intros Hz. unfold as_u128. by rewrite (proj2 (Z.leb_gt _ _) Hz). Qed.

Lemma fee_totals_forced fs txs a b : fee_totals ((Forced <$> fs) ++ txs) a b = fee_totals txs a b.
Proof. by induction fs. Qed.

Lemma fee_totals_normal ns a b :
  Forall (λ p, gas_price_of p ≤ u128_max) ns → is_Some (fee_totals (Normal <$> ns) a b).
Proof.
  intros Hn. revert a b. induction Hn as [|p ns Hp _ IH]; intros a b; cbn; [by eauto|].
  rewrite as_u128_Some by done. apply IH.
Qed.

(** [batch_fee] is at most the real sum. *)
Lemma batch_fee_le txs :
  Forall (λ t, 0 ≤ fee_of t) txs → 0 ≤ batch_fee txs ≤ sumZ (fee_of <$> txs).
Proof.
  unfold batch_fee. induction txs as [|t txs IH] using rev_ind; intros Ht; [cbn; lia|].
  apply Forall_app in Ht as [Ht Hx]. rewrite Forall_singleton in Hx. specialize (IH Ht).
  rewrite foldl_snoc, fmap_app, sumZ_app. unfold sumZ at 2.
  match goal with |- context [foldl ?f 0 txs] => set (F := foldl f 0 txs) in * end. clearbody F.
  destruct t; cbn in *; unfold sat_add, u256_max; lia.
Qed.

Lemma fee_of_sum fs ns : sumZ (fee_of <$> (Forced <$> fs) ++ (Normal <$> ns)) = prices ns.
Proof.
  unfold prices. rewrite fmap_app, sumZ_app, <- !list_fmap_compose.
  replace (sumZ (fee_of ∘ Forced <$> fs)) with 0; [done|].
  induction fs as [|f fs IH]; unfold sumZ in *; cbn in *; [done|lia].
Qed.

Lemma mev_metrics_Some fs ns :
  Forall (λ p, 0 ≤ gas_price_of p) ns → prices ns ≤ u128_max →
  is_Some (mev_metrics ((Forced <$> fs) ++ (Normal <$> ns))).
Proof.
  intros Hn Hp. unfold mev_metrics. set (l := _ ++ _).
  assert (Hl : Forall (λ t, 0 ≤ fee_of t) l).
  { unfold l. rewrite Forall_app, !Forall_fmap. split; [by apply Forall_true|done]. }
  pose proof (batch_fee_le l Hl). pose proof (fee_of_sum fs ns) as Es. fold l in Es.
  pose proof (batch_fee_le (sort_by (λ a b, fee_of b <=? fee_of a) l) ltac:(by rewrite sort_by_perm)) as Hsort.
  rewrite (sumZ_perm (fee_of <$> sort_by _ l) (fee_of <$> l)) in Hsort by by rewrite sort_by_perm.
  case_match; [by eauto|]. rewrite !as_u128_Some by lia. cbn. by eauto.
Qed.

(** The outcome of [produce_batch]: what it took, or nothing. *)
Definition produced (s : Sequencer) (r : option ProducedBatch) (s' : Sequencer)
    (fs : list ForcedTransaction) (ns : list PooledTransaction) : Prop :=
  match r with
  | None => fs = [] ∧ ns = [] ∧ next_batch_id s' = next_batch_id s
  | Some pb =>
      (fs ≠ [] ∨ ns ≠ []) ∧
      transactions (pb_batch pb) = (Forced <$> fs) ++ (Normal <$> ns) ∧
      batch_id (pb_batch pb) = next_batch_id s ∧ next_batch_id s' = wrap64 (next_batch_id s + 1) ∧
      pb_total_gas_limit pb = gas_of (transactions (pb_batch pb)) ∧
      gas_of (transactions (pb_batch pb)) ≤ max_gas_limit cfg
  end.

Lemma produce_batch_spec now_ms s :
  wf_sequencer s → policy ≠ TimeBoost 0 → prices (pool_txs (pool s)) ≤ u128_max →
  ∃ r s' fs ns, produce_batch cfg policy now_ms s = (Ok r, s') ∧ produced s r s' fs ns ∧
    fs `sublist_of` forced_queue s ∧ fs ++ forced_queue s' ≡ₚ forced_queue s ∧
    ns ++ pool_txs (pool s') ≡ₚ pool_txs (pool s) ∧
    Z.of_nat (length ns) ≤ sat_sub (target_batch_size_for_depth cfg (pool_pending_count (pool s)))
                              (Z.of_nat (length fs)) ∧
    Forall (λ f, max_gas_limit cfg < gas_of (Forced <$> fs) + f_gas_limit f) (forced_queue s').
Proof.
  intros Hs Hpol Hpr. pose proof (take_transactions_spec s Hs) as Ht. unfold produce_batch.
  destruct (take_transactions cfg policy s) as [[[fs ns] depth] s1].
  destruct Ht as (Hsub & Hf & Hn & Hid & Hgas & Hlen & Hdef).
  destruct (bool_decide (fs = []) && bool_decide (ns = [])) eqn:E.
  { apply andb_true_iff in E as [->%bool_decide_eq_true ->%bool_decide_eq_true].
    exists None, s1, [], []. split_and!; try done. }
  destruct (order_transactions_perm policy ns Hpol) as (out & Eo & Hout).
  unfold schedule. rewrite Eo. cbn.
  destruct Hs as [Hfg Hng Hp0]. rewrite <- Hn, <- Hout, Forall_app in Hp0. destruct Hp0 as [Hp0 Hp1].
  rewrite <- (prices_perm _ _ Hn), prices_app, <- (prices_perm _ _ Hout) in Hpr.
  pose proof (prices_nonneg _ Hp1).
  rewrite fee_totals_forced.
  destruct (fee_totals_normal out 0 0) as [[price proxy] ->].
  { rewrite Forall_forall in *. intros p Hp. apply elem_of_Permutation in Hp as [rest Hr].
    rewrite (prices_perm _ _ Hr) in Hpr. cbn in Hpr.
    assert (0 ≤ prices rest); [|unfold prices in *; cbn in *; unfold sumZ in *; lia].
    apply prices_nonneg, Forall_forall. intros q Hq. apply Hp0. rewrite Hr. by right. }
  destruct (mev_metrics_Some fs out) as [[actual optimal] ->]; [done|lia|]. cbn.
  assert (Hgo : gas_of ((Forced <$> fs) ++ (Normal <$> out)) = gas_of ((Forced <$> fs) ++ (Normal <$> ns))).
  { apply gas_of_perm. by rewrite Hout. }
  eexists (Some _), _, fs, out. split; [reflexivity|].
  split; [split_and!; try done|rewrite (Permutation_length Hout); split_and!; try done; by rewrite Hout].
  - apply andb_false_iff in E as [E%bool_decide_eq_false|E%bool_decide_eq_false]; [by left|right].
    intros ->. by apply Permutation_nil_l in Hout.
  - cbn. by rewrite Hid.
  - cbn. apply gas_of_exact; [|rewrite Hgo; destruct Hcfg; lia].
    apply Forall_app_2; rewrite Forall_fmap.
    + by eapply Forall_sublist_of.
    + rewrite <- Hn, <- Hout, Forall_app in Hng. apply Hng.
  - by rewrite <- Hgo in Hgas.
Qed.

(** C11: [produce_batch] loses and invents nothing: forced and pooled transactions
    before are those of the batch and those left after.  Forced transactions
    come first, in queue order, and as many as the gas limit allows; they are not
    limited in number, and the pooled transactions after them are at most what
    they leave of the target size.  The batch respects the gas limit.  For all
    this the gas limit of the configuration is below [u64::MAX], the policy is not
    a time boost with a window of 0, which panics, and the prices in the pool add
    up to at most [u128::MAX]; then there is no panic. *)
Theorem produce_batch_correct now_ms s :
  wf_sequencer s → policy ≠ TimeBoost 0 → prices (pool_txs (pool s)) ≤ u128_max →
  ∃ r s' fs ns, produce_batch cfg policy now_ms s = (Ok r, s') ∧ produced s r s' fs ns ∧
    fs `sublist_of` forced_queue s ∧ fs ++ forced_queue s' ≡ₚ forced_queue s ∧
    ns ++ pool_txs (pool s') ≡ₚ pool_txs (pool s) ∧
    Z.of_nat (length ns) ≤ sat_sub (target_batch_size_for_depth cfg (pool_pending_count (pool s)))
                              (Z.of_nat (length fs)) ∧
    Forall (λ f, max_gas_limit cfg < gas_of (Forced <$> fs) + f_gas_limit f) (forced_queue s').
Proof. apply produce_batch_spec. Qed.

(** The target size does not limit forced transactions: whatever it is, the
    whole queue goes into one batch when its gas fits. *)
Theorem forced_ignore_target now_ms s :
  wf_sequencer s → policy ≠ TimeBoost 0 → prices (pool_txs (pool s)) ≤ u128_max →
  forced_queue s ≠ [] → gas_of (Forced <$> forced_queue s) ≤ max_gas_limit cfg →
  ∃ pb s', produce_batch cfg policy now_ms s = (Ok (Some pb), s') ∧
    (length (forced_queue s) ≤ length (transactions (pb_batch pb)))%nat.
Proof.
  intros Hs Hpol Hpr Hq Hgas.
  destruct (produce_batch_spec now_ms s Hs Hpol Hpr) as (r & s' & fs & ns & E & Hprod & Hsub & Hf & _ & _ & Hdef).
  assert (Hall : length fs = length (forced_queue s)).
  { rewrite <- Hf, length_app. destruct (forced_queue s') as [|f q] eqn:Eq; [cbn; lia|exfalso].
    inversion Hdef as [|?? Hgt _]; subst. pose proof (wf_forced_gas s Hs) as Hg.
    rewrite <- (gas_of_perm _ _ (fmap_Permutation Forced _ _ Hf)) in Hgas. rewrite <- Hf in Hg. apply Forall_app in Hg as [_ Hg]. inversion Hg as [|?? _ Hg']; subst.
    rewrite fmap_app, gas_of_app in Hgas.
    assert (Hq' : 0 ≤ gas_of (Forced <$> q)) by (apply gas_of_nonneg; by rewrite Forall_fmap).
    change (gas_of (Forced <$> f :: q)) with (f_gas_limit f + gas_of (Forced <$> q)) in Hgas. lia. }
  destruct r as [pb|].
  - destruct Hprod as (_ & Et & _). exists pb, s'. split; [done|].
    rewrite Et, length_app, !length_fmap. lia.
  - destruct Hprod as (-> & _). destruct (forced_queue s); [done|cbn in Hall; lia].
Qed.

(** ** One turn of the loop *)

(** The trigger waits only while nothing forced is pending, the pool is below
    the target and, in blob mode, below the fill level, and the timeout has not
    passed or the pool is empty. *)
Lemma should_seal_None da_mode elapsed q p :
  should_seal cfg da_mode elapsed q p = None ↔
  q = [] ∧ pool_pending_count p < target_batch_size_for_depth cfg (pool_pending_count p) ∧
  (eq_ignore_ascii_case da_mode "blob" = true → target_fill_bytes cfg ≤ pool_total_bytes p →
    pool_total_bytes p = 0) ∧
  (elapsed < timeout_for_depth cfg (pool_pending_count p) ∨
    pool_txs p = [] ∧ 0 < min_batch_size cfg).
Proof.
  unfold should_seal, forced_pending_count, pool_pending_count.
  pose proof (sum64_nonneg (pooled_bytes <$> pool_txs p)) as Hs.
  fold (pool_total_bytes p) in Hs.
  destruct (Z.ltb_spec 0 (Z.of_nat (length q))).
  { split; [done|]. intros (-> & _). cbn in *. lia. }
  assert (q = []) as -> by (destruct q; [done|cbn in *; lia]).
  destruct (Z.leb_spec (target_batch_size_for_depth cfg (Z.of_nat (length (pool_txs p))))
    (Z.of_nat (length (pool_txs p)))); [naive_solver lia|].
  destruct (eq_ignore_ascii_case da_mode "blob"); cbn;
    repeat match goal with |- context [?a <=? ?b] => destruct (Z.leb_spec a b); cbn end;
    repeat match goal with |- context [?a <? ?b] => destruct (Z.ltb_spec a b); cbn end;
    destruct (pool_txs p) eqn:Ep; cbn in *; naive_solver lia.
Qed.

(** A batch that is sealed empties the forced queue: the forced transactions
    that did not fit, and were put back for the next batch, are in no batch
    and no longer pending. *)
Theorem sealing_drops_deferred env o b o' :
  wf_sequencer (o_seq o) → policy ≠ TimeBoost 0 → prices (pool_txs (pool (o_seq o))) ≤ u128_max →
  iteration cfg policy env o = (Ok (Some b), o') →
  ∃ fs dropped, forced_queue (o_seq o) ≡ₚ fs ++ dropped ∧
    filter (λ t, is_forced t = true) (transactions b) = Forced <$> fs ∧
    Forall (λ f, max_gas_limit cfg < gas_of (Forced <$> fs) + f_gas_limit f) dropped ∧
    forced_queue (o_seq o') = [].
Proof.
  intros Hs Hpol Hpr. unfold iteration. case_match; [|done].
  destruct (produce_batch_spec (t_now_ms env) (o_seq o) Hs Hpol Hpr)
    as (r & s' & fs & ns & -> & Hprod & Hsub & Hf & _ & _ & Hdef).
  destruct r as [pb|]; [|done]. cbn. intros [= <- <-].
  destruct Hprod as (_ & -> & _). exists fs, (forced_queue s'). split_and!; try done.
  rewrite filter_app, filter_all, filter_none, app_nil_r; [done|..].
  - by intros ? (? & -> & _)%list_elem_of_fmap.
  - by intros ? (? & -> & _)%list_elem_of_fmap.
Qed.

Lemma take_transactions_head t rest s :
  wf_sequencer s → policy_name policy ≠ "BlobPacking" → forced_queue s = [] →
  pool_txs (pool s) = t :: rest → u_gas_limit (p_tx t) ≤ max_gas_limit cfg →
  1 ≤ target_batch_size_for_depth cfg (pool_pending_count (pool s)) →
  ∃ ns d s', take_transactions cfg policy s = ([], t :: ns, d, s').
Proof.
  intros Hs Hpol Hq Hp Hgas Htar. unfold take_transactions. rewrite Hq. cbn [get_all gas_select foldl].
  rewrite bool_decide_false by done. unfold get_pending. set (n := Z.to_nat _).
  assert (Hn : take n (pool_txs (pool s)) = t :: take (n - 1) rest).
  { assert (Hn : (1 ≤ n)%nat).
    { unfold n, sat_sub. rewrite Hp. cbn [length]. lia. }
    rewrite Hp. destruct n as [|m]; [lia|]. cbn. by rewrite Nat.sub_0_r. }
  rewrite Hn. cbn [gas_select app fmap list_fmap].
  assert (Hadd : can_add_transaction cfg [] (Normal t) = true).
  { rewrite can_add_transaction_spec; [|destruct Hcfg; lia|done|destruct Hcfg; unfold gas_of; cbn; lia].
    apply Z.leb_le. unfold gas_of. cbn. lia. }
  rewrite Hadd.
  destruct (gas_select_spec cfg Normal [] ltac:(destruct Hcfg; lia) (Forall_nil_2 _)
    (take (n - 1) rest) [t] []) as (a & d & -> & _).
  - destruct Hs as [_ Hs _]. rewrite Hp in Hs. inversion Hs; subst. constructor; [done|].
    by apply Forall_take.
  - unfold gas_of. cbn. lia.
  - by do 3 eexists.
Qed.

(** C27: A transaction at the front of the pool whose gas fits in a batch is
    sealed at the first turn after the timeout.  This is so when no forced
    transaction is waiting, the target size is at least one, the prices in the
    pool add up to at most [u128::MAX], and the policy neither packs blobs nor is
    a time boost with a window of 0. *)
Theorem front_sealed_at_timeout env o t rest :
  wf_sequencer (o_seq o) → policy ≠ TimeBoost 0 → policy ≠ BlobPacking →
  prices (pool_txs (pool (o_seq o))) ≤ u128_max →
  forced_queue (o_seq o) = [] → pool_txs (pool (o_seq o)) = t :: rest →
  u_gas_limit (p_tx t) ≤ max_gas_limit cfg →
  1 ≤ target_batch_size_for_depth cfg (pool_pending_count (pool (o_seq o))) →
  timeout_for_depth cfg (pool_pending_count (pool (o_seq o))) ≤ t_now_ms env - o_last_batch_ms o →
  ∃ b o', iteration cfg policy env o = (Ok (Some b), o') ∧ Normal t ∈ transactions b.
Proof.
  intros Hs Hw Hb Hpr Hq Hp Hgas Htar Hel. unfold iteration.
  destruct (should_seal _ _ _ _ _) eqn:Eseal.
  2: { apply should_seal_None in Eseal as (_ & _ & _ & [?|[E _]]); [lia|congruence]. }
  pose proof (produce_batch_spec (t_now_ms env) (o_seq o) Hs Hw Hpr) as Hpb.
  destruct (take_transactions_head t rest (o_seq o)) as (ns & d & s' & Et); try done.
  { by destruct policy. }
  destruct Hpb as (r & s1 & fs & out & Er & _). rewrite Er.
  unfold produce_batch in Er. rewrite Et in Er. cbn [bool_decide andb] in Er.
  destruct (order_transactions_perm policy (t :: ns) Hw) as (l & El & Hl).
  unfold schedule in Er. rewrite El in Er.
  rewrite (bool_decide_false (t :: ns = [])) in Er by done. rewrite andb_false_r in Er. cbn in Er.
  destruct (fee_totals _ _ _) as [[price proxy]|]; [|done].
  destruct (mev_metrics _) as [[actual optimal]|]; [|done]. injection Er as <- <-.
  cbn. do 2 eexists. split; [reflexivity|]. cbn.
  apply list_elem_of_fmap_2. rewrite Hl. by left.
Qed.

Lemma fee_totals_panics txs a b p :
  Normal p ∈ txs → u128_max < gas_price_of p → fee_totals txs a b = None.
Proof.
  intros Hin Hp. revert a b. induction txs as [|t txs IH]; intros a b; [by apply elem_of_nil in Hin|].
  apply elem_of_cons in Hin as [<-|Hin]; cbn.
  - by rewrite as_u128_None.
  - destruct t; [|by apply IH]. destruct (as_u128 _); [by apply IH|done].
Qed.

(** A gas price above [u128] at the front of the pool panics the orchestrator
    at the first turn after the timeout. *)
Lemma front_price_panics env o t rest :
  wf_sequencer (o_seq o) → policy ≠ TimeBoost 0 → policy ≠ BlobPacking →
  forced_queue (o_seq o) = [] → pool_txs (pool (o_seq o)) = t :: rest →
  u_gas_limit (p_tx t) ≤ max_gas_limit cfg → u128_max < gas_price_of t →
  1 ≤ target_batch_size_for_depth cfg (pool_pending_count (pool (o_seq o))) →
  timeout_for_depth cfg (pool_pending_count (pool (o_seq o))) ≤ t_now_ms env - o_last_batch_ms o →
  (iteration cfg policy env o).1 = Panicked.
Proof.
  intros Hs Hw Hb Hq Hp Hgas Hprice Htar Hel. unfold iteration.
  destruct (should_seal _ _ _ _ _) eqn:Eseal.
  2: { apply should_seal_None in Eseal as (_ & _ & _ & [?|[E _]]); [lia|congruence]. }
  destruct (take_transactions_head t rest (o_seq o)) as (ns & d & s' & Et); try done.
  { by destruct policy. }
  unfold produce_batch. rewrite Et.
  rewrite (bool_decide_false (t :: ns = [])), andb_false_r by done. unfold schedule.
  destruct (order_transactions_perm policy (t :: ns) Hw) as (l & -> & Hl). cbn.
  rewrite (fee_totals_panics _ 0 0 t); [done|..|done].
  apply list_elem_of_fmap_2. rewrite Hl. by left.
Qed.

(** When nothing is left in the pool, the whole pool was taken in order. *)
Lemma take_transactions_all s fs ns d s' :
  wf_sequencer s → policy_name policy ≠ "BlobPacking" → forced_queue s = [] →
  take_transactions cfg policy s = (fs, ns, d, s') → pool_txs (pool s') = [] →
  fs = [] ∧ ns = pool_txs (pool s).
Proof.
  intros Hs Hpol Hq E Hleft. pose proof (take_transactions_spec s Hs) as Ht. rewrite E in Ht.
  destruct Ht as (Hsub & _ & Hperm & _). rewrite Hq in Hsub. apply sublist_nil_r in Hsub as ->.
  split; [done|]. rewrite Hleft, app_nil_r in Hperm.
  unfold take_transactions in E. rewrite Hq in E. cbn [get_all gas_select foldl] in E.
  rewrite bool_decide_false in E by done. unfold get_pending in E.
  set (n := Z.to_nat _) in E.
  destruct (gas_select_spec cfg Normal [] ltac:(destruct Hcfg; lia) (Forall_nil_2 _)
    (take n (pool_txs (pool s))) [] []) as (a & dn & Eg & Hpa & Hsa & _).
  { cbn. apply Forall_take. apply Hs. }
  { destruct Hcfg. unfold gas_of. cbn. lia. }
  cbn [app fmap list_fmap] in E, Eg. rewrite Eg in E. injection E as <- <- <-.
  apply sublist_same_length; [|by rewrite <- (Permutation_length Hperm)].
  etrans; [exact Hsa|]. apply sublist_take.
Qed.
End produce.

Module BatchSamples.
Import SequencerSamples.
#[local] Existing Instance model_iter.

Definition sample_config : BatchConfig := default_config 10 1000 1 1000000.

Lemma sample_config_wf : wf_config sample_config.
Proof. split; split; vm_compute; done || discriminate. Qed.

(** One forced transaction and two pooled ones. *)
Definition sample_sequencer : Sequencer :=
  mkSequencer [mkForcedTx [] 3 4 10 0 21000 [] 0 Deposit 0]
    (mkPool [sample_pooled 1 0 7; sample_pooled 2 0 9] 2) 1.

Ltac sample_sequencer_wf :=
  split; repeat (apply Forall_cons_2 || apply Forall_nil_2); vm_compute; repeat split; done || discriminate.

Lemma produce_batch_witness :
  ∃ r s', @produce_batch (model_iter _) sample_config FeePriority 5000 sample_sequencer = (Ok r, s') ∧
    (length (forced_queue s') + length (pool_txs (pool s')) = 0)%nat.
Proof.
  destruct (@produce_batch_correct (model_iter _) (model_iter_laws _) sample_config FeePriority
    sample_config_wf 5000 sample_sequencer) as (r & s' & fs & ns & E & _).
  - sample_sequencer_wf.
  - discriminate.
  - vm_compute. discriminate.
  - exists r, s'. split; [exact E|]. revert E. vm_compute. by intros [= _ <-].
Defined.

Definition sample_turn : TurnEnv := mkTurn 5000 "calldata" false 1 (λ _, Responded true).

Definition sample_orchestrator : Orchestrator :=
  mkOrchestrator (mkSequencer [] (mkPool [sample_pooled 1 0 7] 1) 1) ∅ [] 1000.

Lemma front_sealed_witness :
  ∃ b o', @iteration (model_iter _) sample_config Fcfs sample_turn sample_orchestrator = (Ok (Some b), o') ∧
    Normal (sample_pooled 1 0 7) ∈ transactions b.
Proof.
  apply (@front_sealed_at_timeout (model_iter _) (model_iter_laws _) sample_config Fcfs
    sample_config_wf sample_turn sample_orchestrator (sample_pooled 1 0 7) []).
  - sample_sequencer_wf.
  - discriminate.
  - discriminate.
  - vm_compute. discriminate.
  - reflexivity.
  - reflexivity.
  - vm_compute. discriminate.
  - vm_compute. discriminate.
  - vm_compute. discriminate.
Defined.

End BatchSamples.
