(* ===== verification/ExecutorTypes.v ===== *)
(** * Executor: data ([executor/src/types.rs])

    Accounts and transactions of the executor, whose amounts are [u64], and the
    conversion of the transactions the sequencer sends. *)

From stdpp Require Import base gmap list strings.
From Stdlib Require Import ZArith Lia.
From S2P Require Import Prelude Rust SequencerTypes.

Notation Hash := bytes (only parsing).

Definition is_address (a : Z) : Prop := 0 ≤ a < 2 ^ 160.

Record Account := mkAccount {
  balance : Z;
  nonce : Z;
}.

#[export] Instance Account_eq_dec : EqDecision Account.
Proof. solve_decision. Defined.

(** [Account::default] *)
Definition no_account : Account := mkAccount 0 0.

Record ETransaction := mkETx {
  e_from : Z;
  e_to : Z;
  e_amount : Z;
  e_nonce : Z;
  e_signature : bytes;
  e_gas_price : Z;
  e_gas_limit : Z;
  e_timestamp : Z;
  e_boost_bid : Z;
}.

#[export] Instance ETransaction_eq_dec : EqDecision ETransaction.
Proof. solve_decision. Defined.

Record StateDiff := mkDiff {
  d_account : Z;
  d_old_balance : Z;
  d_new_balance : Z;
  d_old_nonce : Z;
  d_new_nonce : Z;
  d_merkle_proof : list bytes;
  d_witness_path : list (bytes * bool);
  d_leaf_encoding : string;
}.

#[export] Instance StateDiff_eq_dec : EqDecision StateDiff.
Proof. solve_decision. Defined.

Record AccountSnapshot := mkSnapshot {
  s_address : Z;
  s_balance : Z;
  s_nonce : Z;
}.

Record TxExecutionOutcome := mkOutcome {
  o_tx_hash : bytes;
  o_included : bool;
  o_rejection_reason : option string;
  o_sender_pre : AccountSnapshot;
  o_sender_post : AccountSnapshot;
  o_receiver_pre : AccountSnapshot;
  o_receiver_post : AccountSnapshot;
}.

Inductive ExecutorError :=
| InvalidPayload (message : string)
| StateError (message : string).

(** ** Transactions from the sequencer *)

(** [SequencerForcedTransaction] *)
Record SeqForced := mkSeqForced {
  sf_from : Z;
  sf_to : Z;
  sf_value : Z;
  sf_nonce : Z;
  sf_gas_limit : Z;
  sf_timestamp : Z;
}.

(** [SequencerTransaction]; its normal transactions have the fields of the
    sequencer's own. *)
Inductive SequencerTransaction :=
| SeqNormal (tx : UserTransaction)
| SeqForcedTx (tx : SeqForced).

Definition u256_to_u64_checked (value : Z) (label : string) : result ExecutorError Z :=
  if u64_max <? value then Err (InvalidPayload (label +:+ " exceeds u64")) else Ok value.

(** [U256::as_u64], which panics. *)
Definition as_u64 (value : Z) : result ExecutorError Z :=
  if u64_max <? value then Panicked else Ok value.

(** One transaction of [normalize_transactions]. *)
Definition normalize_one (tx : SequencerTransaction) : result ExecutorError ETransaction :=
  match tx with
  | SeqNormal n =>
      amount ← u256_to_u64_checked (u_value n) "value";
      gas_price ← u256_to_u64_checked (u_gas_price n) "gas_price";
      boost_bid ← match u_boost_bid n with Some v => as_u64 v | None => Ok 0 end;
      Ok (mkETx (u_from n) (u_to n) amount (u_nonce n) (u_signature n) gas_price (u_gas_limit n)
            (u_timestamp n) boost_bid)
  | SeqForcedTx f =>
      amount ← u256_to_u64_checked (sf_value f) "value";
      Ok (mkETx (sf_from f) (sf_to f) amount (sf_nonce f) [] 0 (sf_gas_limit f) (sf_timestamp f) 0)
  end.

Fixpoint normalize_transactions (input : list SequencerTransaction)
    : result ExecutorError (list ETransaction) :=
  match input with
  | [] => Ok []
  | tx :: input => t ← normalize_one tx; ts ← normalize_transactions input; Ok (t :: ts)
  end.

(** ** The hash that is signed *)

(** [tx_hash_prehash] *)
Definition prehash_bytes (tx : ETransaction) : bytes :=
  be_enc 20 (e_from tx) ++ be_enc 20 (e_to tx) ++ (replicate 24 Byte.x00 ++ be_enc 8 (e_amount tx)) ++
  be_enc 8 (e_nonce tx) ++ (replicate 24 Byte.x00 ++ be_enc 8 (e_gas_price tx)) ++
  be_enc 8 (e_timestamp tx) ++ (replicate 24 Byte.x00 ++ be_enc 8 (e_boost_bid tx)).

Definition tx_hash_prehash `{Hashing} (tx : ETransaction) : bytes := keccak256 (prehash_bytes tx).

(** ** Results of the conversion *)

Lemma normalize_transactions_Ok l ts :
  normalize_transactions l = Ok ts ↔ Forall2 (λ tx t, normalize_one tx = Ok t) l ts.
Proof.
  revert ts. induction l as [|tx l IH]; intros ts; cbn.
  - split; [intros [= <-]; constructor|by inversion 1].
  - split.
    + intros (t & Ht & E)%result_bind_inv. apply result_bind_inv in E as (ts' & Hts & [= <-]).
      constructor; [done|]. by apply IH.
    + inversion 1 as [|? t ? ts' Ht Hts]; subst. rewrite Ht. cbn. by rewrite (proj2 (IH ts') Hts).
Qed.

(** One transaction whose value, price or bid does not fit in a [u64] fails
    the whole list. *)
Definition oversized (tx : SequencerTransaction) : Prop :=
  match tx with
  | SeqNormal n => u64_max < u_value n ∨ u64_max < u_gas_price n ∨ u64_max < default 0 (u_boost_bid n)
  | SeqForcedTx f => u64_max < sf_value f
  end.

Lemma normalize_one_Ok tx : (∃ t, normalize_one tx = Ok t) ↔ ¬ oversized tx.
Proof.
  destruct tx as [n|f]; cbn; unfold u256_to_u64_checked, as_u64.
  - destruct (Z.ltb_spec u64_max (u_value n)); cbn; [naive_solver|].
    destruct (Z.ltb_spec u64_max (u_gas_price n)); cbn; [naive_solver|].
    destruct (u_boost_bid n) as [v|]; cbn; [destruct (Z.ltb_spec u64_max v); cbn|];
      unfold u64_max in *; naive_solver lia.
  - destruct (Z.ltb_spec u64_max (sf_value f)); cbn; naive_solver lia.
Qed.

Lemma normalize_transactions_total l :
  (∃ ts, normalize_transactions l = Ok ts) ↔ Forall (λ tx, ¬ oversized tx) l.
Proof.
  split.
  - intros (ts & Hts%normalize_transactions_Ok). induction Hts; constructor; [|done].
    apply normalize_one_Ok. by eauto.
  - induction 1 as [|tx l Htx _ IH]; cbn; [by eexists|].
    apply normalize_one_Ok in Htx as [t ->]. destruct IH as [ts ->]. cbn. by eexists.
Qed.

Lemma be_enc_pad m n z :
  0 ≤ z < 256 ^ Z.of_nat n → be_enc (m + n) z = replicate m Byte.x00 ++ be_enc n z.
Proof.
  intros Hz. apply be_val_inj; [by rewrite length_app, length_replicate, !be_enc_length|].
  rewrite be_val_pad, !be_val_enc, !Z.mod_small; [done|done|].
  rewrite Nat2Z.inj_add, Z.pow_add_r by lia. nia.
Qed.

(** The executor checks the signature of the hash the sender signed. *)
Lemma prehash_normal `{Hashing} n t :
  wf_user_tx n → normalize_one (SeqNormal n) = Ok t → tx_hash_prehash t = user_tx_hash n.
Proof.
  unfold wf_user_tx, is_u256, is_u64. intros Hwf E. cbn in E. unfold u256_to_u64_checked, as_u64 in E.
  destruct (Z.ltb_spec u64_max (u_value n)); [done|]. cbn in E.
  destruct (Z.ltb_spec u64_max (u_gas_price n)); [done|]. cbn in E.
  assert (Hb : ∃ b, t = mkETx (u_from n) (u_to n) (u_value n) (u_nonce n) (u_signature n) (u_gas_price n)
    (u_gas_limit n) (u_timestamp n) b ∧ b = default 0 (u_boost_bid n) ∧ 0 ≤ b ≤ u64_max).
  { destruct (u_boost_bid n) as [v|]; cbn in *.
    - destruct (Z.ltb_spec u64_max v); [done|]. injection E as <-. eexists. split_and!; try done; lia.
    - injection E as <-. eexists. by split_and!. }
  destruct Hb as (b & -> & -> & Hb).
  unfold tx_hash_prehash, user_tx_hash, prehash_bytes, user_tx_bytes.
  cbn [e_from e_to e_amount e_nonce e_gas_price e_timestamp e_boost_bid]. unfold u64_max in *.
  rewrite <- !(be_enc_pad 24 8) by (cbn; lia). done.
Qed.
