(* ===== verification/ExecutorState.v ===== *)
(** * Executor: Merkle root and account state
      ([executor/src/merkle.rs], [executor/src/state.rs])

    [StateManager] is the trait the transaction engine is written against, and
    [StateManagerLaws] what it relies on; the in-memory manager and the one on
    RocksDB and a Jellyfish Merkle tree are its instances.  The root of the
    in-memory state commits to the accounts up to a hash collision. *)

From stdpp Require Import base gmap list sorting strings.
From Stdlib Require Import ZArith Lia.
From S2P Require Import Prelude Rust SequencerTypes ExecutorTypes.

(** ** The Merkle root *)

Section merkle.
Context `{Hashing}.

Definition leaf_bytes (addr : Z) (account : Account) : bytes :=
  be_enc 20 addr ++ be_enc 8 (balance account) ++ be_enc 8 (nonce account).

Definition leaf_hashes (accounts : gmap Z Account) : list bytes :=
  (λ e, sha256 (leaf_bytes e.1 e.2)) <$> btree_iter accounts.

(** One pass over a level: an odd last node is paired with itself. *)
Fixpoint next_level (l : list bytes) : list bytes :=
  match l with
  | lhs :: rhs :: l => sha256 (lhs ++ rhs) :: next_level l
  | [lhs] => [sha256 (lhs ++ lhs)]
  | [] => []
  end.

(** [while leaf_hashes.len() > 1]; a level has fewer nodes than the one below. *)
Fixpoint reduce_levels (fuel : nat) (l : list bytes) : list bytes :=
  match fuel with
  | O => l
  | S fuel => if (1 <? length l)%nat then reduce_levels fuel (next_level l) else l
  end.

Definition compute_root (accounts : gmap Z Account) : bytes :=
  match leaf_hashes accounts with
  | [] => replicate 32 Byte.x00
  | leaves => default [] (head (reduce_levels (length leaves) leaves))
  end.

Definition prove_account (accounts : gmap Z Account) (addr : Z) : list bytes :=
  [sha256 (compute_root accounts ++ be_enc 20 addr)].

Definition attach_proof (diff : StateDiff) (root_before : bytes) : StateDiff :=
  mkDiff (d_account diff) (d_old_balance diff) (d_new_balance diff) (d_old_nonce diff)
    (d_new_nonce diff) [root_before] [(root_before, false)] "account_v1(balance_u64,nonce_u64)".

End merkle.

(** ** The interface *)

Definition wf_account (a : Account) : Prop := is_u64 (balance a) ∧ is_u64 (nonce a).

Class StateManager (S : Type) := {
  get_account : S → Z → Account;
  set_account : Z → Account → S → result ExecutorError StateDiff * S;
  current_root : S → bytes;
  reset_to_genesis : S → S;
}.

(** A write succeeds, is read back, and is described by the difference it returns. *)
Class StateManagerLaws (S : Type) `{StateManager S} := {
  sm_valid : S → Prop;
  set_account_ok s a acc :
    sm_valid s → is_address a → wf_account acc →
    ∃ d s', set_account a acc s = (Ok d, s') ∧ sm_valid s' ∧
      (∀ b, is_address b → get_account s' b = if decide (b = a) then acc else get_account s b) ∧
      d_account d = a ∧
      d_old_balance d = balance (get_account s a) ∧ d_new_balance d = balance acc ∧
      d_old_nonce d = nonce (get_account s a) ∧ d_new_nonce d = nonce acc;
  reset_ok s : sm_valid (reset_to_genesis s) ∧ ∀ a, get_account (reset_to_genesis s) a = no_account;
}.

(** ** In memory *)

Notation InMemoryStateManager := (gmap Z Account).

Section in_memory.
Context `{Hashing}.

Definition seed_account (a : Z) (acc : Account) (s : InMemoryStateManager) : InMemoryStateManager :=
  <[a := acc]> s.

Definition mem_get_account (s : InMemoryStateManager) (a : Z) : Account := default no_account (s !! a).

Definition mem_set_account (a : Z) (acc : Account) (s : InMemoryStateManager)
    : result ExecutorError StateDiff * InMemoryStateManager :=
  let old := mem_get_account s a in
  let s' : InMemoryStateManager := <[a := acc]> s in
  (Ok (mkDiff a (balance old) (balance acc) (nonce old) (nonce acc) (prove_account s' a) [] ""), s').

#[export] Instance in_memory : StateManager InMemoryStateManager := {
  get_account := mem_get_account;
  set_account := mem_set_account;
  current_root := compute_root;
  reset_to_genesis := λ _, ∅;
}.

#[export, refine] Instance in_memory_laws : StateManagerLaws InMemoryStateManager := {
  sm_valid := λ _, True;
}.
Proof.
  - intros s a acc _ _ _. do 2 eexists. split; [reflexivity|]. split_and!; try done.
    intros b _. cbn. unfold mem_get_account. destruct (decide (b = a)) as [->|].
    + by rewrite lookup_insert_eq.
    + by rewrite lookup_insert_ne.
  - done.
Defined.

End in_memory.

(** ** On RocksDB and a Jellyfish Merkle tree *)

#[export] Instance byte_countable : Countable Byte.byte :=
  inj_countable Byte.to_N Byte.of_N Byte.of_to_N.

(** [bincode] on accounts, and the tree of [zksync_merkle_tree]: a write of a
    leaf returns its Merkle path, if it logged one. *)
Class Bincode := {
  encode_account : Account → bytes;
  decode_account : bytes → option Account;
}.
Class BincodeLaws `{Bincode} : Prop :=
  decode_encode a : wf_account a → decode_account (encode_account a) = Some a.

Class Jmt (T : Type) := {
  jmt_new : T;
  extend_with_proofs : Z → Z → bytes → T → option (option (list bytes) * T);
  latest_root_hash : T → bytes;
}.
Class JmtLaws (T : Type) `{Jmt T} : Prop :=
  extend_total k i v t : is_Some (extend_with_proofs k i v t).

Section rocksdb.
Context `{Bincode} {T : Type} `{Jmt T}.

(** The account database is its map from keys to values. *)
Record RocksDbStateManager := mkRocks {
  jmt : T;
  account_db : gmap bytes bytes;
}.

Definition account_key (a : Z) : bytes := String.list_byte_of_string "acct:" ++ be_enc 20 a.
Definition leaf_index_key (a : Z) : bytes := String.list_byte_of_string "leafidx:" ++ be_enc 20 a.
Definition NEXT_LEAF_INDEX_KEY : bytes := String.list_byte_of_string "meta:next_leaf_index".

Definition load_next_leaf_index (db : gmap bytes bytes) : result ExecutorError Z :=
  match db !! NEXT_LEAF_INDEX_KEY with
  | Some b => if (length b =? 8)%nat then Ok (be_val b)
              else Err (StateError "corrupt next leaf index bytes")
  | None => Ok 1
  end.

Definition get_or_assign_leaf_index (a : Z) (db : gmap bytes bytes)
    : result ExecutorError Z * gmap bytes bytes :=
  match db !! leaf_index_key a with
  | Some b => (if (length b =? 8)%nat then Ok (be_val b)
               else Err (StateError "corrupt leaf index bytes"), db)
  | None =>
      match load_next_leaf_index db with
      | Ok idx =>
          (Ok idx, <[NEXT_LEAF_INDEX_KEY := be_enc 8 (sat_add u64_max idx 1)]>
                     (<[leaf_index_key a := be_enc 8 idx]> db))
      | Err e => (Err e, db)
      | Panicked => (Panicked, db)
      end
  end.

Definition account_value_hash (acc : Account) : bytes :=
  be_enc 8 (balance acc) ++ be_enc 8 (nonce acc) ++ replicate 16 Byte.x00.

Definition rocks_get_account (s : RocksDbStateManager) (a : Z) : Account :=
  match account_db s !! account_key a with
  | Some v => default no_account (decode_account v)
  | None => no_account
  end.

Definition rocks_set_account (a : Z) (acc : Account) (s : RocksDbStateManager)
    : result ExecutorError StateDiff * RocksDbStateManager :=
  let old := rocks_get_account s a in
  match get_or_assign_leaf_index a (account_db s) with
  | (Ok leaf_index, db) =>
      match extend_with_proofs a leaf_index (account_value_hash acc) (jmt s) with
      | None => (Err (StateError "jmt extend_with_proofs"), mkRocks (jmt s) db)
      | Some (path, t) =>
          let proof := default [] path in
          let proof := if decide (proof = []) then [latest_root_hash t] else proof in
          (Ok (mkDiff a (balance old) (balance acc) (nonce old) (nonce acc) proof [] "jmt_valuehash_v1"),
           mkRocks t (<[account_key a := encode_account acc]> db))
      end
  | (Err e, db) => (Err e, mkRocks (jmt s) db)
  | (Panicked, db) => (Panicked, mkRocks (jmt s) db)
  end.

#[export] Instance rocksdb : StateManager RocksDbStateManager := {
  get_account := rocks_get_account;
  set_account := rocks_set_account;
  current_root := λ s, latest_root_hash (jmt s);
  reset_to_genesis := λ _, mkRocks jmt_new ∅;
}.

(** The indices of the database are eight bytes each. *)
Definition indices_ok (db : gmap bytes bytes) : Prop :=
  (∀ b, db !! NEXT_LEAF_INDEX_KEY = Some b → length b = 8%nat) ∧
  (∀ a b, db !! leaf_index_key a = Some b → length b = 8%nat).

Lemma keys_disjoint a b :
  account_key a ≠ leaf_index_key b ∧ account_key a ≠ NEXT_LEAF_INDEX_KEY ∧
  leaf_index_key a ≠ NEXT_LEAF_INDEX_KEY.
Proof. by split_and!. Qed.

Lemma get_or_assign_ok a db :
  indices_ok db →
  ∃ idx db', get_or_assign_leaf_index a db = (Ok idx, db') ∧ indices_ok db' ∧
    ∀ b, db' !! account_key b = db !! account_key b.
Proof.
  intros [Hn Hl]. unfold get_or_assign_leaf_index, load_next_leaf_index.
  destruct (db !! leaf_index_key a) as [v|] eqn:El.
  { rewrite (Hl a v El). cbn. by do 2 eexists. }
  assert (Hnext : ∃ idx, match db !! NEXT_LEAF_INDEX_KEY with
    | Some b => if (length b =? 8)%nat then Ok (be_val b) else Err (StateError "corrupt next leaf index bytes")
    | None => Ok 1 end = Ok (E := ExecutorError) idx).
  { destruct (db !! NEXT_LEAF_INDEX_KEY) as [v|] eqn:En; [|by eexists].
    rewrite (Hn v eq_refl). by eexists. }
  destruct Hnext as [idx ->]. do 2 eexists. split; [reflexivity|]. split; [split|].
  - intros b. rewrite lookup_insert_eq. by intros [= <-].
  - intros c b. rewrite lookup_insert_ne by (intros E; by apply (keys_disjoint c c)).
    destruct (decide (leaf_index_key c = leaf_index_key a)) as [->|Hne].
    + rewrite lookup_insert_eq. by intros [= <-].
    + rewrite lookup_insert_ne by congruence. apply Hl.
  - intros b. pose proof (keys_disjoint b a) as (? & ? & _). by rewrite !lookup_insert_ne by congruence.
Qed.

Lemma account_key_inj a b : is_address a → is_address b → account_key a = account_key b → a = b.
Proof. intros Ha Hb E%(inj (app _)). exact (be_enc_inj 20 a b Ha Hb E). Qed.

#[export, refine] Instance rocksdb_laws `{!BincodeLaws, !JmtLaws T} : StateManagerLaws RocksDbStateManager := {
  sm_valid := λ s, indices_ok (account_db s);
}.
Proof.
  - intros s a acc Hv Ha Hacc. cbn. unfold rocks_set_account.
    destruct (get_or_assign_ok a (account_db s) Hv) as (idx & db & -> & [Hn Hl] & Hdb).
    destruct (extend_total a idx (account_value_hash acc) (jmt s)) as [[path t] ->].
    do 2 eexists. split; [reflexivity|]. cbn [account_db jmt]. split; [split|split_and!; try done].
    + intros v. pose proof (keys_disjoint a a) as (_ & ? & _). rewrite lookup_insert_ne by congruence.
      apply Hn.
    + intros c v. pose proof (keys_disjoint a c) as (? & _). rewrite lookup_insert_ne by congruence.
      apply Hl.
    + intros b Hb. cbn [get_account rocksdb]. unfold rocks_get_account. cbn [account_db]. destruct (decide (b = a)) as [->|Hne].
      * rewrite lookup_insert_eq, decode_encode by done. done.
      * rewrite lookup_insert_ne by (intros E; apply Hne; symmetry; by apply account_key_inj).
        by rewrite Hdb.
  - intros s. split; [split|]; cbn; [by intros b; rewrite lookup_empty|by intros a b; rewrite lookup_empty|].
    intros a. unfold rocks_get_account. cbn. by rewrite lookup_empty.
Defined.

End rocksdb.

(** ** The root commits to the accounts *)

Lemma pair_ind {A} (P : list A → Prop) :
  P [] → (∀ x, P [x]) → (∀ x y l, P l → P (x :: y :: l)) → ∀ l, P l.
Proof.
  intros P0 P1 P2. enough (G : ∀ l, P l ∧ ∀ x, P (x :: l)) by (intros l; apply G).
  induction l as [|x l [IH1 IH2]]; split; auto.
Qed.

(** The inputs hashed in one pass, in all passes, and for the whole root. *)
Fixpoint next_inputs (l : list bytes) : list bytes :=
  match l with
  | lhs :: rhs :: l => (lhs ++ rhs) :: next_inputs l
  | [lhs] => [lhs ++ lhs]
  | [] => []
  end.

Section inputs.
Context `{HashingLaws}.

Fixpoint reduce_inputs (fuel : nat) (l : list bytes) : list bytes :=
  match fuel with
  | O => []
  | S fuel => if (1 <? length l)%nat then next_inputs l ++ reduce_inputs fuel (next_level l) else []
  end.

Definition root_inputs (accounts : gmap Z Account) : list bytes :=
  ((λ e, leaf_bytes e.1 e.2) <$> btree_iter accounts) ++
  reduce_inputs (length (leaf_hashes accounts)) (leaf_hashes accounts).

Definition is_hash (b : bytes) : Prop := length b = 32%nat.

Lemma next_level_fmap l : next_level l = sha256 <$> next_inputs l.
Proof. induction l as [|x|x y l IH] using pair_ind; [done..|]. cbn. by rewrite IH. Qed.

Lemma elem_of_next_inputs b l : b ∈ next_inputs l → ∃ x y, x ∈ l ∧ y ∈ l ∧ b = x ++ y.
Proof.
  induction l as [|x|x y l IH] using pair_ind; cbn [next_inputs].
  - by intros ?%elem_of_nil.
  - intros ->%list_elem_of_singleton. exists x, x. by rewrite list_elem_of_singleton.
  - intros [->|Hh]%elem_of_cons; [exists x, y; set_solver|].
    destruct (IH Hh) as (a & c & ? & ? & ?). exists a, c. set_solver.
Qed.

Lemma next_level_hashes l : Forall is_hash (next_level l).
Proof.
  rewrite next_level_fmap. apply Forall_forall. intros h (b & -> & _)%list_elem_of_fmap. apply sha256_length.
Qed.

Lemma next_inputs_NoDup l : Forall is_hash l → NoDup l → NoDup (next_inputs l).
Proof.
  induction l as [|x|x y l IH] using pair_ind; intros Hl Hn; cbn [next_inputs]; [constructor|apply NoDup_singleton|].
  inversion Hl as [|?? Hx Hl']; subst. inversion Hl' as [|?? Hy Hl'']; subst.
  apply NoDup_cons in Hn as [Hxn Hn]. pose proof Hn as [_ Hn']%NoDup_cons.
  constructor; [|by apply IH]. intros (a & c & Ha & _ & E)%elem_of_next_inputs.
  rewrite Forall_forall in Hl''. apply app_inj_1 in E as [-> _].
  - destruct Hxn. by right.
  - unfold is_hash in *. rewrite Hx. symmetry. by apply Hl''.
Qed.

Lemma next_inputs_inj a b :
  Forall is_hash a → Forall is_hash b → NoDup a → NoDup b → next_inputs a = next_inputs b → a = b.
Proof.
  unfold is_hash.
  revert b. induction a as [|x|x y a IH] using pair_ind; intros b Ha Hb Na Nb E;
    destruct b as [|z [|w b]]; try done; cbn in E; rewrite ?Forall_cons, ?NoDup_cons in *; destruct_and?.
  - injection E as E. apply app_inj_1 in E as [-> _]; [done|congruence].
  - injection E as E _. apply app_inj_1 in E as [-> ->]; [|congruence]. set_solver.
  - injection E as E _. apply app_inj_1 in E as [-> ->]; [|congruence]. set_solver.
  - injection E as E El. apply app_inj_1 in E as [-> ->]; [|congruence]. by rewrite (IH b).
Qed.

(** [k] levels up, and what is hashed on the way. *)
Fixpoint levels (k : nat) (l : list bytes) : list bytes :=
  match k with O => l | S k => levels k (next_level l) end.

Fixpoint level_inputs (k : nat) (l : list bytes) : list bytes :=
  match k with O => [] | S k => next_inputs l ++ level_inputs k (next_level l) end.

Lemma levels_add j k l : levels (j + k) l = levels k (levels j l).
Proof. revert l. induction j as [|j IH]; intros l; cbn; [done|]. apply IH. Qed.

Lemma level_inputs_add j k l : level_inputs (j + k) l = level_inputs j l ++ level_inputs k (levels j l).
Proof. revert l. induction j as [|j IH]; intros l; cbn; [done|]. by rewrite IH, (assoc_L app). Qed.

Lemma levels_hashes k l : Forall is_hash l → Forall is_hash (levels k l).
Proof.
  revert l. induction k as [|k IH]; intros l Hl; cbn; [done|]. apply IH, next_level_hashes.
Qed.

Lemma elem_of_levels k l h :
  Forall is_hash l → h ∈ levels (S k) l → ∃ b, b ∈ level_inputs (S k) l ∧ h = sha256 b ∧ length b = 64%nat.
Proof.
  intros Hl. rewrite <- Nat.add_1_r, levels_add, level_inputs_add. cbn. rewrite next_level_fmap, app_nil_r.
  intros (b & -> & Hb)%list_elem_of_fmap. exists b. split_and!; [set_solver|done|].
  apply elem_of_next_inputs in Hb as (x & y & Hx & Hy & ->).
  pose proof (levels_hashes k l Hl) as Hh. rewrite Forall_forall in Hh. unfold is_hash in Hh.
  by rewrite length_app, (Hh x Hx), (Hh y Hy).
Qed.

Lemma next_level_length l : length (next_level l) = ((length l + 1) / 2)%nat.
Proof.
  induction l as [|x|x y l IH] using pair_ind; [done|done|]. cbn [next_level length].
  rewrite IH. replace (S (S (length l)) + 1)%nat with ((length l + 1) + 1 * 2)%nat by lia.
  rewrite Nat.div_add by lia. lia.
Qed.

(** The loop ends with one node, some levels up. *)
Lemma reduce_levels_spec fuel l :
  l ≠ [] → (length l ≤ fuel)%nat →
  ∃ k x, reduce_levels fuel l = [x] ∧ levels k l = [x] ∧ reduce_inputs fuel l = level_inputs k l.
Proof.
  revert l. induction fuel as [|fuel IH]; intros l Hne Hf; cbn [reduce_levels reduce_inputs].
  { destruct l; [done|cbn in Hf; lia]. }
  destruct (Nat.ltb_spec 1 (length l)) as [Hl|Hl].
  - pose proof (next_level_length l) as Hlen.
    pose proof (Nat.Div0.div_le_mono 3 (length l + 1) 2 ltac:(lia)) as Hge. cbn in Hge.
    pose proof (Nat.Div0.div_lt_upper_bound (length l + 1) 2 (length l) ltac:(lia)).
    destruct (IH (next_level l)) as (k & x & -> & Hk & ->).
    + intros E. rewrite E in Hlen. cbn in Hlen. lia.
    + lia.
    + by exists (S k), x.
  - destruct l as [|x [|y l]]; [done| |cbn in Hl; lia]. by exists 0%nat, x.
Qed.

(** Accounts within the widths of their types. *)
Definition wf_accounts (m : gmap Z Account) : Prop :=
  ∀ a acc, m !! a = Some acc → is_address a ∧ wf_account acc.

Lemma leaf_bytes_inj a b x y :
  is_address a → is_address b → wf_account x → wf_account y →
  leaf_bytes a x = leaf_bytes b y → a = b ∧ x = y.
Proof.
  intros Ha Hb [Hxb Hxn] [Hyb Hyn] E. unfold leaf_bytes in E. unfold is_u64, u64_max in *.
  apply be_enc_app_inj in E as [-> E]; [|exact Ha|exact Hb].
  apply be_enc_app_inj in E as [Eb E]; [|cbn; lia..]. apply be_enc_inj in E; [|cbn; lia..].
  destruct x, y. cbn in *. by subst.
Qed.

Lemma leaf_bytes_length a x : length (leaf_bytes a x) = 36%nat.
Proof. unfold leaf_bytes. by rewrite !length_app, !be_enc_length. Qed.

Lemma wf_btree m : wf_accounts m → Forall (λ e, is_address e.1 ∧ wf_account e.2) (btree_iter m).
Proof. intros Hm. apply Forall_forall. intros [a x] ?%elem_of_btree_iter. by apply Hm. Qed.

Lemma leaf_hashes_hashes m : Forall is_hash (leaf_hashes m).
Proof.
  apply Forall_forall. intros h (e & -> & _)%list_elem_of_fmap. apply sha256_length.
Qed.

Lemma btree_iter_inj (m m' : gmap Z Account) : btree_iter m = btree_iter m' → m = m'.
Proof.
  intros E. apply map_eq. intros a. apply option_eq. intros x.
  by rewrite <- !elem_of_btree_iter, E.
Qed.

Lemma leaf_hashes_nil m : leaf_hashes m = [] → m = ∅.
Proof.
  unfold leaf_hashes. intros El%fmap_nil_inv. apply map_eq. intros a. apply option_eq. intros x.
  rewrite <- elem_of_btree_iter, El, lookup_empty. split; [by intros ?%elem_of_nil|done].
Qed.

Lemma compute_root_levels m :
  m ≠ ∅ → ∃ k, levels k (leaf_hashes m) = [compute_root m] ∧
    root_inputs m = ((λ e, leaf_bytes e.1 e.2) <$> btree_iter m) ++ level_inputs k (leaf_hashes m).
Proof.
  intros Hm. unfold compute_root, root_inputs.
  destruct (leaf_hashes m) as [|h r] eqn:El; [by apply leaf_hashes_nil in El|].
  destruct (reduce_levels_spec (length (h :: r)) (h :: r)) as (k & x & -> & Hk & ->); [done|done|].
  by exists k.
Qed.

End inputs.

(** Roots of account maps when nothing that is hashed for them collides. *)
Section binding.
Context `{HashingLaws} (seen : list bytes) (no_collision : ¬ collision_in sha256 seen).

Lemma sha256_inj_on (l l' : list bytes) : l ⊆ seen → l' ⊆ seen → sha256 <$> l = sha256 <$> l' → l = l'.
Proof.
  revert l'. induction l as [|x l IH]; intros [|y l'] Hl Hl' E; try done. cbn in E. injection E as E El.
  rewrite (no_collision_inj _ _ x y no_collision); [|set_solver..|done].
  by rewrite (IH l') by set_solver.
Qed.

Lemma sha256_NoDup l : l ⊆ seen → NoDup l → NoDup (sha256 <$> l).
Proof.
  intros Hl. induction 1 as [|x l Hx Hn IH]; cbn; constructor; [|apply IH; set_solver].
  intros (y & E & Hy)%list_elem_of_fmap. apply Hx.
  by rewrite (no_collision_inj _ _ x y no_collision) by set_solver.
Qed.

Lemma levels_NoDup k l :
  Forall is_hash l → NoDup l → level_inputs k l ⊆ seen → NoDup (levels k l).
Proof.
  revert l. induction k as [|k IH]; intros l Hl Hn Hs; cbn in *; [done|].
  apply IH; [apply next_level_hashes| |set_solver].
  rewrite next_level_fmap. apply sha256_NoDup; [set_solver|by apply next_inputs_NoDup].
Qed.

Lemma levels_inj k a b :
  Forall is_hash a → Forall is_hash b → NoDup a → NoDup b →
  level_inputs k a ⊆ seen → level_inputs k b ⊆ seen → levels k a = levels k b → a = b.
Proof.
  revert a b. induction k as [|k IH]; intros a b Ha Hb Na Nb Sa Sb E; cbn in *; [done|].
  apply next_inputs_inj; [done..|]. apply sha256_inj_on; [set_solver..|]. rewrite <- !next_level_fmap.
  assert (G : ∀ l, Forall is_hash l → NoDup l → next_inputs l ⊆ seen → NoDup (next_level l)).
  { intros l ???. rewrite next_level_fmap. apply sha256_NoDup; [done|by apply next_inputs_NoDup]. }
  apply IH; try apply next_level_hashes; [apply G; [done..|]|apply G; [done..|]| | |done]; set_solver.
Qed.

Lemma leaf_hashes_fmap m : leaf_hashes m = sha256 <$> ((λ e, leaf_bytes e.1 e.2) <$> btree_iter m).
Proof. unfold leaf_hashes. by rewrite <- list_fmap_compose. Qed.

Lemma leaves_inj (l l' : list (Z * Account)) :
  Forall (λ e, is_address e.1 ∧ wf_account e.2) l → Forall (λ e, is_address e.1 ∧ wf_account e.2) l' →
  (λ e, leaf_bytes e.1 e.2) <$> l = (λ e, leaf_bytes e.1 e.2) <$> l' → l = l'.
Proof.
  intros Hl. revert l'. induction Hl as [|[a x] l [Ha Hx] Hl IH]; intros l' Hl' E.
  - by destruct l'.
  - destruct Hl' as [|[b y] l' [Hb Hy] Hl']; [done|]. rewrite !fmap_cons in E.
    apply (inj2 cons) in E as [E El]. cbn [fst snd] in E.
    apply leaf_bytes_inj in E as [-> ->]; [|done..]. by rewrite (IH l').
Qed.

Lemma leaves_NoDup m : wf_accounts m → NoDup ((λ e, leaf_bytes e.1 e.2) <$> btree_iter m).
Proof.
  intros Hm. pose proof (wf_btree m Hm) as Hw.
  assert (Hn : NoDup (btree_iter m).*1) by (rewrite btree_iter_perm; apply NoDup_fst_map_to_list).
  induction Hw as [|[a x] l [Ha Hx] Hw IH]; [constructor|]. cbn in *. apply NoDup_cons in Hn as [Hna Hn].
  constructor; [|by apply IH]. intros ([b y] & E & Hin)%list_elem_of_fmap.
  rewrite Forall_forall in Hw. destruct (Hw _ Hin) as [Hb Hy].
  apply leaf_bytes_inj in E as [-> ->]; [|done..]. apply Hna. by apply (list_elem_of_fmap_2 fst) in Hin.
Qed.

Lemma leaves_seen m : root_inputs m ⊆ seen → (λ e, leaf_bytes e.1 e.2) <$> btree_iter m ⊆ seen.
Proof. intros Hs b Hb. apply Hs. unfold root_inputs. rewrite elem_of_app. by left. Qed.

(** A level above the leaves is not a level of leaves. *)
Lemma levels_not_leaves k l m :
  m ≠ ∅ → Forall is_hash l → root_inputs m ⊆ seen → level_inputs (S k) l ⊆ seen →
  leaf_hashes m ≠ levels (S k) l.
Proof.
  intros Hm Hl Sm Sl E. rewrite leaf_hashes_fmap in E.
  destruct (btree_iter m) as [|[a x] r] eqn:Eb.
  { apply Hm, leaf_hashes_nil. unfold leaf_hashes. by rewrite Eb. }
  assert (Hnode : sha256 (leaf_bytes a x) ∈ levels (S k) l) by (rewrite <- E; left).
  apply elem_of_levels in Hnode as (b & Hb & Eh & Hlen); [|done].
  apply (no_collision_inj _ _ _ _ no_collision) in Eh as <-; [by rewrite leaf_bytes_length in Hlen| |set_solver].
  apply Sm. unfold root_inputs. rewrite Eb, elem_of_app. left. left.
Qed.

Lemma equal_levels m m' j k :
  m ≠ ∅ → wf_accounts m → wf_accounts m' → root_inputs m ⊆ seen → root_inputs m' ⊆ seen →
  level_inputs j (leaf_hashes m) ⊆ seen → level_inputs k (leaf_hashes m') ⊆ seen →
  (j ≤ k)%nat → levels j (leaf_hashes m) = levels k (leaf_hashes m') → m = m'.
Proof.
  intros Hm Hw Hw' Sm Sm' Sj Sk Hjk E.
  assert (Hn : ∀ m, wf_accounts m → root_inputs m ⊆ seen → NoDup (leaf_hashes m)).
  { intros m0 ? Hs. rewrite leaf_hashes_fmap. apply sha256_NoDup; [|by apply leaves_NoDup].
    by apply leaves_seen. }
  replace k with ((k - j) + j)%nat in E, Sk by lia. rewrite levels_add in E. rewrite level_inputs_add in Sk.
  pose proof (leaf_hashes_hashes m') as Hh.
  apply levels_inj in E; [|apply leaf_hashes_hashes|by apply levels_hashes|by apply Hn| |done|set_solver].
  2: { apply levels_NoDup; [done|by apply Hn|set_solver]. }
  destruct (k - j)%nat as [|d].
  - cbn in E. rewrite !leaf_hashes_fmap in E.
    apply sha256_inj_on in E; [|by apply leaves_seen..]. apply leaves_inj in E; [|by apply wf_btree..].
    by apply btree_iter_inj.
  - exfalso. eapply levels_not_leaves; [exact Hm|exact Hh|done| |exact E]. set_solver.
Qed.

End binding.

(** C23: Two non-empty account maps with the same root are equal, unless two of
    the inputs that were hashed to compute the two roots collide: neither another
    map of the same size nor one with more or fewer accounts has the same root. *)
Theorem compute_root_binding `{HashingLaws} m m' :
  m ≠ ∅ → m' ≠ ∅ → wf_accounts m → wf_accounts m' →
  compute_root m = compute_root m' → m = m' ∨ collision_in sha256 (root_inputs m ++ root_inputs m').
Proof.
  intros Hm Hm' Hw Hw' E. destruct (decide (collision_in sha256 (root_inputs m ++ root_inputs m'))) as [|Hc];
    [by right|left].
  destruct (compute_root_levels m Hm) as (j & Hj & Sj). destruct (compute_root_levels m' Hm') as (k & Hk & Sk).
  assert (root_inputs m ⊆ root_inputs m ++ root_inputs m') by set_solver.
  assert (root_inputs m' ⊆ root_inputs m ++ root_inputs m') by set_solver.
  assert (level_inputs j (leaf_hashes m) ⊆ root_inputs m ++ root_inputs m') by (rewrite Sj; set_solver).
  assert (level_inputs k (leaf_hashes m') ⊆ root_inputs m ++ root_inputs m') by (rewrite Sk; set_solver).
  destruct (le_ge_dec j k) as [Hle|Hge].
  - eapply (equal_levels _ Hc m m' j k); try done. congruence.
  - symmetry. eapply (equal_levels _ Hc m' m k j); try done. congruence.
Qed.

(** The model hash keeps 32 bytes, so that ledgers which differ in a nonce collide. *)
Lemma compute_root_binding_witness :
  let m : gmap Z Account := {[1 := mkAccount 5 0]} in
  let m' : gmap Z Account := {[1 := mkAccount 5 1]} in
  @compute_root model_hashing m = @compute_root model_hashing m' ∧
  collision_in (@sha256 model_hashing) [leaf_bytes 1 (mkAccount 5 0); leaf_bytes 1 (mkAccount 5 1)].
Proof.
  cbn zeta. split; [vm_compute; reflexivity|].
  destruct (@compute_root_binding model_hashing model_hashing_laws
    {[1 := mkAccount 5 0]} {[1 := mkAccount 5 1]}) as [E|C]; [..|exact C].
  - apply map_non_empty_singleton.
  - apply map_non_empty_singleton.
  - intros a acc [<- <-]%lookup_singleton_Some. repeat split; vm_compute; done || discriminate.
  - intros a acc [<- <-]%lookup_singleton_Some. repeat split; vm_compute; done || discriminate.
  - vm_compute. reflexivity.
  - exfalso. apply (f_equal (λ m : gmap Z Account, m !! 1)) in E. vm_compute in E. discriminate.
Defined.
