(* ===== verification/ExecutorEngine.v ===== *)
(** * Executor: transaction engine ([executor/src/tx_engine.rs])

    [execute_batch] checks each transaction against the state, applies it, and
    records the differences the prover replays.  It is written against the
    [StateManager] interface; its theorems hold for every state manager that
    satisfies the laws. *)

From stdpp Require Import base gmap list sorting strings.
From Stdlib Require Import ZArith Lia.
From S2P Require Import Prelude Rust SequencerTypes ExecutorTypes ExecutorState.

(** [k256]: the uncompressed public key that made a 64-byte signature of a
    hash, given the recovery identifier. *)
Class PubkeyRecover := recover_pubkey : bytes → bytes → Z → option bytes.

(** [bincode] on the lists that are committed to. *)
Class TraceCodec := {
  encode_outcomes : list TxExecutionOutcome → bytes;
  encode_diffs : list StateDiff → bytes;
}.

Record ExecutionTrace := mkTrace {
  t_batch_id : string;
  t_initial_root : bytes;
  t_final_root : bytes;
  t_tx_commitment : bytes;
  t_state_diff_commitment : bytes;
  t_executed : list ETransaction;
  t_outcomes : list TxExecutionOutcome;
  t_diffs : list StateDiff;
  t_expected_journal_hash : bytes;
}.

Definition fold_diff `{Hashing} (prev_root : bytes) (diff : StateDiff) : bytes :=
  sha256 (prev_root ++ be_enc 20 (d_account diff) ++ be_enc 8 (d_old_balance diff) ++
          be_enc 8 (d_new_balance diff) ++ be_enc 8 (d_old_nonce diff) ++ be_enc 8 (d_new_nonce diff)).

(** [diff.merkle_proof = vec![root]] *)
Definition with_proof (diff : StateDiff) (root : bytes) : StateDiff :=
  mkDiff (d_account diff) (d_old_balance diff) (d_new_balance diff) (d_old_nonce diff)
    (d_new_nonce diff) [root] (d_witness_path diff) (d_leaf_encoding diff).

Definition max_included (batch_id : string) : Z :=
  if String.prefix "large1" batch_id then 10
  else if String.prefix "large2" batch_id then 50
  else u64_max.

Section engine.
Context `{Hashing} `{PubkeyRecover} {S : Type} `{StateManager S}.

(** [ALLOW_UNSIGNED_USER_TXS] is the flag. *)
Definition verify_tx_signature (allow_unsigned : bool) (tx : ETransaction) : bool :=
  match e_signature tx with
  | [] => allow_unsigned
  | sig =>
      if (length sig =? 65)%nat then
        let v := byte_val (default Byte.x00 (sig !! 64%nat)) in
        let normalized_v := if 27 <=? v then v - 27 else v in
        if normalized_v <? 4 then
          match recover_pubkey (tx_hash_prehash tx) (take 64 sig) normalized_v with
          | Some pubkey => bool_decide (be_val (drop 12 (keccak256 (drop 1 pubkey))) = e_from tx)
          | None => false
          end
        else false
      else false
  end.

Definition snapshot (a : Z) (acc : Account) : AccountSnapshot := mkSnapshot a (balance acc) (nonce acc).

(** The variables of the loop. *)
Record Progress := mkProgress {
  x_state : S;
  x_root : bytes;
  x_executed : list ETransaction;
  x_diffs : list StateDiff;
  x_outcomes : list TxExecutionOutcome;
}.

Definition rejection (allow_unsigned : bool) (tx : ETransaction) (sender : Account) : option string :=
  if negb (verify_tx_signature allow_unsigned tx) then Some "invalid_signature"
  else if negb (nonce sender =? e_nonce tx) then Some "invalid_nonce"
  else if balance sender <? e_amount tx then Some "insufficient_balance"
  else None.

(** The outcome of a transaction that is not included. *)
Definition rejected_outcome (tx : ETransaction) (reason : string) (sender receiver : Account)
    : TxExecutionOutcome :=
  let pre := snapshot (e_from tx) sender in
  let rpre := snapshot (e_to tx) receiver in
  mkOutcome (tx_hash_prehash tx) false (Some reason) pre pre rpre rpre.

(** One turn of the loop. *)
Definition execute_tx (allow_unsigned : bool) (max : Z) (tx : ETransaction) (x : Progress)
    : result ExecutorError unit * Progress :=
  let sender := get_account (x_state x) (e_from tx) in
  let receiver := get_account (x_state x) (e_to tx) in
  let reject reason :=
    (Ok tt, mkProgress (x_state x) (x_root x) (x_executed x) (x_diffs x)
              (x_outcomes x ++ [rejected_outcome tx reason sender receiver])) in
  match rejection allow_unsigned tx sender with
  | Some reason => reject reason
  | None =>
      if max <=? Z.of_nat (length (x_executed x)) then reject "batch_full" else
      let new_sender := mkAccount (balance sender - e_amount tx) (sat_add u64_max (nonce sender) 1) in
      let new_receiver := mkAccount (sat_add u64_max (balance receiver) (e_amount tx)) (nonce receiver) in
      match set_account (e_from tx) new_sender (x_state x) with
      | (Ok sender_diff, s) =>
          let sender_diff := with_proof sender_diff (x_root x) in
          let root1 := fold_diff (x_root x) sender_diff in
          match set_account (e_to tx) new_receiver s with
          | (Ok receiver_diff, s) =>
              let receiver_diff := with_proof receiver_diff root1 in
              (Ok tt, mkProgress s (fold_diff root1 receiver_diff) (x_executed x ++ [tx])
                 (x_diffs x ++ [sender_diff; receiver_diff])
                 (x_outcomes x ++ [mkOutcome (tx_hash_prehash tx) true None
                    (snapshot (e_from tx) sender) (snapshot (e_from tx) new_sender)
                    (snapshot (e_to tx) receiver) (snapshot (e_to tx) new_receiver)]))
          | (Err e, s) => (Err e, mkProgress s root1 (x_executed x) (x_diffs x) (x_outcomes x))
          | (Panicked, s) => (Panicked, mkProgress s root1 (x_executed x) (x_diffs x) (x_outcomes x))
          end
      | (Err e, s) => (Err e, mkProgress s (x_root x) (x_executed x) (x_diffs x) (x_outcomes x))
      | (Panicked, s) => (Panicked, mkProgress s (x_root x) (x_executed x) (x_diffs x) (x_outcomes x))
      end
  end.

Fixpoint execute_txs (allow_unsigned : bool) (max : Z) (txs : list ETransaction) (x : Progress)
    : result ExecutorError unit * Progress :=
  match txs with
  | [] => (Ok tt, x)
  | tx :: txs =>
      match execute_tx allow_unsigned max tx x with
      | (Ok _, x) => execute_txs allow_unsigned max txs x
      | r => r
      end
  end.

Definition expected_journal_hash (initial_root final_root : bytes) : bytes :=
  sha256 (initial_root ++ final_root).

(** [execute_batch]: the trace and the state it leaves. *)
Definition execute_batch `{TraceCodec} (allow_unsigned : bool) (batch_id : string)
    (txs : list ETransaction) (s : S) : result ExecutorError ExecutionTrace * S :=
  let initial_root := current_root s in
  match execute_txs allow_unsigned (max_included batch_id) txs (mkProgress s initial_root [] [] []) with
  | (Ok _, x) =>
      (Ok (mkTrace batch_id initial_root (x_root x) (sha256 (encode_outcomes (x_outcomes x)))
             (sha256 (encode_diffs (x_diffs x))) (x_executed x) (x_outcomes x) (x_diffs x)
             (expected_journal_hash initial_root (x_root x))), x_state x)
  | (Err e, x) => (Err e, x_state x)
  | (Panicked, x) => (Panicked, x_state x)
  end.

End engine.
Arguments Progress S : clear implicits.
Arguments mkProgress {S}.
Arguments x_state {S}.
Arguments x_root {S}.
Arguments x_executed {S}.
Arguments x_diffs {S}.
Arguments x_outcomes {S}.

(** ** One transaction *)

Section correctness.
Context `{Hashing} `{PubkeyRecover} {S : Type} `{StateManagerLaws S} (allow_unsigned : bool) (max : Z).

Definition state_ok (s : S) : Prop :=
  sm_valid s ∧ ∀ a, is_address a → wf_account (get_account s a).

Definition wf_etx (tx : ETransaction) : Prop :=
  is_address (e_from tx) ∧ is_address (e_to tx) ∧ is_u64 (e_amount tx) ∧ is_u64 (e_nonce tx).

(** The accounts after a transaction that is included: the receiver's account,
    read before the sender is debited, is written last. *)
Definition after_transfer (accounts : Z → Account) (tx : ETransaction) : Z → Account := λ b,
  if decide (b = e_to tx)
  then mkAccount (sat_add u64_max (balance (accounts b)) (e_amount tx)) (nonce (accounts b))
  else if decide (b = e_from tx)
  then mkAccount (balance (accounts b) - e_amount tx) (sat_add u64_max (nonce (accounts b)) 1)
  else accounts b.

Definition is_diff (d : StateDiff) (a : Z) (old new : Account) (root : bytes) : Prop :=
  d_account d = a ∧ d_old_balance d = balance old ∧ d_new_balance d = balance new ∧
  d_old_nonce d = nonce old ∧ d_new_nonce d = nonce new ∧ d_merkle_proof d = [root].

Definition sender_after (acc : Account) (tx : ETransaction) : Account :=
  mkAccount (balance acc - e_amount tx) (sat_add u64_max (nonce acc) 1).

(** The differences of an included transaction. *)
Definition tx_diffs (accounts : Z → Account) (tx : ETransaction) (root : bytes) (d1 d2 : StateDiff) : Prop :=
  is_diff d1 (e_from tx) (accounts (e_from tx)) (sender_after (accounts (e_from tx)) tx) root ∧
  is_diff d2 (e_to tx)
    (if decide (e_to tx = e_from tx) then sender_after (accounts (e_from tx)) tx else accounts (e_to tx))
    (after_transfer accounts tx (e_to tx)) (fold_diff root d1).

Definition included (tx : ETransaction) (x : Progress S) (x' : Progress S) : Prop :=
  let accounts := get_account (x_state x) in
  rejection allow_unsigned tx (accounts (e_from tx)) = None ∧
  Z.of_nat (length (x_executed x)) < max ∧
  (∀ b, is_address b → get_account (x_state x') b = after_transfer accounts tx b) ∧
  x_executed x' = x_executed x ++ [tx] ∧
  ∃ d1 d2, tx_diffs accounts tx (x_root x) d1 d2 ∧ x_diffs x' = x_diffs x ++ [d1; d2] ∧
    x_root x' = fold_diff (fold_diff (x_root x) d1) d2.

Definition rejected (tx : ETransaction) (x : Progress S) (x' : Progress S) : Prop :=
  (rejection allow_unsigned tx (get_account (x_state x) (e_from tx)) ≠ None ∨
   max ≤ Z.of_nat (length (x_executed x))) ∧
  x_state x' = x_state x ∧ x_executed x' = x_executed x ∧ x_diffs x' = x_diffs x ∧ x_root x' = x_root x.

Lemma rejection_None tx acc :
  rejection allow_unsigned tx acc = None ↔
  verify_tx_signature allow_unsigned tx = true ∧ nonce acc = e_nonce tx ∧ e_amount tx ≤ balance acc.
Proof.
  unfold rejection. destruct (verify_tx_signature allow_unsigned tx); cbn; [|naive_solver].
  destruct (Z.eqb_spec (nonce acc) (e_nonce tx)); cbn; [|naive_solver].
  destruct (Z.ltb_spec (balance acc) (e_amount tx)); naive_solver lia.
Qed.

Lemma sender_after_wf acc tx :
  wf_account acc → wf_etx tx → e_amount tx ≤ balance acc → wf_account (sender_after acc tx).
Proof.
  unfold wf_account, wf_etx, is_u64. cbn. unfold sat_add. intros. split; lia.
Qed.

Lemma after_transfer_wf accounts tx b :
  wf_account (accounts b) → wf_etx tx →
  (b = e_from tx → e_amount tx ≤ balance (accounts b)) → wf_account (after_transfer accounts tx b).
Proof.
  intros [Hb Hn] (_ & _ & Ha & _) Hle. unfold after_transfer, wf_account, is_u64, sat_add in *.
  repeat case_decide; cbn; split; try done; try lia; specialize (Hle ltac:(done)); lia.
Qed.

(** A transaction is included with exactly these effects, or changes nothing. *)
Lemma execute_tx_spec tx x :
  state_ok (x_state x) → wf_etx tx →
  ∃ x', execute_tx allow_unsigned max tx x = (Ok tt, x') ∧ state_ok (x_state x') ∧
    (included tx x x' ∨ rejected tx x x').
Proof.
  intros [Hv Hw] Htx. pose proof Htx as (Hf & Ht & Ha & _). unfold execute_tx.
  set (sender := get_account (x_state x) (e_from tx)).
  set (receiver := get_account (x_state x) (e_to tx)).
  destruct (rejection allow_unsigned tx sender) as [reason|] eqn:Er.
  { eexists. split; [reflexivity|]. split; [done|]. right. split_and!; try done. left. fold sender.
    by rewrite Er. }
  destruct (Z.leb_spec max (Z.of_nat (length (x_executed x)))) as [Hmax|Hmax].
  { eexists. split; [reflexivity|]. split; [done|]. right. split_and!; try done. by right. }
  pose proof Er as (_ & _ & Hbal)%rejection_None.
  pose proof (Hw _ Hf) as Hwf. pose proof (Hw _ Ht) as Hwt.
  destruct (set_account_ok (x_state x) (e_from tx) (sender_after sender tx)) as
    (d1 & s1 & E1 & Hv1 & Hg1 & Hd1); [done|done|by apply sender_after_wf|].
  fold (sender_after sender tx). rewrite E1.
  destruct (set_account_ok s1 (e_to tx) (after_transfer (get_account (x_state x)) tx (e_to tx))) as
    (d2 & s2 & E2 & Hv2 & Hg2 & Hd2); [done|done|apply after_transfer_wf; [done|done|by intros ->]|].
  unfold after_transfer in E2 at 1. rewrite decide_True in E2 by done. fold receiver in E2. rewrite E2.
  assert (Hafter : ∀ b, is_address b → get_account s2 b = after_transfer (get_account (x_state x)) tx b).
  { intros b Hb. rewrite Hg2 by done. destruct (decide (b = e_to tx)) as [->|Hne]; [done|].
    rewrite Hg1 by done. unfold after_transfer. rewrite (decide_False (P := b = e_to tx)) by done.
    by destruct (decide (b = e_from tx)) as [->|]. }
  eexists. split; [reflexivity|]. cbn. split; [split; [done|]|].
  { intros b Hb. rewrite Hafter by done. apply after_transfer_wf; [by apply Hw|done|by intros ->]. }
  left. split_and!; try done. do 2 eexists. split; [|split; reflexivity].
  unfold tx_diffs, is_diff. fold sender. cbn.
  destruct Hd1 as (-> & -> & -> & -> & ->). destruct Hd2 as (-> & -> & -> & -> & ->).
  rewrite Hg1 by done. by destruct (decide (e_to tx = e_from tx)).
Qed.

(** ** A batch *)

(** The loop as a relation: every transaction is included or rejected. *)
Inductive runs : list ETransaction → Progress S → Progress S → Prop :=
| runs_nil x : runs [] x x
| runs_cons tx txs x x' x'' :
    state_ok (x_state x) → wf_etx tx → state_ok (x_state x') →
    included tx x x' ∨ rejected tx x x' → runs txs x' x'' → runs (tx :: txs) x x''.

Lemma execute_txs_runs txs x :
  state_ok (x_state x) → Forall wf_etx txs →
  ∃ x', execute_txs allow_unsigned max txs x = (Ok tt, x') ∧ runs txs x x' ∧ state_ok (x_state x').
Proof.
  intros Hx Htxs. revert x Hx. induction Htxs as [|tx txs Htx _ IH]; intros x Hx; cbn.
  { exists x. split_and!; try done. constructor. }
  destruct (execute_tx_spec tx x Hx Htx) as (x1 & -> & Hx1 & Hcase).
  destruct (IH x1 Hx1) as (x2 & -> & Hr & Hx2). exists x2. split_and!; try done.
  by apply (runs_cons _ _ _ x1).
Qed.

(** ** Conservation *)

Definition supply (l : list Z) (s : S) : Z := sumZ ((λ a, balance (get_account s a)) <$> l).

Definition not_self (tx : ETransaction) : Prop := e_from tx ≠ e_to tx.
Definition within (l : list Z) (tx : ETransaction) : Prop := e_from tx ∈ l ∧ e_to tx ∈ l.

Lemma sum_ext {A} (f g : A → Z) l : (∀ a, a ∈ l → f a = g a) → sumZ (f <$> l) = sumZ (g <$> l).
Proof.
  induction l as [|a l IH]; intros Hfg; [done|]. unfold sumZ in *. cbn. f_equal.
  - apply Hfg. by left.
  - apply IH. intros b Hb. apply Hfg. by right.
Qed.

(** Two members of a list without duplicates, and the others. *)
Lemma split_two (l : list Z) a b :
  NoDup l → a ∈ l → b ∈ l → a ≠ b → ∃ r, l ≡ₚ a :: b :: r ∧ a ∉ r ∧ b ∉ r.
Proof.
  intros Hn Ha Hb Hne. apply elem_of_Permutation in Ha as [k Hk]. rewrite Hk in Hn, Hb.
  apply elem_of_cons in Hb as [?|Hb]; [done|]. apply elem_of_Permutation in Hb as [r Hr].
  exists r. rewrite Hr in Hn. apply NoDup_cons in Hn as [Ha' [Hb' _]%NoDup_cons].
  split; [by rewrite Hk, Hr|]. set_solver.
Qed.

Lemma included_supply l tx x x' :
  NoDup l → Forall is_address l → state_ok (x_state x) → wf_etx tx → not_self tx → within l tx →
  supply l (x_state x) ≤ u64_max → included tx x x' →
  supply l (x_state x') = supply l (x_state x) ∧
  balance (get_account (x_state x) (e_to tx)) + e_amount tx ≤ u64_max.
Proof.
  intros Hn Hl [_ Hw] Htx Hself [Hf Ht] Hsup (Hrej & _ & Hget & _).
  apply rejection_None in Hrej as (_ & _ & Hbal).
  destruct (split_two l _ _ Hn Hf Ht Hself) as (r & Hp & Hfr & Htr).
  assert (Hs : ∀ s, supply l s = balance (get_account s (e_from tx)) +
    balance (get_account s (e_to tx)) + supply r s).
  { intros s. unfold supply. rewrite (sumZ_perm _ ((λ a, balance (get_account s a)) <$> e_from tx :: e_to tx :: r))
      by by rewrite Hp. unfold sumZ. cbn. lia. }
  assert (Haddr : Forall is_address (e_from tx :: e_to tx :: r)) by by rewrite <- Hp.
  inversion Haddr as [|?? Haf Haddr']; subst. inversion Haddr' as [|?? Hat Har]; subst.
  rewrite Forall_forall in Har.
  assert (Hr0 : 0 ≤ supply r (x_state x)).
  { apply sumZ_nonneg. rewrite Forall_fmap. apply Forall_forall. intros a Ha. cbn.
    destruct (Hw a (Har a Ha)) as [[? _] _]. done. }
  assert (Er : supply r (x_state x') = supply r (x_state x)).
  { apply sum_ext. intros a Ha. cbn. rewrite Hget by auto. unfold after_transfer.
    rewrite !decide_False by (intros ->; done). done. }
  rewrite Hs in Hsup. rewrite !Hs, Er, !Hget by done. unfold after_transfer, not_self in *.
  rewrite (decide_False (P := e_from tx = e_to tx)), !decide_True by done.
  cbn. unfold sat_add. lia.
Qed.

Lemma runs_supply l txs x x' :
  NoDup l → Forall is_address l → Forall not_self txs → Forall (within l) txs →
  supply l (x_state x) ≤ u64_max → runs txs x x' → supply l (x_state x') = supply l (x_state x).
Proof.
  intros Hn Hl Hself Hwith Hsup Hr. revert Hself Hwith Hsup.
  induction Hr as [|tx txs x x1 x2 Hx Htx Hx1 Hcase Hr IH]; intros Hself Hwith Hsup; [done|].
  inversion Hself; inversion Hwith; subst.
  assert (E : supply l (x_state x1) = supply l (x_state x)).
  { destruct Hcase as [Hinc|(_ & -> & _)]; [|done]. by eapply included_supply. }
  rewrite IH; [done|done|done|lia].
Qed.

(** ** Nonces *)

Lemma step_nonces tx x x' a :
  is_address a → state_ok (x_state x) → included tx x x' ∨ rejected tx x x' →
  nonce (get_account (x_state x) a) ≤ nonce (get_account (x_state x') a).
Proof.
  intros Ha [_ Hw] [(_ & _ & Hget & _)|(_ & -> & _)]; [|lia]. rewrite Hget by done.
  destruct (Hw a Ha) as [_ [_ ?]].
  unfold after_transfer, sat_add. repeat case_decide; cbn; lia.
Qed.

Lemma runs_nonces txs x x' a :
  is_address a → runs txs x x' →
  nonce (get_account (x_state x) a) ≤ nonce (get_account (x_state x') a).
Proof.
  intros Ha Hr. induction Hr as [|tx txs x x1 x2 Hx _ _ Hcase _ IH]; [lia|].
  pose proof (step_nonces tx x x1 a Ha Hx Hcase). lia.
Qed.

(** A later transaction of the same sender has a larger nonce. *)
Definition precedes (tx tx' : ETransaction) : Prop :=
  not_self tx → e_nonce tx < u64_max → e_from tx' = e_from tx → e_nonce tx < e_nonce tx'.

(** What is executed was not executed before and has a nonce that is used up. *)
Lemma runs_executed txs x x' :
  runs txs x x' → ∃ l, x_executed x' = x_executed x ++ l ∧ l `sublist_of` txs ∧ StronglySorted precedes l ∧
    ∀ tx, tx ∈ l → wf_etx tx ∧ nonce (get_account (x_state x) (e_from tx)) ≤ e_nonce tx ∧
      (not_self tx → e_nonce tx < u64_max →
        e_nonce tx < nonce (get_account (x_state x') (e_from tx))).
Proof.
  induction 1 as [x|tx txs x x1 x2 Hx Htx Hx1 Hcase Hr (l & El & Hsub & Hsort & Hl)].
  { exists []. rewrite app_nil_r. split_and!; [done|done|constructor|]. by intros ? ?%elem_of_nil. }
  assert (Hmono : ∀ a, is_address a →
    nonce (get_account (x_state x) a) ≤ nonce (get_account (x_state x1) a))
    by (intros a Ha; by apply (step_nonces tx)).
  assert (Hl' : ∀ t, t ∈ l → wf_etx t ∧ nonce (get_account (x_state x) (e_from t)) ≤ e_nonce t ∧
      (not_self t → e_nonce t < u64_max → e_nonce t < nonce (get_account (x_state x2) (e_from t)))).
  { intros t Ht. destruct (Hl t Ht) as (Hwt & Hge & Hlt). split_and!; try done.
    pose proof (Hmono (e_from t) (proj1 Hwt)). lia. }
  destruct Hcase as [Hinc|(_ & _ & Ex & _)].
  - pose proof Hinc as (Hrej & _ & Hget & Ex & _). apply rejection_None in Hrej as (_ & Hno & _).
    assert (Hused : not_self tx → e_nonce tx < u64_max →
      e_nonce tx < nonce (get_account (x_state x1) (e_from tx))).
    { intros Hself Hlt. rewrite Hget by apply Htx. unfold after_transfer.
      rewrite decide_False, decide_True by done. cbn. unfold sat_add. lia. }
    exists (tx :: l). rewrite El, Ex, <- (assoc_L (++)). split_and!; [done|by constructor| |].
    + constructor; [done|]. apply Forall_forall. intros t Ht Hself Hlt Ef.
      destruct (Hl t Ht) as (_ & Hge & _). rewrite Ef in Hge. specialize (Hused Hself Hlt). lia.
    + intros t [->|Ht]%elem_of_cons; [|by apply Hl']. split_and!; [done|lia|]. intros Hself Hlt.
      pose proof (runs_nonces _ _ _ (e_from tx) (proj1 Htx) Hr). specialize (Hused Hself Hlt). lia.
  - exists l. rewrite El, Ex. split_and!; [done|by constructor|done|done].
Qed.

(** ** The ledger a batch implements *)

(** A transfer: the sender is debited and counts a transaction, then the
    receiver is credited. *)
Definition transfer (L : Z → Account) (tx : ETransaction) : Z → Account :=
  let L1 b := if decide (b = e_from tx)
              then mkAccount (balance (L b) - e_amount tx) (nonce (L b) + 1) else L b in
  λ b, if decide (b = e_to tx) then mkAccount (balance (L1 b) + e_amount tx) (nonce (L1 b)) else L1 b.

Definition admits (L : Z → Account) (count : Z) (tx : ETransaction) : bool :=
  verify_tx_signature allow_unsigned tx && (nonce (L (e_from tx)) =? e_nonce tx) &&
  (e_amount tx <=? balance (L (e_from tx))) && (count <? max).

Fixpoint ledger_run (txs : list ETransaction) (L : Z → Account) (done : list ETransaction)
    : (Z → Account) * list ETransaction :=
  match txs with
  | [] => (L, done)
  | tx :: txs => if admits L (Z.of_nat (length done)) tx
                 then ledger_run txs (transfer L tx) (done ++ [tx])
                 else ledger_run txs L done
  end.

Lemma admits_iff L count tx :
  admits L count tx = true ↔ rejection allow_unsigned tx (L (e_from tx)) = None ∧ count < max.
Proof.
  unfold admits. rewrite !andb_true_iff, rejection_None, Z.eqb_eq, Z.leb_le, Z.ltb_lt. tauto.
Qed.

Lemma runs_refines l txs x x' L :
  NoDup l → Forall is_address l → Forall not_self txs → Forall (within l) txs →
  supply l (x_state x) ≤ u64_max →
  (∀ a, a ∈ l → nonce (get_account (x_state x) a) + Z.of_nat (length txs) ≤ u64_max) →
  runs txs x x' → (∀ b, is_address b → get_account (x_state x) b = L b) →
  let '(L', executed) := ledger_run txs L (x_executed x) in
  x_executed x' = executed ∧ ∀ b, is_address b → get_account (x_state x') b = L' b.
Proof.
  intros Hn Hl Hself Hwith Hsup Hnon Hr HL. revert L HL Hself Hwith Hsup Hnon.
  induction Hr as [x|tx txs x x1 x2 Hx Htx Hx1 Hcase Hr IH]; intros L HL Hself Hwith Hsup Hnon; [done|].
  inversion Hself as [|?? Hs Hself']; subst. inversion Hwith as [|?? Hw Hwith']; subst.
  cbn [ledger_run]. pose proof (admits_iff L (Z.of_nat (length (x_executed x))) tx) as Hadm.
  rewrite <- (HL (e_from tx)) in Hadm by apply Htx.
  destruct Hcase as [Hinc|(Hrej & Es & Ee & _)].
  - destruct (included_supply l tx x x1 Hn Hl Hx Htx Hs Hw Hsup Hinc) as [Esup Hfit].
    pose proof Hinc as (Hrej & Hcount & Hget & Ee & _). rewrite (proj2 Hadm (conj Hrej Hcount)).
    rewrite <- Ee. apply IH; try done; [|lia|].
    + intros b Hb. rewrite Hget by done. unfold after_transfer, transfer. rewrite <- !HL by done.
      unfold not_self, sat_add in *. destruct Hw as [Hwf _]. specialize (Hnon _ Hwf). cbn in Hnon.
      repeat case_decide; subst; try done; rewrite Z.min_l by lia; done.
    + intros a Ha. specialize (Hnon a Ha). cbn in Hnon. rewrite Forall_forall in Hl.
      rewrite Hget by auto. unfold after_transfer, sat_add. repeat case_decide; cbn; lia.
  - destruct (admits L (Z.of_nat (length (x_executed x))) tx) eqn:Ea.
    { destruct (proj1 Hadm eq_refl) as [? Hc]. destruct Hrej; [done|lia]. }
    rewrite <- Ee. apply IH; rewrite ?Es; try done.
    intros a Ha. specialize (Hnon a Ha). cbn in Hnon. lia.
Qed.
End correctness.

Section batch.
Context `{Hashing} `{PubkeyRecover} `{TraceCodec} {S : Type} `{StateManagerLaws S} (allow_unsigned : bool).

Lemma execute_batch_runs batch_id txs s :
  state_ok s → Forall wf_etx txs →
  ∃ t s' x', execute_batch allow_unsigned batch_id txs s = (Ok t, s') ∧ state_ok s' ∧
    runs allow_unsigned (max_included batch_id) txs (mkProgress s (current_root s) [] [] []) x' ∧
    s' = x_state x' ∧ t_executed t = x_executed x' ∧ t_diffs t = x_diffs x' ∧
    t_initial_root t = current_root s ∧ t_final_root t = x_root x'.
Proof.
  intros Hs Htxs. unfold execute_batch.
  destruct (execute_txs_runs allow_unsigned (max_included batch_id) txs
    (mkProgress s (current_root s) [] [] []) Hs Htxs) as (x' & -> & Hr & Hx').
  do 3 eexists. by split_and!.
Qed.


Lemma executed_nonces_grow id1 id2 txs1 txs2 s t1 s1 t2 s2 tx tx' :
  state_ok s → Forall wf_etx txs1 → Forall wf_etx txs2 →
  execute_batch allow_unsigned id1 txs1 s = (Ok t1, s1) →
  execute_batch allow_unsigned id2 txs2 s1 = (Ok t2, s2) →
  tx ∈ t_executed t1 → not_self tx → e_nonce tx < u64_max →
  tx' ∈ t_executed t2 → e_from tx' = e_from tx → e_nonce tx < e_nonce tx'.
Proof.
  intros Hs Hw1 Hw2 E1 E2 Hin Hself Hlt Hin' Hfrom.
  destruct (execute_batch_runs id1 txs1 s Hs Hw1) as (? & ? & x1 & E & Hs1 & Hr1 & -> & Ee1 & _).
  rewrite E1 in E. injection E as -> ->.
  destruct (execute_batch_runs id2 txs2 _ Hs1 Hw2) as (? & ? & x2 & E & _ & Hr2 & -> & Ee2 & _).
  rewrite E2 in E. injection E as -> ->.
  destruct (runs_executed _ _ _ _ _ Hr1) as (l1 & El1 & _ & _ & Hl1).
  destruct (runs_executed _ _ _ _ _ Hr2) as (l2 & El2 & _ & _ & Hl2).
  rewrite Ee1, El1 in Hin. rewrite Ee2, El2 in Hin'. cbn in Hin, Hin', Hl2.
  destruct (Hl1 tx Hin) as (_ & _ & Hused). destruct (Hl2 tx' Hin') as (_ & Hge & _).
  specialize (Hused Hself Hlt). rewrite Hfrom in Hge. lia.
Qed.

(** Batches executed one after another on one state: what they include. *)
Fixpoint execute_batches (bs : list (string * list ETransaction)) (s : S) : list ETransaction * S :=
  match bs with
  | [] => ([], s)
  | (batch_id, txs) :: bs =>
      let '(r, s) := execute_batch allow_unsigned batch_id txs s in
      let '(l, s) := execute_batches bs s in
      (match r with Ok t => t_executed t | _ => [] end ++ l, s)
  end.

Lemma execute_batches_sorted bs s :
  state_ok s → Forall (λ b, Forall wf_etx b.2) bs →
  StronglySorted precedes (execute_batches bs s).1 ∧
  ∀ tx, tx ∈ (execute_batches bs s).1 → wf_etx tx ∧ nonce (get_account s (e_from tx)) ≤ e_nonce tx.
Proof.
  intros Hs Hbs. revert s Hs. induction Hbs as [|[id txs] bs Hw _ IH]; intros s Hs; cbn.
  { split; [constructor|]. by intros ? ?%elem_of_nil. }
  destruct (execute_batch_runs id txs s Hs Hw) as (t & s1 & x & -> & Hs1 & Hr & -> & Et & _).
  destruct (runs_executed _ _ _ _ _ Hr) as (l & El & _ & Hsort & Hl). cbn in El, Hl. rewrite Et, El.
  destruct (IH _ Hs1) as [Hsort' Hl']. destruct (execute_batches bs (x_state x)) as [l' s2]. cbn in *.
  split.
  - apply StronglySorted_app_2; [|done|done]. intros tx tx' Hin Hin' Hself Hlt Ef.
    destruct (Hl tx Hin) as (_ & _ & Hused). destruct (Hl' tx' Hin') as [_ Hge].
    specialize (Hused Hself Hlt). rewrite Ef in Hge. lia.
  - intros tx [Hin|Hin]%elem_of_app; [split; by apply Hl|].
    destruct (Hl' tx Hin) as [Hwf Hge]. split; [done|].
    pose proof (runs_nonces _ _ _ _ _ (e_from tx) (proj1 Hwf) Hr). cbn in *. lia.
Qed.

(** C31: Over any number of batches executed one after another, a transaction
    that was included is never included again: every transaction of its sender
    included after it, in its own batch or in any later one, has a larger nonce.
    Transfers of an account to itself and the nonce [u64::MAX] are excepted.  The
    batches run on one state: a restart of the server, which writes the genesis
    accounts again, is not among them. *)
Theorem executed_once bs s i j tx tx' :
  state_ok s → Forall (λ b, Forall wf_etx b.2) bs →
  let included := (execute_batches bs s).1 in
  included !! i = Some tx → included !! j = Some tx' → (i < j)%nat →
  not_self tx → e_nonce tx < u64_max → e_from tx' = e_from tx → e_nonce tx < e_nonce tx'.
Proof.
  intros Hs Hbs included Hi Hj Hlt Hself Hmax Hfrom.
  destruct (execute_batches_sorted bs s Hs Hbs) as [Hsort _]. fold included in Hsort.
  rewrite <- (take_drop_middle included i tx Hi) in Hsort.
  apply StronglySorted_app_1_r, StronglySorted_cons in Hsort as [Hall _].
  rewrite Forall_forall in Hall. apply Hall; try done.
  apply list_elem_of_lookup. exists (j - Datatypes.S i)%nat. rewrite lookup_drop. by replace (_ + _)%nat with j by lia.
Qed.

(** C37: A transfer of an account to itself credits the amount, debits nothing and
    does not use up its nonce: repeated [n] times, it is included [n] times. *)
Theorem self_transfer_mints batch_id tx s n :
  state_ok s → wf_etx tx → e_from tx = e_to tx →
  rejection allow_unsigned tx (get_account s (e_from tx)) = None →
  Z.of_nat n ≤ max_included batch_id →
  balance (get_account s (e_from tx)) + Z.of_nat n * e_amount tx ≤ u64_max →
  ∃ t s', execute_batch allow_unsigned batch_id (replicate n tx) s = (Ok t, s') ∧
    t_executed t = replicate n tx ∧
    get_account s' (e_from tx) =
      mkAccount (balance (get_account s (e_from tx)) + Z.of_nat n * e_amount tx)
                (nonce (get_account s (e_from tx))).
Proof.
  intros Hs Htx Hself Hrej Hmax Hfit.
  assert (Hwf : Forall wf_etx (replicate n tx)) by by apply Forall_replicate.
  destruct (execute_batch_runs batch_id _ s Hs Hwf) as (t & s' & x' & E & _ & Hr & -> & Ee & _).
  exists t, (x_state x'). split; [done|]. rewrite Ee. clear E Ee.
  enough (G : ∀ x, runs allow_unsigned (max_included batch_id) (replicate n tx) x x' →
    rejection allow_unsigned tx (get_account (x_state x) (e_from tx)) = None →
    Z.of_nat (length (x_executed x)) + Z.of_nat n ≤ max_included batch_id →
    balance (get_account (x_state x) (e_from tx)) + Z.of_nat n * e_amount tx ≤ u64_max →
    x_executed x' = x_executed x ++ replicate n tx ∧
    get_account (x_state x') (e_from tx) =
      mkAccount (balance (get_account (x_state x) (e_from tx)) + Z.of_nat n * e_amount tx)
                (nonce (get_account (x_state x) (e_from tx))))
    by (apply (G _ Hr Hrej); cbn; lia).
  clear Hr Hrej Hmax Hfit Hwf Hs s. induction n as [|n IH]; intros x Hr Hrej Hmax Hfit.
  - inversion Hr; subst. rewrite app_nil_r. split; [done|]. destruct (get_account _ _). cbn. f_equal; lia.
  - inversion Hr as [|? ? ? x1 ? Hx _ Hx1 Hcase Hr']; subst.
    destruct Hcase as [(_ & _ & Hget & Ex & _)|([?|?] & _)]; [|done|lia].
    assert (Ha : get_account (x_state x1) (e_from tx) =
      mkAccount (balance (get_account (x_state x) (e_from tx)) + e_amount tx)
        (nonce (get_account (x_state x) (e_from tx)))).
    { rewrite Hget by apply Htx. unfold after_transfer. rewrite decide_True by done.
      destruct Htx as (_ & _ & [??] & _). unfold sat_add. rewrite Z.min_l by nia. done. }
    pose proof Hrej as (Hsig & Hno & Hle)%rejection_None.
    assert (0 ≤ e_amount tx) by apply Htx.
    destruct (IH x1 Hr') as [Ex' Ha'].
    + rewrite Ha. apply rejection_None. cbn. split_and!; [done|done|lia].
    + rewrite Ex, length_app. cbn. lia.
    + rewrite Ha. cbn [balance]. lia.
    + rewrite Ex', Ex, <- (assoc_L (++)), Ha', Ha. cbn. split; [done|]. f_equal. lia.
Qed.
End batch.

(** C26: Every batch is executed, and balances and nonces keep their width: whatever
    the transactions, transfers of an account to itself included, a batch neither
    fails nor panics and leaves every account in the range of [u64]. *)
Theorem execute_batch_typed `{Hashing} `{PubkeyRecover} `{TraceCodec} {S : Type} `{StateManagerLaws S}
    allow_unsigned batch_id txs (s : S) :
  state_ok s → Forall wf_etx txs →
  ∃ t s', execute_batch allow_unsigned batch_id txs s = (Ok t, s') ∧
    ∀ a, is_address a → is_u64 (balance (get_account s' a)) ∧ is_u64 (nonce (get_account s' a)).
Proof.
  intros Hs Hw. destruct (execute_batch_runs allow_unsigned batch_id txs s Hs Hw)
    as (t & s' & _ & E & Hs' & _). exists t, s'. split; [done|]. by apply Hs'.
Qed.

(** ** Concrete batches *)

Module EngineSamples.
#[local] Existing Instance model_hashing.
#[local] Existing Instance model_hashing_laws.

(** The public key a model signature spells out. *)
#[export] Instance model_pubkey : PubkeyRecover := λ _ sig _, Some (Byte.x04 :: sig).
#[export] Instance model_codec : TraceCodec :=
  {| encode_outcomes := λ l, [byte_of (Z.of_nat (length l))];
     encode_diffs := λ l, [byte_of (Z.of_nat (length l))] |}.

Definition sample_state : InMemoryStateManager :=
  <[1 := mkAccount 100 0]> (<[2 := mkAccount 5 7]> ∅).

Definition sample_tx (from to amount nonce : Z) : ETransaction :=
  mkETx from to amount nonce [] 1 21000 0 0.

Lemma memory_state_ok (m : InMemoryStateManager) : map_Forall (λ _, wf_account) m → state_ok m.
Proof.
  intros Hm. split; [done|]. intros a _. cbn. unfold mem_get_account.
  destruct (m !! a) as [acc|] eqn:E; [by apply (Hm a)|]. repeat split; cbn; done || lia.
Qed.

Lemma sample_state_ok : state_ok sample_state.
Proof.
  apply memory_state_ok. repeat apply map_Forall_insert_2; [..|apply map_Forall_empty];
    repeat split; vm_compute; discriminate.
Qed.

Ltac sample_wf := repeat (apply Forall_cons_2 || apply Forall_nil_2 || split); vm_compute; try done; discriminate.


Lemma execute_batch_typed_witness :
  ∃ t s', execute_batch true "1" [sample_tx 1 1 30 0; sample_tx 9 2 10 0] sample_state = (Ok t, s') ∧
    is_u64 (balance (get_account s' 1)).
Proof.
  destruct (execute_batch_typed true "1" [sample_tx 1 1 30 0; sample_tx 9 2 10 0] sample_state)
    as (t & s' & E & Ha); [apply sample_state_ok|sample_wf|].
  exists t, s'. split; [exact E|]. apply (Ha 1). vm_compute. split; [discriminate|reflexivity].
Defined.

Definition sample_trace : ExecutionTrace * InMemoryStateManager :=
  match execute_batch true "1" [sample_tx 1 2 30 0] sample_state with
  | (Ok t, s) => (t, s)
  | (_, s) => (mkTrace "" [] [] [] [] [] [] [] [], s)
  end.

Definition sample_batches : list (string * list ETransaction) :=
  [("1", [sample_tx 1 2 30 0]); ("2", []); ("3", [sample_tx 1 2 30 0; sample_tx 1 2 5 1])].

Lemma executed_once_witness :
  (execute_batches true sample_batches sample_state).1 = [sample_tx 1 2 30 0; sample_tx 1 2 5 1] ∧
  e_nonce (sample_tx 1 2 30 0) < e_nonce (sample_tx 1 2 5 1).
Proof.
  split; [vm_compute; reflexivity|].
  apply (executed_once true sample_batches sample_state 0 1 (sample_tx 1 2 30 0) (sample_tx 1 2 5 1)).
  - apply sample_state_ok.
  - repeat (apply Forall_cons_2 || apply Forall_nil_2); sample_wf.
  - vm_compute. reflexivity.
  - vm_compute. reflexivity.
  - lia.
  - vm_compute. discriminate.
  - vm_compute. reflexivity.
  - reflexivity.
Defined.

Lemma self_transfer_witness :
  ∃ t s', execute_batch true "1" (replicate 3 (sample_tx 1 1 50 0)) sample_state = (Ok t, s') ∧
    get_account s' 1 = mkAccount 250 0.
Proof.
  destruct (self_transfer_mints true "1" (sample_tx 1 1 50 0) sample_state 3) as (t & s' & E & _ & Hg).
  - apply sample_state_ok.
  - sample_wf.
  - reflexivity.
  - vm_compute. reflexivity.
  - vm_compute. discriminate.
  - vm_compute. discriminate.
  - exists t, s'. split; [exact E|]. exact Hg.
Defined.

End EngineSamples.
