(* ===== verification/ProverCore.v ===== *)
(** * The RISC Zero guest ([risc0_prover/rollup_core/src/lib.rs],
      [risc0_prover/guest/src/main.rs]) and the trace it is given
      ([executor/src/proof.rs], [to_rollup_core_trace])

    The guest replays the differences of a batch along a chain of hashes.  The
    theorems compare the statement it proves with what the executor did. *)

From stdpp Require Import base gmap list strings.
From Stdlib Require Import ZArith Lia.
From S2P Require Import Prelude Rust SequencerTypes ExecutorTypes ExecutorState ExecutorEngine.

(** [rollup_core::StateDiff] *)
Record CoreDiff := mkCoreDiff {
  c_account : Z;
  c_old_balance : Z;
  c_new_balance : Z;
  c_old_nonce : Z;
  c_new_nonce : Z;
  c_merkle_proof : list bytes;
}.

Record BlockTrace := mkBlockTrace {
  bt_batch_id : string;
  bt_initial_root : bytes;
  bt_final_root : bytes;
  bt_state_diffs : list CoreDiff;
}.

Inductive VerifyError := InvalidOldBalance | InvalidOldNonce | InvalidDebit | InvalidWitness.

Section guest.
Context `{Hashing}.

Definition core_diff_bytes (prev_root : bytes) (diff : CoreDiff) : bytes :=
  prev_root ++ be_enc 20 (c_account diff) ++ be_enc 8 (c_old_balance diff) ++
  be_enc 8 (c_new_balance diff) ++ be_enc 8 (c_old_nonce diff) ++ be_enc 8 (c_new_nonce diff).

Definition core_fold_diff (prev_root : bytes) (diff : CoreDiff) : bytes :=
  sha256 (core_diff_bytes prev_root diff).

(** [LightweightSMT::apply_diff]: the root after the difference. *)
Definition apply_diff (root : bytes) (diff : CoreDiff) : result VerifyError bytes :=
  if c_new_nonce diff <? c_old_nonce diff then Err InvalidOldNonce
  else if (c_old_nonce diff <? c_new_nonce diff) && (c_old_balance diff <? c_new_balance diff)
  then Err InvalidDebit
  else match c_merkle_proof diff with
       | expected :: _ => if bool_decide (expected = root) then Ok (core_fold_diff root diff)
                          else Err InvalidWitness
       | [] => Err InvalidWitness
       end.

Fixpoint apply_diffs (root : bytes) (diffs : list CoreDiff) : result VerifyError bytes :=
  match diffs with
  | [] => Ok root
  | d :: diffs => root ← apply_diff root d; apply_diffs root diffs
  end.

(** The guest: its journal, unless it panics. *)
Definition guest_main (trace : BlockTrace) : option (bytes * bytes) :=
  match apply_diffs (bt_initial_root trace) (bt_state_diffs trace) with
  | Ok root => if bool_decide (root = bt_final_root trace)
               then Some (bt_initial_root trace, bt_final_root trace) else None
  | _ => None
  end.

Definition to_core_diff (d : StateDiff) : CoreDiff :=
  mkCoreDiff (d_account d) (d_old_balance d) (d_new_balance d) (d_old_nonce d) (d_new_nonce d)
    (d_merkle_proof d).

Definition to_rollup_core_trace (t : ExecutionTrace) : BlockTrace :=
  mkBlockTrace (t_batch_id t) (t_initial_root t) (t_final_root t) (to_core_diff <$> t_diffs t).

Lemma core_fold_to_core root d : core_fold_diff root (to_core_diff d) = fold_diff root d.
Proof. done. Qed.

Lemma apply_diffs_app root l l' :
  apply_diffs root (l ++ l') = (r ← apply_diffs root l; apply_diffs r l').
Proof.
  revert root. induction l as [|d l IH]; intros root; cbn; [done|].
  destruct (apply_diff root d); cbn; [apply IH|done|done].
Qed.

(** A difference with the expected witness is checked for its nonces and debit only. *)
Lemma apply_diff_witnessed root d a old new :
  is_diff d a old new root →
  apply_diff root (to_core_diff d) =
    if nonce new <? nonce old then Err InvalidOldNonce
    else if (nonce old <? nonce new) && (balance old <? balance new) then Err InvalidDebit
    else Ok (fold_diff root d).
Proof.
  intros (_ & Eb & Eb' & En & En' & Ep). unfold apply_diff. cbn.
  rewrite Ep, Eb, Eb', En, En', bool_decide_true by done. done.
Qed.

End guest.

(** ** The guest replays the executor's trace *)

Section replay.
Context `{Hashing} `{PubkeyRecover} {S : Type} `{StateManagerLaws S} (allow_unsigned : bool) (max : Z).

Definition self_transfers (txs : list ETransaction) : list ETransaction :=
  filter (λ tx, e_from tx = e_to tx) txs.

Lemma included_replay tx (x x' : Progress S) :
  state_ok (x_state x) → wf_etx tx → e_nonce tx < u64_max → included allow_unsigned max tx x x' →
  ∃ ds, x_diffs x' = x_diffs x ++ ds ∧
    apply_diffs (x_root x) (to_core_diff <$> ds) =
      if decide (e_from tx = e_to tx) then Err InvalidOldNonce else Ok (x_root x').
Proof.
  intros [_ Hw] Htx Hlt (Hrej & _ & _ & _ & d1 & d2 & [Hd1 Hd2] & Eds & Er).
  exists [d1; d2]. split; [done|]. rewrite Er. clear Eds Er.
  apply rejection_None in Hrej as (_ & Hno & Hbal).
  destruct (Hw _ (proj1 Htx)) as [_ [Hn0 _]].
  assert (0 ≤ e_amount tx) by apply Htx.
  cbn [fmap list_fmap apply_diffs]. rewrite (apply_diff_witnessed _ _ _ _ _ Hd1).
  cbn [sender_after nonce balance]. unfold sat_add. rewrite Z.min_l by lia.
  rewrite (proj2 (Z.ltb_ge _ _)) by lia.
  rewrite (proj2 (Z.ltb_ge (balance _) (balance _ - _))), andb_false_r by lia. cbn [mbind result_bind].
  rewrite (apply_diff_witnessed _ _ _ _ _ Hd2). unfold after_transfer.
  rewrite (decide_True (P := e_to tx = e_to tx)) by done. cbn [nonce].
  destruct (decide (e_from tx = e_to tx)) as [E|Hne].
  - rewrite (decide_True (P := e_to tx = e_from tx)) by done. cbn [sender_after nonce]. unfold sat_add.
    rewrite <- E, Z.min_l by lia. rewrite (proj2 (Z.ltb_lt _ _)) by lia. done.
  - rewrite decide_False by done. by rewrite Z.ltb_irrefl.
Qed.

Lemma runs_replay txs (x x' : Progress S) :
  Forall (λ tx, e_nonce tx < u64_max) txs → runs allow_unsigned max txs x x' →
  ∃ ds l, x_diffs x' = x_diffs x ++ ds ∧ x_executed x' = x_executed x ++ l ∧
    apply_diffs (x_root x) (to_core_diff <$> ds) =
      if decide (self_transfers l = []) then Ok (x_root x') else Err InvalidOldNonce.
Proof.
  intros Hlt Hr. induction Hr as [x|tx txs x x1 x2 Hx Htx Hx1 Hcase Hr IH].
  { exists [], []. rewrite !app_nil_r. by split_and!. }
  inversion Hlt as [|?? Htlt Hlt']; subst. destruct (IH Hlt') as (ds & l & Ed & El & Ea).
  destruct Hcase as [Hinc|(_ & _ & Ee & Eds & Er)].
  - destruct (included_replay tx x x1 Hx Htx Htlt Hinc) as (ds1 & Ed1 & Ea1).
    pose proof Hinc as (_ & _ & _ & Ee & _).
    exists (ds1 ++ ds), (tx :: l). rewrite Ed, Ed1, El, Ee, <- !(assoc_L (++)). split_and!; try done.
    rewrite fmap_app, apply_diffs_app, Ea1. unfold self_transfers. rewrite filter_cons.
    destruct (decide (e_from tx = e_to tx)); cbn; [done|]. exact Ea.
  - exists ds, l. by rewrite Ed, El, Eds, Ee, <- Er.
Qed.
End replay.

Section statement.
Context `{Hashing} `{PubkeyRecover} `{TraceCodec} {S : Type} `{StateManagerLaws S} (allow_unsigned : bool).

Lemma guest_replays_iff batch_id txs (s : S) t s' :
  state_ok s → Forall wf_etx txs → Forall (λ tx, e_nonce tx < u64_max) txs →
  execute_batch allow_unsigned batch_id txs s = (Ok t, s') →
  guest_main (to_rollup_core_trace t) =
    if decide (self_transfers (t_executed t) = []) then Some (t_initial_root t, t_final_root t) else None.
Proof.
  intros Hs Hw Hlt E.
  destruct (execute_batch_runs allow_unsigned batch_id txs s Hs Hw)
    as (? & ? & x' & E' & _ & Hr & -> & Ee & Ed & Ei & Ef).
  rewrite E in E'. injection E' as -> ->.
  destruct (runs_replay _ _ _ _ _ Hlt Hr) as (ds & l & Eds & El & Ea).
  unfold guest_main. cbn. rewrite Ee, El, Ed, Eds, Ei, Ef. cbn [x_diffs x_executed app] in *.
  cbn [x_root] in Ea. rewrite Ea. case_decide; [|done]. by rewrite bool_decide_true.
Qed.

(** C6: The guest accepts the trace of an executed batch and commits to its two
    roots if and only if no transfer of an account to itself was included. *)
Theorem guest_replays_trace batch_id txs (s : S) t s' :
  state_ok s → Forall wf_etx txs → Forall (λ tx, e_nonce tx < u64_max) txs →
  execute_batch allow_unsigned batch_id txs s = (Ok t, s') →
  guest_main (to_rollup_core_trace t) =
    if decide (self_transfers (t_executed t) = []) then Some (t_initial_root t, t_final_root t) else None.
Proof. apply guest_replays_iff. Qed.
End statement.

(** ** What the proof does not say *)

Section soundness.
Context `{Hashing}.

(** From any root the guest accepts a trace that raises any balance of any
    account to any value: neither balances nor signatures enter the
    statement. *)
Theorem guest_accepts_minting root a old new n :
  ∃ d, c_account d = a ∧ c_old_balance d = old ∧ c_new_balance d = new ∧
    c_old_nonce d = n ∧ c_new_nonce d = n ∧
    guest_main (mkBlockTrace "" root (core_fold_diff root d) [d]) = Some (root, core_fold_diff root d).
Proof.
  exists (mkCoreDiff a old new n n [root]). split_and!; try done.
  unfold guest_main, apply_diffs, apply_diff. cbn.
  rewrite Z.ltb_irrefl. cbn. rewrite bool_decide_true by done. cbn. by rewrite bool_decide_true.
Qed.

(** The fields of a difference that enter the chain of roots. *)
Definition chained (d : CoreDiff) : Z * Z * Z * Z * Z :=
  (c_account d, c_old_balance d, c_new_balance d, c_old_nonce d, c_new_nonce d).

Definition wf_core_diff (d : CoreDiff) : Prop :=
  is_address (c_account d) ∧ is_u64 (c_old_balance d) ∧ is_u64 (c_new_balance d) ∧
  is_u64 (c_old_nonce d) ∧ is_u64 (c_new_nonce d).

Lemma core_diff_bytes_inj r r' d d' :
  length r = length r' → wf_core_diff d → wf_core_diff d' →
  core_diff_bytes r d = core_diff_bytes r' d' → r = r' ∧ chained d = chained d'.
Proof.
  unfold core_diff_bytes, wf_core_diff, is_u64, u64_max, chained. intros Hl Hd Hd' E.
  destruct Hd as (Ha & ? & ? & ? & ?), Hd' as (Ha' & ? & ? & ? & ?).
  apply app_inj_1 in E as [-> E]; [|done].
  apply be_enc_app_inj in E as [-> E]; [|exact Ha|exact Ha'].
  do 3 (apply be_enc_app_inj in E as [-> E]; [|cbn; lia..]).
  apply be_enc_inj in E as ->; [done|cbn; lia..].
Qed.
End soundness.

Section chain.
Context `{HashingLaws}.

Lemma apply_diffs_snoc root l d r :
  apply_diffs root (l ++ [d]) = Ok r ↔
    ∃ r0, apply_diffs root l = Ok r0 ∧ apply_diff r0 d = Ok r.
Proof.
  rewrite apply_diffs_app. split.
  - intros (r0 & Hr & E)%result_bind_inv. exists r0. split; [done|]. cbn in E.
    apply result_bind_inv in E as (r1 & E & [= ->]). done.
  - intros (r0 & -> & E). cbn. by rewrite E.
Qed.

(** What is hashed along a list of differences. *)
Fixpoint diff_inputs (root : bytes) (l : list CoreDiff) : list bytes :=
  match l with
  | [] => []
  | d :: l => core_diff_bytes root d :: diff_inputs (core_fold_diff root d) l
  end.

Lemma apply_diff_root r d r' : apply_diff r d = Ok r' → r' = core_fold_diff r d.
Proof. unfold apply_diff. repeat case_match; try done. by intros [= <-]. Qed.

Lemma apply_diffs_length root l r : length root = 32%nat → apply_diffs root l = Ok r → length r = 32%nat.
Proof.
  intros Hr. destruct l as [|d l _] using rev_ind; [by intros [= <-]|].
  rewrite apply_diffs_snoc. intros (r0 & _ & ->%apply_diff_root). apply sha256_length.
Qed.

Lemma diff_inputs_snoc root l d r :
  apply_diffs root l = Ok r → diff_inputs root (l ++ [d]) = diff_inputs root l ++ [core_diff_bytes r d].
Proof.
  revert root. induction l as [|d' l IH]; intros root E; cbn in *; [by injection E as ->|].
  apply result_bind_inv in E as (r1 & ->%apply_diff_root & E). by rewrite (IH _ E).
Qed.

Lemma apply_diffs_inj seen i i' l l' r :
  ¬ collision_in sha256 seen → length i = 32%nat → length i' = 32%nat →
  diff_inputs i l ⊆ seen → diff_inputs i' l' ⊆ seen →
  length l = length l' → Forall wf_core_diff l → Forall wf_core_diff l' →
  apply_diffs i l = Ok r → apply_diffs i' l' = Ok r → chained <$> l = chained <$> l'.
Proof.
  intros Hc Hi Hi'. revert l' r.
  induction l as [|d l IH] using rev_ind; intros l' r Sl Sl' Hlen Hd Hd' E E'; [by destruct l'|].
  destruct l' as [|d' l' _] using rev_ind; rewrite !length_app in Hlen; cbn in Hlen; [lia|].
  apply Forall_app in Hd as [Hd Hdx], Hd' as [Hd' Hdx']. rewrite Forall_singleton in Hdx, Hdx'.
  apply apply_diffs_snoc in E as (r0 & E & Er%apply_diff_root).
  apply apply_diffs_snoc in E' as (r0' & E' & Er'%apply_diff_root).
  rewrite (diff_inputs_snoc _ _ _ _ E) in Sl. rewrite (diff_inputs_snoc _ _ _ _ E') in Sl'.
  assert (Eb : core_diff_bytes r0 d = core_diff_bytes r0' d').
  { apply (no_collision_inj _ _ _ _ Hc); [set_solver..|]. unfold core_fold_diff in *. congruence. }
  apply core_diff_bytes_inj in Eb as [-> Ec]; [|by rewrite (apply_diffs_length _ _ _ Hi E), (apply_diffs_length _ _ _ Hi' E')|done..].
  by rewrite !fmap_app, (IH l' r0'), !list_fmap_singleton, Ec by (done || lia || set_solver).
Qed.

(** Two accepted traces with the same number of differences and the same
    roots describe the same changes, unless two of the inputs hashed along
    them collide. *)
Theorem journal_binds_diffs t t' j :
  length (bt_initial_root t) = 32%nat → length (bt_initial_root t') = 32%nat →
  Forall wf_core_diff (bt_state_diffs t) → Forall wf_core_diff (bt_state_diffs t') →
  length (bt_state_diffs t) = length (bt_state_diffs t') →
  guest_main t = Some j → guest_main t' = Some j →
  chained <$> bt_state_diffs t = chained <$> bt_state_diffs t' ∨
  collision_in sha256 (diff_inputs (bt_initial_root t) (bt_state_diffs t) ++
                       diff_inputs (bt_initial_root t') (bt_state_diffs t')).
Proof.
  intros Hi Hi' Hd Hd' Hlen Hg Hg'. unfold guest_main in *.
  destruct (apply_diffs (bt_initial_root t) _) as [r| |] eqn:E; try done.
  destruct (apply_diffs (bt_initial_root t') _) as [r'| |] eqn:E'; try done.
  case_bool_decide as Hr; [|done]. case_bool_decide as Hr'; [|done]. simplify_eq.
  match goal with Hf : bt_final_root t = _ |- _ => rewrite Hf in E; clear Hf end.
  match goal with |- _ ∨ ?c => destruct (decide c) as [|Hc]; [by right|left] end.
  eapply (apply_diffs_inj _ _ _ _ _ _ Hc Hi Hi'); try done; set_solver.
Qed.

End chain.

(** ** Consecutive batches *)

Section consecutive.
Context `{HashingLaws} `{PubkeyRecover} `{TraceCodec} (allow_unsigned : bool).

Lemma compute_root_preimage m :
  m ≠ ∅ → ∃ b, b ∈ root_inputs m ∧ compute_root m = sha256 b ∧ (length b = 36%nat ∨ length b = 64%nat).
Proof.
  intros Hm. destruct (compute_root_levels m Hm) as (k & Hk & Sk).
  assert (Hin : compute_root m ∈ levels k (leaf_hashes m)) by (rewrite Hk; by left).
  destruct k as [|k].
  - apply list_elem_of_fmap in Hin as ([a acc] & E & Hin). cbn in E.
    exists (leaf_bytes a acc). rewrite leaf_bytes_length. split_and!; [|done|by left].
    rewrite Sk. apply elem_of_app. left. apply list_elem_of_fmap. by exists (a, acc).
  - apply elem_of_levels in Hin as (b & Hb & E & Hl); [|apply leaf_hashes_hashes].
    exists b. rewrite Sk. split_and!; [set_solver|done|by right].
Qed.

(** What [fold_diff] hashes. *)
Definition fold_diff_bytes (r : bytes) (d : StateDiff) : bytes := core_diff_bytes r (to_core_diff d).

Lemma runs_final_root max txs (x x' : Progress InMemoryStateManager) :
  runs allow_unsigned max txs x x' →
  (x_executed x' = x_executed x ∧ x_root x' = x_root x) ∨
  ∃ r d, length r = 32%nat ∧ x_root x' = sha256 (fold_diff_bytes r d).
Proof.
  induction 1 as [x|tx txs x x1 x2 _ _ _ Hcase _ IH]; [by left|].
  destruct IH as [[Ex2 Er2]|]; [|by right]. rewrite Er2, Ex2.
  destruct Hcase as [(_ & _ & _ & _ & d1 & d2 & _ & _ & ->)|(_ & _ & Ee & _ & Er)]; [|by left].
  right. eexists _, d2. split; [|reflexivity]. apply sha256_length.
Qed.

(** The final root of a batch that includes a transaction is not the initial
    root of the next batch, unless the chain of differences, whose end is the
    one, collides with an input hashed for the Merkle root, which is the other. *)
Theorem roots_do_not_chain id1 id2 txs1 txs2 (s : InMemoryStateManager) t1 s1 t2 s2 :
  state_ok s → Forall wf_etx txs1 → Forall wf_etx txs2 → s1 ≠ ∅ →
  execute_batch allow_unsigned id1 txs1 s = (Ok t1, s1) →
  execute_batch allow_unsigned id2 txs2 s1 = (Ok t2, s2) →
  t_executed t1 ≠ [] → t_final_root t1 = t_initial_root t2 →
  ∃ r d, t_final_root t1 = sha256 (fold_diff_bytes r d) ∧
    collision_in sha256 (fold_diff_bytes r d :: root_inputs s1).
Proof.
  intros Hs Hw1 Hw2 Hne E1 E2 Hex Hroot.
  destruct (execute_batch_runs allow_unsigned id1 txs1 s Hs Hw1)
    as (? & ? & x1 & E & Hs1 & Hr1 & -> & Ee1 & _ & _ & Ef1).
  rewrite E1 in E. injection E as -> ->.
  destruct (execute_batch_runs allow_unsigned id2 txs2 _ Hs1 Hw2)
    as (? & ? & x2 & E & _ & _ & _ & _ & _ & Ei2 & _).
  rewrite E2 in E. injection E as -> ->.
  destruct (runs_final_root _ _ _ _ Hr1) as [[Ex _]|(r & d & Hr & Eb)].
  { cbn in Ex. congruence. }
  destruct (compute_root_preimage (x_state x1) Hne) as (b' & Hin & Eb' & Hb').
  exists r, d. split; [congruence|].
  exists (fold_diff_bytes r d), b'. split_and!; [by left|by right| |].
  - intros <-. unfold fold_diff_bytes, core_diff_bytes in Hb'. rewrite !length_app, !be_enc_length, Hr in Hb'. lia.
  - rewrite <- Eb, <- Eb', <- Ef1, Hroot, Ei2. done.
Qed.

End consecutive.

Module GuestSamples.
Import EngineSamples.
#[local] Existing Instance model_hashing.

Lemma guest_replays_witness :
  guest_main (to_rollup_core_trace sample_trace.1) =
    Some (t_initial_root sample_trace.1, t_final_root sample_trace.1).
Proof.
  rewrite (guest_replays_trace true "1" [sample_tx 1 2 30 0] sample_state sample_trace.1 sample_trace.2).
  - rewrite decide_True; [reflexivity|]. vm_compute. reflexivity.
  - apply sample_state_ok.
  - sample_wf.
  - repeat constructor.
  - vm_compute. reflexivity.
Defined.

End GuestSamples.
