(* ===== verification/ProofArtifacts.v ===== *)
(** * Proof artifacts ([executor/src/proof.rs], [risc0_prover/host/src/main.rs])

    The executor hands the trace to the prover's host program, reads back the
    proof, the journal and their metadata, and checks them.  JSON and the zkVM
    are libraries; the host program and the checks are translated. *)

From stdpp Require Import base gmap list strings.
From Stdlib Require Import ZArith Lia.
From S2P Require Import Prelude Js Rust SequencerTypes ExecutorTypes ExecutorState ExecutorEngine ProverCore.

(** [hex::encode(Sha256::digest(..))] *)
Definition sha256_hex `{Hashing} (b : bytes) : string := hex_digits (sha256 b).

(** [serde_json] on the trace of the guest. *)
Class CoreTraceJson := {
  trace_json : BlockTrace → bytes;
  parse_trace_json : bytes → option BlockTrace;
}.
Class CoreTraceJsonLaws `{CoreTraceJson} : Prop :=
  parse_trace_render t : parse_trace_json (trace_json t) = Some t.

(** The zkVM: a receipt of the guest's run on a trace, with its journal and,
    when the compression succeeds, its Groth16 seal.  There is no receipt of a
    run that panicked, and a receipt's journal is what the guest committed. *)
Class Zkvm := {
  prove_with_opts : BlockTrace → option (bytes * option bytes);
  journal_encode : bytes * bytes → bytes;
}.
Class ZkvmLaws `{Hashing} `{Zkvm} : Prop :=
  receipt_journal t journal seal :
    prove_with_opts t = Some (journal, seal) →
    ∃ roots, guest_main t = Some roots ∧ journal = journal_encode roots.

Record ProofRunMetadata := mkMeta {
  status : string;
  proof_mode : option string;
  trace_sha256 : string;
  public_inputs_hash : string;
  journal_sha256 : string;
  proof_sha256 : string;
  journal_bytes : Z;
  proof_bytes : Z;
}.

Record ProofArtifacts := mkArtifacts {
  pa_proof : bytes;
  pa_da_commitment : bytes;
  pa_journal_bytes : Z;
  pa_proof_bytes : Z;
  pa_proof_mode : string;
}.

Section artifacts.
Context `{Hashing} `{CoreTraceJson}.

(** The host program: proof, journal and metadata, or a failure. *)
Definition host_main `{Zkvm} (trace_bytes : bytes) : option (bytes * bytes * ProofRunMetadata) :=
  trace ← parse_trace_json trace_bytes;
  receipt ← prove_with_opts trace;
  let '(journal, groth16) := receipt in
  let '(seal, mode) :=
    match groth16 with
    | Some s => (s, "groth16"%string)
    | None => (journal, "journal_fallback"%string)
    end in
  Some (seal, journal,
    mkMeta "ok" (Some mode) (sha256_hex trace_bytes)
      (sha256_hex (bt_initial_root trace ++ bt_final_root trace)) (sha256_hex journal) (sha256_hex seal)
      (Z.of_nat (length journal)) (Z.of_nat (length seal))).

(** [generate_risc0_artifacts], given what running the host left in the files. *)
Definition check_artifacts (allow_fallback : bool) (trace : ExecutionTrace)
    (output : option (bytes * bytes * ProofRunMetadata)) : result string ProofArtifacts :=
  match output with
  | None => Err "risc0 host failed"
  | Some (proof, journal, meta) =>
      let mode := default "unknown" (proof_mode meta) in
      let expected_trace_sha := sha256_hex (trace_json (to_rollup_core_trace trace)) in
      if negb (bool_decide (status meta = "ok")) then Err "proof metadata status is not ok"
      else if negb (bool_decide (mode = "groth16")) && negb allow_fallback
      then Err "unsupported proof mode from host metadata"
      else if negb (bool_decide (trace_sha256 meta = expected_trace_sha)) then Err "trace sha mismatch"
      else if negb (bool_decide (public_inputs_hash meta = hex_digits (t_expected_journal_hash trace)))
      then Err "public input hash mismatch"
      else if negb (bool_decide (journal_sha256 meta = sha256_hex journal)) ||
              negb (journal_bytes meta =? Z.of_nat (length journal))
      then Err "journal artifact integrity mismatch"
      else if negb (bool_decide (proof_sha256 meta = sha256_hex proof)) ||
              negb (proof_bytes meta =? Z.of_nat (length proof))
      then Err "proof artifact integrity mismatch"
      else if bool_decide (proof = []) then Err "proof artifact is empty"
      else Ok (mkArtifacts proof (sha256 journal) (journal_bytes meta) (proof_bytes meta) mode)
  end.

Definition generate_risc0_artifacts `{Zkvm} (allow_fallback : bool) (trace : ExecutionTrace)
    : result string ProofArtifacts :=
  check_artifacts allow_fallback trace (host_main (trace_json (to_rollup_core_trace trace))).

Definition generate_mock_artifacts (trace : ExecutionTrace) : ProofArtifacts :=
  let proof := sha256 (String.list_byte_of_string "rollupx-mock-proof" ++
                       trace_json (to_rollup_core_trace trace)) in
  let journal := t_initial_root trace ++ t_final_root trace in
  mkArtifacts proof (sha256 journal) (Z.of_nat (length journal)) (Z.of_nat (length proof)) "mock".

Inductive ProverBackendKind := Risc0 | Mock.

Definition backend_from_env (var : option string) (host_bin : option string)
    : result string ProverBackendKind :=
  let kind := default "risc0" var in
  if eq_ignore_ascii_case kind "mock" then Ok Mock
  else if negb (eq_ignore_ascii_case kind "risc0") then Err "unsupported PROVER_BACKEND"
  else match host_bin with None => Err "RISC0_HOST_BIN is required" | Some _ => Ok Risc0 end.

Definition generate_artifacts `{Zkvm} (backend : ProverBackendKind) (allow_fallback : bool)
    (trace : ExecutionTrace) : result string ProofArtifacts :=
  match backend with
  | Risc0 => generate_risc0_artifacts allow_fallback trace
  | Mock => Ok (generate_mock_artifacts trace)
  end.

(** The host's metadata always passes the executor's checks: artifacts are
    produced exactly when the zkVM returns a non-empty Groth16 seal, or a
    non-empty journal where falling back is allowed. *)
Theorem host_passes_checks `{!CoreTraceJsonLaws} `{Zkvm} allow_fallback (t : ExecutionTrace) :
  t_expected_journal_hash t = expected_journal_hash (t_initial_root t) (t_final_root t) →
  generate_risc0_artifacts allow_fallback t =
    match prove_with_opts (to_rollup_core_trace t) with
    | None => Err "risc0 host failed"
    | Some (journal, groth16) =>
        let proof := default journal groth16 in
        let mode : string := if groth16 then "groth16" else "journal_fallback" in
        if negb (bool_decide (mode = "groth16")) && negb allow_fallback
        then Err "unsupported proof mode from host metadata"
        else if bool_decide (proof = []) then Err "proof artifact is empty"
        else Ok (mkArtifacts proof (sha256 journal) (Z.of_nat (length journal)) (Z.of_nat (length proof)) mode)
    end.
Proof.
  intros Ej. unfold generate_risc0_artifacts, host_main. rewrite parse_trace_render. cbn [mbind option_bind].
  destruct (prove_with_opts _) as [[journal groth16]|]; [|done]. cbn [mbind option_bind].
  assert (Eh : hex_digits (t_expected_journal_hash t) = sha256_hex (t_initial_root t ++ t_final_root t))
    by by rewrite Ej.
  destruct groth16 as [seal|]; cbn [default]; unfold check_artifacts;
    cbn [status proof_mode trace_sha256 public_inputs_hash journal_sha256 proof_sha256 journal_bytes
         proof_bytes default]; rewrite Eh, !Z.eqb_refl; cbn [to_rollup_core_trace bt_initial_root bt_final_root];
    repeat match goal with |- context [bool_decide (?x = ?x)] => rewrite (bool_decide_true (x = x)) by done end;
    done.
Qed.

(** Artifacts of the real prover are evidence that the guest accepted the
    trace: no batch that includes a transfer of an account to itself has any. *)
Lemma artifacts_imply_guest `{!CoreTraceJsonLaws} `{!Zkvm, !ZkvmLaws} allow_fallback t a :
  generate_risc0_artifacts allow_fallback t = Ok a →
  ∃ roots, guest_main (to_rollup_core_trace t) = Some roots ∧ pa_da_commitment a = sha256 (journal_encode roots).
Proof.
  intros E. unfold generate_risc0_artifacts, host_main in E. rewrite parse_trace_render in E.
  cbn [mbind option_bind] in E.
  destruct (prove_with_opts _) as [[journal groth16]|] eqn:Ep; [|done]. cbn [mbind option_bind] in E.
  destruct (receipt_journal _ _ _ Ep) as (roots & Hg & ->). exists roots. split; [done|].
  destruct groth16; unfold check_artifacts in E; repeat case_match; try done; by injection E as <-.
Qed.

(** C25: A batch with proof artifacts does not mint: if the real prover produces
    artifacts for an executed batch, no transfer of an account to itself was
    included, and the artifacts commit to exactly the batch's two roots. *)
Theorem proved_batch_mints_nothing `{!CoreTraceJsonLaws} `{!Zkvm, !ZkvmLaws} `{PubkeyRecover} `{TraceCodec}
    {S : Type} `{StateManagerLaws S} allow_unsigned allow_fallback batch_id txs (s : S) t s' a :
  state_ok s → Forall wf_etx txs → Forall (λ tx, e_nonce tx < u64_max) txs →
  execute_batch allow_unsigned batch_id txs s = (Ok t, s') →
  generate_risc0_artifacts allow_fallback t = Ok a →
  Forall not_self (t_executed t) ∧
  pa_da_commitment a = sha256 (journal_encode (t_initial_root t, t_final_root t)).
Proof.
  intros Hs Hw Hn E Ha. destruct (artifacts_imply_guest allow_fallback t a Ha) as (roots & Hg & Hc).
  rewrite (guest_replays_iff allow_unsigned batch_id txs s t s' Hs Hw Hn E) in Hg.
  case_decide as Hself; [|done]. injection Hg as <-. split; [|done].
  apply Forall_forall. intros tx Hin Hx. assert (Hf : tx ∈ self_transfers (t_executed t))
    by (by apply list_elem_of_filter). rewrite Hself in Hf. by apply elem_of_nil in Hf.
Qed.

End artifacts.

Module ProverSamples.
Import EngineSamples.
#[local] Existing Instance model_hashing.

(** A rendering of traces as the number of bytes that encodes them. *)
#[local] Instance byte_countable : Countable Byte.byte :=
  inj_countable' byte_val byte_of byte_of_val.
#[local] Instance CoreDiff_eq_dec : EqDecision CoreDiff.
Proof. solve_decision. Defined.
#[local] Instance CoreDiff_countable : Countable CoreDiff :=
  inj_countable' (λ d, (c_account d, c_old_balance d, c_new_balance d, c_old_nonce d, c_new_nonce d,
                        c_merkle_proof d))
    (λ '(a, b, c, d, e, f), mkCoreDiff a b c d e f) ltac:(by intros []).
#[local] Instance BlockTrace_eq_dec : EqDecision BlockTrace.
Proof. solve_decision. Defined.
#[local] Instance BlockTrace_countable : Countable BlockTrace :=
  inj_countable' (λ t, (bt_batch_id t, bt_initial_root t, bt_final_root t, bt_state_diffs t))
    (λ '(a, b, c, d), mkBlockTrace a b c d) ltac:(by intros []).

#[local] Instance model_trace_json : CoreTraceJson :=
  {| trace_json := λ t, replicate (Pos.to_nat (encode t)) Byte.x00;
     parse_trace_json := λ b, decode (Pos.of_nat (length b)) |}.
#[local] Instance model_trace_json_laws : CoreTraceJsonLaws.
Proof. intros t. cbn. rewrite length_replicate, Pos2Nat.id. apply countable.decode_encode. Qed.

(** A prover that runs the guest. *)
#[local] Instance model_zkvm : Zkvm :=
  {| prove_with_opts := λ t, (λ roots, (roots.1 ++ roots.2, Some [Byte.x01])) <$> guest_main t;
     journal_encode := λ roots, roots.1 ++ roots.2 |}.
#[local] Instance model_zkvm_laws : ZkvmLaws.
Proof.
  intros t journal seal (roots & E & [= -> _])%fmap_Some. by exists roots.
Qed.

Lemma proved_batch_witness :
  ∃ a, generate_risc0_artifacts false sample_trace.1 = Ok a ∧
    pa_da_commitment a = sha256 (t_initial_root sample_trace.1 ++ t_final_root sample_trace.1).
Proof.
  destruct (generate_risc0_artifacts false sample_trace.1) as [a|e|] eqn:E.
  2, 3: exfalso; rewrite host_passes_checks in E by (vm_compute; reflexivity);
    vm_compute in E; discriminate.
  exists a. split; [reflexivity|].
  refine (proj2 (proved_batch_mints_nothing true false "1" [sample_tx 1 2 30 0] sample_state
    sample_trace.1 sample_trace.2 _ _ _ _ _ E)).
  - apply sample_state_ok.
  - sample_wf.
  - repeat constructor.
  - vm_compute. reflexivity.
Defined.

End ProverSamples.
