(* ===== verification/ExecutorService.v ===== *)
(** * Executor service ([executor/src/service.rs], [block_constructor.rs])

    Batches arrive over gRPC, are queued, and are executed one at a time by a
    worker; the enriched payload goes to the subscribers of a stream.  The
    state of a batch identifier is kept in memory.  Disk, prover and
    subscribers are inputs of a job ([JobEnv]). *)

From stdpp Require Import base gmap list strings.
From Stdlib Require Import ZArith Lia Ascii.
From S2P Require Import Prelude Js Rust SequencerTypes ExecutorTypes ExecutorState ExecutorEngine ProverCore.
From S2P Require Import ProofArtifacts.

(** [serde_json] on lists of transactions. *)
Class TxJson := {
  parse_batch_data : bytes → option (list SequencerTransaction);
  executed_json : list ETransaction → bytes;
}.

Record BatchPayload := mkPayload {
  bp_batch_id : string;
  bp_batch_data : bytes;
  bp_pre_state_root : bytes;
  bp_post_state_root : bytes;
  bp_da_commitment : bytes;
  bp_proof : bytes;
}.

Inductive BatchProcessingState :=
| BPending
| BInProgress
| BCompleted
| BFailed (reason : string).

Record PendingBatchJob := mkJob {
  j_payload : BatchPayload;
  j_txs : list ETransaction;
}.

(** [build_enriched_payload] *)
Definition build_enriched_payload `{TxJson} (input : BatchPayload) (trace : ExecutionTrace)
    (da_commitment proof : bytes) : BatchPayload :=
  mkPayload (bp_batch_id input) (executed_json (t_executed trace)) (t_initial_root trace)
    (t_final_root trace) da_commitment proof.

(** ** Genesis *)

Definition DEFAULT_GENESIS_BALANCE : Z := 1000000000000000000.

(** [strip_prefix("0x")], then twenty bytes of hexadecimal. *)
Definition parse_address_hex (raw : string) : result string Z :=
  let trimmed := match raw with String.String "0"%char (String.String "x"%char r) => r | _ => raw end in
  match parse_digits trimmed with
  | None => Err "invalid genesis account address"
  | Some b => if (length b =? 20)%nat then Ok (be_val b) else Err "expected 20 bytes"
  end.

(** What fails and what the outside does while a job is processed. *)
Record JobEnv := mkEnv {
  je_generated_logged : bool;
  je_trace_persisted : bool;
  je_hash_verified : bool;
  je_persisted_logged : bool;
  je_artifacts : ExecutionTrace → result string ProofArtifacts;
  je_require_real : bool;
  je_proved_logged : bool;
  je_subscribers : bool;
  je_published_logged : bool;
}.

Section service.
Context `{Hashing} `{PubkeyRecover} `{TraceCodec} `{TxJson} {S : Type} `{StateManager S} (allow_unsigned : bool).

Record Service := mkService {
  sv_state : S;
  sv_batches : gmap string BatchProcessingState;
  sv_queue : list PendingBatchJob;
  sv_current : option PendingBatchJob;
  sv_stream : list BatchPayload;
  (** ghost: the jobs that were processed, and whether they completed *)
  sv_log : list (string * bool);
}.

(** [seed_genesis_accounts] on the comma-separated names, split and trimmed. *)
Fixpoint seed_genesis_accounts (names : list string) (bal : Z) (s : S) : result string unit * S :=
  match names with
  | [] => (Ok tt, s)
  | raw :: names =>
      match parse_address_hex raw with
      | Ok a => match set_account a (mkAccount bal 0) s with
                | (Ok _, s) => seed_genesis_accounts names bal s
                | (Err _, s) => (Err "failed to seed genesis account", s)
                | (Panicked, s) => (Panicked, s)
                end
      | Err e => (Err e, s)
      | Panicked => (Panicked, s)
      end
  end.

(** [run_server_from_env]: the database is opened as the last run left it,
    everything else starts empty. *)
Definition run_server (names : list string) (bal : Z) (s : S) : result string Service :=
  match seed_genesis_accounts names bal s with
  | (Ok _, s) => Ok (mkService s ∅ [] None [] [])
  | (Err e, _) => Err e
  | (Panicked, _) => Panicked
  end.

Definition reset_state (names : list string) (bal : Z) (sv : Service) : result string unit * Service :=
  let '(r, s) := seed_genesis_accounts names bal (reset_to_genesis (sv_state sv)) in
  (r, mkService s (sv_batches sv) (sv_queue sv) (sv_current sv) (sv_stream sv) (sv_log sv)).

Inductive PublishResponse := Accepted (message : string) | InvalidArgument | Unavailable | HandlerPanic.

(** [publish_batch]; [queue_open] is whether the worker still receives. *)
Definition publish_batch (queue_open : bool) (payload : BatchPayload) (sv : Service)
    : PublishResponse * Service :=
  let id := bp_batch_id payload in
  let set_batch st := <[id := st]> (sv_batches sv) in
  match parse_batch_data (bp_batch_data payload) with
  | None => (InvalidArgument, sv)
  | Some parsed =>
      match normalize_transactions parsed with
      | Err _ => (InvalidArgument, sv)
      | Panicked => (HandlerPanic, sv)
      | Ok txs =>
          match sv_batches sv !! id with
          | Some BPending => (Accepted "already queued for execution", sv)
          | Some BInProgress => (Accepted "already in progress", sv)
          | Some BCompleted => (Accepted "already processed", sv)
          | Some (BFailed _) | None =>
              if queue_open
              then (Accepted "accepted for asynchronous execution",
                    mkService (sv_state sv) (set_batch BPending) (sv_queue sv ++ [mkJob payload txs])
                      (sv_current sv) (sv_stream sv) (sv_log sv))
              else (Unavailable,
                    mkService (sv_state sv) (set_batch (BFailed "queue send failed")) (sv_queue sv)
                      (sv_current sv) (sv_stream sv) (sv_log sv))
          end
      end
  end.

(** The worker takes a job. *)
Definition take_job (sv : Service) : option Service :=
  match sv_current sv, sv_queue sv with
  | None, job :: queue =>
      Some (mkService (sv_state sv) (<[bp_batch_id (j_payload job) := BInProgress]> (sv_batches sv))
              queue (Some job) (sv_stream sv) (sv_log sv))
  | _, _ => None
  end.

(** The steps of [process_batch_job] after the state is set: the state and the
    stream they leave, and the error that stopped them. *)
Definition run_job (env : JobEnv) (job : PendingBatchJob) (s : S) (stream : list BatchPayload)
    : S * list BatchPayload * option string :=
  let id := bp_batch_id (j_payload job) in
  match execute_batch allow_unsigned id (j_txs job) s with
  | (Ok trace, s) =>
      if negb (je_generated_logged env) then (s, stream, Some "trace lifecycle(generated) failure")
      else if negb (je_trace_persisted env) then (s, stream, Some "trace persistence failure")
      else if negb (je_hash_verified env) then (s, stream, Some "trace integrity check failed")
      else if negb (je_persisted_logged env) then (s, stream, Some "trace lifecycle(persisted) failure")
      else match je_artifacts env trace with
           | Ok artifacts =>
               if je_require_real env && negb (bool_decide (pa_proof_mode artifacts = "groth16"))
               then (s, stream, Some "real proof required")
               else if negb (je_proved_logged env) then (s, stream, Some "trace lifecycle(proved) failure")
               else if negb (je_subscribers env) then (s, stream, Some "no stream subscribers available")
               else
                 let stream := stream ++ [build_enriched_payload (j_payload job) trace
                                            (pa_da_commitment artifacts) (pa_proof artifacts)] in
                 if negb (je_published_logged env)
                 then (s, stream, Some "trace lifecycle(published) failure")
                 else (s, stream, None)
           | _ => (s, stream, Some "proof generation failure")
           end
  | (_, s) => (s, stream, Some "execution failure")
  end.

Definition finish_job (env : JobEnv) (sv : Service) : option Service :=
  match sv_current sv with
  | None => None
  | Some job =>
      let id := bp_batch_id (j_payload job) in
      let '(s, stream, failure) := run_job env job (sv_state sv) (sv_stream sv) in
      let st := match failure with None => BCompleted | Some reason => BFailed reason end in
      Some (mkService s (<[id := st]> (sv_batches sv)) (sv_queue sv) None stream
              (sv_log sv ++ [(id, match failure with None => true | Some _ => false end)]))
  end.

(** The gRPC handlers and the worker interleave. *)
Inductive service_step : Service → Service → Prop :=
| step_publish queue_open payload sv : service_step sv (publish_batch queue_open payload sv).2
| step_take sv sv' : take_job sv = Some sv' → service_step sv sv'
| step_finish env sv sv' : finish_job env sv = Some sv' → service_step sv sv'
| step_reset names bal sv : service_step sv (reset_state names bal sv).2.

End service.
Arguments Service S : clear implicits.
Arguments mkService {S}.
Arguments sv_state {S}.
Arguments sv_batches {S}.
Arguments sv_queue {S}.
Arguments sv_current {S}.
Arguments sv_stream {S}.
Arguments sv_log {S}.

(** ** A batch completes at most once *)

Section once.
Context `{Hashing} `{PubkeyRecover} `{TraceCodec} `{TxJson} {S : Type} `{StateManager S} (allow_unsigned : bool).

Definition job_id (j : PendingBatchJob) : string := bp_batch_id (j_payload j).

(** The jobs the service holds. *)
Definition held (sv : Service S) : list string :=
  job_id <$> (option_list (sv_current sv) ++ sv_queue sv).

(** Jobs are held once, under the states that refuse a second copy; a batch
    that completed stays completed, and completed once. *)
Record service_inv (sv : Service S) : Prop := {
  si_held : NoDup (held sv);
  si_active id : id ∈ held sv →
    sv_batches sv !! id = Some BPending ∨ sv_batches sv !! id = Some BInProgress;
  si_completed id : (id, true) ∈ sv_log sv → sv_batches sv !! id = Some BCompleted;
  si_once id : (length (filter (λ e, e = (id, true)) (sv_log sv)) ≤ 1)%nat;
}.

Lemma held_completed sv id : service_inv sv → id ∈ held sv → (id, true) ∉ sv_log sv.
Proof.
  intros [_ Ha Hc _] Hin Hl. specialize (Hc id Hl). destruct (Ha id Hin); congruence.
Qed.

(** Changing the state of a batch that is neither held nor completed. *)
Lemma service_inv_set sv id st :
  service_inv sv → id ∉ held sv → (id, true) ∉ sv_log sv →
  service_inv (mkService (sv_state sv) (<[id := st]> (sv_batches sv)) (sv_queue sv) (sv_current sv)
    (sv_stream sv) (sv_log sv)).
Proof.
  intros [Hn Ha Hc Ho] Hh Hl. split; cbn; [done|..|done].
  - intros i Hi. rewrite lookup_insert_ne by (intros <-; done). by apply Ha.
  - intros i Hi. rewrite lookup_insert_ne by (intros <-; done). by apply Hc.
Qed.

Lemma held_app sv job :
  held (mkService (sv_state sv) (<[job_id job := BPending]> (sv_batches sv)) (sv_queue sv ++ [job])
    (sv_current sv) (sv_stream sv) (sv_log sv)) = held sv ++ [job_id job].
Proof. unfold held. cbn. by rewrite !fmap_app, <- (assoc_L (++)). Qed.

Lemma service_inv_enqueue sv job :
  service_inv sv → job_id job ∉ held sv → (job_id job, true) ∉ sv_log sv →
  service_inv (mkService (sv_state sv) (<[job_id job := BPending]> (sv_batches sv))
    (sv_queue sv ++ [job]) (sv_current sv) (sv_stream sv) (sv_log sv)).
Proof.
  intros [Hn Ha Hc Ho] Hh Hl. split.
  - rewrite held_app. apply NoDup_app. split_and!; [done| |apply NoDup_singleton].
    intros i Hi ->%list_elem_of_singleton. done.
  - intros i. rewrite held_app. cbn. intros [Hi| ->%list_elem_of_singleton]%elem_of_app.
    + rewrite lookup_insert_ne by (intros <-; done). by apply Ha.
    + left. by rewrite lookup_insert_eq.
  - intros i Hi. cbn in *. rewrite lookup_insert_ne by (intros <-; done). by apply Hc.
  - done.
Qed.

Lemma service_inv_publish queue_open payload sv :
  service_inv sv → service_inv (publish_batch queue_open payload sv).2.
Proof.
  intros Hinv. unfold publish_batch. destruct (parse_batch_data _) as [parsed|]; [|done].
  destruct (normalize_transactions parsed) as [txs|e|]; [|done|done].
  assert (Hgo : sv_batches sv !! bp_batch_id payload = None ∨
      (∃ r, sv_batches sv !! bp_batch_id payload = Some (BFailed r)) →
    bp_batch_id payload ∉ held sv ∧ (bp_batch_id payload, true) ∉ sv_log sv).
  { intros Hst. split; intros Hin.
    - destruct (si_active sv Hinv _ Hin); naive_solver congruence.
    - pose proof (si_completed sv Hinv _ Hin). naive_solver congruence. }
  destruct (sv_batches sv !! bp_batch_id payload) as [[| | |r]|] eqn:Eb; try done;
    (destruct Hgo as [Hh Hl]; [by eauto|]); destruct queue_open; cbn [snd].
  - by apply (service_inv_enqueue sv (mkJob payload txs)).
  - by apply service_inv_set.
  - by apply (service_inv_enqueue sv (mkJob payload txs)).
  - by apply service_inv_set.
Qed.

Lemma service_inv_take sv sv' : service_inv sv → take_job sv = Some sv' → service_inv sv'.
Proof.
  intros Hinv E. unfold take_job in E.
  destruct (sv_current sv) eqn:Ec; [done|]. destruct (sv_queue sv) as [|job queue] eqn:Eq; [done|].
  injection E as <-.
  assert (Eh : held sv = job_id job :: (job_id <$> queue)) by (unfold held; by rewrite Ec, Eq).
  assert (Hl : (job_id job, true) ∉ sv_log sv).
  { apply held_completed; [done|]. rewrite Eh. by left. }
  destruct Hinv as [Hn Ha Hc Ho]. rewrite Eh in Hn, Ha. pose proof Hn as [Hnj _]%NoDup_cons.
  split; cbn; [done|..|done].
  - intros i [->|Hi]%elem_of_cons.
    + right. by rewrite lookup_insert_eq.
    + rewrite lookup_insert_ne by (intros <-; done). apply Ha. by right.
  - intros i Hi. rewrite lookup_insert_ne by (intros <-; done). by apply Hc.
Qed.

Lemma service_inv_finish env sv sv' :
  service_inv sv → finish_job allow_unsigned env sv = Some sv' → service_inv sv'.
Proof.
  intros Hinv E. unfold finish_job in E. destruct (sv_current sv) as [job|] eqn:Ec; [|done].
  destruct (run_job _ _ _ _ _) as [[s stream] failure]. injection E as <-. fold (job_id job).
  assert (Eh : held sv = job_id job :: (job_id <$> sv_queue sv)) by (unfold held; by rewrite Ec).
  assert (Hl : (job_id job, true) ∉ sv_log sv).
  { apply held_completed; [done|]. rewrite Eh. by left. }
  destruct Hinv as [Hn Ha Hc Ho]. rewrite Eh in Hn, Ha. apply NoDup_cons in Hn as [Hnj Hn].
  split; cbn; [done|..].
  - intros i Hi. rewrite lookup_insert_ne by (intros <-; done). apply Ha. by right.
  - intros i [Hi|Hi%list_elem_of_singleton]%elem_of_app.
    + rewrite lookup_insert_ne by (intros <-; done). by apply Hc.
    + injection Hi as <- Hf. rewrite lookup_insert_eq. by destruct failure.
  - intros i. rewrite filter_app, length_app. destruct (decide (i = job_id job)) as [->|Hne].
    + rewrite filter_none by (intros ? Hi ->; done). cbn [length Nat.add].
      etrans; [apply length_filter|done].
    + rewrite (filter_none _ [_]); [cbn; rewrite Nat.add_0_r; apply Ho|].
      intros ? ->%list_elem_of_singleton [=]. done.
Qed.

Lemma service_inv_step sv sv' :
  service_inv sv → service_step allow_unsigned sv sv' → service_inv sv'.
Proof.
  intros Hinv Hstep. destruct Hstep.
  - by apply service_inv_publish.
  - by eapply service_inv_take.
  - by eapply service_inv_finish.
  - unfold reset_state. destruct (seed_genesis_accounts _ _ _) as [r s]. cbn.
    destruct Hinv as [Hn Ha Hc Ho]. by split.
Qed.

Lemma service_inv_start names bal s sv : run_server names bal s = Ok sv → service_inv sv.
Proof.
  unfold run_server. destruct (seed_genesis_accounts _ _ _) as [[[]|e|] s']; intros [= <-].
  split; cbn; [apply NoDup_nil_2|by intros ? ?%elem_of_nil..|intros; cbn; lia].
Qed.

(** C16: Whatever the order of requests, retries and jobs, a batch identifier
    completes at most once, and once it has, every later request for it is
    answered without executing it. *)
Theorem batch_completes_once names bal s sv sv' id :
  run_server names bal s = Ok sv → rtc (service_step allow_unsigned) sv sv' →
  (length (filter (λ e, e = (id, true)) (sv_log sv')) ≤ 1)%nat ∧
  ((id, true) ∈ sv_log sv' → ∀ queue_open payload,
    bp_batch_id payload = id → (publish_batch queue_open payload sv').2 = sv').
Proof.
  intros Hstart%service_inv_start Hr.
  assert (Hinv : service_inv sv').
  { revert Hr. apply (rtc_ind_r (λ sv', service_inv sv')); [done|].
    intros ?? _ Hs Hi. by eapply service_inv_step. }
  split; [apply Hinv|]. intros Hin queue_open payload <-.
  pose proof (si_completed sv' Hinv _ Hin) as E. unfold publish_batch.
  destruct (parse_batch_data _); [|done]. destruct (normalize_transactions _); [|done|done].
  by rewrite E.
Qed.
End once.

(** ** Retries and restarts *)

Section recovery.
Context `{Hashing} `{PubkeyRecover} `{TraceCodec} `{TxJson} {S : Type} `{StateManagerLaws S} (allow_unsigned : bool).

Lemma runs_same_root max txs (x x' : Progress S) :
  runs allow_unsigned max txs x x' →
  (length (x_executed x) ≤ length (x_executed x'))%nat ∧
  (length (x_executed x') = length (x_executed x) → x_root x' = x_root x).
Proof.
  induction 1 as [x|tx txs x x1 x2 _ _ _ Hcase _ [IHl IHr]]; [done|].
  destruct Hcase as [(_ & _ & _ & Ee & _)|(_ & _ & Ee & _ & Er)]; rewrite Ee in *.
  - rewrite length_app in *. cbn in *. split; lia.
  - by rewrite Er in IHr.
Qed.

(** A batch whose transactions were all executed, but whose job then failed
    (the disk, the prover or the stream), is executed again when it is
    retried; no transaction is included this time, and what is published is an
    empty batch whose roots are equal. *)
Theorem failed_batch_published_empty job s t s1 env stream s2 stream2 :
  let id := bp_batch_id (j_payload job) in
  state_ok s → Forall wf_etx (j_txs job) → Forall not_self (j_txs job) →
  Forall (λ tx, e_nonce tx < u64_max) (j_txs job) →
  execute_batch allow_unsigned id (j_txs job) s = (Ok t, s1) → t_executed t = j_txs job →
  run_job allow_unsigned env job s1 stream = (s2, stream2, None) →
  ∃ p, stream2 = stream ++ [p] ∧ bp_batch_id p = id ∧ bp_batch_data p = executed_json [] ∧
    bp_pre_state_root p = bp_post_state_root p.
Proof.
  intros id Hs Hw Hself Hlt E Eall Hrun.
  destruct (execute_batch_runs allow_unsigned id (j_txs job) s Hs Hw) as (? & ? & x1 & E1 & Hs1 & _ & -> & _).
  rewrite E in E1. injection E1 as <- ->.
  destruct (execute_batch_runs allow_unsigned id (j_txs job) _ Hs1 Hw)
    as (t2 & ? & x2 & E2 & _ & Hr2 & -> & Ee2 & _ & Ei2 & Ef2).
  unfold run_job in Hrun. fold id in Hrun. rewrite E2 in Hrun.
  assert (Hempty : t_executed t2 = []).
  { destruct (t_executed t2) as [|tx l] eqn:Et; [done|].
    destruct (runs_executed _ _ _ _ _ Hr2) as (l2 & El2 & Hsub & _ & _). cbn in El2.
    assert (Hin : tx ∈ j_txs job).
    { eapply elem_of_submseteq; [|by apply sublist_submseteq]. rewrite <- El2, <- Ee2. by left. }
    rewrite Forall_forall in Hself, Hlt.
    assert (e_nonce tx < e_nonce tx); [|lia].
    eapply (executed_nonces_grow allow_unsigned id id (j_txs job) (j_txs job) s t _ t2); try done.
    - by rewrite Eall.
    - by apply Hself.
    - by apply Hlt.
    - rewrite Et. by left. }
  assert (Hroot : t_final_root t2 = t_initial_root t2).
  { destruct (runs_same_root _ _ _ _ Hr2) as [_ Hsame]. rewrite Ef2, Ei2. apply Hsame.
    cbn. by rewrite <- Ee2, Hempty. }
  repeat case_match; try done. injection Hrun as <- <-.
  eexists. split; [reflexivity|]. cbn. by rewrite Hempty.
Qed.

Lemma parse_address_ok raw a : parse_address_hex raw = Ok a → is_address a.
Proof.
  unfold parse_address_hex. destruct (parse_digits _) as [b|]; [|done].
  destruct (Nat.eqb_spec (length b) 20) as [El|]; [|done]. intros [= <-].
  pose proof (be_val_range b) as Hb. rewrite El in Hb. exact Hb.
Qed.

Lemma seed_genesis_spec names bal s s' :
  is_u64 bal → sm_valid s → seed_genesis_accounts names bal s = (Ok tt, s') →
  sm_valid s' ∧ ∀ a, is_address a →
    get_account s' a = mkAccount bal 0 ∧ (∃ raw, raw ∈ names ∧ parse_address_hex raw = Ok a) ∨
    get_account s' a = get_account s a ∧ (∀ raw, raw ∈ names → parse_address_hex raw ≠ Ok a).
Proof.
  intros Hbal. revert s. induction names as [|raw names IH]; intros s Hv E; cbn in E.
  { injection E as <-. split; [done|]. intros a _. right. split; [done|]. by intros ? ?%elem_of_nil. }
  destruct (parse_address_hex raw) as [a|e|] eqn:Ea; [|done|done].
  destruct (set_account_ok s a (mkAccount bal 0)) as (d & s1 & E1 & Hv1 & Hg1 & _); [done|..].
  { by eapply parse_address_ok. }
  { split; cbn; [done|]. unfold is_u64, u64_max. lia. }
  rewrite E1 in E. destruct (IH s1 Hv1 E) as [Hv' Hg']. split; [done|]. intros b Hb.
  destruct (Hg' b Hb) as [[Eb (r & Hr & Epr)]|[Eb Hr]].
  - left. split; [done|]. exists r. split; [by right|done].
  - rewrite Hg1 in Eb by done. destruct (decide (b = a)) as [->|Hne].
    + left. split; [done|]. exists raw. split; [by left|done].
    + right. split; [done|]. intros r [->|Hin]%elem_of_cons; [|by apply Hr]. rewrite Ea. congruence.
Qed.

(** Starting the server resets the genesis accounts it finds in the database:
    a first transaction of a genesis account that was executed before the
    restart is executed again after it. *)
Theorem restart_replays names bal s sv raw tx batch_id :
  is_u64 bal → state_ok s → wf_etx tx → raw ∈ names → parse_address_hex raw = Ok (e_from tx) →
  verify_tx_signature allow_unsigned tx = true → e_nonce tx = 0 → e_amount tx ≤ bal →
  run_server names bal s = Ok sv →
  get_account (sv_state sv) (e_from tx) = mkAccount bal 0 ∧
  ∃ t s', execute_batch allow_unsigned batch_id [tx] (sv_state sv) = (Ok t, s') ∧ t_executed t = [tx].
Proof.
  intros Hbal [Hv Hw] Htx Hin Hraw Hsig Hno Ham E. unfold run_server in E.
  destruct (seed_genesis_accounts names bal s) as [[[]|e|] s1] eqn:Es; [|done|done].
  injection E as <-. cbn [sv_state].
  destruct (seed_genesis_spec names bal s s1 Hbal Hv Es) as [Hv1 Hg1].
  assert (Hacc : get_account s1 (e_from tx) = mkAccount bal 0).
  { destruct (Hg1 (e_from tx)) as [[? _]|[_ Hno']]; [apply Htx|done|].
    by destruct (Hno' raw Hin). }
  split; [done|].
  assert (Hok : state_ok s1).
  { split; [done|]. intros a Ha. destruct (Hg1 a Ha) as [[-> _]|[-> _]]; [|by apply Hw].
    split; cbn; [done|]. unfold is_u64, u64_max. lia. }
  destruct (execute_batch_runs allow_unsigned batch_id [tx] s1 Hok) as (t & s' & x' & E & _ & Hr & _ & Ee & _).
  { by constructor. }
  exists t, s'. split; [done|]. rewrite Ee.
  inversion Hr as [|? ? ? x1 ? _ _ _ Hcase Hr']; subst. inversion Hr'; subst.
  destruct Hcase as [(_ & _ & _ & -> & _)|([Hrej|Hmax] & _)]; [done|..]; exfalso.
  - apply Hrej. cbn. rewrite Hacc. apply rejection_None. cbn. split_and!; done.
  - cbn in Hmax. unfold max_included, u64_max in Hmax. repeat case_match; lia.
Qed.
End recovery.

Module ServiceSamples.
Import EngineSamples.
#[local] Existing Instance model_hashing.

#[export] Instance model_tx_json : TxJson :=
  {| parse_batch_data := λ _, Some []; executed_json := λ _, [] |}.

Definition sample_env : JobEnv :=
  mkEnv true true true true (λ _, Ok (mkArtifacts [Byte.x01] [] 0 1 "mock")) false true true true.

Definition sample_payload : BatchPayload := mkPayload "1" [] [] [] [] [].

Definition sample_service : Service InMemoryStateManager := mkService sample_state ∅ [] None [] [].

(** The service after a batch was published, taken and finished. *)
Definition service_after : option (Service InMemoryStateManager) :=
  sv ← take_job (publish_batch true sample_payload sample_service).2; finish_job true sample_env sv.

Lemma batch_completes_once_witness :
  ∃ sv', service_after = Some sv' ∧ ("1", true) ∈ sv_log sv' ∧
    (length (filter (λ e, e = ("1", true)) (sv_log sv')) ≤ 1)%nat.
Proof.
  destruct service_after as [sv'|] eqn:E; [|by vm_compute in E].
  exists sv'. split; [reflexivity|]. split; [revert E; vm_compute; intros [= <-]; cbn; left|].
  refine (proj1 (batch_completes_once true [] 0 sample_state sample_service sv' "1" _ _)).
  - reflexivity.
  - unfold service_after in E. apply bind_Some in E as (sv & Et & Ef).
    eapply rtc_l; [apply (step_publish true true sample_payload)|].
    eapply rtc_l; [apply step_take, Et|]. eapply rtc_once, step_finish, Ef.
Defined.

Definition genesis_name : string := "0x0000000000000000000000000000000000000001".

(** Account 1 has spent its first nonce before the restart. *)
Lemma restart_replays_witness :
  ∃ sv t s', run_server [genesis_name] 50 sample_trace.2 = Ok sv ∧
    nonce (get_account sample_trace.2 1) = 1 ∧
    execute_batch true "2" [sample_tx 1 2 30 0] (sv_state sv) = (Ok t, s') ∧
    t_executed t = [sample_tx 1 2 30 0].
Proof.
  destruct (run_server [genesis_name] 50 sample_trace.2) as [sv| |] eqn:E; [|by vm_compute in E..].
  destruct (restart_replays true [genesis_name] 50 sample_trace.2 sv genesis_name
    (sample_tx 1 2 30 0) "2") as (_ & t & s' & E' & Et).
  - split; vm_compute; discriminate.
  - destruct (execute_batch_runs true "1" [sample_tx 1 2 30 0] sample_state)
      as (t & s' & _ & E1 & Hs & _); [apply sample_state_ok|sample_wf|].
    assert (E2 : sample_trace = (t, s')) by (unfold sample_trace; by rewrite E1).
    by rewrite E2.
  - sample_wf.
  - left.
  - vm_compute. reflexivity.
  - reflexivity.
  - reflexivity.
  - vm_compute. discriminate.
  - exact E.
  - exists sv, t, s'. split; [reflexivity|]. split; [vm_compute; reflexivity|]. split; [exact E'|exact Et].
Defined.

End ServiceSamples.
