(* ===== verification/RollupPipeline.v ===== *)
(** * Sequencer and executor together

    The batch the orchestrator publishes ([executor_batch_data] of
    [sequencer/src/batch/orchestrator.rs]) is what the executor's
    [publish_batch] parses.  The theorems follow transactions from admission
    to execution: when they all execute, and which ones discard or stop
    everything behind them. *)

From stdpp Require Import base gmap list sorting strings pretty.
From Stdlib Require Import ZArith Lia.
From S2P Require Import Prelude Rust SequencerTypes SequencerPool SequencerPolicies SequencerAdmission.
From S2P Require Import SequencerBatch ExecutorTypes ExecutorState ExecutorEngine ProverCore.
From S2P Require Import ProofArtifacts ExecutorService.

(** [executor_batch_data], before it is rendered. *)
Definition executor_tx (tx : Transaction) : SequencerTransaction :=
  match tx with
  | Normal p => SeqNormal (p_tx p)
  | Forced f => SeqForcedTx (mkSeqForced (f_from f) (f_to f) (f_value f) (f_nonce f) (f_gas_limit f)
                               (f_timestamp f))
  end.

(** [serde_json] renders what the executor's parser reads back. *)
Class BatchJson `{TxJson} := render_batch : list SequencerTransaction → bytes.
Class BatchJsonLaws `{BatchJson} : Prop :=
  parse_render l : parse_batch_data (render_batch l) = Some l.

(** [executor_batch_data] and the payload of [publish_batch_to_executor_once]. *)
Definition executor_batch_data `{BatchJson} (b : Batch) : bytes := render_batch (executor_tx <$> transactions b).

Definition batch_payload `{BatchJson} (b : Batch) : BatchPayload :=
  let zeros := replicate 32 Byte.x00 in
  mkPayload (pretty (batch_id b)) (executor_batch_data b) zeros zeros zeros zeros.

(** ** Forced transactions *)

Section forced.
Context `{Hashing} `{PubkeyRecover} `{TraceCodec} {S : Type} `{StateManagerLaws S}.

Lemma executed_signed allow_unsigned max txs (x x' : Progress S) :
  runs allow_unsigned max txs x x' →
  ∃ l, x_executed x' = x_executed x ++ l ∧ Forall (λ tx, verify_tx_signature allow_unsigned tx = true) l.
Proof.
  induction 1 as [x|tx txs x x1 x2 _ _ _ Hcase _ (l & El & Hl)]; [exists []; by rewrite app_nil_r|].
  destruct Hcase as [(Hrej & _ & _ & Ee & _)|(_ & _ & Ee & _)].
  - apply rejection_None in Hrej as (Hsig & _). exists (tx :: l). rewrite El, Ee, <- (assoc_L (++)).
    by split; [|constructor].
  - exists l. by rewrite El, Ee.
Qed.

(** Unless unsigned user transactions are allowed too, no forced transaction
    of a batch is ever executed: it has no signature. *)
Theorem forced_never_executed batch_id txs (s : S) t s' f tx :
  state_ok s → Forall wf_etx txs → execute_batch false batch_id txs s = (Ok t, s') →
  normalize_one (executor_tx (Forced f)) = Ok tx → tx ∉ t_executed t.
Proof.
  intros Hs Hw E Hn Hin.
  destruct (execute_batch_runs false batch_id txs s Hs Hw) as (? & ? & x' & E' & _ & Hr & _ & Ee & _).
  rewrite E in E'. injection E' as <- <-.
  destruct (executed_signed _ _ _ _ _ Hr) as (l & El & Hl). cbn in El. rewrite Ee, El in Hin.
  rewrite Forall_forall in Hl. specialize (Hl tx Hin).
  cbn in Hn. unfold u256_to_u64_checked in Hn. case_match; [done|]. cbn in Hn. injection Hn as <-. done.
Qed.
End forced.

(** ** A transaction that discards its batch *)

Section discard.
Context `{Hashing} `{SigRecover} `{PubkeyRecover} `{TraceCodec} `{BatchJsonLaws} {S : Type} `{StateManager S}.

(** The executor takes a published batch for execution only if every value,
    price and bid in it fits in 64 bits; otherwise the request fails and
    leaves no trace of the batch. *)
Lemma publish_oversized queue_open b (sv : Service S) :
  Exists (λ tx, oversized (executor_tx tx)) (transactions b) →
  (∀ m, (publish_batch queue_open (batch_payload b) sv).1 ≠ Accepted m) ∧
  (publish_batch queue_open (batch_payload b) sv).2 = sv.
Proof.
  intros Hex. unfold publish_batch. cbn. unfold executor_batch_data. rewrite parse_render.
  destruct (normalize_transactions _) as [txs|e|] eqn:E; [|done|done]. exfalso.
  assert (Hall : ∃ ts, normalize_transactions (executor_tx <$> transactions b) = Ok ts) by by eexists.
  apply normalize_transactions_total in Hall. rewrite Forall_fmap in Hall.
  apply Exists_exists in Hex as (tx & Hin & Ho). rewrite Forall_forall in Hall. by apply (Hall tx Hin).
Qed.

(** A transaction that costs nothing: no value and no gas. *)
Definition costless (tx : UserTransaction) (st : AppState) : Prop :=
  verify_signature tx = Ok tt ∧ u_value tx = 0 ∧ u_gas_limit tx = 0 ∧
  u_nonce tx = nonce_at (state_cache st) (u_from tx) ∧ 0 ≤ balance_at (state_cache st) (u_from tx).

Lemma costless_admitted r st :
  costless (r_tx r) st →
  ∃ st', handle_tx r st = (Ok tt, st') ∧
    pool_txs (tx_pool st') = pool_txs (tx_pool st) ++ [pooled_of r] ∧
    ∀ a, balance_at (state_cache st') a = balance_at (state_cache st) a.
Proof.
  intros (Hsig & Hv & Hg & Hn & Hb).
  assert (Ht : total_cost (r_tx r) = Some 0).
  { unfold total_cost. rewrite Hv, Hg. unfold u256_mul, u256_add. rewrite Z.mul_0_r. done. }
  pose proof (handle_tx_spec r st) as Hs. destruct (handle_tx r st) as [a st'].
  destruct Hs as (Hiff & _ & Hacc).
  assert (Hadm : admissible (r_tx r) (state_cache st) 0) by by split_and!.
  assert (a = Ok tt) as -> by (apply Hiff; by eexists).
  destruct (Hacc eq_refl) as (cost & c' & (_ & _ & Ht' & _) & Hc' & ->).
  assert (cost = 0) as -> by congruence.
  eexists. split; [reflexivity|]. split; [done|]. intros b. cbn.
  assert (Hb' : 0 ≤ balance_at c' (u_from (r_tx r))) by by rewrite (balance_at_accounts _ _ _ Hc').
  rewrite balance_at_increment, balance_at_deduct by (done || lia).
  destruct (decide (b = _)) as [->|]; rewrite (balance_at_accounts _ _ _ Hc'); [|done].
  unfold sat_sub. lia.
Qed.

(** Anyone can discard a batch for free: a transaction without value and gas
    whose gas price exceeds 64 bits is admitted at no cost, and the executor
    refuses every batch that holds it. *)
Theorem free_transaction_discards_batch r st :
  costless (r_tx r) st → u64_max < u_gas_price (r_tx r) →
  ∃ st', handle_tx r st = (Ok tt, st') ∧ pooled_of r ∈ pool_txs (tx_pool st') ∧
    (∀ a, balance_at (state_cache st') a = balance_at (state_cache st) a) ∧
    ∀ queue_open b (sv : Service S), Normal (pooled_of r) ∈ transactions b →
      (∀ m, (publish_batch queue_open (batch_payload b) sv).1 ≠ Accepted m) ∧
      (publish_batch queue_open (batch_payload b) sv).2 = sv.
Proof.
  intros Hc Hp. destruct (costless_admitted r st Hc) as (st' & E & Epool & Hbal).
  exists st'. split; [done|]. split; [rewrite Epool; apply elem_of_app; right; by left|]. split; [done|].
  intros queue_open b sv Hin. apply publish_oversized. apply Exists_exists.
  eexists. split; [exact Hin|]. cbn. by auto.
Qed.

(** Anyone can stop the sequencer for free: a signed transaction of no value,
    with gas limit 0 and a gas price beyond 128 bits, is admitted whatever the
    balance, and panics the orchestrator at its next turn. *)
Theorem free_transaction_stops_batching `{HashIterLaws (list PooledTransaction)} cfg policy r st env o :
  costless (r_tx r) st → u128_max < u_gas_price (r_tx r) →
  wf_config cfg → policy ≠ TimeBoost 0 → policy ≠ BlobPacking →
  pool_txs (tx_pool st) = [] → forced_queue (o_seq o) = [] →
  1 ≤ target_batch_size_for_depth cfg 1 →
  timeout_for_depth cfg 1 ≤ t_now_ms env - o_last_batch_ms o →
  ∃ st', handle_tx r st = (Ok tt, st') ∧
    (pool (o_seq o) = tx_pool st' → (iteration cfg policy env o).1 = Panicked).
Proof.
  intros Hc Hp Hcfg Hw Hb Hempty Hq Htar Htime.
  destruct (costless_admitted r st Hc) as (st' & E & Epool & _). exists st'. split; [done|].
  intros Eo. destruct Hc as (_ & _ & Hg & _). rewrite Hempty in Epool. cbn in Epool.
  rewrite <- Eo in Epool.
  assert (Hcount : pool_pending_count (pool (o_seq o)) = 1) by (unfold pool_pending_count; by rewrite Epool).
  apply (front_price_panics cfg policy Hcfg env o (pooled_of r) []); rewrite ?Hcount; try done.
  - split; rewrite ?Hq, ?Epool; try done; repeat constructor; unfold has_gas; cbn; [lia|].
    unfold u128_max in Hp. lia.
  - cbn. rewrite Hg. apply Hcfg.
Qed.
End discard.

(** ** Admitted transactions execute *)

Section executes.
Context `{Hashing} `{PubkeyRecover} `{TraceCodec} {S : Type} `{StateManagerLaws S} (allow_unsigned : bool).

Notation sent s l := (filter (λ t, e_from t = s) l).

Definition amounts (l : list ETransaction) : Z := sumZ (e_amount <$> l).

(** Per sender, nonces follow on from the account's and amounts are covered. *)
Record ready (accounts : Z → Account) (l : list ETransaction) : Prop := {
  rd_nonces s : is_address s → e_nonce <$> sent s l =
    (λ i, nonce (accounts s) + Z.of_nat i) <$> seq 0 (length (sent s l));
  rd_amounts s : is_address s → amounts (sent s l) ≤ balance (accounts s);
  rd_width s : is_address s → nonce (accounts s) + Z.of_nat (length (sent s l)) ≤ u64_max;
}.

Lemma amounts_cons tx l : amounts (tx :: l) = e_amount tx + amounts l.
Proof. done. Qed.

Lemma amounts_nonneg l : Forall wf_etx l → 0 ≤ amounts l.
Proof.
  intros Hl. apply sumZ_nonneg. rewrite Forall_fmap. eapply Forall_impl; [exact Hl|].
  intros tx Htx. apply Htx.
Qed.

Lemma ready_head accounts tx l :
  wf_etx tx → Forall wf_etx l → ready accounts (tx :: l) →
  e_nonce tx = nonce (accounts (e_from tx)) ∧ e_amount tx ≤ balance (accounts (e_from tx)) ∧
  nonce (accounts (e_from tx)) < u64_max.
Proof.
  intros Htx Hl [Hn Ha Hw]. specialize (Hn (e_from tx) (proj1 Htx)). specialize (Hw (e_from tx) (proj1 Htx)).
  specialize (Ha (e_from tx) (proj1 Htx)). rewrite filter_cons_True in Hn, Ha, Hw by done.
  cbn in Hn, Hw. injection Hn as Hn _. rewrite amounts_cons in Ha.
  assert (0 ≤ amounts (sent (e_from tx) l)).
  { apply amounts_nonneg, Forall_forall. intros t [_ Ht]%list_elem_of_filter.
    rewrite Forall_forall in Hl. by apply Hl. }
  split_and!; lia.
Qed.

Lemma ready_tail accounts tx l :
  wf_etx tx → (∀ a, is_address a → wf_account (accounts a)) → not_self tx →
  ready accounts (tx :: l) → nonce (accounts (e_from tx)) < u64_max →
  ready (after_transfer accounts tx) l.
Proof.
  intros Htx Hwf Hself [Hn Ha Hw] Hlt. unfold not_self in Hself.
  assert (Hno : ∀ s, nonce (after_transfer accounts tx s) =
    nonce (accounts s) + (if decide (s = e_from tx) then 1 else 0)).
  { intros s. unfold after_transfer, sat_add.
    destruct (decide (s = e_to tx)) as [->|]; [rewrite decide_False by congruence; cbn; lia|].
    destruct (decide (s = e_from tx)) as [->|]; cbn; lia. }
  split.
  - intros s Hs. specialize (Hn s Hs). rewrite Hno. rewrite filter_cons in Hn.
    destruct (decide (e_from tx = s)) as [<-|Hne].
    + rewrite decide_True by done. cbn in Hn. injection Hn as _ Hn. rewrite Hn, <- fmap_S_seq, <- list_fmap_compose.
      apply list_fmap_ext. intros ? i _. cbn. lia.
    + rewrite decide_False by congruence. by rewrite Z.add_0_r.
  - intros s Hs. specialize (Ha s Hs). destruct (Hwf s Hs) as [[Hb0 Hb1] _].
    rewrite filter_cons in Ha. assert (Hamt : 0 ≤ e_amount tx) by apply Htx.
    unfold after_transfer, sat_add.
    destruct (decide (e_from tx = s)) as [<-|Hne].
    + rewrite (decide_False (P := e_from tx = e_to tx)), decide_True by done. cbn [balance].
      rewrite amounts_cons in Ha. lia.
    + destruct (decide (s = e_to tx)) as [->|]; cbn [balance]; [lia|].
      rewrite decide_False by congruence. done.
  - intros s Hs. specialize (Hw s Hs). rewrite Hno. rewrite filter_cons in Hw.
    destruct (decide (e_from tx = s)) as [<-|Hne].
    + rewrite decide_True by done. cbn in Hw. lia.
    + rewrite decide_False by congruence. lia.
Qed.

Lemma ready_ext A B l : (∀ a, is_address a → A a = B a) → ready A l → ready B l.
Proof. intros HAB [Hn Ha Hw]. split; intros s Hs; rewrite <- HAB by done; auto. Qed.

Lemma runs_all max txs (x x' : Progress S) :
  Forall wf_etx txs → Forall not_self txs →
  Forall (λ tx, verify_tx_signature allow_unsigned tx = true) txs →
  ready (get_account (x_state x)) txs →
  Z.of_nat (length (x_executed x)) + Z.of_nat (length txs) ≤ max →
  runs allow_unsigned max txs x x' → x_executed x' = x_executed x ++ txs.
Proof.
  intros Hw Hself Hsig Hrd Hmax Hr. revert Hw Hself Hsig Hrd Hmax.
  induction Hr as [x|tx txs x x1 x2 Hx Htx Hx1 Hcase Hr IH]; intros Hw Hself Hsig Hrd Hmax.
  { by rewrite app_nil_r. }
  inversion Hw as [|?? _ Hw']; inversion Hself as [|?? Hs Hself']; inversion Hsig as [|?? Hg Hsig']; subst.
  destruct (ready_head _ tx txs Htx Hw' Hrd) as (Hno & Hamt & Hlt).
  destruct Hcase as [(_ & _ & Hget & Ee & _)|([Hrej|Hfull] & _)]; [|exfalso..].
  - rewrite IH, Ee, <- (assoc_L (++)); try done.
    + eapply ready_ext; [intros a Ha; symmetry; by apply Hget|].
      apply ready_tail; [done|apply Hx|done..].
    + rewrite Ee, length_app. cbn in *. lia.
  - apply Hrej. by apply rejection_None.
  - cbn in Hmax. lia.
Qed.

Lemma ready_executes batch_id txs (s : S) :
  state_ok s → Forall wf_etx txs → Forall not_self txs →
  Forall (λ tx, verify_tx_signature allow_unsigned tx = true) txs →
  ready (get_account s) txs → Z.of_nat (length txs) ≤ max_included batch_id →
  ∃ t s', execute_batch allow_unsigned batch_id txs s = (Ok t, s') ∧ t_executed t = txs.
Proof.
  intros Hs Hw Hself Hsig Hrd Hmax.
  destruct (execute_batch_runs allow_unsigned batch_id txs s Hs Hw) as (t & s' & x' & E & _ & Hr & _ & Ee & _).
  exists t, s'. split; [done|]. rewrite Ee.
  apply (runs_all _ _ (mkProgress s (current_root s) [] [] []) x' Hw Hself Hsig Hrd Hmax Hr).
Qed.
End executes.

(** ** From admission to execution *)

(** A signature whose last byte is a recovery identifier, or one with 27 added. *)
Definition recovery_byte (sig : bytes) : Z := byte_val (default Byte.x00 (sig !! 64%nat)).
Definition plain_signature (sig : bytes) : Prop := length sig = 65%nat ∧ recovery_byte sig ∈ [0; 1; 27; 28].

#[export] Instance plain_signature_dec sig : Decision (plain_signature sig).
Proof. unfold plain_signature. apply _. Defined.

(** The two signature libraries recover the same signer from such a signature:
    the key that [k256] finds has the address that ethers finds. *)
Class RecoverAgrees `{Hashing} `{SigRecover} `{PubkeyRecover} : Prop :=
  recover_agrees sig h a :
    plain_signature sig → recover sig h = Some a →
    let v := recovery_byte sig in
    ∃ pubkey, recover_pubkey h (take 64 sig) (if 27 <=? v then v - 27 else v) = Some pubkey ∧
      be_val (drop 12 (keccak256 (drop 1 pubkey))) = a.

Section end_to_end.
Context `{Hashing} `{SigRecover} `{PubkeyRecover} `{!RecoverAgrees} `{TraceCodec}.
Context `{HashIterLaws (list PooledTransaction)} {S : Type} `{StateManagerLaws S}.

Lemma normalized_signature tx t :
  normalize_one (SeqNormal tx) = Ok t → e_signature t = u_signature tx ∧ e_from t = u_from tx.
Proof.
  intros Hn. cbn in Hn. apply result_bind_inv in Hn as (? & _ & Hn).
  apply result_bind_inv in Hn as (? & _ & Hn). by apply result_bind_inv in Hn as (? & _ & [= <-]).
Qed.

Lemma signature_carries_over tx t :
  wf_user_tx tx → plain_signature (u_signature tx) → verify_signature tx = Ok tt →
  normalize_one (SeqNormal tx) = Ok t → verify_tx_signature false t = true.
Proof.
  intros Hwf Hplain Hv Hn. pose proof (prehash_normal tx t Hwf Hn) as Eh.
  destruct (normalized_signature tx t Hn) as [Es Ef]. unfold verify_signature in Hv.
  destruct (recover _ _) as [a|] eqn:Er; [|done]. destruct (Z.eqb_spec a (u_from tx)) as [->|]; [|done].
  destruct (recover_agrees _ _ _ Hplain Er) as (pubkey & Hp & Ha). destruct Hplain as [Hlen Hid].
  unfold verify_tx_signature, recovery_byte in *. rewrite Es, Ef, Eh.
  destruct (u_signature tx) as [|c sig]; [done|]. rewrite Hlen.
  change ((65 =? 65)%nat) with true. cbv iota zeta.
  rewrite (proj2 (Z.ltb_lt _ 4)), Hp; [by apply bool_decide_true|].
  rewrite !elem_of_cons, elem_of_nil in Hid. destruct Hid as [->|[->|[->|[->|[]]]]]; done.
Qed.

(** A signature with a chain identifier in its last byte, which ethers
    accepts, is refused by the executor whoever made it. *)
Theorem chain_bound_signature_refused allow_unsigned tx t :
  length (u_signature tx) = 65%nat → 35 ≤ recovery_byte (u_signature tx) →
  normalize_one (SeqNormal tx) = Ok t →
  ∀ sender, rejection allow_unsigned t sender = Some "invalid_signature".
Proof.
  intros Hlen Hv Hn sender. destruct (normalized_signature tx t Hn) as [Es _].
  unfold rejection, verify_tx_signature, recovery_byte in *. rewrite Es.
  destruct (u_signature tx) as [|c sig]; [done|]. rewrite Hlen.
  change ((65 =? 65)%nat) with true. cbv iota zeta.
  rewrite (proj2 (Z.leb_le 27 _)), (proj2 (Z.ltb_ge _ 4)) by lia. done.
Qed.

(** What the batch of a pool looks like to the executor. *)
Definition user_etx (p : PooledTransaction) : ETransaction :=
  let tx := p_tx p in
  mkETx (u_from tx) (u_to tx) (u_value tx) (u_nonce tx) (u_signature tx) (u_gas_price tx)
    (u_gas_limit tx) (u_timestamp tx) (default 0 (u_boost_bid tx)).

Lemma normalize_user p t :
  normalize_one (executor_tx (Normal p)) = Ok t → t = user_etx p.
Proof.
  cbn. unfold u256_to_u64_checked, as_u64, user_etx. intros E.
  apply result_bind_inv in E as (v & Ev & E). apply result_bind_inv in E as (g & Eg & E).
  apply result_bind_inv in E as (b & Eb & [= <-]).
  repeat case_match; simplify_eq; done.
Qed.

Lemma normalize_users ns :
  Forall (λ p, ¬ oversized (executor_tx (Normal p))) ns →
  normalize_transactions (executor_tx <$> (Normal <$> ns)) = Ok (user_etx <$> ns).
Proof.
  induction 1 as [|p ns Hp _ IH]; [done|]. rewrite !fmap_cons. cbn [normalize_transactions].
  apply normalize_one_Ok in Hp as [t Ht]. rewrite Ht. cbn [mbind result_bind].
  rewrite IH. cbn. by rewrite (normalize_user p t Ht).
Qed.

(** A policy that keeps the senders' transactions in the order of their nonces. *)
Definition orders_by_nonce (policy : SchedulingPolicyType) : Prop :=
  policy ≠ FairBft ∧ policy ≠ TimeBoost 0.

Lemma order_keeps_senders policy txs :
  orders_by_nonce policy → nonce_ordered txs →
  ∃ out, order_transactions policy txs = Some out ∧ out ≡ₚ txs ∧ ∀ s, of_sender s out = of_sender s txs.
Proof.
  intros [Hf Hw] Hs. destruct (policy_better policy) as [better|] eqn:E.
  - pose proof (policy_preference policy better E Hw).
    destruct (order_grouped_spec better txs) as (out & Eo & Hp & Ho & _). exists out.
    split; [by destruct policy; inversion E; subst|]. split; [done|].
    intros s. rewrite Ho. apply sort_by_id, Hs.
  - destruct policy; try done. by exists txs.
Qed.

(** Consecutive numbers are in order. *)
Lemma consecutive_nonces_sorted n (l : list PooledTransaction) :
  (λ p, nonce_of p) <$> l = (λ i, n + Z.of_nat i) <$> seq 0 (length l) → sorted_by nonce_le l.
Proof.
  generalize 0%nat. induction l as [|p l IH]; intros k E; [constructor|].
  cbn in E. injection E as Ep El. constructor; [by apply (IH (Datatypes.S k))|].
  apply Forall_forall. intros q Hq. unfold nonce_le. apply Z.leb_le.
  assert (Hin : nonce_of q ∈ (λ i, n + Z.of_nat i) <$> seq (Datatypes.S k) (length l)).
  { rewrite <- El. by apply (list_elem_of_fmap_2 (λ p, nonce_of p)). }
  apply list_elem_of_fmap in Hin as (i & -> & Hi%elem_of_seq). lia.
Qed.

Lemma ledger_nonce_ordered c0 c added : ledger c0 c added → nonce_ordered added.
Proof. intros [_ Hl] s. eapply consecutive_nonces_sorted. apply (Hl s). Qed.

Lemma value_le_costs (l : list PooledTransaction) :
  Forall (λ p, wf_user_tx (p_tx p) ∧ is_Some (total_cost (p_tx p))) l →
  amounts (user_etx <$> l) ≤ costs l.
Proof.
  induction 1 as [|p l [Hwf [cost Hc]] _ IH]; [done|]. rewrite fmap_cons, amounts_cons.
  change (p :: l) with ([p] ++ l). rewrite costs_app. unfold costs at 1, sumZ. cbn. rewrite Hc. cbn.
  assert (u_value (p_tx p) ≤ cost); [|lia].
  unfold total_cost, u256_mul, u256_add in Hc. unfold wf_user_tx, is_u256, is_u64 in Hwf.
  apply bind_Some in Hc as (g & Hg & Hc). repeat case_match; simplify_eq. nia.
Qed.

Lemma sent_users s (l : list PooledTransaction) :
  filter (λ t, e_from t = s) (user_etx <$> l) = user_etx <$> of_sender s l.
Proof.
  induction l as [|p l IH]; [done|]. rewrite fmap_cons, !filter_cons, IH. cbn. by repeat case_decide.
Qed.

(** The executor's accounts are at least as rich as the cache says, and agree
    on nonces. *)
Definition agrees (c : StateCache) (s : S) : Prop :=
  ∀ a, is_address a → nonce (get_account s a) = nonce_at c a ∧ balance_at c a ≤ balance (get_account s a).

Lemma ledger_ready c0 c added out (s : S) :
  ledger c0 c added → agrees c0 s → (∀ a, of_sender a out = of_sender a added) →
  (∀ a, nonce_at c0 a + Z.of_nat (length added) ≤ u64_max) →
  ready (get_account s) (user_etx <$> out).
Proof.
  intros [Hv Hl] Hag Hout Hw. split; intros a Ha; rewrite sent_users, Hout;
    destruct (Hag a Ha) as [En Hbal]; destruct (Hl a) as (Hn & _ & Hc & Hpos).
  - rewrite En, <- list_fmap_compose, length_fmap. exact Hn.
  - assert (amounts (user_etx <$> of_sender a added) ≤ costs (of_sender a added)); [|lia].
    apply value_le_costs, Forall_forall. intros p [_ Hp]%list_elem_of_filter.
    rewrite Forall_forall in Hv. by destruct (Hv p Hp) as (_ & ? & ?).
  - rewrite En, length_fmap. pose proof (length_filter (λ t, sender t = a) added). specialize (Hw a). lia.
Qed.

Lemma user_etx_wf p : wf_user_tx (p_tx p) → ¬ oversized (executor_tx (Normal p)) → wf_etx (user_etx p).
Proof.
  unfold wf_user_tx, wf_etx, is_address, is_u256, is_u64. cbn. intros Hwf Ho. split_and!; lia.
Qed.

(** The batch of a pool that is taken whole. *)
Lemma produce_whole_pool cfg policy now_ms p id pb s1 :
  wf_config cfg → orders_by_nonce policy → policy ≠ BlobPacking → nonce_ordered (pool_txs p) →
  Forall (λ t, wf_user_tx (p_tx t)) (pool_txs p) →
  produce_batch cfg policy now_ms (mkSequencer [] p id) = (Ok (Some pb), s1) → pool_txs (pool s1) = [] →
  ∃ out, transactions (pb_batch pb) = Normal <$> out ∧ out ≡ₚ pool_txs p ∧
    ∀ s, of_sender s out = of_sender s (pool_txs p).
Proof.
  intros Hcfg Hpol Hb Hord Hwf Hprod Hleft.
  assert (Hs : wf_sequencer (mkSequencer [] p id)).
  { split; cbn; [done|..]; (eapply Forall_impl; [exact Hwf|]); intros t Ht; apply Ht. }
  unfold produce_batch in Hprod.
  destruct (take_transactions cfg policy _) as [[[fs ns] d] s] eqn:Et.
  destruct (order_keeps_senders policy (pool_txs p) Hpol Hord) as (out & Eo & Hp & Ho).
  assert (Hall : pool_txs (pool s) = [] → fs = [] ∧ ns = pool_txs p).
  { intros Hl. apply (take_transactions_all cfg policy Hcfg _ fs ns d s Hs); try done.
    by destruct policy. }
  destruct (bool_decide (fs = []) && bool_decide (ns = [])); [done|].
  destruct (schedule policy fs ns) as [ordered|] eqn:Esch; [|done].
  destruct (fee_totals ordered 0 0) as [[price proxy]|]; [|done].
  destruct (mev_metrics ordered) as [[actual optimal]|]; [|done]. injection Hprod as <- <-.
  destruct (Hall Hleft) as [-> ->]. unfold schedule in Esch. rewrite Eo in Esch. cbn in Esch.
  injection Esch as <-. by exists out.
Qed.

(** C12: Transactions admitted one after another into an empty pool and sealed
    together all execute:
    if the executor's state agrees with the sequencer's cache, every value,
    price and bid fits in 64 bits, every signature ends in one of the bytes 0, 1,
    27 and 28, nobody pays themselves, and the executor's limit for the batch
    identifier is not exceeded, then a batch of the whole pool, under any policy
    that respects nonces and does not pack blobs, is executed without a single
    rejection. *)
Theorem admitted_batch_executes cfg policy rs st now_ms id pb s1 bid (se : S) :
  let st' := handle_all rs st in
  Forall (λ r, wf_user_tx (r_tx r)) rs →
  Forall (λ r, ¬ oversized (SeqNormal (r_tx r)) ∧ u_from (r_tx r) ≠ u_to (r_tx r) ∧
               plain_signature (u_signature (r_tx r))) rs →
  (∀ a, 0 ≤ balance_at (state_cache st) a) →
  (∀ a, 0 ≤ nonce_at (state_cache st) a ∧
        nonce_at (state_cache st) a + Z.of_nat (length rs) ≤ u64_max) →
  pool_txs (tx_pool st) = [] → wf_config cfg → orders_by_nonce policy → policy ≠ BlobPacking →
  produce_batch cfg policy now_ms (mkSequencer [] (tx_pool st') id) = (Ok (Some pb), s1) →
  pool_txs (pool s1) = [] →
  state_ok se → agrees (state_cache st) se → Z.of_nat (length rs) ≤ max_included bid →
  ∃ txs t se', normalize_transactions (executor_tx <$> transactions (pb_batch pb)) = Ok txs ∧
    txs ≡ₚ user_etx <$> pool_txs (tx_pool st') ∧
    execute_batch false bid txs se = (Ok t, se') ∧ t_executed t = txs.
Proof.
  intros st' Hwf Hreq Hb Hn Hempty Hcfg Hpol Hblob Hprod Hleft Hse Hag Hmax.
  destruct (handle_all_ledger rs st Hwf Hb Hn) as (added & Epool & Hsub & Hl). fold st' in Epool, Hl.
  rewrite Hempty in Epool. cbn in Epool.
  pose proof (ledger_nonce_ordered _ _ _ Hl) as Hord. rewrite <- Epool in Hord.
  assert (Hadd : Forall (λ p, ¬ oversized (executor_tx (Normal p)) ∧ u_from (p_tx p) ≠ u_to (p_tx p) ∧
                              plain_signature (u_signature (p_tx p))) added).
  { eapply Forall_sublist_of; [exact Hsub|]. rewrite Forall_fmap. exact Hreq. }
  pose proof Hl as [Hv _].
  assert (Hwfp : Forall (λ t, wf_user_tx (p_tx t)) (pool_txs (tx_pool st'))).
  { rewrite Epool. eapply Forall_impl; [exact Hv|]. by intros p (_ & ? & _). }
  destruct (produce_whole_pool cfg policy now_ms (tx_pool st') id pb s1) as (out & Etx & Hp & Ho); try done.
  rewrite Epool in *. rewrite <- Hp in Hadd, Hv, Hwfp.
  apply sublist_length in Hsub. rewrite length_fmap in Hsub.
  assert (Hover : Forall (λ p, ¬ oversized (executor_tx (Normal p))) out)
    by (eapply Forall_impl; [exact Hadd|]; by intros p [? _]).
  destruct (ready_executes false bid (user_etx <$> out) se) as (t & se' & E & Ee).
  - done.
  - rewrite Forall_fmap, Forall_forall in *. intros p Hin. apply user_etx_wf; auto.
  - rewrite Forall_fmap. eapply Forall_impl; [exact Hadd|]. by intros p (_ & ? & _).
  - rewrite Forall_fmap, Forall_forall in *. intros p Hin. destruct (Hv p Hin) as (Hsig & Hw & _).
    destruct (Hadd p Hin) as (_ & _ & Hplain).
    destruct (proj2 (normalize_one_Ok _) (Hover p Hin)) as [e He]. cbn.
    rewrite <- (normalize_user p e He). by eapply signature_carries_over.
  - eapply ledger_ready; try done. intros a. specialize (Hn a). lia.
  - rewrite length_fmap, (Permutation_length Hp). lia.
  - exists (user_etx <$> out), t, se'. split_and!; try done.
    + rewrite Etx. by apply normalize_users.
    + by rewrite Hp.
Qed.
End end_to_end.

Module PipelineSamples.
Import SequencerSamples AdmissionSamples BatchSamples EngineSamples.
#[local] Existing Instance model_hashing.
#[local] Existing Instance model_iter.
#[local] Existing Instance model_iter_laws.

#[local] Instance model_recover_agrees : RecoverAgrees.
Proof.
  intros sig h a [Hlen Hid]. unfold recover, model_recover. rewrite Hlen. cbn [Nat.eqb andb].
  case_match; [|done]. intros [= <-]. eexists. split; [reflexivity|].
  f_equal. change (keccak256 (drop 1 (Byte.x04 :: take 64 sig))) with (model_hash (take 64 sig)).
  unfold model_hash. by rewrite take_app_le, take_take by (rewrite length_take; lia).
Qed.

(** The executor's view of the account the sequencer has cached. *)
Definition sample_ledger : InMemoryStateManager := {[1 := mkAccount 100 0]}.

Lemma sample_ledger_ok : state_ok sample_ledger.
Proof.
  apply memory_state_ok, map_Forall_singleton. repeat split; vm_compute; discriminate.
Qed.

Lemma sample_agrees : agrees (state_cache sample_app) sample_ledger.
Proof.
  intros a _. cbn. unfold mem_get_account, nonce_at, balance_at, get_nonce, get_balance. cbn.
  destruct (decide (a = 1)) as [->|Hne]; [split; vm_compute; done || discriminate|].
  unfold sample_ledger. rewrite !lookup_singleton_ne by done. split; cbn; done || lia.
Qed.

Lemma admitted_batch_witness :
  ∃ pb s1 txs t se',
    produce_batch sample_config FeePriority 5000
      (mkSequencer [] (tx_pool (handle_all sample_requests sample_app)) 1) = (Ok (Some pb), s1) ∧
    execute_batch false "1" txs sample_ledger = (Ok t, se') ∧ t_executed t = txs ∧
    txs ≡ₚ user_etx <$> pool_txs (tx_pool (handle_all sample_requests sample_app)).
Proof.
  destruct (produce_batch sample_config FeePriority 5000
    (mkSequencer [] (tx_pool (handle_all sample_requests sample_app)) 1)) as [[[pb|]| |] s1] eqn:E;
    [|by vm_compute in E..].
  destruct (admitted_batch_executes sample_config FeePriority sample_requests sample_app 5000 1 pb s1
    "1" sample_ledger) as (txs & t & se' & _ & Hp & Ex & Et).
  - apply sample_requests_wf.
  - repeat apply Forall_cons_2; try apply Forall_nil_2;
      (split_and!; [vm_compute; intros [?|[?|?]]; discriminate|vm_compute; discriminate|
                    apply (bool_decide_unpack _); vm_compute; done]).
  - apply sample_balances.
  - apply sample_nonces.
  - reflexivity.
  - apply sample_config_wf.
  - split; discriminate.
  - discriminate.
  - exact E.
  - revert E. vm_compute. by intros [= _ <-].
  - apply sample_ledger_ok.
  - apply sample_agrees.
  - vm_compute. discriminate.
  - exists pb, s1, txs, t, se'. split; [reflexivity|]. split; [exact Ex|]. split; [exact Et|exact Hp].
Defined.

(** A transaction without value and gas, with a price of 129 bits. *)
Definition free_request : Request :=
  mkRequest (mkUserTx 1 2 0 0 (2 ^ 128) 0 (model_sign 1) 0 None) 0 0.

Definition stalled_orchestrator : Orchestrator :=
  mkOrchestrator (mkSequencer [] (tx_pool (handle_tx free_request sample_app).2) 1) ∅ [] 1000.

Lemma free_transaction_stops_witness :
  (handle_tx free_request sample_app).1 = Ok tt ∧
  (iteration sample_config Fcfs sample_turn stalled_orchestrator).1 = Panicked.
Proof.
  destruct (free_transaction_stops_batching sample_config Fcfs free_request sample_app sample_turn
    stalled_orchestrator) as (st' & E & Hp).
  - repeat split; vm_compute; done || discriminate.
  - vm_compute. reflexivity.
  - apply sample_config_wf.
  - discriminate.
  - discriminate.
  - reflexivity.
  - reflexivity.
  - vm_compute. discriminate.
  - vm_compute. discriminate.
  - rewrite E. split; [reflexivity|]. apply Hp. unfold stalled_orchestrator. by rewrite E.
Defined.

End PipelineSamples.
