(* ===== verification/L1Listener.v ===== *)
(** * Sequencer: the L1 listener ([sequencer/src/l1/listener.rs])

    The listener subscribes to two events of the bridge by their signatures and
    turns what it receives into forced transactions.  Connections, the logs they
    deliver and the clock are arguments; a log carries an event of the contract
    of [Bridge].  The theorems follow a deposit from the bridge to the executor. *)

From stdpp Require Import base gmap list strings pretty.
From Stdlib Require Import ZArith Lia.
From S2P Require Import Prelude Rust RollupContracts Bridge BridgeProofs.
From S2P Require Import SequencerTypes SequencerPool ExecutorTypes ExecutorState ExecutorEngine ExecutorService RollupPipeline.

(** ** Logs *)

(** The text whose hash is the first topic of a log. *)
Definition event_signature (ev : event) : string :=
  match ev with
  | Bridge.Deposit _ _ _ => "Deposit(address,address,uint256)"
  | DepositERC20 _ _ _ _ => "DepositERC20(address,address,address,uint256)"
  | Withdrawal _ _ _ => "Withdrawal(address,uint256,bytes32)"
  | SequencerUpdated _ => "SequencerUpdated(address)"
  | BridgeFrozen _ => "BridgeFrozen(string)"
  | BridgeUnfrozen => "BridgeUnfrozen()"
  | DAProviderSet _ _ _ => "DAProviderSet(uint8,address,bool)"
  | VerifierSet _ _ => "VerifierSet(uint8,address)"
  | BatchCommitted _ _ _ _ _ _ => "BatchCommitted(uint256,uint8,uint8,bytes32,bytes32,bytes32)"
  | BatchSoftCommitted _ _ _ => "BatchSoftCommitted(uint256,bytes32,uint256)"
  | BatchDataPointer _ _ => "BatchDataPointer(uint256,bytes)"
  | ForcedTransactionEnqueued _ _ => "ForcedTransactionEnqueued(bytes32,uint256)"
  | OptimisticRootFinalized _ => "OptimisticRootFinalized(bytes32)"
  end.

Record Log := mkLog {
  log_event : event;
  log_transaction_hash : option bytes;
  log_block_number : option Z;
}.

(** [parse_log]: the two addresses and the amount of an event with the signature
    asked for. *)
Definition parse_log (signature : string) (log : Log) : option (Z * Z * Z) :=
  if String.eqb (event_signature (log_event log)) signature then
    match log_event log with
    | Bridge.Deposit from to value => Some (from, to, value)
    | _ => None
    end
  else None.

(** ** The listener *)

Definition deposit_signature : string := "Deposit(address,address,uint256)".
Definition forced_exit_signature : string := "ForcedExit(address,address,uint256)".

(** The forced transaction made of a parsed log. *)
Definition forced_of (kind : ForcedEventType) (now : Z) (log : Log) (p : Z * Z * Z)
    : ForcedTransaction :=
  let '(from, to, value) := p in
  let hash := default (replicate 32 Byte.x00) (log_transaction_hash log) in
  mkForcedTx hash from to value 0 21000 hash (default 0 (log_block_number log)) kind now.

(** A log that cannot be parsed is only reported. *)
Definition handle_deposit_event (now : Z) (log : Log) (q : ForcedQueue) : ForcedQueue :=
  match parse_log deposit_signature log with
  | Some p => forced_add (forced_of SequencerTypes.Deposit now log p) q
  | None => q
  end.

Definition handle_forced_exit_event (now : Z) (log : Log) (q : ForcedQueue) : ForcedQueue :=
  match parse_log forced_exit_signature log with
  | Some p => forced_add (forced_of SequencerTypes.ForcedExit now log p) q
  | None => q
  end.

(** One round of the [select!]: a log the node delivers to the stream whose filter
    it matches; any other log is not delivered. *)
Definition on_log (now : Z) (st : Z * ForcedQueue) (log : Log) : Z * ForcedQueue :=
  let '(last_processed_block, q) := st in
  let next := if last_processed_block + 1 <=? u64_max then last_processed_block + 1
              else last_processed_block in
  if String.eqb (event_signature (log_event log)) deposit_signature
  then (next, handle_deposit_event now log q)
  else if String.eqb (event_signature (log_event log)) forced_exit_signature
  then (next, handle_forced_exit_event now log q)
  else st.

(** [listen_for_events]: the logs of one connection, until the streams end. *)
Definition listen_for_events (now from_block : Z) (logs : list Log) (q : ForcedQueue)
    : Z * ForcedQueue := foldl (on_log now) (from_block, q) logs.

(** [start] over a sequence of connections; [None] is one that fails. *)
Definition listener_start (now start_block : Z) (connections : list (option (list Log)))
    (q : ForcedQueue) : Z * ForcedQueue :=
  foldl (λ st c, match c with
                 | Some logs =>
                     let '(last_block, q') := listen_for_events now st.1 logs st.2 in
                     (wrap64 (last_block + 1), q')
                 | None => st
                 end) (start_block, q) connections.

(** ** What reaches the queue *)

Definition deposit_of (now : Z) (log : Log) : option ForcedTransaction :=
  match log_event log with
  | Bridge.Deposit from to value => Some (forced_of SequencerTypes.Deposit now log (from, to, value))
  | _ => None
  end.

Lemma on_log_queue now b q log :
  (on_log now (b, q) log).2 = q ++ option_list (deposit_of now log).
Proof.
  unfold on_log, deposit_of, handle_deposit_event, parse_log.
  by destruct (log_event log); cbn; rewrite ?app_nil_r.
Qed.

Lemma listen_queue now logs : ∀ b q,
  (listen_for_events now b logs q).2 = q ++ omap (deposit_of now) logs.
Proof.
  induction logs as [|log logs IH]; intros b q; [by rewrite app_nil_r|].
  unfold listen_for_events in *. cbn [foldl omap list_omap].
  pose proof (on_log_queue now b q log) as E. destruct (on_log now (b, q) log) as [b' q'].
  cbn [snd] in E. rewrite IH, E. destruct (deposit_of now log); cbn [option_list];
    by rewrite <- ?app_assoc, ?app_nil_r.
Qed.

(** Whatever the connections, the queue receives exactly the deposits among the
    logs delivered, in order: no request made with [forceTransaction] ever
    reaches the sequencer. *)
Theorem listener_queues_deposits now start_block connections q :
  (listener_start now start_block connections q).2 =
    q ++ omap (deposit_of now) (concat (omap id connections)).
Proof.
  unfold listener_start. revert start_block q.
  induction connections as [|c cs IH]; intros b q; [by rewrite app_nil_r|].
  destruct c as [logs|]; cbn [foldl omap list_omap id fst snd]; [|apply IH].
  pose proof (listen_queue now logs b q) as E.
  destruct (listen_for_events now b logs q) as [b' q']. cbn [snd] in E.
  rewrite IH, E. cbn [concat]. by rewrite omap_app, <- app_assoc.
Qed.

(** ** From the bridge to the executor *)

Section deposits.
Context {evm : Evm} `{Hashing} `{PubkeyRecover} `{TraceCodec} {S : Type} `{StateManagerLaws S}.

Lemma single_executed allow_unsigned batch_id tx (st : S) t st' :
  state_ok st → wf_etx tx → e_from tx ≠ e_to tx →
  execute_batch allow_unsigned batch_id [tx] st = (Ok t, st') → tx ∈ t_executed t →
  e_amount tx ≤ balance (get_account st (e_from tx)) ∧
  balance (get_account st' (e_from tx)) = balance (get_account st (e_from tx)) - e_amount tx.
Proof.
  intros Hs Hw Hne E Hin.
  destruct (execute_batch_runs allow_unsigned batch_id [tx] st Hs) as (? & ? & x & E' & _ & Hr & -> & Ee & _);
    [by constructor|]. rewrite E in E'. injection E' as <- ->.
  inversion Hr as [|? ? ? x1 ? _ _ _ Hcase Hr']; subst. inversion Hr'; subst.
  destruct Hcase as [(Hrej & _ & Hget & _)|(_ & _ & Ex & _)].
  - apply rejection_None in Hrej as (_ & _ & Hle). split; [done|]. rewrite Hget by apply Hw.
    unfold after_transfer. by rewrite decide_False, decide_True.
  - rewrite Ee, Ex in Hin. by apply elem_of_nil in Hin.
Qed.

(** C32: A deposit is locked and never credited.  The transaction adds the value to the
    bridge and its log makes the listener queue one forced transaction, for the
    sender, the recipient and the value.  It carries no signature, so no batch
    executes it, in any state, unless [ALLOW_UNSIGNED_USER_TXS] is set; and where
    that is set, a deposit for another account, in a batch of its own, is executed
    as a transfer that the depositor pays out of their account on the rollup, so
    that the value locked is still not credited to anybody. *)
Theorem deposit_never_credited c to s s' ev now b q tx_hash block :
  enter c (CDeposit to) s = inr (tt, s', ev) →
  Bridge.balance s' = Bridge.balance s + msg_value c ∧
  ∃ f, (listen_for_events now b ((λ e, mkLog e tx_hash block) <$> ev) q).2 = q ++ [f] ∧
    f_from f = msg_sender c ∧ f_to f = to ∧ f_value f = msg_value c ∧
    ∀ tx, normalize_one (executor_tx (Forced f)) = Ok tx →
    (∀ batch_id txs (st : S) t st',
      state_ok st → Forall wf_etx txs → execute_batch false batch_id txs st = (Ok t, st') →
      tx ∉ t_executed t) ∧
    (∀ batch_id (st : S) t st',
      state_ok st → wf_etx tx → msg_sender c ≠ to →
      execute_batch true batch_id [tx] st = (Ok t, st') → tx ∈ t_executed t →
      msg_value c ≤ balance (get_account st (msg_sender c)) ∧
      balance (get_account st' (msg_sender c)) = balance (get_account st (msg_sender c)) - msg_value c).
Proof.
  intros E%enter_sound. inversion E; subst. split; [done|].
  eexists. rewrite listen_queue. split; [reflexivity|]. split_and!; [done..|].
  intros tx Hn. split; [intros; by eapply forced_never_executed|].
  cbn in Hn. unfold u256_to_u64_checked, as_u64 in Hn. case_match; [done|]. cbn in Hn. injection Hn as <-.
  intros batch_id st t st' Hs Hw Hne Hb Hin.
  by apply (single_executed true batch_id _ st t st' Hs Hw Hne Hb Hin).
Qed.

End deposits.

Module DepositSamples.
Import EngineSamples.
#[local] Existing Instance model_hashing.

Definition deposit_ctx : ctx := mkCtx 7 50 1 0 0 (λ _, no_provider) (λ _, no_verifier) (λ _ _ _, true).

Definition empty_bridge : bridge := new_ZKRollupBridge 3 1 10.

Lemma deposit_never_credited_witness :
  ∃ s' ev f tx t st', enter deposit_ctx (CDeposit 9) empty_bridge = inr (tt, s', ev) ∧
    Bridge.balance s' = 50 ∧
    (listen_for_events 0 0 ((λ e, mkLog e None None) <$> ev) []).2 = [f] ∧
    normalize_one (executor_tx (Forced f)) = Ok tx ∧
    execute_batch false "1" [tx] sample_state = (Ok t, st') ∧ tx ∉ t_executed t.
Proof.
  destruct (enter deposit_ctx (CDeposit 9) empty_bridge) as [err|[[[] s'] ev]] eqn:E; [by vm_compute in E|].
  destruct (deposit_never_credited (S := InMemoryStateManager) deposit_ctx 9 empty_bridge s' ev 0 0 []
    None None E) as (Hb & f & Hq & _ & _ & _ & Hx).
  assert (Eev : ev = [Bridge.Deposit 7 9 50]) by (revert E; vm_compute; by intros [= _ <-]).
  subst ev. assert (Ef : f = forced_of SequencerTypes.Deposit 0
    (mkLog (Bridge.Deposit 7 9 50) None None) (7, 9, 50)) by (by injection Hq as <-). subst f.
  set (tx := mkETx 7 9 50 0 [] 0 21000 0 0).
  assert (En : normalize_one (executor_tx (Forced (forced_of SequencerTypes.Deposit 0
    (mkLog (Bridge.Deposit 7 9 50) None None) (7, 9, 50)))) = Ok tx) by (vm_compute; reflexivity).
  assert (Hw : Forall wf_etx [tx]) by sample_wf.
  destruct (execute_batch_runs false "1" [tx] sample_state sample_state_ok Hw) as (t & st' & _ & Ee & _).
  do 3 eexists. exists tx, t, st'. split; [reflexivity|]. split; [rewrite Hb; reflexivity|].
  split; [exact Hq|]. split; [exact En|]. split; [exact Ee|].
  exact (proj1 (Hx tx En) "1"%string [tx] sample_state t st' sample_state_ok Hw Ee).
Defined.

End DepositSamples.
