(* ===== verification/SubmitterSaga.v ===== *)
(** * Submitter: the outbox ([submitter/src/saga.rs], [domain/batch.rs])

    The SQLite table [batch_outbox] is a map from the primary key to the rest of
    the row, with the state as the text stored.  The statements are atomic; the
    time they read is an argument.  Rows with equal [last_updated] come back in
    an order the statement does not fix ([RowOrder]). *)

From stdpp Require Import base gmap list strings pretty.
From Stdlib Require Import ZArith Lia.
From S2P Require Import Prelude Rust.

Inductive SagaState :=
| ReceivedFromExecutor
| Compressed
| SubmittedToL1
| ConfirmedOnL1
| Failed.

#[export] Instance SagaState_eq_dec : EqDecision SagaState.
Proof. solve_decision. Defined.

Definition as_str (s : SagaState) : string :=
  match s with
  | ReceivedFromExecutor => "RECEIVED_FROM_EXECUTOR"
  | Compressed => "COMPRESSED"
  | SubmittedToL1 => "SUBMITTED_TO_L1"
  | ConfirmedOnL1 => "CONFIRMED_ON_L1"
  | Failed => "FAILED"
  end.

Definition from_str (s : string) : option SagaState :=
  if String.eqb s "RECEIVED_FROM_EXECUTOR" then Some ReceivedFromExecutor
  else if String.eqb s "COMPRESSED" then Some Compressed
  else if String.eqb s "SUBMITTED_TO_L1" then Some SubmittedToL1
  else if String.eqb s "CONFIRMED_ON_L1" then Some ConfirmedOnL1
  else if String.eqb s "FAILED" then Some Failed
  else None.

(** ** The table *)

Record Row := mkRow {
  w_state : string;
  w_tx_hash : option string;
  w_nonce : option Z;
  w_last_updated : Z;
  w_batch_data : option string;
  w_proof_hex : option string;
  w_original_gas_price : option string;
  w_gas_bump_count : Z;
}.

#[export] Instance Row_eq_dec : EqDecision Row.
Proof. solve_decision. Defined.

Notation SagaOutbox := (gmap string Row).

Record BatchSagaRecord := mkRecord {
  rec_batch_id : string;
  rec_state : SagaState;
  rec_tx_hash : option string;
  rec_nonce : option Z;
  rec_last_updated : Z;
  rec_batch_data : option string;
  rec_proof_hex : option string;
  rec_original_gas_price : option string;
  rec_gas_bump_count : Z;
}.

(** The closures of [query_map]. *)
Definition record_of (id : string) (w : Row) : BatchSagaRecord :=
  mkRecord id (default ReceivedFromExecutor (from_str (w_state w))) (w_tx_hash w) (w_nonce w)
    (w_last_updated w) (w_batch_data w) (w_proof_hex w) (w_original_gas_price w)
    (w_gas_bump_count w).

(** The rows in the order the table is scanned. *)
Class RowOrder := row_order : SagaOutbox → list (string * Row).
Class RowOrderLaws `{RowOrder} : Prop :=
  row_order_perm : ∀ o : SagaOutbox, row_order o ≡ₚ map_to_list o.

Definition insert_or_ignore (batch_id batch_data proof_hex : string) (now : Z) (o : SagaOutbox)
    : bool * SagaOutbox :=
  match o !! batch_id with
  | Some _ => (false, o)
  | None =>
      (true, <[batch_id := mkRow (as_str ReceivedFromExecutor) None None now (Some batch_data)
                             (Some proof_hex) None 0]> o)
  end.

Definition update_state (batch_id : string) (state : SagaState) (now : Z) (o : SagaOutbox)
    : SagaOutbox :=
  alter (λ w, mkRow (as_str state) (w_tx_hash w) (w_nonce w) now (w_batch_data w) (w_proof_hex w)
                (w_original_gas_price w) (w_gas_bump_count w)) batch_id o.

Definition update_submission (batch_id tx_hash : string) (nonce : option Z)
    (gas_price : option string) (now : Z) (o : SagaOutbox) : SagaOutbox :=
  alter (λ w, mkRow (as_str SubmittedToL1) (Some tx_hash) nonce now (w_batch_data w)
                (w_proof_hex w)
                (match gas_price with Some gp => Some gp | None => w_original_gas_price w end)
                (w_gas_bump_count w)) batch_id o.

Definition update_gas_bump (batch_id new_tx_hash : string) (nonce : option Z) (now : Z)
    (o : SagaOutbox) : SagaOutbox :=
  alter (λ w, mkRow (as_str SubmittedToL1) (Some new_tx_hash) nonce now (w_batch_data w)
                (w_proof_hex w) (w_original_gas_price w) (w_gas_bump_count w + 1)) batch_id o.

Definition unconfirmed (w : Row) : Prop :=
  w_state w ∈ [as_str ReceivedFromExecutor; as_str Compressed; as_str SubmittedToL1].

Definition get_unconfirmed_batches `{RowOrder} (o : SagaOutbox) : list BatchSagaRecord :=
  (λ p, record_of p.1 p.2) <$>
    sort_by (λ p q, w_last_updated p.2 <=? w_last_updated q.2)
      (filter (λ p, unconfirmed p.2) (row_order o)).

Definition get_record (batch_id : string) (o : SagaOutbox) : option BatchSagaRecord :=
  record_of batch_id <$> o !! batch_id.

(** The archived copy and the table left. *)
Definition reset_for_experiment (o : SagaOutbox) : SagaOutbox * SagaOutbox := (o, ∅).

(** ** Lemmas *)

Lemma from_str_as_str s : from_str (as_str s) = Some s.
Proof. by destruct s. Qed.

Lemma as_str_inj s t : as_str s = as_str t → s = t.
Proof. intros E. pose proof (from_str_as_str s). pose proof (from_str_as_str t). congruence. Qed.

Lemma unconfirmed_iff w s :
  w_state w = as_str s →
  unconfirmed w ↔ s = ReceivedFromExecutor ∨ s = Compressed ∨ s = SubmittedToL1.
Proof.
  intros E. unfold unconfirmed. rewrite E, !elem_of_cons, elem_of_nil.
  split; [intros [?%as_str_inj|[?%as_str_inj|[?%as_str_inj|[]]]]; auto|].
  intros [->|[->| ->]]; auto.
Qed.

Section queries.
Context `{RowOrderLaws}.

(** The query returns exactly the rows that are not settled, each once. *)
Lemma elem_of_unconfirmed r o :
  r ∈ get_unconfirmed_batches o ↔
  ∃ id w, o !! id = Some w ∧ unconfirmed w ∧ r = record_of id w.
Proof.
  unfold get_unconfirmed_batches. rewrite list_elem_of_fmap. split.
  - intros ([id w] & -> & Hp). apply elem_of_sort_by, list_elem_of_filter in Hp as [Hu Hp].
    rewrite row_order_perm in Hp. apply elem_of_map_to_list in Hp. eauto.
  - intros (id & w & Ho & Hu & ->). exists (id, w). split; [done|].
    apply elem_of_sort_by, list_elem_of_filter. split; [done|].
    rewrite row_order_perm. by apply elem_of_map_to_list.
Qed.

Lemma unconfirmed_NoDup o : NoDup (rec_batch_id <$> get_unconfirmed_batches o).
Proof.
  unfold get_unconfirmed_batches. rewrite <- list_fmap_compose.
  change (NoDup (fst <$> sort_by (λ p q, w_last_updated p.2 <=? w_last_updated q.2)
    (filter (λ p, unconfirmed p.2) (row_order o)))).
  rewrite sort_by_perm. apply (sublist_NoDup _ (row_order o).*1).
  - rewrite row_order_perm. apply NoDup_fst_map_to_list.
  - by apply fmap_sublist, sublist_filter.
Qed.

(** The query is oldest first. *)
Lemma unconfirmed_sorted o :
  sorted_by (λ p q : string * Row, w_last_updated p.2 <=? w_last_updated q.2)
    (sort_by (λ p q, w_last_updated p.2 <=? w_last_updated q.2)
      (filter (λ p, unconfirmed p.2) (row_order o))).
Proof. apply sort_by_sorted; intros; lia. Qed.

End queries.
