(* ===== verification/SubmitterDa.v ===== *)
(** * Submitter: data-availability strategies
      ([submitter/src/infrastructure], [domain/proof.rs], [domain/batch.rs])

    How a batch becomes a call of [commitBatch]: the three strategies, the bit
    packing the blob strategy sends to the archiver, and the formatting of the
    proof.  Zlib ([Flate]) and the JSON parser ([SerdeJson]) are libraries; what
    the chain does with the transaction sent is an argument ([L1Reply]).  The
    messages of [DomainError::Da] are constructors. *)

From stdpp Require Import base gmap list strings pretty.
From Stdlib Require Import ZArith Lia Ascii Strings.Byte.
From S2P Require Import Prelude Js Rust SequencerTypes RollupContracts ExecutorTypes.

(** ** Batches *)

Inductive BatchStatus :=
| Discovered | Proving | Proved | Submitting | Submitted | Confirmed | BatchFailed.

#[export] Instance BatchStatus_eq_dec : EqDecision BatchStatus.
Proof. solve_decision. Defined.

(** [Batch], without the fields that only hold measurements or label an
    experiment. *)
Record SubmitterBatch := mkSubmitterBatch {
  sb_id : string;
  sb_data_file : string;
  sb_new_root : string;
  sb_status : BatchStatus;
  sb_da_mode : string;
  sb_proof : option string;
  sb_tx_hash : option string;
  sb_attempts : Z;
  sb_blob_versioned_hash : option string;
  sb_blob_index : option Z;
  sb_tx_count : Z;
}.

#[export] Instance SubmitterBatch_eq_dec : EqDecision SubmitterBatch.
Proof. solve_decision. Defined.

Notation Files := (gmap string bytes).

(** ** Text *)

(** [trim_start_matches], which removes every leading ["0x"]. *)
Fixpoint trim_0x (s : string) : string :=
  match s with
  | String "0" (String "x" s') => trim_0x s'
  | _ => s
  end.

Definition hex_decode (s : string) : option bytes := parse_digits (trim_0x s).

(** [format!("0x{}", hex::encode(b))] *)
Definition hex_text (b : bytes) : string := "0x" +:+ hex_digits b.

(** [{:?}] of an [H256], and parsing one, with or without the prefix. *)
Definition h256_text (h : Z) : string := hex_text (be_enc 32 h).

Definition parse_h256 (s : string) : option Z :=
  let digits := match s with String "0" (String "x" s') => s' | _ => s end in
  b ← parse_digits digits;
  if (length b =? 32)%nat then Some (be_val b) else None.

(** ** Proofs *)

Definition format_proof_for_verifier (proof_bytes : bytes) (verifier_id : Z) : bytes :=
  if verifier_id =? 0 then
    if (length proof_bytes <? 256)%nat
    then proof_bytes ++ replicate (256 - length proof_bytes) x00
    else take 256 proof_bytes
  else proof_bytes.

(** ** Bit packing *)

Inductive Json :=
| JNull
| JBool (b : bool)
| JInt (z : Z)
| JFloat
| JStr (s : string)
| JArr (l : list Json)
| JObj (l : list (string * Json)).

(** [serde_json::from_slice::<Vec<Value>>]; numbers outside the integers of 64
    bits are floats. *)
Class SerdeJson := json_array : bytes → option (list Json).

Definition json_get (k : string) (v : Json) : option Json :=
  match v with
  | JObj l => snd ∘ snd <$> list_find (λ kv : string * Json, kv.1 = k) l
  | _ => None
  end.

(** [v[k]] *)
Definition json_index (k : string) (v : Json) : Json := default JNull (json_get k v).

Definition as_u64_or_0 (v : Json) : Z :=
  match v with JInt z => if (0 <=? z) && (z <=? u64_max) then z else 0 | _ => 0 end.

(** [as u8] *)
Definition json_byte (v : Json) : byte := byte_of (as_u64_or_0 v mod 256).

Definition parse_address (v : Json) : bytes :=
  match v with
  | JStr s =>
      match hex_decode s with
      | Some b => if (length b =? 20)%nat then b else replicate 20 x00
      | None => replicate 20 x00
      end
  | JArr l => let b := json_byte <$> take 20 l in b ++ replicate (20 - length b) x00
  | _ => replicate 20 x00
  end.

(** An array of more than 32 elements is indexed out of range. *)
Definition parse_u256 {E} (v : Json) : result E bytes :=
  match v with
  | JArr l =>
      if (32 <? length l)%nat then Panicked
      else Ok (replicate (32 - length l) x00 ++ (json_byte <$> l))
  | _ => Ok (replicate 32 x00)
  end.

Fixpoint drop_zeros (b : bytes) : bytes :=
  match b with
  | x00 :: b' => drop_zeros b'
  | _ => b
  end.

Definition var_bytes (b : bytes) : bytes :=
  byte_of (Z.of_nat (length (drop_zeros b))) :: drop_zeros b.

Definition pack_transfer {E} (tx : Json) : result E bytes :=
  value ← parse_u256 (json_index "value" tx);
  Ok (parse_address (json_index "from" tx) ++ parse_address (json_index "to" tx) ++
      var_bytes value ++ var_bytes (be_enc 8 (as_u64_or_0 (json_index "nonce" tx))) ++
      replicate 65 x00).

Definition pack_entry {E} (tx : Json) : result E bytes :=
  match json_get "Transfer" tx, json_get "ContractCall" tx with
  | Some transfer, _ => pack_transfer transfer
  | None, Some call => pack_transfer call
  | None, None => pack_transfer tx
  end.

Definition bit_pack_transactions {E} (txs : list Json) : result E bytes :=
  packed ← mapM pack_entry txs;
  Ok (x01 :: concat packed).

(** [CompressionStrategy::compress], without its measurements. *)
Definition compress {E} `{SerdeJson} (data : bytes) : result E bytes :=
  match json_array data with
  | Some txs => bit_pack_transactions txs
  | None => Ok data
  end.

Definition calculate_calldata_gas (data : bytes) : Z :=
  foldr (λ b g, (if bool_decide (b = x00) then 4 else 16) + g) 0 data.

(** ** Strategies *)

Inductive DaError :=
| ReadFailed
| InvalidProofHex
| InvalidRootHex
| InvalidRootLength (n : nat)
| InvalidRoot
| InvalidBlobHash
| ArchiverFailed
| StoreFailed
| SendFailed
| ReceiptFailed
| Dropped.

Class Flate := zlib : bytes → bytes.

(** The configuration of a strategy, as [daemon::run] builds it. *)
Inductive DaStrategy :=
| CalldataStrategy (compression : bool)
| BlobStrategy (blob_versioned_hash blob_index : Z) (archiver : bool)
| OffChainStrategy.

Definition da_id (d : DaStrategy) : Z :=
  match d with CalldataStrategy _ => 0 | BlobStrategy _ _ _ => 1 | OffChainStrategy => 2 end.

(** The arguments of [bridge.commit_batch]. *)
Record CommitCall := mkCall {
  cc_da_id : Z;
  cc_verifier_id : Z;
  cc_batch_data : bytes;
  cc_da_meta : bytes;
  cc_new_root : Z;
  cc_proof : bytes;
}.

#[export] Instance CommitCall_eq_dec : EqDecision CommitCall.
Proof. solve_decision. Defined.

(** What comes back: the transaction is refused, its receipt cannot be read, it
    is dropped, or it is mined with a status. *)
Inductive L1Reply :=
| NotSent
| NoReceipt
| DroppedTx
| Mined (tx_hash : Z) (status : bool).

Record SubmitEnv := mkSubmitEnv {
  archiver_ok : bool;
  store_ok : bool;
  l1_reply : L1Reply;
}.

Section strategies.
Context `{Hashing} `{Flate} `{SerdeJson}.

(** The bytes the calldata strategy posts. *)
Definition posted (compression : bool) (data : bytes) : bytes :=
  if compression then zlib data else data.

Definition read_file (files : Files) (b : SubmitterBatch) : result DaError bytes :=
  ok_or ReadFailed (files !! sb_data_file b).

(** The versioned hash of the batch, or the configured one. *)
Definition blob_hash (configured : Z) (b : SubmitterBatch) : result DaError Z :=
  match sb_blob_versioned_hash b with
  | Some s => ok_or InvalidBlobHash (parse_h256 s)
  | None => Ok configured
  end.

Definition compute_commitment (d : DaStrategy) (files : Files) (b : SubmitterBatch)
    : result DaError Z :=
  match d with
  | CalldataStrategy compression =>
      data ← read_file files b;
      Ok (be_val (keccak256 (posted compression data)))
  | BlobStrategy configured _ _ => blob_hash configured b
  | OffChainStrategy =>
      data ← read_file files b;
      Ok (be_val (keccak256 data))
  end.

Definition encode_da_meta (d : DaStrategy) (files : Files) (b : SubmitterBatch)
    : result DaError bytes :=
  match d with
  | CalldataStrategy _ => Ok []
  | BlobStrategy configured index _ =>
      hash ← blob_hash configured b;
      Ok (be_enc 32 hash ++ be_enc 32 (default index (sb_blob_index b)))
  | OffChainStrategy =>
      commitment ← compute_commitment d files b;
      Ok (be_enc 32 commitment)
  end.

(** [new_root_arr]: exactly 32 bytes of hexadecimal. *)
Definition root_bytes (b : SubmitterBatch) : result DaError Z :=
  root ← ok_or InvalidRootHex (hex_decode (sb_new_root b));
  if (length root =? 32)%nat then Ok (be_val root) else Err (InvalidRootLength (length root)).

(** Everything [submit] does before it sends: the call, or the error, and the
    files left. *)
Definition prepare (d : DaStrategy) (e : SubmitEnv) (b : SubmitterBatch) (proof_hex : string)
    (verifier_id : Z) (files : Files) : Files * result DaError CommitCall :=
  match d with
  | CalldataStrategy compression =>
      (files,
       proof ← ok_or InvalidProofHex (hex_decode proof_hex);
       data ← read_file files b;
       root ← root_bytes b;
       meta ← encode_da_meta d files b;
       Ok (mkCall (da_id d) verifier_id (posted compression data) meta root proof))
  | BlobStrategy _ _ archiver =>
      (files,
       data ← read_file files b;
       _ ← compress data;
       _ ← (if archiver && negb (archiver_ok e) then Err ArchiverFailed else Ok tt);
       proof ← ok_or InvalidProofHex (hex_decode proof_hex);
       root ← root_bytes b;
       meta ← encode_da_meta d files b;
       Ok (mkCall (da_id d) verifier_id [] meta root proof))
  | OffChainStrategy =>
      match read_file files b with
      | Ok data =>
          if negb (store_ok e) then (files, Err StoreFailed)
          else
            let files' :=
              <["offchain_store/" +:+ hex_digits (keccak256 data) +:+ ".bin" := data]> files in
            (files',
             proof ← ok_or InvalidProofHex (hex_decode proof_hex);
             root ← ok_or InvalidRoot (parse_h256 (sb_new_root b));
             meta ← encode_da_meta d files' b;
             Ok (mkCall (da_id d) verifier_id [] meta root proof))
      | Err err => (files, Err err)
      | Panicked => (files, Panicked)
      end
  end.

(** Waiting for the receipt; its status is not looked at. *)
Definition receipt (r : L1Reply) : result DaError Z :=
  match r with
  | NotSent => Err SendFailed
  | NoReceipt => Err ReceiptFailed
  | DroppedTx => Err Dropped
  | Mined tx_hash _ => Ok tx_hash
  end.

(** The files left, the calls broadcast and the hash of the transaction. *)
Definition submit (d : DaStrategy) (e : SubmitEnv) (b : SubmitterBatch) (proof_hex : string)
    (verifier_id : Z) (files : Files) : Files * list CommitCall * result DaError Z :=
  match prepare d e b proof_hex verifier_id files with
  | (files', Ok call) =>
      (files', match l1_reply e with NotSent => [] | _ => [call] end, receipt (l1_reply e))
  | (files', Err err) => (files', [], Err err)
  | (files', Panicked) => (files', [], Panicked)
  end.

End strategies.

(** ** Lemmas *)

Lemma hex_char_not_x b :
  hex_char (byte_val b / 16) ≠ "x"%char ∧ hex_char (byte_val b mod 16) ≠ "x"%char.
Proof. by destruct b. Qed.

Lemma trim_0x_digits l : trim_0x (hex_digits l) = hex_digits l.
Proof.
  destruct l as [|b l]; [done|]. destruct (hex_char_not_x b) as [_ Hx].
  cbn [hex_digits trim_0x]. revert Hx.
  generalize (hex_char (byte_val b / 16)) (hex_char (byte_val b mod 16)). intros c1 c2 Hx.
  destruct c1 as [[] [] [] [] [] [] [] []]; try done.
  destruct c2 as [[] [] [] [] [] [] [] []]; done.
Qed.

(** What is written as hexadecimal text is read back. *)
Lemma hex_decode_text l : hex_decode (hex_text l) = Some l.
Proof.
  unfold hex_decode, hex_text. change (trim_0x ("0x" +:+ hex_digits l)) with (trim_0x (hex_digits l)).
  rewrite trim_0x_digits. apply parse_hex_digits.
Qed.

Lemma parse_h256_text h : 0 ≤ h < 2 ^ 256 → parse_h256 (h256_text h) = Some h.
Proof.
  intros Hh. change (parse_h256 (h256_text h)) with
    (b ← parse_digits (hex_digits (be_enc 32 h)); if (length b =? 32)%nat then Some (be_val b) else None).
  rewrite parse_hex_digits. cbn [mbind option_bind]. rewrite be_enc_length, be_val_enc. cbn.
  by rewrite Z.mod_small.
Qed.

Lemma root_bytes_text b h :
  sb_new_root b = h256_text h → 0 ≤ h < 2 ^ 256 → root_bytes b = Ok h.
Proof.
  intros E Hh. unfold root_bytes, h256_text in *. rewrite E, hex_decode_text.
  cbn [ok_or mbind result_bind]. rewrite be_enc_length, be_val_enc. cbn. by rewrite Z.mod_small.
Qed.

Lemma ok_or_Ok {E A} (e : E) (o : option A) a : ok_or e o = Ok a → o = Some a.
Proof. destruct o; cbn; [by intros [= ->]|done]. Qed.

(** The verifier and the proof a call carries are those asked for. *)
Lemma prepare_args `{Hashing} `{Flate} `{SerdeJson} d e b p v files files' call :
  prepare d e b p v files = (files', Ok call) →
  cc_verifier_id call = v ∧ hex_decode p = Some (cc_proof call).
Proof.
  unfold prepare. destruct d; [| |destruct (read_file files b); [destruct (store_ok e)|..]];
    intros [= _ E]; repeat match goal with
    | E : mbind _ _ = Ok _ |- _ => apply result_bind_inv in E as (? & ? & E)
    end; try done; injection E as <-; (split; [done|]); by eapply ok_or_Ok.
Qed.

(** A proof for verifier 0 has the 256 bytes the bridge decodes. *)
Lemma format_proof_length p : length (format_proof_for_verifier p 0) = 256%nat.
Proof.
  unfold format_proof_for_verifier. cbn [Z.eqb]. destruct (Nat.ltb_spec (length p) 256).
  - rewrite length_app, length_replicate. lia.
  - rewrite length_take. lia.
Qed.

Lemma word_at_be_enc z l : 0 ≤ z < 2 ^ 256 → word_at (be_enc 32 z ++ l) 0 = z.
Proof.
  intros Hz. unfold word_at. rewrite drop_0, take_app_length' by (by rewrite be_enc_length).
  rewrite be_val_enc. by apply Z.mod_small.
Qed.

Lemma decode_blob_meta_enc h i :
  0 ≤ h < 2 ^ 256 → 0 ≤ i < 256 → decode_blob_meta (be_enc 32 h ++ be_enc 32 i) = Some (h, i).
Proof.
  intros Hh Hi. unfold decode_blob_meta. rewrite length_app, !be_enc_length. cbn [Nat.ltb Nat.leb plus].
  assert (E : word_at (be_enc 32 h ++ be_enc 32 i) 32 = i).
  { unfold word_at. rewrite drop_app_length' by (by rewrite be_enc_length).
    rewrite take_ge by (by rewrite be_enc_length).
    rewrite be_val_enc. apply Z.mod_small. change (256 ^ Z.of_nat 32) with (2 ^ 256). lia. }
  rewrite E, word_at_be_enc by done. by rewrite (proj2 (Z.leb_gt _ _)) by lia.
Qed.

(** ** The call a strategy sends *)

Section calls.
Context `{HashingLaws} `{Flate} `{SerdeJson} {evm : Evm}.
(** The bridge and the submitter use the same Keccak-256. *)
Hypothesis keccak_agrees : ∀ b, keccak256_word b = be_val (keccak256 b).

(** No strategy sends a blob transaction, so that [blobhash] is zero at every index. *)
Definition no_blobs : Z → Z := λ _, 0.

(** The contract registered for a strategy; for blobs it is [BlobDA], or
    [TestBlobDA] with the hashes written into it. *)
Definition provider_for (d : DaStrategy) (mocks : option (gmap Z Z)) : IDAProvider :=
  match d with
  | CalldataStrategy _ => CalldataDA
  | BlobStrategy _ _ _ =>
      match mocks with Some m => TestBlobDA m no_blobs | None => BlobDA no_blobs end
  | OffChainStrategy => OffChainDA
  end.

(** The provider knows the blob of a blob strategy. *)
Definition blob_known (d : DaStrategy) (mocks : option (gmap Z Z)) : bool :=
  match d with
  | BlobStrategy h i _ =>
      match mocks with Some m => negb (h =? 0) && (default 0 (m !! i) =? h) | None => false end
  | _ => true
  end.

(** A batch as the daemon builds it, whose payload the strategy can pack, and
    services that answer. *)
Record submittable (d : DaStrategy) (e : SubmitEnv) (files : Files) (b : SubmitterBatch)
    (data : bytes) (root : Z) : Prop := {
  sub_file : files !! sb_data_file b = Some data;
  sub_root : sb_new_root b = h256_text root;
  sub_root_range : 0 ≤ root < 2 ^ 256;
  sub_blob : sb_blob_versioned_hash b = None ∧ sb_blob_index b = None;
  sub_services : archiver_ok e = true ∧ store_ok e = true;
  sub_strategy :
    match d with
    | BlobStrategy h i _ => 0 ≤ h < 2 ^ 256 ∧ 0 ≤ i < 256 ∧ ∃ p, compress (E := DaError) data = Ok p
    | _ => True
    end;
}.

Lemma keccak_range b : 0 ≤ be_val (keccak256 b) < 2 ^ 256.
Proof. pose proof (be_val_range (keccak256 b)) as Hb. rewrite keccak256_length in Hb. done. Qed.

(** The call [prepare] builds. *)
Definition call_of (d : DaStrategy) (data : bytes) (root : Z) (proof : bytes) (v : Z) : CommitCall :=
  match d with
  | CalldataStrategy compression => mkCall 0 v (posted compression data) [] root proof
  | BlobStrategy h i _ => mkCall 1 v [] (be_enc 32 h ++ be_enc 32 i) root proof
  | OffChainStrategy => mkCall 2 v [] (be_enc 32 (be_val (keccak256 data))) root proof
  end.

Lemma prepare_call d e b proof v data root files :
  submittable d e files b data root →
  ∃ files', prepare d e b (hex_text proof) v files = (files', Ok (call_of d data root proof v)) ∧
            files' !! sb_data_file b = Some data.
Proof.
  intros [Hf Hr Hrr [Hb1 Hb2] [Ha Hs] Hd]. unfold prepare, read_file.
  rewrite hex_decode_text. destruct d as [compression|h i archiver|].
  - rewrite Hf. cbn [ok_or mbind result_bind]. rewrite (root_bytes_text _ _ Hr Hrr). eauto.
  - destruct Hd as (Hh & Hi & p & Hp). rewrite Hf. cbn [ok_or mbind result_bind].
    rewrite Hp, Ha, andb_false_r. cbn [mbind result_bind]. rewrite (root_bytes_text _ _ Hr Hrr).
    cbn [mbind result_bind encode_da_meta]. unfold blob_hash. rewrite Hb1, Hb2. eauto.
  - rewrite Hf. cbn [ok_or]. rewrite Hs. cbn [negb]. set (path := _ +:+ _ +:+ _).
    assert (E : <[path := data]> files !! sb_data_file b = Some data).
    { destruct (decide (path = sb_data_file b)) as [<-|Hne];
        [by rewrite lookup_insert_eq|by rewrite lookup_insert_ne]. }
    cbn [ok_or mbind result_bind]. rewrite Hr, (parse_h256_text _ Hrr).
    unfold encode_da_meta, compute_commitment, read_file. rewrite E.
    cbn [ok_or mbind result_bind]. eauto.
Qed.

Lemma call_commitment d e files b data root proof v mocks :
  submittable d e files b data root →
  ∃ cm, compute_commitment d files b = Ok cm ∧
    computeCommitment (provider_for d mocks) (cc_batch_data (call_of d data root proof v))
      (cc_da_meta (call_of d data root proof v)) = Some cm ∧
    (validateDA (provider_for d mocks) cm (cc_da_meta (call_of d data root proof v)) = Some tt ↔
     blob_known d mocks = true).
Proof.
  intros [Hf _ _ [Hb _] _ Hd]. unfold compute_commitment, read_file, blob_hash.
  destruct d as [compression|h i archiver|]; rewrite ?Hf, ?Hb; eexists; (split; [done|]);
    cbn [provider_for blob_known CalldataDA OffChainDA computeCommitment validateDA call_of
      cc_batch_data cc_da_meta da_id].
  - by rewrite keccak_agrees.
  - destruct Hd as (Hh & Hi & _).
    assert (Ec : BlobDA_computeCommitment (be_enc 32 h ++ be_enc 32 i) = Some h)
      by (unfold BlobDA_computeCommitment; by rewrite decode_blob_meta_enc).
    destruct mocks as [m|]; cbn [TestBlobDA BlobDA computeCommitment validateDA]; (split; [done|]);
      rewrite BlobDA_accepts, decode_blob_meta_enc by done.
    + unfold TestBlobDA_getBlobHash, no_blobs. rewrite andb_true_iff, negb_true_iff, Z.eqb_neq, Z.eqb_eq.
      split; [intros (Hh0 & ? & [= <-] & E)|intros [Hh0 E]]; (split; [done|]).
      * by destruct (Z.eqb_spec (default 0 (m !! i)) 0); cbn in E; [congruence|].
      * exists i. split; [done|]. rewrite E. by destruct (Z.eqb_spec h 0).
    + split; [|done]. intros (Hh0 & ? & _ & E). by destruct Hh0.
  - rewrite be_enc_length. cbn [Nat.eqb]. pose proof (word_at_be_enc _ [] (keccak_range data)) as E.
    rewrite app_nil_r in E. by rewrite E.
Qed.

(** Each strategy sends a call whose data the contract registered for it
    understands.  For a batch as the daemon builds it, preparing the call
    succeeds and leaves the payload readable; the call carries the strategy's
    identifier, the verifier, the new root and the proof; and the commitment the
    contract derives from the call's data is the one the strategy computes. *)
Theorem strategy_call_correct d e b proof v data root files mocks :
  submittable d e files b data root →
  ∃ files' call cm,
    prepare d e b (hex_text proof) v files = (files', Ok call) ∧
    files' !! sb_data_file b = Some data ∧
    cc_da_id call = da_id d ∧ cc_verifier_id call = v ∧
    cc_new_root call = root ∧ cc_proof call = proof ∧
    compute_commitment d files b = Ok cm ∧
    computeCommitment (provider_for d mocks) (cc_batch_data call) (cc_da_meta call) = Some cm.
Proof.
  intros Hs. destruct (prepare_call d e b proof v data root files Hs) as (files' & E & Hf).
  destruct (call_commitment d e files b data root proof v mocks Hs) as (cm & E1 & E2 & _).
  exists files', (call_of d data root proof v), cm. by destruct d.
Qed.

End calls.

(** ** What the archiver receives *)

(** An executed transaction as [serde_json] writes it. *)
Definition etx_json (tx : ETransaction) : Json :=
  JObj [("from", JArr (JInt ∘ byte_val <$> be_enc 20 (e_from tx)));
        ("to", JArr (JInt ∘ byte_val <$> be_enc 20 (e_to tx)));
        ("amount", JInt (e_amount tx)); ("nonce", JInt (e_nonce tx));
        ("signature", JArr (JInt ∘ byte_val <$> e_signature tx));
        ("gas_price", JInt (e_gas_price tx)); ("gas_limit", JInt (e_gas_limit tx));
        ("timestamp", JInt (e_timestamp tx)); ("boost_bid", JInt (e_boost_bid tx))].

(** What the packing keeps of a transaction. *)
Definition same_route (tx tx' : ETransaction) : Prop :=
  e_from tx = e_from tx' ∧ e_to tx = e_to tx' ∧ e_nonce tx = e_nonce tx'.

Lemma pack_entry_etx {E} tx :
  pack_entry (E := E) (etx_json tx) =
  Ok (parse_address (JArr (JInt ∘ byte_val <$> be_enc 20 (e_from tx))) ++
      parse_address (JArr (JInt ∘ byte_val <$> be_enc 20 (e_to tx))) ++
      [x00] ++ var_bytes (be_enc 8 (as_u64_or_0 (JInt (e_nonce tx)))) ++ replicate 65 x00).
Proof. reflexivity. Qed.

(** The packed batch does not determine the batch.  The packing reads a field
    [value], which the executor's transactions do not have, and writes zeros for
    the signature: batches that agree on senders, recipients and nonces are
    packed to the same bytes, whatever the amounts. *)
Theorem packing_forgets_amounts (txs txs' : list ETransaction) :
  Forall2 same_route txs txs' →
  ∃ packed, bit_pack_transactions (E := DaError) (etx_json <$> txs) = Ok packed ∧
            bit_pack_transactions (E := DaError) (etx_json <$> txs') = Ok packed.
Proof.
  intros HF. unfold bit_pack_transactions.
  assert (E : ∃ ps, mapM (pack_entry (E := DaError)) (etx_json <$> txs) = Ok ps ∧
                    mapM (pack_entry (E := DaError)) (etx_json <$> txs') = Ok ps).
  { induction HF as [|tx tx' l l' (Hf & Ht & Hn) HF (ps & E1 & E2)]; [by exists []|].
    cbn [fmap list_fmap mapM]. rewrite !pack_entry_etx, E1, E2, Hf, Ht, Hn. by eexists. }
  destruct E as (ps & -> & ->). by eexists.
Qed.
