(* ===== verification/SubmitterDaemon.v ===== *)
(** * Submitter: the daemon ([submitter/src/daemon.rs], [batch_source.rs])

    The daemon as a state machine over the outbox, the data files and the calls
    broadcast.  A program point ([pc]) stands for the place between two effects;
    [step] performs the next one with the answers of the environment ([StepEnv])
    and [Restart] stops the process anywhere and starts it again, so that runs
    include crashes between any two effects.  The start-up recovery and the
    polling loop are both modelled; measurements and log lines are not. *)

From stdpp Require Import base gmap list strings pretty.
From Stdlib Require Import ZArith Lia Ascii Strings.Byte.
From S2P Require Import Prelude Js Rust SequencerTypes ExecutorService SubmitterSaga SubmitterDa.

(** ** Configuration *)

Inductive ProofBackend := Groth16 | Plonky2 | Halo2 | MockBackend.
Inductive VerificationMode := OnChain | OffChainOnly.

Record ProofConfig := mkProofConfig {
  pc_backend : option ProofBackend;
  pc_verification_mode : option VerificationMode;
  pc_verifier_id : option Z;
}.

Record Config := mkConfig {
  cfg_da : DaStrategy;
  cfg_proof : option ProofConfig;
}.

Definition verification_mode (cfg : Config) : VerificationMode :=
  default OnChain (cfg_proof cfg ≫= pc_verification_mode).

Definition verifier_id (cfg : Config) : Z :=
  match cfg_proof cfg with
  | Some p =>
      match pc_verifier_id p, pc_backend p with
      | Some id, _ => id
      | None, Some Groth16 => 0
      | None, Some Plonky2 => 1
      | None, Some Halo2 => 2
      | None, Some MockBackend => 0
      | None, None => 0
      end
  | None => 0
  end.

(** ** Batches from the executor *)

Record FetchedBatch := mkFetched {
  fb_batch_id : string;
  fb_batch_data : bytes;
  fb_pre_state_root : Z;
  fb_post_state_root : Z;
  fb_da_commitment : string;
  fb_proof : bytes;
}.

Definition bytes_to_h256 (b : bytes) : option Z :=
  if (length b =? 32)%nat then Some (be_val b) else None.

(** One payload of the stream; [None] is a payload skipped. *)
Definition fetch_payload (p : BatchPayload) : option FetchedBatch :=
  pre ← bytes_to_h256 (bp_pre_state_root p);
  post ← bytes_to_h256 (bp_post_state_root p);
  Some (mkFetched (bp_batch_id p) (bp_batch_data p) pre post (hex_text (bp_da_commitment p))
          (bp_proof p)).

Definition data_file (batch_id : string) : string := "batch_" +:+ batch_id +:+ ".bin".

Definition new_batch `{SerdeJson} (f : FetchedBatch) (uuid : string) : SubmitterBatch :=
  mkSubmitterBatch uuid (data_file (fb_batch_id f)) (h256_text (fb_post_state_root f)) Proving
    "calldata" None None 0 None None
    (match json_array (fb_batch_data f) with
     | Some l => Z.of_nat (length l) mod 2 ^ 32 | None => 0 end).

(** [serde_json] on [Batch]. *)
Class BatchSerde := {
  batch_to_json : SubmitterBatch → string;
  batch_of_json : string → option SubmitterBatch;
}.
Class BatchSerdeLaws `{BatchSerde} : Prop :=
  batch_json_roundtrip : ∀ b, batch_of_json (batch_to_json b) = Some b.

(** ** Gas bumps *)

(** [U256::from_dec_str] *)
Definition from_dec_str (s : string) : option Z :=
  if str_forallb is_digit s && (dec_value s <=? u256_max) then Some (dec_value s) else None.

Inductive Bump := Resend (gas_price : Z) | GiveUp.

(** The price of a resubmission: a fifth more, up to three times the original
    one; [None] is an overflow, which panics. *)
Definition bump_gas_price (current : Z) (original : option Z) : option Bump :=
  new_gas_price ← u256_add current (current / 5);
  match original with
  | None => Some (Resend new_gas_price)
  | Some orig_gp =>
      max_gas_price ← u256_mul orig_gp 3;
      if max_gas_price <? new_gas_price then
        scaled ← u256_mul max_gas_price 99;
        if scaled / 100 <=? current then Some GiveUp else Some (Resend max_gas_price)
      else Some (Resend new_gas_price)
  end.

(** ** The process *)

Record Node := mkNode {
  n_outbox : SagaOutbox;
  n_data : Files;
  (** The calls broadcast, with the data file of the batch. *)
  n_sent : list (string * CommitCall);
  (** The fees of the transactions sent again, with the data file. *)
  n_bumped : list (string * option Z);
}.

Definition set_outbox (o : SagaOutbox) (n : Node) : Node :=
  mkNode o (n_data n) (n_sent n) (n_bumped n).
Definition set_data (d : Files) (n : Node) : Node :=
  mkNode (n_outbox n) d (n_sent n) (n_bumped n).

Inductive pc :=
(** The loop over the unconfirmed rows, and the batches queued. *)
| Scanning (rows : list BatchSagaRecord) (resume : list (SubmitterBatch * string))
(** The loop over the batches queued: before a submission, before
    [update_submission], before [update_state]. *)
| Resuming (todo : list (SubmitterBatch * string))
| ResumeMined (b : SubmitterBatch) (tx_hash : Z) (todo : list (SubmitterBatch * string))
| ResumeMarked (b : SubmitterBatch) (todo : list (SubmitterBatch * string))
(** The polling loop: before [next_batch], and after each effect. *)
| Polling
| Inserted (f : FetchedBatch) (b : SubmitterBatch)
| Written (f : FetchedBatch) (b : SubmitterBatch)
| Ready (f : FetchedBatch) (b : SubmitterBatch)
| Sent (f : FetchedBatch) (tx_hash : Z)
| Marked (f : FetchedBatch)
| Closing (f : FetchedBatch)
(** The task panicked. *)
| Dead.

(** A transaction as [get_transaction] returns it. *)
Record ChainTx := mkChainTx {
  ct_gas_price : option Z;
  ct_nonce : Z;
  ct_type : option Z;
  ct_max_fee_per_gas : option Z;
}.

(** What the environment answers to one step. *)
Record StepEnv := mkStepEnv {
  se_now : Z;
  (** The statement or file operation of the step fails. *)
  se_fails : bool;
  (** The query before it fails. *)
  se_query_fails : bool;
  se_submit : SubmitEnv;
  (** [get_transaction] *)
  se_tx : option ChainTx;
  (** [send_transaction] of a gas bump: the hash. *)
  se_resend : option Z;
  (** [next_batch] *)
  se_fetched : option FetchedBatch;
  (** [Uuid::new_v4] *)
  se_uuid : string;
}.

Section daemon.
Context `{Hashing} `{Flate} `{SerdeJson} `{BatchSerde} `{RowOrder} (cfg : Config).

(** A statement of the outbox whose failure is only logged. *)
Definition try_update (e : StepEnv) (f : SagaOutbox → SagaOutbox) (n : Node) : Node :=
  if se_fails e then n else set_outbox (f (n_outbox n)) n.

(** [orig_gp] and [orig_nonce]; the nonce is cast from [u64] to [i64]. *)
Definition as_i64 (z : Z) : Z := if z <? 2 ^ 63 then z else z - 2 ^ 64.
Definition tx_gas_price (e : StepEnv) : option string := se_tx e ≫= λ t, pretty <$> ct_gas_price t.
Definition tx_nonce (e : StepEnv) : option Z := (λ t, as_i64 (ct_nonce t mod 2 ^ 64)) <$> se_tx e.

(** The fee of the request that [TypedTransaction::from] makes of a transaction
    whose gas price has been set: the request of an EIP-1559 transaction has its
    fee cap and no gas price. *)
Definition offered_fee (t : ChainTx) (gas_price : option Z) : option Z :=
  if bool_decide (ct_type t = Some 2) then ct_max_fee_per_gas t else gas_price.

(** [send_transaction] of the bumped transaction. *)
Definition resend (e : StepEnv) (r : BatchSagaRecord) (fee : option Z) (n : Node) : Node :=
  match se_resend e with
  | Some h =>
      try_update e
        (update_submission (rec_batch_id r) (h256_text h) (rec_nonce r) None (se_now e))
        (mkNode (n_outbox n) (n_data n) (n_sent n) ((data_file (rec_batch_id r), fee) :: n_bumped n))
  | None => n
  end.

(** A row found in [SUBMITTED_TO_L1] at start-up. *)
Definition scan_submitted (e : StepEnv) (r : BatchSagaRecord) (n : Node) : option Node :=
  if negb (300000 <? se_now e - rec_last_updated r) then Some n
  else
    match rec_tx_hash r ≫= parse_h256, se_tx e with
    | Some _, Some tx =>
        if (if rec_nonce r is Some k then k <? 0 else false) then None
        else
          match ct_gas_price tx with
          | None => Some (resend e r (offered_fee tx None) n)
          | Some current =>
              bump ← bump_gas_price current (rec_original_gas_price r ≫= from_dec_str);
              match bump with
              | Resend price => Some (resend e r (offered_fee tx (Some price)) n)
              | GiveUp => Some (try_update e (update_state (rec_batch_id r) Failed (se_now e)) n)
              end
          end
    | _, _ => Some n
    end.

(** A row found before submission. *)
Definition queue_batch (r : BatchSagaRecord) : option (SubmitterBatch * string) :=
  data_json ← rec_batch_data r;
  proof ← rec_proof_hex r;
  b ← batch_of_json data_json;
  Some (b, proof).

Definition scan_row (e : StepEnv) (r : BatchSagaRecord) (rows : list BatchSagaRecord)
    (resume : list (SubmitterBatch * string)) (n : Node) : pc * Node :=
  match rec_state r with
  | SubmittedToL1 =>
      match scan_submitted e r n with
      | Some n' => (Scanning rows resume, n')
      | None => (Dead, n)
      end
  | ReceivedFromExecutor | Compressed => (Scanning rows (resume ++ option_list (queue_batch r)), n)
  | _ => (Scanning rows resume, n)
  end.

(** [da_strategy.submit], with the calls it broadcasts recorded. *)
Definition do_submit (e : StepEnv) (b : SubmitterBatch) (proof_hex : string) (v : Z) (n : Node)
    : Node * result DaError Z :=
  let '(files, calls, r) := submit (cfg_da cfg) (se_submit e) b proof_hex v (n_data n) in
  (mkNode (n_outbox n) files (n_sent n ++ ((λ c, (sb_data_file b, c)) <$> calls)) (n_bumped n), r).

(** The submission of a batch queued at start-up. *)
Definition resume_batch (e : StepEnv) (b : SubmitterBatch) (proof_hex : string)
    (todo : list (SubmitterBatch * string)) (n : Node) : pc * Node :=
  match do_submit e b proof_hex 0 n with
  | (n', Ok tx_hash) => (ResumeMined b tx_hash todo, n')
  | (n', Err _) => (Resuming todo, n')
  | (n', Panicked) => (Dead, n')
  end.

(** The head of the polling loop, up to the insertion. *)
Definition poll (e : StepEnv) (n : Node) : pc * Node :=
  match se_fetched e with
  | None => (Polling, n)
  | Some f =>
      if negb (se_query_fails e) && bool_decide (is_Some (get_record (fb_batch_id f) (n_outbox n)))
      then (Polling, n)
      else
        let b := new_batch f (se_uuid e) in
        if se_fails e then (Polling, n)
        else
          match insert_or_ignore (fb_batch_id f) (batch_to_json b) (hex_text (fb_proof f))
                  (se_now e) (n_outbox n) with
          | (true, o) => (Inserted f b, set_outbox o n)
          | (false, _) => (Polling, n)
          end
  end.

(** The submission of a batch polled. *)
Definition submit_polled (e : StepEnv) (f : FetchedBatch) (b : SubmitterBatch) (n : Node)
    : pc * Node :=
  match verification_mode cfg with
  | OffChainOnly =>
      (Marked f, try_update e (update_submission (fb_batch_id f) "0x_offchain_simulated" None
                                 (Some "0") (se_now e)) n)
  | OnChain =>
      let proof_bytes := format_proof_for_verifier (fb_proof f) (verifier_id cfg) in
      match do_submit e b (hex_text proof_bytes) (verifier_id cfg) n with
      | (n', Ok tx_hash) => (Sent f tx_hash, n')
      | (n', Err _) => (Polling, n')
      | (n', Panicked) => (Dead, n')
      end
  end.

Definition step (e : StepEnv) (s : pc * Node) : pc * Node :=
  let n := s.2 in
  match s.1 with
  | Scanning (r :: rows) resume => scan_row e r rows resume n
  | Scanning [] resume => (Resuming resume, n)
  | Resuming ((b, proof_hex) :: todo) => resume_batch e b proof_hex todo n
  | Resuming [] => (Polling, n)
  | ResumeMined b tx_hash todo =>
      (ResumeMarked b todo,
       try_update e (update_submission (sb_id b) (h256_text tx_hash) (tx_nonce e) (tx_gas_price e)
                       (se_now e)) n)
  | ResumeMarked b todo =>
      (Resuming todo, try_update e (update_state (sb_id b) ConfirmedOnL1 (se_now e)) n)
  | Polling => poll e n
  | Inserted f b =>
      if se_fails e then (Polling, n)
      else (Written f b, set_data (<[data_file (fb_batch_id f) := fb_batch_data f]> (n_data n)) n)
  | Written f b => (Ready f b, try_update e (update_state (fb_batch_id f) Compressed (se_now e)) n)
  | Ready f b => submit_polled e f b n
  | Sent f tx_hash =>
      (Marked f,
       try_update e (update_submission (fb_batch_id f) (h256_text tx_hash) (tx_nonce e)
                       (tx_gas_price e) (se_now e)) n)
  | Marked f => (Closing f, try_update e (update_state (fb_batch_id f) ConfirmedOnL1 (se_now e)) n)
  | Closing f =>
      (Polling, if se_fails e then n else set_data (delete (data_file (fb_batch_id f)) (n_data n)) n)
  | Dead => (Dead, n)
  end.

(** The process is started, whatever it was doing before; the query for the
    unconfirmed rows may fail, which is only logged. *)
Definition restart (query_fails : bool) (n : Node) : pc * Node :=
  (Scanning (if query_fails then [] else get_unconfirmed_batches (n_outbox n)) [], n).

Inductive event := Step (e : StepEnv) | Restart (query_fails : bool).

Definition react (s : pc * Node) (ev : event) : pc * Node :=
  match ev with
  | Step e => step e s
  | Restart query_fails => restart query_fails s.2
  end.

Definition run (evs : list event) (s : pc * Node) : pc * Node := foldl react s evs.

(** The first start, with an empty outbox. *)
Definition fresh_node (files : Files) : pc * Node := (Scanning [] [], mkNode ∅ files [] []).

End daemon.

(** ** Invariant *)

(** Batch identifiers are the sequencer's counters; the text of a UUID has 36
    characters. *)
Definition is_uuid (s : string) : Prop := String.length s = 36%nat.

Definition event_ok (ev : event) : Prop :=
  match ev with
  | Step e =>
      is_uuid (se_uuid e) ∧
      match se_fetched e with
      | Some f => ¬ is_uuid (fb_batch_id f) ∧ 0 ≤ fb_post_state_root f < 2 ^ 256
      | None => True
      end
  | Restart _ => True
  end.

#[export] Instance event_ok_dec ev : Decision (event_ok ev).
Proof. unfold event_ok, is_uuid. destruct ev as [e|q]; [destruct (se_fetched e)|]; apply _. Defined.

Definition is_restart (ev : event) : bool := match ev with Restart _ => true | Step _ => false end.

Definition restarts (evs : list event) : nat := length (filter (λ ev, is_restart ev = true) evs).

(** The transactions sent for a batch: its calls and the gas bumps. *)
Definition transmissions (file : string) (n : Node) : nat :=
  (length (filter (λ p, p.1 = file) (n_sent n)) + length (filter (λ p, p.1 = file) (n_bumped n)))%nat.

Lemma str_app_inj_r (s t u : string) : s +:+ u = t +:+ u → s = t.
Proof.
  revert t. induction s as [|c s IH]; intros [|d t] E; [done|..].
  - exfalso. apply (f_equal String.length) in E. cbn in E. rewrite str_length_app in E. lia.
  - exfalso. apply (f_equal String.length) in E. cbn in E. rewrite str_length_app in E. lia.
  - cbn in E. injection E as -> E. f_equal. by apply IH.
Qed.

Lemma data_file_inj i j : data_file i = data_file j → i = j.
Proof. unfold data_file. intros E. apply (str_app_inj_r _ _ ".bin"). by injection E. Qed.

Section invariant.
Context `{HashingLaws} `{Flate} `{SerdeJson} `{BatchSerdeLaws} `{RowOrderLaws} (cfg : Config).

(** The root the batch of a row claims. *)
Definition root_of_row (w : Row) : option Z :=
  json ← w_batch_data w; b ← batch_of_json json; parse_h256 (sb_new_root b).

(** A row as the daemon leaves it. *)
Definition row_ok (id : string) (w : Row) : Prop :=
  ¬ is_uuid id ∧ (∃ st, w_state w = as_str st) ∧
  ∃ b, w_batch_data w = Some (batch_to_json b) ∧ sb_data_file b = data_file id ∧ is_uuid (sb_id b) ∧
       ∃ r, sb_new_root b = h256_text r ∧ 0 ≤ r < 2 ^ 256.

(** The batch of a row was broadcast with the root the row claims. *)
Definition broadcast (n : Node) (id : string) : Prop :=
  ∃ w call, n_outbox n !! id = Some w ∧ (data_file id, call) ∈ n_sent n ∧
            root_of_row w = Some (cc_new_root call).

(** In on-chain verification mode it was. *)
Definition accounted (n : Node) (id : string) : Prop := verification_mode cfg = OnChain → broadcast n id.

Definition settled (w : Row) : Prop :=
  w_state w ∈ [as_str SubmittedToL1; as_str ConfirmedOnL1; as_str Failed].

(** [b] is the batch of the row [id]. *)
Definition batch_of (n : Node) (id : string) (b : SubmitterBatch) : Prop :=
  ∃ w, n_outbox n !! id = Some w ∧ w_batch_data w = Some (batch_to_json b).

Definition queued_ok (n : Node) (p : SubmitterBatch * string) : Prop :=
  ∃ id, batch_of n id p.1.

Definition record_ok (n : Node) (r : BatchSagaRecord) : Prop :=
  (∃ w, n_outbox n !! rec_batch_id r = Some w ∧ w_batch_data w = rec_batch_data r) ∧
  (rec_state r = SubmittedToL1 → accounted n (rec_batch_id r)).

Definition pc_ok (p : pc) (n : Node) : Prop :=
  match p with
  | Scanning rows resume => Forall (record_ok n) rows ∧ Forall (queued_ok n) resume
  | Resuming todo => Forall (queued_ok n) todo
  | ResumeMined b _ todo | ResumeMarked b todo => is_uuid (sb_id b) ∧ Forall (queued_ok n) todo
  | Polling | Dead => True
  | Inserted f b | Written f b | Ready f b => batch_of n (fb_batch_id f) b
  | Sent f _ | Marked f | Closing f => accounted n (fb_batch_id f)
  end.

(** The batches for which a transaction may still be sent before the next restart. *)
Definition pending (p : pc) : list string :=
  match p with
  | Scanning rows resume =>
      (data_file ∘ rec_batch_id <$> rows) ++ (sb_data_file ∘ fst <$> resume)
  | Resuming todo | ResumeMined _ _ todo | ResumeMarked _ todo => sb_data_file ∘ fst <$> todo
  | Inserted f _ | Written f _ | Ready f _ => [data_file (fb_batch_id f)]
  | _ => []
  end.

Definition occurs (file : string) (l : list string) : nat := length (filter (λ x, x = file) l).

(** *** What an effect may change *)

(** [n'] keeps the rows of [n], with their batches, and the calls broadcast. *)
Definition extends (n n' : Node) : Prop :=
  (∀ id w, n_outbox n !! id = Some w →
    ∃ w', n_outbox n' !! id = Some w' ∧ w_batch_data w' = w_batch_data w) ∧
  (∀ x, x ∈ n_sent n → x ∈ n_sent n').

Definition node_ok (n : Node) : Prop :=
  map_Forall row_ok (n_outbox n) ∧
  map_Forall (λ id w, settled w → accounted n id) (n_outbox n).

(** [bound] limits the transactions sent for each batch up to the next restart. *)
Record daemon_inv (bound : string → nat) (s : pc * Node) : Prop := {
  inv_node : node_ok s.2;
  inv_pc : pc_ok s.1 s.2;
  inv_count : ∀ file, (transmissions file s.2 + occurs file (pending s.1) ≤ bound file)%nat;
  inv_bound : ∀ file, (1 ≤ bound file)%nat;
  inv_known : ∀ id, n_outbox s.2 !! id = None →
    transmissions (data_file id) s.2 = 0%nat ∧ occurs (data_file id) (pending s.1) = 0%nat;
}.

Lemma extends_same n n' :
  n_outbox n' = n_outbox n → n_sent n' = n_sent n → extends n n'.
Proof. intros E1 E2. split; [rewrite E1; eauto|by rewrite E2]. Qed.

Lemma broadcast_mono n n' id : extends n n' → broadcast n id → broadcast n' id.
Proof.
  intros [Ho Hs] (w & call & Hw & Hc & Hr). destruct (Ho id w Hw) as (w' & Hw' & E).
  exists w', call. split_and!; [done|auto|]. unfold root_of_row in *. by rewrite E.
Qed.

Lemma accounted_mono n n' id : extends n n' → accounted n id → accounted n' id.
Proof. intros Hx Ha Hm. eapply broadcast_mono; eauto. Qed.

Lemma batch_of_mono n n' id b : extends n n' → batch_of n id b → batch_of n' id b.
Proof.
  intros [Ho _] (w & Hw & E). destruct (Ho id w Hw) as (w' & Hw' & E'). exists w'. by rewrite E'.
Qed.

Lemma queued_mono n n' p : extends n n' → queued_ok n p → queued_ok n' p.
Proof. intros He (id & Hb). exists id. by eapply batch_of_mono. Qed.

Lemma record_mono n n' r : extends n n' → record_ok n r → record_ok n' r.
Proof.
  intros He [(w & Hw & E) Hb]. split.
  - destruct (proj1 He _ w Hw) as (w' & Hw' & E'). exists w'. by rewrite E'.
  - intros Hs. eapply accounted_mono; eauto.
Qed.

(** A statement that sets the state of one row. *)
Definition sets_state (id : string) (st : SagaState) (f : SagaOutbox → SagaOutbox) : Prop :=
  ∃ g, (∀ o, f o = alter g id o) ∧
       ∀ w, w_state (g w) = as_str st ∧ w_batch_data (g w) = w_batch_data w.

Lemma update_state_sets id st now : sets_state id st (update_state id st now).
Proof. eexists. by split. Qed.

Lemma update_submission_sets id h k gp now :
  sets_state id SubmittedToL1 (update_submission id h k gp now).
Proof. eexists. by split. Qed.

Lemma try_update_sent e f n : n_sent (try_update e f n) = n_sent n.
Proof. unfold try_update. by destruct (se_fails e). Qed.

Lemma try_update_bumped e f n : n_bumped (try_update e f n) = n_bumped n.
Proof. unfold try_update. by destruct (se_fails e). Qed.

Lemma try_update_transmissions e f n file : transmissions file (try_update e f n) = transmissions file n.
Proof. unfold transmissions. by rewrite try_update_sent, try_update_bumped. Qed.

Lemma try_update_lookup e f n id st j :
  sets_state id st f →
  (n_outbox (try_update e f n) !! j = None ↔ n_outbox n !! j = None).
Proof.
  intros (g & E & _). unfold try_update. destruct (se_fails e); [done|]. cbn. rewrite E.
  destruct (decide (j = id)) as [->|Hj].
  - rewrite lookup_alter_eq. by destruct (n_outbox n !! id).
  - by rewrite lookup_alter_ne.
Qed.

Lemma try_update_ok e f n id st :
  sets_state id st f → node_ok n → st = Compressed ∨ is_uuid id ∨ accounted n id →
  node_ok (try_update e f n) ∧ extends n (try_update e f n).
Proof.
  intros (g & E & Hg) [Hr Hs] Hst.
  assert (Hx : extends n (try_update e f n)).
  { unfold try_update. destruct (se_fails e); [by apply extends_same|].
    split; [|done]. intros j w Hj. cbn. rewrite E. destruct (decide (j = id)) as [->|Hne].
    - rewrite lookup_alter_eq, Hj. eexists. split; [done|]. apply Hg.
    - rewrite lookup_alter_ne by done. eauto. }
  split; [|done]. split; intros j w Hj; revert Hx; unfold try_update in *;
    destruct (se_fails e); intros Hx; [by apply Hr| |by apply (Hs j w)|].
  - cbn in Hj. rewrite E in Hj. destruct (decide (j = id)) as [->|Hne];
      [|rewrite lookup_alter_ne in Hj by done; by apply Hr].
    rewrite lookup_alter_eq in Hj. apply fmap_Some in Hj as (w0 & Hw0 & ->).
    destruct (Hr id w0 Hw0) as (Hu & _ & b & Hb). destruct (Hg w0) as [E1 E2].
    split; [done|]. split; [by exists st|]. exists b. by rewrite E2.
  - intros Hset. apply (accounted_mono n); [done|]. cbn in Hj. rewrite E in Hj.
    destruct (decide (j = id)) as [->|Hne];
      [|rewrite lookup_alter_ne in Hj by done; by apply (Hs j w)].
    rewrite lookup_alter_eq in Hj. apply fmap_Some in Hj as (w0 & Hw0 & ->).
    destruct Hst as [->|[Hu|Hb]]; [|by destruct (Hr id w0 Hw0)|done].
    exfalso. unfold settled in Hset. rewrite (proj1 (Hg w0)) in Hset. cbn in Hset.
    by rewrite !elem_of_cons, elem_of_nil in Hset; destruct Hset as [|[|[|]]].
Qed.

(** *** Counting *)

Lemma occurs_app file l1 l2 : occurs file (l1 ++ l2) = (occurs file l1 + occurs file l2)%nat.
Proof. unfold occurs. by rewrite filter_app, length_app. Qed.

Lemma occurs_cons file x l : occurs file (x :: l) = (occurs file [x] + occurs file l)%nat.
Proof. apply (occurs_app file [x]). Qed.

Lemma occurs_NoDup file l : NoDup l → (occurs file l ≤ 1)%nat.
Proof.
  unfold occurs. induction 1 as [|x l Hx Hl IH]; [cbn; lia|]. rewrite filter_cons.
  case_decide as E; [|done]. subst x. rewrite filter_none; [done|]. by intros y Hy ->.
Qed.

Lemma transmissions_sent file n n' l :
  n_sent n' = n_sent n ++ l → n_bumped n' = n_bumped n →
  transmissions file n' = (transmissions file n + occurs file l.*1)%nat.
Proof.
  intros E Eb. unfold transmissions, occurs. rewrite Eb, E, filter_app, length_app.
  enough (length (filter (λ p, p.1 = file) l) = length (filter (λ x, x = file) l.*1)) by lia. clear E.
  induction l as [|x l IH]; [done|]. cbn [fmap list_fmap].
  rewrite !filter_cons. destruct (decide (x.1 = file)); cbn [length]; by rewrite IH.
Qed.

Lemma prepare_root d e b p v files files' call r :
  sb_new_root b = h256_text r → 0 ≤ r < 2 ^ 256 →
  prepare d e b p v files = (files', Ok call) → cc_new_root call = r.
Proof.
  intros Hr Hrr. pose proof (root_bytes_text b r Hr Hrr) as E1.
  pose proof (parse_h256_text r Hrr) as E2. rewrite <- Hr in E2. unfold prepare.
  destruct d; [| |destruct (read_file files b); [destruct (store_ok e)|..]]; intros [= _ E];
    rewrite ?E1, ?E2 in E; cbn [ok_or mbind result_bind] in E;
    repeat match goal with
    | E : mbind _ _ = Ok _ |- _ => apply result_bind_inv in E as (? & ? & E)
    end; by injection E as <-.
Qed.

(** A submission broadcasts one call with the batch's root, or nothing. *)
Lemma do_submit_spec e b p v n n' res r :
  sb_new_root b = h256_text r → 0 ≤ r < 2 ^ 256 → do_submit cfg e b p v n = (n', res) →
  n_outbox n' = n_outbox n ∧ n_bumped n' = n_bumped n ∧
  ∃ l, n_sent n' = n_sent n ++ l ∧ (l = [] ∧ (∀ h, res ≠ Ok h) ∨
    ∃ call, l = [(sb_data_file b, call)] ∧ cc_new_root call = r).
Proof.
  intros Hr Hrr. unfold do_submit, submit.
  destruct (prepare _ _ _ _ _ _) as [files' [call|err|]] eqn:E; intros [= <- <-];
    (split; [done|]); (split; [done|]); eexists; (split; [done|]); [|by left..].
  pose proof (prepare_root _ _ _ _ _ _ _ _ _ Hr Hrr E).
  destruct (l1_reply (se_submit e)); [by left|right; by eexists..].
Qed.

(** *** Every step keeps the invariant *)

Lemma inv_next B p n p' n' :
  daemon_inv B (p, n) → node_ok n' →
  (∀ id, n_outbox n' !! id = None → n_outbox n !! id = None) →
  (∀ file, transmissions file n' + occurs file (pending p') ≤
           transmissions file n + occurs file (pending p))%nat →
  pc_ok p' n' → daemon_inv B (p', n').
Proof.
  intros [_ _ Hc Hb Hk] Hn Hd Hf Hp. split; cbn [fst snd] in *; try done.
  - intros file. specialize (Hc file). specialize (Hf file). lia.
  - intros id Hid. destruct (Hk id (Hd id Hid)). specialize (Hf (data_file id)). lia.
Qed.

Lemma inv_write B p n p' e f id st :
  daemon_inv B (p, n) → sets_state id st f → st = Compressed ∨ is_uuid id ∨ accounted n id →
  (∀ file, occurs file (pending p') ≤ occurs file (pending p))%nat →
  (∀ n', extends n n' → pc_ok p' n') → daemon_inv B (p', try_update e f n).
Proof.
  intros Hi Hf Hst Hp Hpc. destruct (try_update_ok e f n id st Hf (inv_node _ _ Hi) Hst) as [Hn Hx].
  apply (inv_next B p n); [done..| | |by apply Hpc].
  - intros j. by rewrite (try_update_lookup e f n id st j Hf).
  - intros file. rewrite try_update_transmissions. specialize (Hp file). lia.
Qed.

Lemma inv_stay B p n p' n' :
  daemon_inv B (p, n) → n_outbox n' = n_outbox n → n_sent n' = n_sent n →
  (∀ file, transmissions file n' + occurs file (pending p') ≤
           transmissions file n + occurs file (pending p))%nat → pc_ok p' n' →
  daemon_inv B (p', n').
Proof.
  intros Hi Eo Es Hp Hpc. assert (Hx : extends n n') by by apply extends_same.
  apply (inv_next B p n); [done|..|done].
  - destruct (inv_node _ _ Hi) as [Hr Hs]. split; rewrite Eo; [done|].
    intros j w Hj Hset. apply (accounted_mono n); [done|]. by apply (Hs j w).
  - by rewrite Eo.
  - done.
Qed.

(** A batch known to the outbox. *)
Lemma batch_of_ok n id b :
  node_ok n → batch_of n id b →
  sb_data_file b = data_file id ∧ is_uuid (sb_id b) ∧
  ∃ r, sb_new_root b = h256_text r ∧ 0 ≤ r < 2 ^ 256.
Proof.
  intros [Hr _] (w & Hw & E). destruct (Hr id w Hw) as (_ & _ & b' & E' & Hb).
  rewrite E in E'. injection E' as E'. pose proof (batch_json_roundtrip b) as R.
  rewrite E', batch_json_roundtrip in R. by injection R as ->.
Qed.

Lemma inv_submit B p n p' e b proof v id n' res :
  daemon_inv B (p, n) → batch_of n id b → do_submit cfg e b proof v n = (n', res) →
  (∀ file, occurs file (pending p') + occurs file [data_file id] ≤ occurs file (pending p))%nat →
  ((∀ h, res ≠ Ok h) ∨ accounted n' id → extends n n' → pc_ok p' n') →
  daemon_inv B (p', n').
Proof.
  intros Hi Hb E Hp Hpc. pose proof (inv_node _ _ Hi) as Hn. cbn in Hn.
  destruct (batch_of_ok n id b Hn Hb) as (Ef & _ & r & Hr & Hrr).
  destruct (do_submit_spec _ _ _ _ _ _ _ _ Hr Hrr E) as (Eo & Eb & l & Es & Hl).
  assert (Hx : extends n n').
  { split; [rewrite Eo; eauto|]. intros x Hx. rewrite Es. apply elem_of_app. auto. }
  apply (inv_next B p n); [done|..].
  - destruct Hn as [Hrows Hs]. split; rewrite Eo; [done|].
    intros j w Hj Hset. apply (accounted_mono n); [done|]. by apply (Hs j w).
  - by rewrite Eo.
  - intros file. rewrite (transmissions_sent file n n' l Es Eb). specialize (Hp file).
    destruct Hl as [[-> _]|(call & -> & _)]; cbn [fmap list_fmap fst]; rewrite ?Ef;
      [change (occurs file []) with 0%nat|]; lia.
  - apply Hpc; [|done]. destruct Hl as [[_ Hres]|(call & -> & Hc)]; [by left|]. right. intros _.
    destruct Hb as (w & Hw & Ew). exists w, call. rewrite Eo, Es. split_and!; [done| |].
    + apply elem_of_app. right. rewrite Ef. by left.
    + unfold root_of_row. rewrite Ew. cbn. rewrite batch_json_roundtrip. cbn.
      by rewrite Hr, (parse_h256_text _ Hrr), Hc.
Qed.

Lemma pending_scan file r rows resume :
  (occurs file (pending (Scanning rows resume)) + occurs file [data_file (rec_batch_id r)] =
   occurs file (pending (Scanning (r :: rows) resume)))%nat.
Proof.
  cbn [pending]. rewrite fmap_cons, <- app_comm_cons, (occurs_cons _ _ (_ ++ _)).
  cbn [compose]. lia.
Qed.

Lemma pending_resume file b proof (todo : list (SubmitterBatch * string)) :
  (occurs file (sb_data_file ∘ fst <$> (b, proof) :: todo) =
   occurs file (sb_data_file ∘ fst <$> todo) + occurs file [sb_data_file b])%nat.
Proof. rewrite fmap_cons, (occurs_cons _ _ (_ <$> _)). cbn [compose fst]. lia. Qed.

Lemma pc_ok_scan n n' rows resume :
  extends n n' → pc_ok (Scanning rows resume) n → pc_ok (Scanning rows resume) n'.
Proof.
  intros Hx [Hr Hq]. split; eapply Forall_impl; eauto using record_mono, queued_mono.
Qed.

Lemma scan_submitted_inv B e r rows resume n n' :
  daemon_inv B (Scanning (r :: rows) resume, n) → rec_state r = SubmittedToL1 →
  scan_submitted e r n = Some n' → daemon_inv B (Scanning rows resume, n').
Proof.
  intros Hi Hst E. destruct (inv_pc _ _ Hi) as [[[_ Hr] Hrows]%Forall_cons Hq].
  pose proof (λ file, pending_scan file r rows resume) as Hp.
  assert (Hd : ∀ m, n_outbox m = n_outbox n → n_sent m = n_sent n →
    (∀ file, transmissions file m ≤ transmissions file n + occurs file [data_file (rec_batch_id r)])%nat →
    daemon_inv B (Scanning rows resume, m)).
  { intros m Eo Es Et. eapply inv_stay; [exact Hi|done..| |].
    - intros file. specialize (Hp file). specialize (Et file). lia.
    - eapply (pc_ok_scan n); [by apply extends_same|by split]. }
  assert (Hw : ∀ m st f, n_outbox m = n_outbox n → n_sent m = n_sent n →
    (∀ file, transmissions file m ≤ transmissions file n + occurs file [data_file (rec_batch_id r)])%nat →
    sets_state (rec_batch_id r) st f → daemon_inv B (Scanning rows resume, try_update e f m)).
  { intros m st f Eo Es Et Hf. pose proof (Hd m Eo Es Et) as Hm.
    eapply inv_write; [exact Hm|exact Hf| |done|].
    - right. right. apply (accounted_mono n); [by apply extends_same|auto].
    - intros m' Hx. by apply (pc_ok_scan m), (inv_pc _ _ Hm). }
  assert (Hn : daemon_inv B (Scanning rows resume, n)) by (apply Hd; [done..|intros; lia]).
  unfold scan_submitted in E.
  destruct (negb _); [by injection E as <-|].
  destruct (rec_tx_hash r ≫= parse_h256), (se_tx e) as [tx|]; try (by injection E as <-).
  destruct (match rec_nonce r with Some x => x <? 0 | None => false end); [done|].
  assert (Hs : ∀ fee, daemon_inv B (Scanning rows resume, resend e r fee n)).
  { intros fee. unfold resend. destruct (se_resend e); [|done].
    apply (Hw _ SubmittedToL1); [done..| |apply update_submission_sets].
    intros file. unfold transmissions, occurs. cbn [n_sent n_bumped]. rewrite !filter_cons. cbn [fst].
    case_decide; cbn [length filter list_filter]; lia. }
  destruct (ct_gas_price tx) as [current|]; [|injection E as <-; apply Hs].
  apply bind_Some in E as ([price|] & _ & [= <-]); [apply Hs|].
  apply (Hw _ Failed); [done..|intros; lia|apply update_state_sets].
Qed.

Lemma queue_batch_ok n r b proof :
  node_ok n → record_ok n r → queue_batch r = Some (b, proof) → batch_of n (rec_batch_id r) b.
Proof.
  intros [Hrows _] [(w & Hw & Ew) _] E. unfold queue_batch in E.
  apply bind_Some in E as (json & Ej & E). apply bind_Some in E as (pr & _ & E).
  apply bind_Some in E as (b' & Eb & [= <- <-]).
  destruct (Hrows _ w Hw) as (_ & _ & b0 & E0 & _). exists w. split; [done|].
  rewrite E0 in Ew |- *. rewrite Ej in Ew. injection Ew as <-.
  rewrite batch_json_roundtrip in Eb. by injection Eb as ->.
Qed.

Lemma scan_row_inv B e r rows resume n :
  daemon_inv B (Scanning (r :: rows) resume, n) → daemon_inv B (scan_row e r rows resume n).
Proof.
  intros Hi. destruct (inv_pc _ _ Hi) as [[Hr Hrows]%Forall_cons Hq].
  pose proof (λ file, pending_scan file r rows resume) as Hp.
  assert (Hq' : daemon_inv B (Scanning rows (resume ++ option_list (queue_batch r)), n)).
  { eapply inv_stay; [exact Hi|done..| |].
    - intros file. rewrite <- Hp. cbn [pending]. rewrite fmap_app, !occurs_app.
      destruct (queue_batch r) as [[b proof]|] eqn:E.
      + change (sb_data_file ∘ fst <$> option_list (Some (b, proof))) with [sb_data_file b].
        destruct (batch_of_ok n _ b (inv_node _ _ Hi) (queue_batch_ok n r b proof (inv_node _ _ Hi) Hr E))
          as [-> _]. lia.
      + change (occurs file (sb_data_file ∘ fst <$> option_list None)) with 0%nat. lia.
    - split; [done|]. apply Forall_app. split; [done|].
      destruct (queue_batch r) as [[b proof]|] eqn:E; [|constructor].
      apply Forall_singleton. exists (rec_batch_id r). by apply (queue_batch_ok n r b proof (inv_node _ _ Hi)). }
  assert (Hd : ∀ p, p = Scanning rows resume ∨ p = Dead → daemon_inv B (p, n)).
  { intros p [->| ->]; (eapply inv_stay; [exact Hi|done..| |]); try done;
      intros file; [specialize (Hp file)|change (pending Dead) with ([] : list string);
        change (occurs file []) with 0%nat]; lia. }
  unfold scan_row. destruct (rec_state r) eqn:Est; auto.
  destruct (scan_submitted e r n) as [n'|] eqn:E; [|auto].
  by apply (scan_submitted_inv B e r rows resume n n').
Qed.

Lemma poll_inv B e n :
  event_ok (Step e) → daemon_inv B (Polling, n) → daemon_inv B (poll e n).
Proof.
  intros [Hu Hf] Hi. unfold poll. destruct (se_fetched e) as [f|]; [|done].
  destruct (negb _ && _); [done|]. destruct (se_fails e); [done|].
  unfold insert_or_ignore. destruct (n_outbox n !! fb_batch_id f) as [w|] eqn:Ew; [done|].
  destruct Hf as [Hid Hroot]. set (b := new_batch f (se_uuid e)). set (w := mkRow _ _ _ _ _ _ _ _).
  set (n' := set_outbox _ n). assert (Hx : extends n n').
  { split; [|done]. intros j w' Hj. cbn. rewrite lookup_insert_ne by congruence. eauto. }
  destruct (inv_known _ _ Hi (fb_batch_id f) Ew) as [Hb0 _]. cbn [snd] in Hb0.
  destruct (inv_node _ _ Hi) as [Hr Hs]. split; cbn [fst snd].
  - split; cbn; apply map_Forall_insert_2.
    + split; [done|]. split; [by eexists|]. exists b. split_and!; try done. by eexists.
    + done.
    + unfold settled. cbn. by rewrite !elem_of_cons, elem_of_nil; intros [|[|[|]]].
    + intros j w' Hj Hset. apply (accounted_mono n); [done|]. by apply (Hs j w').
  - exists w. split; [|done]. cbn. by rewrite lookup_insert_eq.
  - intros file. pose proof (inv_count _ _ Hi file) as Hc. cbn [fst snd pending] in *.
    change (transmissions file n') with (transmissions file n).
    pose proof (inv_bound _ _ Hi file).
    change (occurs file []) with 0%nat in Hc.
    destruct (decide (data_file (fb_batch_id f) = file)) as [<-|Hne].
    + pose proof (occurs_NoDup (data_file (fb_batch_id f)) _ (NoDup_singleton (data_file (fb_batch_id f)))). lia.
    + unfold occurs. rewrite filter_cons_False by done. cbn [filter list_filter length]. lia.
  - apply (inv_bound _ _ Hi).
  - intros id Hn. change (n_outbox n') with (<[fb_batch_id f := w]> (n_outbox n)) in Hn.
    apply lookup_insert_None in Hn as [Hn Hne].
    destruct (inv_known _ _ Hi id Hn) as [Hb _]. split; [done|].
    unfold occurs. cbn [pending]. rewrite filter_cons_False; [done|]. by intros ?%data_file_inj.
Qed.

Lemma step_inv B e s :
  event_ok (Step e) → daemon_inv B s → daemon_inv B (step cfg e s).
Proof.
  intros He Hi. destruct s as [p n]. pose proof (inv_pc _ _ Hi) as Hp.
  destruct p; cbn [step fst snd pc_ok] in *.
  - destruct rows; [|by apply scan_row_inv]. eapply inv_stay; [exact Hi|done..|apply Hp].
  - destruct todo as [|[b proof] todo]; [eapply inv_stay; [exact Hi|done..]|].
    apply Forall_cons in Hp as [(id & Hb) Hq].
    destruct (batch_of_ok n id b (inv_node _ _ Hi) Hb) as (Ef & Hu & _).
    unfold resume_batch. destruct (do_submit _ _ _ _ _ _) as [n' [h|err|]] eqn:E;
      (eapply inv_submit; [exact Hi|exact Hb|exact E| |]).
    all: try (intros file; cbn [pending]; rewrite pending_resume, Ef;
      try change (occurs file []) with 0%nat; lia).
    all: intros _ Hx; try done.
    all: try split; try done; eapply Forall_impl; eauto using queued_mono.
  - eapply inv_write; [exact Hi|apply update_submission_sets|right; left; apply Hp|done|].
    intros n' Hx. split; [apply Hp|]. eapply Forall_impl; [apply Hp|]. eauto using queued_mono.
  - eapply inv_write; [exact Hi|apply update_state_sets|right; left; apply Hp|done|].
    intros n' Hx. eapply Forall_impl; [apply Hp|]. eauto using queued_mono.
  - by apply poll_inv.
  - destruct (se_fails e); (eapply inv_stay; [exact Hi|done..| |]); [cbn; lia|done|done|done].
  - eapply inv_write; [exact Hi|apply update_state_sets|by left|done|].
    intros n' Hx. by eapply batch_of_mono.
  - unfold submit_polled. destruct (verification_mode cfg) eqn:Hm.
    2: { eapply inv_write; [exact Hi|apply update_submission_sets| | |].
         - right. right. intros E. congruence.
         - intros file. change (pending (Marked f)) with ([] : list string). change (occurs file []) with 0%nat. lia.
         - intros n' _ E. congruence. }
    destruct (do_submit _ _ _ _ _ _) as [n' [h|err|]] eqn:E;
      (eapply inv_submit; [exact Hi|exact Hp|exact E|done|]); try done.
    by intros [Hh|Hb] _; [destruct (Hh h)|].
  - eapply inv_write; [exact Hi|apply update_submission_sets|auto|done|].
    intros n' Hx. by eapply accounted_mono.
  - eapply inv_write; [exact Hi|apply update_state_sets|auto|done|].
    intros n' Hx. by eapply accounted_mono.
  - destruct (se_fails e); (eapply inv_stay; [exact Hi|done..]).
  - done.
Qed.

Lemma restart_rows_ok q n :
  node_ok n →
  let rows := if q : bool then [] else get_unconfirmed_batches (n_outbox n) in
  Forall (record_ok n) rows ∧ NoDup (data_file ∘ rec_batch_id <$> rows).
Proof.
  intros [Hr Hs]. destruct q; [split; constructor|]. cbn zeta. split.
  - apply Forall_forall. intros r (id & w & Hw & _ & ->)%elem_of_unconfirmed.
    split; [by exists w|]. cbn. intros Hst. apply (Hs id w Hw).
    destruct (Hr id w Hw) as (_ & (st & E) & _). unfold settled. rewrite E in Hst |- *.
    rewrite from_str_as_str in Hst. cbn in Hst. subst st. by left.
  - rewrite list_fmap_compose. apply NoDup_fmap_2; [exact data_file_inj|apply unconfirmed_NoDup].
Qed.

Lemma restart_inv B q p n :
  daemon_inv B (p, n) → daemon_inv (λ file, S (transmissions file n)) (restart q n).
Proof.
  intros Hi. pose proof (inv_node _ _ Hi) as Hn. cbn [snd] in Hn.
  destruct (restart_rows_ok q n Hn) as [Hrows Hnd]. unfold restart.
  set (rows := if q then [] else _) in *.
  assert (Hp : pending (Scanning rows []) = data_file ∘ rec_batch_id <$> rows)
    by (cbn [pending]; apply app_nil_r).
  split; cbn [fst snd]; [done|by split| |lia|].
  - intros file. rewrite Hp. pose proof (occurs_NoDup file _ Hnd). lia.
  - intros id Hid. destruct (inv_known _ _ Hi id Hid) as [Hb _]. split; [done|]. rewrite Hp.
    unfold occurs. rewrite filter_none; [done|]. intros x Hx ->.
    apply list_elem_of_fmap in Hx as (r & E%data_file_inj & Hr).
    rewrite Forall_forall in Hrows. destruct (Hrows r Hr) as [(w & Hw & _) _]. congruence.
Qed.

Lemma run_inv evs : ∀ B s, Forall event_ok evs → daemon_inv B s → ∃ B', daemon_inv B' (run cfg evs s).
Proof.
  induction evs as [|ev evs IH]; intros B s He Hi; [by exists B|].
  apply Forall_cons in He as [He Hes]. destruct ev as [e|q].
  - apply (IH B (step cfg e s)); [done|]. by apply step_inv.
  - destruct s as [p n]. eapply (IH _ (restart q n)); [done|]. by eapply restart_inv.
Qed.

Lemma run_app evs evs' s : run cfg (evs ++ evs') s = run cfg evs' (run cfg evs s).
Proof. apply foldl_app. Qed.

(** The steps between two restarts. *)
Lemma steps_inv es : ∀ B s,
  Forall event_ok (Step <$> es) → daemon_inv B s → daemon_inv B (run cfg (Step <$> es) s).
Proof.
  induction es as [|e es IH]; intros B s He Hi; [done|]. apply Forall_cons in He as [He Hes].
  apply (IH B (step cfg e s)); [done|]. by apply step_inv.
Qed.

Lemma fresh_inv files : daemon_inv (λ _, 1%nat) (fresh_node files).
Proof.
  split; cbn; [by split|by split| |done|done]. intros file. unfold transmissions, occurs. cbn. lia.
Qed.

(** C3: The outbox tells what reached the chain, across crashes.  In every run from
    an empty outbox, with restarts between any two effects and failing databases,
    services and submissions: in on-chain verification mode, a row marked
    submitted, confirmed or failed is the row of a batch that was broadcast with
    the root the row holds; and in either mode, from one start of the process to
    the next, at most one transaction is sent for each batch, gas bumps included. *)
Theorem outbox_accounts_for_broadcasts evs files q es :
  Forall event_ok evs → Forall event_ok (Step <$> es) →
  let n := (run cfg evs (fresh_node files)).2 in
  (verification_mode cfg = OnChain → ∀ id w, n_outbox n !! id = Some w → settled w →
    ∃ call, (data_file id, call) ∈ n_sent n ∧ root_of_row w = Some (cc_new_root call)) ∧
  (∀ file, transmissions file (run cfg (Step <$> es) (fresh_node files)).2 ≤ 1)%nat ∧
  (∀ file, transmissions file (run cfg (evs ++ Restart q :: (Step <$> es)) (fresh_node files)).2 ≤
           transmissions file n + 1)%nat.
Proof.
  intros He Hes n. destruct (run_inv evs _ _ He (fresh_inv files)) as [B Hi]. split_and!.
  - intros Hm id w Hw Hset. destruct (proj2 (inv_node _ _ Hi) id w Hw Hset Hm)
      as (w' & call & Hw' & Hc & Hr). exists call. split; [done|].
    fold n in Hw'. congruence.
  - intros file. pose proof (inv_count _ _ (steps_inv es _ _ Hes (fresh_inv files)) file) as Hc.
    cbn beta in Hc. lia.
  - intros file. rewrite run_app. fold (fresh_node files) in Hi. destruct (run cfg evs (fresh_node files)) as [p m].
    pose proof (inv_count _ _ (steps_inv es _ _ Hes (restart_inv B q p m Hi)) file) as Hc.
    cbn beta in Hc. change (n) with m.
    change (run cfg (Restart q :: (Step <$> es)) (p, m)) with (run cfg (Step <$> es) (restart q m)). lia.
Qed.

End invariant.

(** ** Gas bumps over successive starts *)

(** The prices of the transactions sent at successive starts, each found with the
    price of the one before, and whether the batch was given up; the runs of the
    daemon send these prices ([starts_chain]). *)
Fixpoint bump_chain (starts : nat) (original current : Z) : option (list Z * bool) :=
  match starts with
  | O => Some ([], false)
  | S starts' =>
      bump ← bump_gas_price current (Some original);
      match bump with
      | GiveUp => Some ([], true)
      | Resend price =>
          '(prices, given_up) ← bump_chain starts' original price;
          Some (price :: prices, given_up)
      end
  end.

Section bumps.
#[local] Ltac Zify.zify_post_hook ::= Z.to_euclidean_division_equations.

Lemma bump_small orig x :
  0 ≤ x ≤ 3 * orig → 297 * orig ≤ u256_max →
  bump_gas_price x (Some orig) =
    Some (if x + x / 5 <=? 3 * orig then Resend (x + x / 5)
          else if 297 * orig / 100 <=? x then GiveUp else Resend (3 * orig)).
Proof.
  intros Hx Ho. unfold bump_gas_price, u256_add, u256_mul.
  assert (0 ≤ u256_max) by (vm_compute; discriminate).
  rewrite (proj2 (Z.leb_le (x + x / 5) _)) by lia. cbn [mbind option_bind].
  rewrite (proj2 (Z.leb_le (orig * 3) _)) by lia. cbn [mbind option_bind].
  replace (orig * 3) with (3 * orig) by lia. replace (3 * orig * 99) with (297 * orig) by lia.
  rewrite (proj2 (Z.leb_le (297 * orig) _)) by lia. cbn [mbind option_bind].
  destruct (Z.ltb_spec (3 * orig) (x + x / 5)), (Z.leb_spec (x + x / 5) (3 * orig)); try lia; [|done].
  by destruct (_ <=? x).
Qed.

Lemma bump_chain_ends k orig : ∀ x,
  5 ≤ orig → 297 * orig ≤ u256_max → 5 ≤ x ≤ 3 * orig →
  5 ^ Z.of_nat k * (3 * orig - 4) < 6 ^ Z.of_nat k * (x - 4) →
  ∃ prices, bump_chain (S (S k)) orig x = Some (prices, true) ∧ Forall (λ p, x ≤ p ≤ 3 * orig) prices.
Proof.
  induction k as [|k IH]; intros x Ho Hm Hx Hk; [cbn in Hk; lia|].
  cbn [bump_chain]. rewrite (bump_small orig x) by lia. cbn [mbind option_bind].
  destruct (Z.leb_spec (x + x / 5) (3 * orig)) as [Hle|Hgt].
  - destruct (IH (x + x / 5)) as (prices & E & HF); [lia..| |].
    { rewrite Nat2Z.inj_succ, !Z.pow_succ_r in Hk by lia.
      assert (H6 : 0 < 6 ^ Z.of_nat k) by (apply Z.pow_pos_nonneg; lia).
      assert (H5 : 6 * (x - 4) ≤ 5 * (x + x / 5 - 4)) by lia.
      nia. }
    cbn [bump_chain] in E. rewrite E. cbn. eexists. split; [done|].
    constructor; [lia|]. eapply Forall_impl; [exact HF|]. cbn. lia.
  - destruct (Z.leb_spec (297 * orig / 100) x); [by exists []|].
    cbn [bump_chain]. rewrite (bump_small orig (3 * orig)) by lia. cbn [mbind option_bind].
    destruct (Z.leb_spec (3 * orig + 3 * orig / 5) (3 * orig)); [lia|].
    destruct (Z.leb_spec (297 * orig / 100) (3 * orig)); [|lia]. cbn.
    eexists. split; [done|]. constructor; [lia|constructor].
Qed.

Lemma bump_chain_bounded k orig : ∀ x,
  5 ≤ orig → 297 * orig ≤ u256_max → 5 ≤ x ≤ 3 * orig →
  ∃ prices given_up, bump_chain k orig x = Some (prices, given_up) ∧ Forall (λ p, x ≤ p ≤ 3 * orig) prices.
Proof.
  induction k as [|k IH]; intros x Ho Hm Hx; cbn [bump_chain]; [by exists [], false|].
  rewrite (bump_small orig x) by lia. cbn [mbind option_bind].
  assert (Hnext : ∀ y, x ≤ y ≤ 3 * orig → ∃ prices given_up,
    ('(prices, given_up) ← bump_chain k orig y; Some (y :: prices, given_up)) = Some (prices, given_up) ∧
    Forall (λ p, x ≤ p ≤ 3 * orig) prices).
  { intros y Hy. destruct (IH y) as (prices & g & -> & HF); [lia..|]. cbn. do 2 eexists. split; [done|].
    constructor; [lia|]. eapply Forall_impl; [exact HF|]. cbn. lia. }
  destruct (Z.leb_spec (x + x / 5) (3 * orig)); [apply Hnext; lia|].
  destruct (_ <=? x); [by exists [], true|apply Hnext; lia].
Qed.

Lemma bump_chain_tiny k orig :
  0 ≤ orig < 5 → 297 * orig ≤ u256_max → bump_chain k orig orig = Some (replicate k orig, false).
Proof.
  intros Ho Hm. induction k as [|k IH]; [done|]. cbn [bump_chain].
  rewrite bump_small by lia. replace (orig + orig / 5) with orig by lia.
  rewrite (proj2 (Z.leb_le orig (3 * orig))) by lia. cbn [mbind option_bind]. by rewrite IH.
Qed.

End bumps.

Lemma bump_chain_given_up k orig x prices :
  bump_chain k orig x = Some (prices, true) →
  ∀ j, bump_chain (k + j) orig x = Some (prices, true) ∧ (length prices < k)%nat.
Proof.
  revert x prices. induction k as [|k IH]; intros x prices E j; [done|]. cbn [bump_chain plus] in *.
  destruct (bump_gas_price x (Some orig)) as [[price|]|]; [|injection E as <-; cbn; split; [done|lia]|done].
  cbn [mbind option_bind] in *. destruct (bump_chain k orig price) as [[ps g]|] eqn:Ek; [|done].
  injection E as <- ->. destruct (IH _ _ Ek j) as [-> Hl]. cbn. split; [done|lia].
Qed.

(** *** A batch that stays unconfirmed *)

Section stuck.
Context `{HashingLaws} `{Flate} `{SerdeJson} `{BatchSerdeLaws} `{RowOrderLaws} (cfg : Config).

(** The outbox holds one batch, submitted with a transaction whose price is recorded. *)
Definition stuck_row (orig : Z) (w : Row) : Prop :=
  w_state w = as_str SubmittedToL1 ∧ is_Some (w_tx_hash w ≫= parse_h256) ∧
  (if w_nonce w is Some k then 0 ≤ k else True) ∧ w_original_gas_price w ≫= from_dec_str = Some orig.

(** Starts of the process, each with the scan of the one row. *)
Definition starts (es : list StepEnv) : list event := es ≫= λ e, [Restart false; Step e].

Definition last_price (orig : Z) (n : Node) : Z :=
  match n_bumped n with (_, Some p) :: _ => p | _ => orig end.

(** At every start more than five minutes have passed, the node knows the
    transaction sent last, with its gas price, and accepts the next. *)
Fixpoint unconfirmed_at (orig : Z) (es : list StepEnv) (n : Node) : Prop :=
  match es with
  | [] => True
  | e :: es =>
      map_Forall (λ _ w, 300000 < se_now e - w_last_updated w) (n_outbox n) ∧
      (∃ t, se_tx e = Some t ∧ ct_type t ≠ Some 2 ∧ ct_gas_price t = Some (last_price orig n)) ∧
      (∃ h, se_resend e = Some h ∧ 0 ≤ h < 2 ^ 256) ∧ se_fails e = false ∧
      unconfirmed_at orig es (run cfg [Restart false; Step e] (Polling, n)).2
  end.

Lemma unconfirmed_singleton id w :
  get_unconfirmed_batches {[id := w]} = if decide (unconfirmed w) then [record_of id w] else [].
Proof.
  unfold get_unconfirmed_batches.
  assert (E : row_order {[id := w]} = [(id, w)])
    by (apply Permutation_singleton_r; rewrite row_order_perm; by rewrite map_to_list_singleton).
  rewrite E, filter_cons. cbn [snd]. by destruct (decide (unconfirmed w)).
Qed.

Lemma restart_forgets evs p n : run cfg (Restart false :: evs) (p, n) = run cfg (Restart false :: evs) (Polling, n).
Proof. done. Qed.

Lemma settled_start id w n e :
  n_outbox n = {[id := w]} → ¬ unconfirmed w →
  (run cfg [Restart false; Step e] (Polling, n)).2 = n.
Proof.
  intros Eo Hu. unfold run. cbn [foldl react snd]. unfold restart. rewrite Eo, unconfirmed_singleton, decide_False by done.
  done.
Qed.

Lemma settled_starts id w n es :
  n_outbox n = {[id := w]} → ¬ unconfirmed w → (run cfg (starts es) (Polling, n)).2 = n.
Proof.
  intros Eo Hu. induction es as [|e es IH]; [done|]. unfold starts. cbn [mbind list_bind]. rewrite run_app.
  pose proof (settled_start id w n e Eo Hu) as Hset.
  destruct (run cfg [Restart false; Step e] (Polling, n)) as [p m]. cbn [snd] in Hset. rewrite Hset.
  by destruct es.
Qed.

Lemma stuck_start id w n e orig es b :
  n_outbox n = {[id := w]} → stuck_row orig w → unconfirmed_at orig (e :: es) n →
  bump_gas_price (last_price orig n) (Some orig) = Some b →
  let n' := (run cfg [Restart false; Step e] (Polling, n)).2 in
  ∃ w', n_outbox n' = {[id := w']} ∧
    match b with
    | Resend p => stuck_row orig w' ∧ n_bumped n' = (data_file id, Some p) :: n_bumped n
    | GiveUp => w_state w' = as_str Failed ∧ n_bumped n' = n_bumped n
    end.
Proof.
  intros Eo (Hst & Hh & Hk & Ho) (Hlate & (t & Et & Hty & Hgp) & (h & Eh & Hhr) & Hf & _) Eb n'.
  assert (En : n' = match b with
    | Resend p => resend e (record_of id w) (Some p) n
    | GiveUp => try_update e (update_state id Failed (se_now e)) n
    end).
  { subst n'. unfold run. cbn [foldl react snd]. unfold restart. rewrite Eo, unconfirmed_singleton, decide_True
      by (by rewrite (unconfirmed_iff _ _ Hst); auto).
    unfold step. cbn [fst snd]. unfold scan_row. cbn [record_of rec_state].
    rewrite Hst, from_str_as_str. cbn [default]. unfold scan_submitted.
    cbn [record_of rec_last_updated rec_tx_hash rec_nonce rec_original_gas_price].
    assert (Hl : 300000 < se_now e - w_last_updated w) by (apply (Hlate id); rewrite Eo; apply lookup_singleton_eq).
    rewrite (proj2 (Z.ltb_lt _ _) Hl). cbn [negb]. destruct Hh as [hh ->]. rewrite Et.
    replace (match w_nonce w with Some k => k <? 0 | None => false end) with false.
    2: { destruct (w_nonce w); [|done]. symmetry. by apply Z.ltb_ge. }
    rewrite Hgp, Ho, Eb. cbn [mbind option_bind]. unfold offered_fee. rewrite bool_decide_false by done.
    by destruct b. }
  rewrite En. destruct b as [p|].
  - unfold resend. rewrite Eh. unfold try_update. rewrite Hf. cbn [n_outbox n_bumped set_outbox record_of rec_batch_id rec_nonce].
    rewrite Eo. unfold update_submission. rewrite alter_singleton_eq. eexists. split; [done|]. split; [|done].
    split_and!; [done| |done|done]. cbn [w_tx_hash mbind option_bind]. by rewrite (parse_h256_text _ Hhr).
  - unfold try_update. rewrite Hf. cbn [n_outbox n_bumped set_outbox]. rewrite Eo. unfold update_state.
    rewrite alter_singleton_eq. by eexists.
Qed.

(** The starts send the prices of the chain. *)
Lemma starts_chain es : ∀ n id w orig prices given_up,
  n_outbox n = {[id := w]} → stuck_row orig w → unconfirmed_at orig es n →
  bump_chain (length es) orig (last_price orig n) = Some (prices, given_up) →
  let n' := (run cfg (starts es) (Polling, n)).2 in
  ∃ w', n_outbox n' = {[id := w']} ∧
    w_state w' = as_str (if given_up then Failed else SubmittedToL1) ∧
    n_bumped n' = reverse ((λ p, (data_file id, Some p)) <$> prices) ++ n_bumped n.
Proof.
  induction es as [|e es IH]; intros n id w orig prices given_up Eo Hw Hes E n'.
  { injection E as <- <-. exists w. by split_and!; [|apply Hw|]. }
  cbn [length bump_chain] in E.
  apply bind_Some in E as (b & Eb & E).
  destruct (stuck_start id w n e orig es b Eo Hw Hes Eb) as (w1 & Eo1 & Hb).
  set (n1 := (run cfg [Restart false; Step e] (Polling, n)).2) in *.
  assert (En : n' = (run cfg (starts es) (Polling, n1)).2).
  { subst n' n1. unfold starts. cbn [mbind list_bind]. rewrite run_app.
    destruct (run cfg [Restart false; Step e] (Polling, n)) as [p m]. cbn [snd].
    destruct es as [|e' es']; [done|]. cbn [mbind list_bind app]. by rewrite restart_forgets. }
  rewrite En. destruct Hes as (_ & _ & _ & _ & Hes). fold n1 in Hes. destruct b as [p|].
  - destruct Hb as [Hw1 Eb1]. destruct (bump_chain (length es) orig p) as [[ps g]|] eqn:Ec; [|done].
    injection E as <- <-.
    destruct (IH n1 id w1 orig ps g Eo1 Hw1 Hes) as (w' & Eo' & Hst & Eb').
    { unfold last_price. by rewrite Eb1. }
    exists w'. split_and!; [done..|]. rewrite Eb', Eb1, fmap_cons, reverse_cons, <- app_assoc. done.
  - injection E as <- <-. destruct Hb as [Hst1 Eb1]. exists w1.
    rewrite (settled_starts id w1) by (done || rewrite (unconfirmed_iff _ _ Hst1); naive_solver). done.
Qed.

(** C34: Gas bumps end and are capped, unless the price is tiny.  Take a batch alone in
    the outbox, submitted by a legacy transaction whose gas price was recorded, and
    let it stay unconfirmed: every start of the daemon comes more than five
    minutes after the last, finds the transaction sent last at the price it was
    sent with, and may send the next (297 times the price fits in 256 bits).  If
    the recorded price is at least 5 wei,
    nothing is ever sent above three times that price, and after sixteen starts the
    row is marked failed and at most fifteen transactions have been sent.  Below
    5 wei the bump is zero: every start sends the same price again, for ever. *)
Theorem gas_bumps_end id w orig n es :
  n_outbox n = {[id := w]} → n_bumped n = [] → stuck_row orig w → 297 * orig ≤ u256_max →
  unconfirmed_at orig es n →
  let n' := (run cfg (starts es) (Polling, n)).2 in
  (5 ≤ orig →
    Forall (λ x, ∃ p, x = (data_file id, Some p) ∧ orig ≤ p ≤ 3 * orig) (n_bumped n') ∧
    ((16 ≤ length es)%nat → (length (n_bumped n') ≤ 15)%nat ∧
       w_state <$> n_outbox n' !! id = Some (as_str Failed))) ∧
  (0 ≤ orig < 5 → n_bumped n' = replicate (length es) (data_file id, Some orig) ∧
     w_state <$> n_outbox n' !! id = Some (as_str SubmittedToL1)).
Proof.
  intros Eo Eb Hw Hm Hes n'. assert (El : last_price orig n = orig) by (unfold last_price; by rewrite Eb).
  pose proof (λ ps g, starts_chain es n id w orig ps g Eo Hw Hes) as Hc. rewrite El in Hc. fold n' in Hc.
  split.
  - intros Ho. destruct (bump_chain_bounded (length es) orig orig) as (ps & g & E & HF); [lia..|].
    destruct (Hc ps g E) as (w' & Eo' & Hst & Eb'). rewrite Eb', Eb, app_nil_r. split.
    + rewrite Forall_reverse, Forall_fmap. eapply Forall_impl; [exact HF|]. cbn. eauto.
    + intros Hlen.
      destruct (bump_chain_ends 14 orig orig) as (ps' & E' & _); [lia..| |].
      { change (5 ^ Z.of_nat 14) with 6103515625. change (6 ^ Z.of_nat 14) with 78364164096. lia. }
      destruct (bump_chain_given_up _ _ _ _ E' (length es - 16)) as [E'' Hl].
      replace (16 + (length es - 16))%nat with (length es) in E'' by lia.
      rewrite E in E''. injection E'' as -> ->. rewrite length_reverse, length_fmap. split; [lia|].
      rewrite Eo', lookup_singleton_eq. cbn. by rewrite Hst.
  - intros Ho. destruct (Hc _ _ (bump_chain_tiny (length es) orig Ho Hm)) as (w' & Eo' & Hst & Eb').
    rewrite Eb', Eb, app_nil_r, Eo', lookup_singleton_eq. cbn. rewrite Hst. split; [|done].
    by rewrite fmap_replicate, reverse_replicate.
Qed.

(** The bump of an EIP-1559 transaction changes nothing: whatever price is
    computed, it is sent again with the fee cap it has. *)
Theorem fee_cap_not_bumped e r n n' t :
  scan_submitted e r n = Some n' → se_tx e = Some t → ct_type t = Some 2 →
  n_bumped n' = n_bumped n ∨ n_bumped n' = (data_file (rec_batch_id r), ct_max_fee_per_gas t) :: n_bumped n.
Proof.
  intros E Et Hty. unfold scan_submitted in E. rewrite Et in E.
  assert (Hr : ∀ gp, n_bumped (resend e r (offered_fee t gp) n) = n_bumped n ∨
    n_bumped (resend e r (offered_fee t gp) n) =
      (data_file (rec_batch_id r), ct_max_fee_per_gas t) :: n_bumped n).
  { intros gp. unfold resend, offered_fee. rewrite bool_decide_true by done.
    destruct (se_resend e); [right; by rewrite try_update_bumped|by left]. }
  destruct (negb _); [injection E as <-; by left|].
  destruct (rec_tx_hash r ≫= parse_h256); [|injection E as <-; by left].
  destruct (match rec_nonce r with Some k => k <? 0 | None => false end); [done|].
  destruct (ct_gas_price t) as [current|]; [|by injection E as <-].
  apply bind_Some in E as ([price|] & _ & [= <-]); [done|left; by rewrite try_update_bumped].
Qed.

End stuck.

(** ** Executable instances *)

Module DaemonSamples.
#[export] Instance model_flate : Flate := λ b, b.
#[export] Instance model_serde_json : SerdeJson := λ _, Some [].
#[export] Instance model_row_order : RowOrder := λ o, map_to_list o.
#[export] Instance model_row_order_laws : RowOrderLaws.
Proof. by intros o. Qed.

(** *** Batches as text: the fields in binary *)

Fixpoint bits (p : positive) : string :=
  match p with xH => "" | xO p => String "0" (bits p) | xI p => String "1" (bits p) end.
Fixpoint of_bits (s : string) : positive :=
  match s with
  | EmptyString => xH
  | String c s => if Ascii.eqb c "0" then xO (of_bits s) else xI (of_bits s)
  end.
Lemma of_bits_bits p : of_bits (bits p) = p.
Proof. induction p; cbn; by f_equal. Qed.

Definition status_number (s : BatchStatus) : Z :=
  match s with
  | Discovered => 0 | Proving => 1 | Proved => 2 | Submitting => 3 | Submitted => 4
  | Confirmed => 5 | BatchFailed => 6
  end.
Definition status_of_number (z : Z) : BatchStatus :=
  if z =? 0 then Discovered else if z =? 1 then Proving else if z =? 2 then Proved
  else if z =? 3 then Submitting else if z =? 4 then Submitted else if z =? 5 then Confirmed
  else BatchFailed.

Definition batch_fields (b : SubmitterBatch) : list (option string + option Z) :=
  [inl (Some (sb_id b)); inl (Some (sb_data_file b)); inl (Some (sb_new_root b));
   inr (Some (status_number (sb_status b))); inl (Some (sb_da_mode b)); inl (sb_proof b);
   inl (sb_tx_hash b); inr (Some (sb_attempts b)); inl (sb_blob_versioned_hash b);
   inr (sb_blob_index b); inr (Some (sb_tx_count b))].

Definition fields_batch (l : list (option string + option Z)) : option SubmitterBatch :=
  match l with
  | [inl (Some i); inl (Some f); inl (Some r); inr (Some s); inl (Some m); inl p; inl t;
     inr (Some a); inl h; inr x; inr (Some c)] =>
      Some (mkSubmitterBatch i f r (status_of_number s) m p t a h x c)
  | _ => None
  end.

#[export] Instance model_batch_serde : BatchSerde :=
  {| batch_to_json := λ b, bits (encode (batch_fields b));
     batch_of_json := λ s, decode (of_bits s) ≫= fields_batch |}.
#[export] Instance model_batch_serde_laws : BatchSerdeLaws.
Proof.
  intros b. cbn [batch_of_json batch_to_json model_batch_serde]. rewrite of_bits_bits, decode_encode.
  cbn. f_equal. destruct b as [? ? ? st]. by destruct st.
Qed.

(** *** A run with a crash *)

Definition sample_cfg : Config := mkConfig (CalldataStrategy false) None.

Definition sample_uuid : string := "6ba7b810-9dad-11d1-80b4-00c04fd430c8".

Definition sample_fetched (id : string) (root : Z) : FetchedBatch :=
  mkFetched id [x61] 1 root "0x" [x01; x02].

Definition sample_env (f : option FetchedBatch) (reply : L1Reply) : StepEnv :=
  mkStepEnv 10 false false (mkSubmitEnv true true reply) None None f sample_uuid.

(** Batch 1 is confirmed; the process stops before batch 2 is submitted, and
    submits it after the restart. *)
Definition sample_events : list event :=
  replicate 2 (Step (sample_env None NotSent)) ++
  replicate 7 (Step (sample_env (Some (sample_fetched "1" 5)) (Mined 77 true))) ++
  replicate 3 (Step (sample_env (Some (sample_fetched "2" 6)) NotSent)) ++
  [Restart false] ++ replicate 6 (Step (sample_env None (Mined 78 true))).

#[local] Existing Instance model_hashing.
#[local] Existing Instance model_hashing_laws.

Lemma outbox_witness :
  let n := (run sample_cfg sample_events (fresh_node ∅)).2 in
  (w_state <$> n_outbox n !! "1"%string) = Some (as_str ConfirmedOnL1) ∧
  (∃ call, (data_file "1", call) ∈ n_sent n ∧ cc_new_root call = 5) ∧
  transmissions (data_file "2") n = 1%nat ∧
  (transmissions (data_file "2")
    (run sample_cfg (sample_events ++ Restart false :: (Step <$> [])) (fresh_node ∅)).2 ≤
   transmissions (data_file "2") n + 1)%nat.
Proof.
  cbn zeta.
  destruct (outbox_accounts_for_broadcasts sample_cfg sample_events ∅ false []) as (Hs & _ & Hc).
  - apply (bool_decide_unpack _). vm_compute. exact I.
  - apply (bool_decide_unpack _). vm_compute. exact I.
  - split; [vm_compute; reflexivity|]. split; [|split; [vm_compute; reflexivity|apply (Hc (data_file "2"))]].
    assert (Er : (n_outbox (run sample_cfg sample_events (fresh_node ∅)).2 !! "1"%string)
      ≫= root_of_row = Some 5) by (vm_compute; reflexivity).
    assert (Ew : (w_state <$> n_outbox (run sample_cfg sample_events (fresh_node ∅)).2 !! "1"%string)
      = Some (as_str ConfirmedOnL1)) by (vm_compute; reflexivity).
    apply bind_Some in Er as (w & E & Er). rewrite E in Ew. injection Ew as Ew.
    destruct (Hs eq_refl "1"%string w E) as (call & Hin & Hr).
    + unfold settled. rewrite Ew. apply elem_of_cons. right. left.
    + exists call. split; [exact Hin|]. congruence.
Defined.

(** Batch 3 was sent at 1000 wei and is never confirmed; the second start finds
    the price of the first bump. *)
Definition stuck_node : Node :=
  mkNode {["3"%string := mkRow (as_str SubmittedToL1) (Some (h256_text 7)) (Some 4) 0 None None
                           (Some "1000") 0]} ∅ [] [].

Definition stuck_env (now price : Z) : StepEnv :=
  mkStepEnv now false false (mkSubmitEnv true true NotSent)
    (Some (mkChainTx (Some price) 4 None None)) (Some 8) None sample_uuid.

Lemma gas_bumps_witness :
  Forall (λ x, ∃ p, x = (data_file "3", Some p) ∧ 1000 ≤ p ≤ 3 * 1000)
    (n_bumped (run sample_cfg (starts [stuck_env 400000 1000; stuck_env 800000 1200])
                 (Polling, stuck_node)).2).
Proof.
  refine (proj1 (proj1 (gas_bumps_end sample_cfg "3" _ 1000 stuck_node
    [stuck_env 400000 1000; stuck_env 800000 1200] eq_refl eq_refl _ _ _) _)).
  - split_and!; [reflexivity|by eexists|done|vm_compute; reflexivity].
  - vm_compute. discriminate.
  - split_and!; [apply (bool_decide_unpack _); vm_compute; exact I|by eexists|by exists 8|done|].
    split_and!; [apply (bool_decide_unpack _); vm_compute; exact I| |by exists 8|done|done].
    eexists. split_and!; [done|done|]. vm_compute. reflexivity.
  - lia.
Defined.

End DaemonSamples.
