(* ===== verification/SubmitterBridge.v ===== *)
(** * The submitter and the bridge

    The daemon of [SubmitterDaemon] run against the contract of [Bridge]: what
    happens on the chain to the calls it broadcasts, and what the outbox then
    says. *)

From stdpp Require Import base gmap list strings pretty.
From Stdlib Require Import ZArith Lia Ascii Strings.Byte.
From S2P Require Import Prelude Js Rust SequencerTypes RollupContracts Bridge BridgeProofs ExecutorService SubmitterSaga SubmitterDa SubmitterDaemon.

(** A transaction carrying the call. *)
Definition commit `{Evm} (c : ctx) (call : CommitCall) : Tx unit :=
  commitBatch c (cc_da_id call) (cc_verifier_id call) (cc_batch_data call) (cc_da_meta call)
    (cc_new_root call) (cc_proof call).

(** The receipt of a transaction included in the state [s]. *)
Definition mined_in `{Evm} (c : ctx) (s : bridge) (call : CommitCall) (tx_hash : Z) : L1Reply :=
  Mined tx_hash (match commit c call s with inr _ => true | inl _ => false end).

Lemma commit_admissible `{Evm} c call s s' ev :
  commit c call s = inr (tt, s', ev) →
  ∃ cm m, admissible c (cc_da_id call) (cc_verifier_id call) (cc_batch_data call) (cc_da_meta call)
            (cc_proof call) (cc_new_root call) cm m s.
Proof. intros E%commitBatch_refines. inversion E; subst; eauto. Qed.

Lemma BlobDA_without_blobs cm meta : validateDA (BlobDA (λ _, 0)) cm meta = Some tt → False.
Proof.
  cbn. unfold BlobDA_validateDA. destruct (decode_blob_meta meta) as [[h i]|]; [|done]. cbn.
  destruct (h =? 0); [done|]. by destruct (negb (cm =? h)).
Qed.

Section submission.
Context `{HashingLaws} `{Flate} `{SerdeJson} `{BatchSerdeLaws} `{RowOrderLaws} {evm : Evm} (cfg : Config).
Hypothesis keccak_agrees : ∀ b, keccak256_word b = be_val (keccak256 b).

(** The call the polling loop broadcasts for a batch. *)
Definition polled_call (f : FetchedBatch) : CommitCall :=
  call_of (cfg_da cfg) (fb_batch_data f) (fb_post_state_root f)
    (format_proof_for_verifier (fb_proof f) (verifier_id cfg)) (verifier_id cfg).

Lemma polled_call_args f :
  cc_da_id (polled_call f) = da_id (cfg_da cfg) ∧ cc_verifier_id (polled_call f) = verifier_id cfg ∧
  cc_new_root (polled_call f) = fb_post_state_root f.
Proof. unfold polled_call. by destruct (cfg_da cfg). Qed.

(** A turn of the polling loop in which nothing fails before the chain. *)
Record turn_ok (e : StepEnv) (f : FetchedBatch) (n : Node) : Prop := {
  to_fetched : se_fetched e = Some f;
  to_new : n_outbox n !! fb_batch_id f = None;
  to_root : 0 ≤ fb_post_state_root f < 2 ^ 256;
  to_fails : se_fails e = false;
  to_services : archiver_ok (se_submit e) = true ∧ store_ok (se_submit e) = true;
  to_mode : verification_mode cfg = OnChain;
  to_strategy :
    match cfg_da cfg with
    | BlobStrategy h i _ =>
        0 ≤ h < 2 ^ 256 ∧ 0 ≤ i < 256 ∧ ∃ p, compress (E := DaError) (fb_batch_data f) = Ok p
    | _ => True
    end;
}.

(** The effects of one turn: the batch is inserted, written, submitted, marked
    and confirmed, and its file removed. *)
Definition turn (e : StepEnv) : list event := replicate 7 (Step e).

Lemma polled_submittable e f n :
  turn_ok e f n →
  submittable (cfg_da cfg) (se_submit e)
    (<[data_file (fb_batch_id f) := fb_batch_data f]> (n_data n)) (new_batch f (se_uuid e))
    (fb_batch_data f) (fb_post_state_root f).
Proof. intros []. split; try done. cbn. by rewrite lookup_insert_eq. Qed.

Lemma turn_run e f n h status :
  turn_ok e f n → l1_reply (se_submit e) = Mined h status →
  ∃ n' w, run cfg (turn e) (Polling, n) = (Polling, n') ∧
    n_sent n' = n_sent n ++ [(data_file (fb_batch_id f), polled_call f)] ∧
    n_outbox n' !! fb_batch_id f = Some w ∧ w_state w = as_str ConfirmedOnL1 ∧
    w_tx_hash w = Some (h256_text h) ∧ n_data n' !! data_file (fb_batch_id f) = None.
Proof.
  intros Ht Hl. pose proof (polled_submittable e f n Ht) as Hs. destruct Ht as [Hf Hn Hr Hd Hv Hm _].
  destruct (prepare_call _ _ _ (format_proof_for_verifier (fb_proof f) (verifier_id cfg))
    (verifier_id cfg) _ _ _ Hs) as (files' & E & _).
  unfold turn, run. cbn [replicate foldl react].
  unfold step at 7. cbn [fst snd]. unfold poll. rewrite Hf, Hd. unfold get_record, insert_or_ignore.
  rewrite Hn, bool_decide_eq_false_2, andb_false_r by (intros [? ?]; done).
  unfold step at 6. cbn [fst snd]. rewrite Hd.
  unfold step at 5. cbn [fst snd]. unfold try_update at 1. rewrite Hd.
  unfold step at 4. cbn [fst snd]. unfold submit_polled. rewrite Hm. unfold do_submit, submit.
  cbn [n_data set_data set_outbox]. rewrite E, Hl. cbn [receipt].
  unfold step at 3. cbn [fst snd]. unfold try_update at 1. rewrite Hd.
  unfold step at 2. cbn [fst snd]. unfold try_update at 1. rewrite Hd.
  unfold step at 1. cbn [fst snd]. rewrite Hd.
  eexists _, _. split; [done|]. cbn [set_data set_outbox n_sent n_outbox n_data].
  split; [done|]. unfold update_state, update_submission. rewrite !lookup_alter_eq, lookup_insert_eq.
  cbn [fmap option_fmap option_map]. split; [done|]. by rewrite lookup_delete_eq.
Qed.

(** A bridge in validity mode that is ready for the batch: the submitter may
    commit, the strategy's provider and the verifier are registered, and the
    verifier accepts. *)
Record bridge_ready (c : ctx) (s : bridge) (mocks : option (gmap Z Z)) (f : FetchedBatch) (cm : Z) : Prop := {
  br_value : msg_value c = 0;
  br_live : isFrozen s = false;
  br_sequencer : sequencer s = 0 ∨ msg_sender c = sequencer s;
  br_censorship : deadline_missed c s = false;
  br_provider : (daProviders s)@[da_id (cfg_da cfg)] ≠ 0;
  br_enabled : (daEnabled s)?[da_id (cfg_da cfg)] = true;
  br_code : provider_at c ((daProviders s)@[da_id (cfg_da cfg)]) = provider_for (cfg_da cfg) mocks;
  br_verifier : (verifiers s)@[verifier_id cfg] ≠ 0;
  br_root : fb_post_state_root f ≠ 0;
  br_id : nextBatchId s + 1 ≤ uint256_max;
  br_validity : optimisticMode s = false;
  br_proof : proof_accepted c (verifier_id cfg) (cc_proof (polled_call f)) (fb_post_state_root f) cm s;
}.

(** C8: A polled batch is submitted, and commits where its data can be checked.  The
    batch is one the outbox does not know, polled in on-chain verification mode in
    a turn where the services answer, and its transaction is included while the
    bridge, in validity mode, is ready for it.  The daemon broadcasts exactly one
    call, marks the row confirmed and removes the file.  With the calldata and the
    off-chain strategy the bridge's state root becomes the batch's, under the
    commitment the strategy computes.  With the blob strategy this is so only
    where the provider is [TestBlobDA] with the expected hash written into it:
    the transaction carries no blob, and any other provider makes it revert. *)
Theorem polled_batch_commits c s mocks f e n h cm :
  turn_ok e f n → l1_reply (se_submit e) = mined_in c s (polled_call f) h →
  compute_commitment (cfg_da cfg)
    (<[data_file (fb_batch_id f) := fb_batch_data f]> (n_data n)) (new_batch f (se_uuid e)) = Ok cm →
  bridge_ready c s mocks f cm →
  ∃ n' w,
    run cfg (turn e) (Polling, n) = (Polling, n') ∧
    n_sent n' = n_sent n ++ [(data_file (fb_batch_id f), polled_call f)] ∧
    n_outbox n' !! fb_batch_id f = Some w ∧ w_state w = as_str ConfirmedOnL1 ∧
    n_data n' !! data_file (fb_batch_id f) = None ∧
    if blob_known (cfg_da cfg) mocks
    then ∃ s' ev, commit c (polled_call f) s = inr (tt, s', ev) ∧
           latestStateRoot s' = fb_post_state_root f ∧ batchCommitment s' !! nextBatchId s = Some cm
    else ∃ err, commit c (polled_call f) s = inl err.
Proof.
  intros Ht Hl Hcm Hb. destruct (turn_run e f n h _ Ht Hl) as (n' & w & E & Es & Ew & Est & _ & Ed).
  exists n', w. split_and!; [done..|].
  pose proof (polled_submittable e f n Ht) as Hs.
  destruct (call_commitment keccak_agrees _ _ _ _ _ _ (format_proof_for_verifier (fb_proof f) (verifier_id cfg))
    (verifier_id cfg) mocks Hs) as (cm' & Ecm & Ecc & Ev).
  rewrite Hcm in Ecm. injection Ecm as <-. fold (polled_call f) in Ecc, Ev.
  destruct (polled_call_args f) as (Ei & Evi & Er). destruct Hb.
  destruct (blob_known (cfg_da cfg) mocks) eqn:Ek.
  - exists (with_batch cm (fb_post_state_root f) (set_latestStateRoot (fb_post_state_root f) s)),
      (batch_events c (verifier_id cfg) (cc_da_meta (polled_call f)) (fb_post_state_root f) cm
         (da_id (cfg_da cfg)) s). split; [|split].
    + unfold commit. rewrite Ei, Evi, Er. apply commitBatch_refines, E_commit_validity; [done| |done].
      split; rewrite ?br_code0; try done.
      * by apply Ev.
      * intros Hv. unfold polled_call. destruct (cfg_da cfg); rewrite Hv; apply format_proof_length.
      * destruct (cfg_da cfg); [done| |done]. by destruct mocks.
    + done.
    + cbn. by rewrite lookup_insert_eq.
  - destruct (commit c (polled_call f) s) as [err|[[[] s'] ev]] eqn:Ec; [by eexists|exfalso].
    apply commit_admissible in Ec as (cm' & m & Ha). destruct Ha. rewrite Ei, br_code0 in *.
    assert (cm' = cm) as -> by congruence. by apply Ev in adm_valid.
Qed.

(** A reverted commit is recorded as confirmed.  When the transaction of a polled
    batch is included and reverts, the bridge keeps its state, but the row is
    marked confirmed and the data file removed, so that nothing submits the batch
    again. *)
Theorem reverted_batch_confirmed c s f e n h err :
  turn_ok e f n → l1_reply (se_submit e) = mined_in c s (polled_call f) h →
  commit c (polled_call f) s = inl err →
  ∃ n' w, run cfg (turn e) (Polling, n) = (Polling, n') ∧
    l1_reply (se_submit e) = Mined h false ∧
    n_outbox n' !! fb_batch_id f = Some w ∧ w_state w = as_str ConfirmedOnL1 ∧
    n_data n' !! data_file (fb_batch_id f) = None ∧
    Forall (λ r, rec_batch_id r ≠ fb_batch_id f) (get_unconfirmed_batches (n_outbox n')).
Proof.
  intros Ht Hl Hc. destruct (turn_run e f n h _ Ht Hl) as (n' & w & E & _ & Ew & Est & _ & Ed).
  exists n', w. split_and!; [done| |done..|].
  - rewrite Hl. unfold mined_in. by rewrite Hc.
  - apply Forall_forall. intros r (id & w' & Hw' & Hu & ->)%elem_of_unconfirmed E'. cbn in E'. subst id.
    assert (w' = w) as -> by congruence. apply (unconfirmed_iff _ _ Est) in Hu. naive_solver.
Qed.

(** The bridge refuses every call of the blob strategy where the provider is
    [BlobDA]: the transaction sent is not a blob transaction, so that [blobhash] is
    zero at every index. *)
Theorem blob_call_rejected c s f h i archiver :
  cfg_da cfg = BlobStrategy h i archiver →
  provider_at c ((daProviders s)@[1]) = BlobDA (λ _, 0) →
  ∃ err, commit c (polled_call f) s = inl err.
Proof.
  intros Hd Hp. destruct (commit c (polled_call f) s) as [err|[[[] s'] ev]] eqn:E; [by eexists|].
  exfalso. apply commit_admissible in E as (cm & m & Ha).
  pose proof (adm_valid _ _ _ _ _ _ _ _ _ _ Ha) as Hx.
  assert (Ei : cc_da_id (polled_call f) = 1) by (unfold polled_call; by rewrite Hd).
  rewrite Ei, Hp in Hx. by apply BlobDA_without_blobs in Hx.
Qed.

End submission.

(** ** Recovery *)

Section recovery.
Context `{HashingLaws} `{Flate} `{SerdeJson} `{BatchSerdeLaws} `{RowOrderLaws} (cfg : Config).

(** A restart and the six steps that resume one batch. *)
Definition recovery (e : StepEnv) : list event := Restart false :: replicate 6 (Step e).

Lemma recovery_run e p n id w b proof call h status :
  get_unconfirmed_batches (n_outbox n) = [record_of id w] → w_state w = as_str Compressed →
  w_batch_data w = Some (batch_to_json b) → w_proof_hex w = Some proof →
  n_outbox n !! sb_id b = None →
  prepare (cfg_da cfg) (se_submit e) b proof 0 (n_data n) = (n_data n, Ok call) →
  l1_reply (se_submit e) = Mined h status →
  run cfg (recovery e) (p, n) =
    (Polling, mkNode (n_outbox n) (n_data n) (n_sent n ++ [(sb_data_file b, call)]) (n_bumped n)).
Proof.
  intros Hu Hst Hb Hp Hid Hc Hl. unfold run, recovery. cbn [replicate foldl react snd].
  unfold restart. rewrite Hu.
  unfold step at 6. cbn [fst snd]. unfold scan_row, queue_batch. cbn [rec_state record_of].
  rewrite Hst, from_str_as_str.
  change (default ReceivedFromExecutor (Some Compressed)) with Compressed.
  cbn [record_of rec_batch_data rec_proof_hex].
  rewrite Hb, Hp. cbn [mbind option_bind]. rewrite batch_json_roundtrip. cbn [mbind option_bind option_list app].
  unfold step at 5. cbn [fst snd].
  unfold step at 4. cbn [fst snd]. unfold resume_batch, do_submit, submit. change (option_list (Some (b, proof))) with [(b, proof)]. cbn beta iota. rewrite Hc, Hl. cbn [receipt].
  set (n1 := mkNode _ _ _ _).
  assert (Hw : ∀ f id' st, sets_state id' st f → id' = sb_id b → try_update e f n1 = n1).
  { intros f id' st (g & E & _) ->. unfold try_update. destruct (se_fails e); [done|].
    rewrite E. replace (alter g (sb_id b) (n_outbox n1)) with (n_outbox n1); [done|].
    apply map_eq. intros j. destruct (decide (j = sb_id b)) as [->|Hne].
    - rewrite lookup_alter_eq. cbn. by rewrite Hid.
    - by rewrite lookup_alter_ne. }
  unfold step at 3. cbn [fst snd]. erewrite Hw; [|apply update_submission_sets|done].
  unfold step at 2. cbn [fst snd]. erewrite Hw; [|apply update_state_sets|done].
  reflexivity.
Qed.

(** C33: A recovered batch is submitted again at every start.  The recovery reports
    under the UUID of the batch, which is not a key of the outbox: after any
    number of restarts, each with a transaction mined, the row is unchanged and
    the same call has been broadcast every time. *)
Theorem recovered_batch_resent k e p n id w b proof call h status :
  get_unconfirmed_batches (n_outbox n) = [record_of id w] → w_state w = as_str Compressed →
  w_batch_data w = Some (batch_to_json b) → w_proof_hex w = Some proof →
  n_outbox n !! sb_id b = None →
  prepare (cfg_da cfg) (se_submit e) b proof 0 (n_data n) = (n_data n, Ok call) →
  l1_reply (se_submit e) = Mined h status →
  (run cfg (concat (replicate k (recovery e))) (p, n)).2 =
    mkNode (n_outbox n) (n_data n) (n_sent n ++ replicate k (sb_data_file b, call)) (n_bumped n).
Proof.
  intros Hu Hst Hb Hp Hid Hc Hl. revert p n Hu Hid Hc.
  induction k as [|k IH]; intros p n Hu Hid Hc; [cbn; rewrite app_nil_r; by destruct n|].
  change (concat (replicate (S k) (recovery e))) with (recovery e ++ concat (replicate k (recovery e))).
  rewrite run_app, (recovery_run e p n id w b proof call h status) by done.
  rewrite IH by done. cbn [n_outbox n_data n_sent n_bumped]. by rewrite <- app_assoc.
Qed.

(** The recovery submits the proof as it was received, for verifier 0, while the
    polling loop brings it to the length the bridge requires: the call recovered
    for a proof of another length is refused in every state of the bridge. *)
Theorem recovered_call_rejected {evm : Evm} e f uuid files files' call c s :
  prepare (cfg_da cfg) e (new_batch f uuid) (hex_text (fb_proof f)) 0 files = (files', Ok call) →
  length (fb_proof f) ≠ 256%nat → ∃ err, commit c call s = inl err.
Proof.
  intros Hp Hl. apply prepare_args in Hp as [Hv Hpr].
  rewrite hex_decode_text in Hpr. injection Hpr as Hpr.
  destruct (commit c call s) as [err|[[[] s'] ev]] eqn:E; [by eexists|].
  exfalso. apply commit_admissible in E as (cm & m & Ha). apply Hl. rewrite Hpr.
  by apply (adm_length _ _ _ _ _ _ _ _ _ _ Ha).
Qed.

End recovery.

Module SubmissionSamples.
Import DaemonSamples.
#[local] Existing Instance model_hashing.
#[local] Existing Instance model_hashing_laws.

#[local] Instance model_evm : Evm := {|
  keccak256_word := λ b, be_val (model_hash b);
  MerkleProof_verify := λ _ _ _, true;
  ecAdd := λ _, None; ecMul := λ _, None; ecPairing := λ _, None;
|}.

Lemma model_keccak_agrees b : keccak256_word b = be_val (keccak256 b).
Proof. reflexivity. Qed.

(** A mock verifier at 3, the calldata provider at 4. *)
Definition sample_ctx : ctx :=
  mkCtx 7 0 1 0 7 (λ a, if a =? 4 then CalldataDA else no_provider)
    (λ a, if a =? 3 then MockVerifier new_MockVerifier else no_verifier) (λ _ _ _, true).

Definition sample_bridge : bridge :=
  match setDAProvider sample_ctx 0 4 true (new_ZKRollupBridge 3 1 10) with
  | inr (_, s, _) => s
  | inl _ => new_ZKRollupBridge 3 1 10
  end.

Definition polling_node : Node := mkNode ∅ ∅ [] [].

Definition polling_env : StepEnv :=
  sample_env (Some (sample_fetched "1" 5))
    (mined_in sample_ctx sample_bridge (polled_call sample_cfg (sample_fetched "1" 5)) 77).

(** The off-chain provider at 4, under identifier 2, and a configuration for it. *)
Definition offchain_cfg : Config := mkConfig OffChainStrategy None.

Definition offchain_ctx : ctx :=
  mkCtx 7 0 1 0 7 (λ a, if a =? 4 then OffChainDA else no_provider)
    (λ a, if a =? 3 then MockVerifier new_MockVerifier else no_verifier) (λ _ _ _, true).

Definition offchain_bridge : bridge :=
  match setDAProvider offchain_ctx 2 4 true (new_ZKRollupBridge 3 1 10) with
  | inr (_, s, _) => s
  | inl _ => new_ZKRollupBridge 3 1 10
  end.

Definition offchain_env : StepEnv :=
  sample_env (Some (sample_fetched "1" 5))
    (mined_in offchain_ctx offchain_bridge (polled_call offchain_cfg (sample_fetched "1" 5)) 77).

(** The blob provider without a blob at 4, under identifier 1. *)
Definition blob_cfg : Config := mkConfig (BlobStrategy 9 0 false) None.

Definition blob_ctx : ctx :=
  mkCtx 7 0 1 0 7 (λ a, if a =? 4 then BlobDA no_blobs else no_provider)
    (λ a, if a =? 3 then MockVerifier new_MockVerifier else no_verifier) (λ _ _ _, true).

Definition blob_bridge : bridge :=
  match setDAProvider blob_ctx 1 4 true (new_ZKRollupBridge 3 1 10) with
  | inr (_, s, _) => s
  | inl _ => new_ZKRollupBridge 3 1 10
  end.

Definition blob_env : StepEnv :=
  sample_env (Some (sample_fetched "1" 5))
    (mined_in blob_ctx blob_bridge (polled_call blob_cfg (sample_fetched "1" 5)) 77).

Lemma polled_batch_witness :
  (∃ s' ev, commit sample_ctx (polled_call sample_cfg (sample_fetched "1" 5)) sample_bridge = inr (tt, s', ev) ∧
    latestStateRoot s' = 5) ∧
  (∃ s' ev, commit offchain_ctx (polled_call offchain_cfg (sample_fetched "1" 5)) offchain_bridge =
    inr (tt, s', ev) ∧ latestStateRoot s' = 5) ∧
  (∃ err, commit blob_ctx (polled_call blob_cfg (sample_fetched "1" 5)) blob_bridge = inl err).
Proof.
  split; [|split].
  - destruct (polled_batch_commits sample_cfg model_keccak_agrees sample_ctx sample_bridge None
      (sample_fetched "1" 5) polling_env polling_node 77 (be_val (model_hash [x61])))
      as (n' & w & _ & _ & _ & _ & _ & s' & ev & Ec & Er & _).
    + split; try done; try (split; vm_compute; done || discriminate).
    + reflexivity.
    + vm_compute. reflexivity.
    + split; try (vm_compute; done || discriminate). left. reflexivity.
    + exists s', ev. split; [exact Ec|exact Er].
  - destruct (polled_batch_commits offchain_cfg model_keccak_agrees offchain_ctx offchain_bridge None
      (sample_fetched "1" 5) offchain_env polling_node 77 (be_val (model_hash [x61])))
      as (n' & w & _ & _ & _ & _ & _ & s' & ev & Ec & Er & _).
    + split; try done; try (split; vm_compute; done || discriminate).
    + reflexivity.
    + vm_compute. reflexivity.
    + split; try (vm_compute; done || discriminate). left. reflexivity.
    + exists s', ev. split; [exact Ec|exact Er].
  - destruct (polled_batch_commits blob_cfg model_keccak_agrees blob_ctx blob_bridge None
      (sample_fetched "1" 5) blob_env polling_node 77 9) as (n' & w & _ & _ & _ & _ & _ & err & Ec).
    + split; try done; try (split; vm_compute; done || discriminate).
      split_and!; try (vm_compute; done || discriminate). by eexists.
    + reflexivity.
    + vm_compute. reflexivity.
    + split; try (vm_compute; done || discriminate). left. reflexivity.
    + exists err. exact Ec.
Defined.

Definition stopped_batch : SubmitterBatch := new_batch (sample_fetched "2" 6) sample_uuid.

Definition stopped_row : Row :=
  mkRow (as_str Compressed) None None 10 (Some (batch_to_json stopped_batch))
    (Some (hex_text [x01; x02])) None 0.

(** The process stopped before it submitted batch 2. *)
Definition stopped_node : Node :=
  mkNode {["2"%string := stopped_row]} {[data_file "2" := [x61]]} [] [].

Lemma recovered_batch_witness :
  n_sent (run sample_cfg (concat (replicate 3 (recovery (sample_env None (Mined 78 true)))))
    (Dead, stopped_node)).2 =
    replicate 3 (data_file "2", mkCall 0 0 [x61] [] 6 [x01; x02]).
Proof.
  rewrite (recovered_batch_resent sample_cfg 3 (sample_env None (Mined 78 true)) Dead stopped_node
    "2" stopped_row stopped_batch (hex_text [x01; x02]) (mkCall 0 0 [x61] [] 6 [x01; x02]) 78 true).
  - reflexivity.
  - vm_compute. reflexivity.
  - reflexivity.
  - reflexivity.
  - reflexivity.
  - vm_compute. reflexivity.
  - vm_compute. reflexivity.
  - reflexivity.
Defined.

End SubmissionSamples.
