(* ===== verification/ProverHttp.v ===== *)
(** * Submitter: the client of a remote prover
      ([submitter/src/infrastructure/prover_http.rs])

    [HttpProofProvider] guards requests to a prover with a circuit breaker whose
    three fields have a lock each.  [get_proof] is a request that runs alone;
    [task_step] is one lock acquisition of it, and [step] lets several requests
    run one acquisition at a time.  The lock of [last_failure] is never held
    while another is awaited, so taking it is part of the step that does.  The
    answer of [retry] of the crate backoff is an input; times are milliseconds. *)

From stdpp Require Import base list strings relations.
From Stdlib Require Import ZArith Lia.
From S2P Require Import Prelude Rust.

Inductive CircuitState := Closed | Open | HalfOpen.

#[export] Instance CircuitState_eq_dec : EqDecision CircuitState.
Proof. solve_decision. Defined.

Record ProofResponse := mkProof {
  proof : string;
  proof_generation_ms : option Z;
  witness_size : option Z;
}.

(** The fields of [HttpProofProvider] that change. *)
Record Breaker := mkBreaker {
  circuit_state : CircuitState;
  failure_count : Z;
  last_failure : Z;
}.

Definition new_breaker (now : Z) : Breaker := mkBreaker Closed 0 now.

Section provider.
Variable failure_threshold : Z.

(** [check_circuit]: whether the request may be sent. *)
Definition check_circuit (now : Z) (b : Breaker) : bool * Breaker :=
  match circuit_state b with
  | Closed | HalfOpen => (true, b)
  | Open =>
      if 30000 <? now - last_failure b
      then (true, mkBreaker HalfOpen (failure_count b) (last_failure b))
      else (false, b)
  end.

Definition record_success (b : Breaker) : Breaker :=
  if bool_decide (circuit_state b = Closed) then b else mkBreaker Closed 0 (last_failure b).

(** The increment of the [u32] and the time of the failure, under the lock of
    the counter. *)
Definition count_failure (now : Z) (b : Breaker) : Breaker :=
  mkBreaker (circuit_state b) ((failure_count b + 1) mod 2 ^ 32) now.

Definition trip (b : Breaker) : Breaker := mkBreaker Open (failure_count b) (last_failure b).

Definition record_failure (now : Z) (b : Breaker) : Breaker :=
  let b := count_failure now b in
  if failure_threshold <=? failure_count b then trip b else b.

(** A request made at [started] whose retries end at [ended] with [reply]. *)
Record Call := mkCall {
  started : Z;
  ended : Z;
  reply : result string ProofResponse;
}.

Definition timed (c : Call) (p : ProofResponse) : ProofResponse :=
  mkProof (proof p) (Some (default (ended c - started c) (proof_generation_ms p))) (witness_size p).

Definition get_proof (c : Call) (b : Breaker) : result string ProofResponse * Breaker :=
  match check_circuit (started c) b with
  | (false, b) => (Err "Circuit Breaker is OPEN", b)
  | (true, b) =>
      match reply c with
      | Ok p => (Ok (timed c p), record_success b)
      | Err e => (Err e, record_failure (ended c) b)
      | Panicked => (Panicked, b)
      end
  end.

Fixpoint get_proofs (cs : list Call) (b : Breaker) : list (result string ProofResponse) * Breaker :=
  match cs with
  | [] => ([], b)
  | c :: cs =>
      let '(r, b) := get_proof c b in
      let '(rs, b) := get_proofs cs b in (r :: rs, b)
  end.

(** ** Interleaved requests *)

(** Where a request is: before its check, waiting for the prover, before the
    lock of [record_success] or of [record_failure], holding [circuit_state]
    and waiting for [failure_count], the other way round, or answered. *)
Inductive pc :=
| Entering
| Requesting
| Succeeded
| Resetting
| FailedCall
| Tripping
| Answered (ok : bool).

#[export] Instance pc_eq_dec : EqDecision pc.
Proof. solve_decision. Defined.

Record System := mkSystem {
  tasks : list pc;
  breaker : Breaker;
  clock : Z;
}.

Definition state_locked (ts : list pc) : bool := bool_decide (Resetting ∈ ts).
Definition count_locked (ts : list pc) : bool := bool_decide (Tripping ∈ ts).

(** The next step of a request, [None] while it waits for a lock; [prover_ok]
    is the answer of the prover. *)
Definition task_step (ts : list pc) (p : pc) (prover_ok : bool) (now : Z) (b : Breaker)
    : option (pc * Breaker) :=
  match p with
  | Entering =>
      if state_locked ts then None
      else let '(sent, b) := check_circuit now b in
           Some (if sent then Requesting else Answered false, b)
  | Requesting => Some (if prover_ok then Succeeded else FailedCall, b)
  | Succeeded =>
      if state_locked ts then None
      else if bool_decide (circuit_state b = Closed) then Some (Answered true, b)
      else Some (Resetting, mkBreaker Closed (failure_count b) (last_failure b))
  | Resetting =>
      if count_locked ts then None
      else Some (Answered true, mkBreaker (circuit_state b) 0 (last_failure b))
  | FailedCall =>
      if count_locked ts then None
      else let b := count_failure now b in
           Some (if failure_threshold <=? failure_count b then Tripping else Answered false, b)
  | Tripping => if state_locked ts then None else Some (Answered false, trip b)
  | Answered _ => None
  end.

Inductive step : System → System → Prop :=
| step_task ts i p p' prover_ok now b b' c :
    ts !! i = Some p → c ≤ now → task_step ts p prover_ok now b = Some (p', b') →
    step (mkSystem ts b c) (mkSystem (<[i := p']> ts) b' now).

Definition start (n : nat) : System := mkSystem (replicate n Entering) (new_breaker 0) 0.

End provider.

(** ** One request at a time *)

Section sequential.
Variable failure_threshold : Z.
Hypothesis threshold_pos : 1 ≤ failure_threshold.

(** The specification: the failures since the last recovery and the time of the
    last one.  A request is refused exactly when the failures have reached the
    threshold and the last one is at most thirty seconds old. *)
Record Counter := mkCounter { failures : Z; since : Z }.

Definition refused (c : Call) (k : Counter) : bool :=
  (failure_threshold <=? failures k) && (started c - since k <=? 30000).

Definition counter_call (c : Call) (k : Counter) : result string ProofResponse * Counter :=
  if refused c k then (Err "Circuit Breaker is OPEN", k)
  else match reply c with
       | Ok p => (Ok (timed c p),
                  mkCounter (if failure_threshold <=? failures k then 0 else failures k) (since k))
       | Err e => (Err e, mkCounter (failures k + 1) (ended c))
       | Panicked => (Panicked, k)
       end.

Fixpoint counter_calls (cs : list Call) (k : Counter) : list (result string ProofResponse) * Counter :=
  match cs with
  | [] => ([], k)
  | c :: cs =>
      let '(r, k) := counter_call c k in
      let '(rs, k) := counter_calls cs k in (r :: rs, k)
  end.

(** The state of the circuit is determined by the counter. *)
Definition tracks (b : Breaker) (k : Counter) : Prop :=
  failure_count b = failures k ∧ last_failure b = since k ∧ 0 ≤ failures k ∧
  circuit_state b = if failure_threshold <=? failures k then Open else Closed.

Lemma get_proof_tracks c b k :
  tracks b k → failures k + 1 < 2 ^ 32 → reply c ≠ Panicked →
  (get_proof failure_threshold c b).1 = (counter_call c k).1 ∧
  tracks (get_proof failure_threshold c b).2 (counter_call c k).2.
Proof using threshold_pos.
  intros (Hc & Hl & Hk & Hs) Hb Hr.
  destruct b as [s n l], k as [f t]. cbn in Hc, Hl, Hk, Hs, Hb. subst n l s.
  unfold get_proof, counter_call, refused, check_circuit, record_success, record_failure,
    count_failure, trip, tracks.
  destruct (reply c) as [p|e|] eqn:E; [..|done]; cbn [failures since];
    destruct (Z.leb_spec failure_threshold f); cbn [andb circuit_state failure_count last_failure].
  all: try destruct (Z.leb_spec (started c - t) 30000), (Z.ltb_spec 30000 (started c - t)); try lia.
  all: cbn -[Z.pow Z.modulo]; rewrite ?bool_decide_eq_false_2 by done.
  all: rewrite ?(Z.mod_small (f + 1)) by lia; repeat case_match; cbn -[Z.pow Z.modulo].
  all: split_and!; try done; try lia; case_match; try done; lia.
Qed.

Lemma counter_call_grows c k : (failures (counter_call c k).2 ≤ Z.max 0 (failures k) + 1).
Proof. unfold counter_call. repeat case_match; cbn; lia. Qed.

Lemma get_proofs_track cs b k :
  tracks b k → failures k + Z.of_nat (length cs) < 2 ^ 32 → Forall (λ c, reply c ≠ Panicked) cs →
  (get_proofs failure_threshold cs b).1 = (counter_calls cs k).1 ∧
  tracks (get_proofs failure_threshold cs b).2 (counter_calls cs k).2.
Proof using threshold_pos.
  intros Ht Hl Hp. revert b k Ht Hl. induction Hp as [|c cs Hc _ IH]; intros b k Ht Hl; [done|].
  cbn [get_proofs counter_calls length] in *.
  destruct (get_proof_tracks c b k Ht ltac:(lia) Hc) as [E1 E2].
  pose proof (counter_call_grows c k) as Hg. destruct Ht as (_ & _ & Hk & _).
  destruct (get_proof failure_threshold c b) as [r b'], (counter_call c k) as [r' k'].
  cbn in E1, E2, Hg. subst r'.
  destruct (IH b' k' E2) as [E3 E4]; [lia|].
  destruct (get_proofs failure_threshold cs b'), (counter_calls cs k'). cbn in *. split; congruence.
Qed.

End sequential.

(** C35: Requests made one at a time implement the counter: they are answered as the
    specification answers them, and the circuit is open exactly while the
    failures since the last recovery have reached the threshold.  Successes in
    between do not count: only a success after the circuit opened clears them. *)
Theorem breaker_refines_counter failure_threshold cs now :
  1 ≤ failure_threshold → Z.of_nat (length cs) < 2 ^ 32 → Forall (λ c, reply c ≠ Panicked) cs →
  let '(rs, b) := get_proofs failure_threshold cs (new_breaker now) in
  let '(rs', k) := counter_calls failure_threshold cs (mkCounter 0 now) in
  rs = rs' ∧ failure_count b = failures k ∧ circuit_state b ≠ HalfOpen ∧
  (circuit_state b = Open ↔ failure_threshold ≤ failures k).
Proof.
  intros Ht Hl Hp.
  destruct (get_proofs_track failure_threshold Ht cs (new_breaker now) (mkCounter 0 now))
    as [E (Hc & _ & _ & Hs)]; [|cbn; lia|done|].
  { repeat split; cbn; [lia|]. destruct (Z.leb_spec failure_threshold 0); [lia|done]. }
  destruct (get_proofs _ _ _) as [rs b], (counter_calls _ _ _) as [rs' k]. cbn in *.
  rewrite Hs. destruct (Z.leb_spec failure_threshold (failures k)); naive_solver lia.
Qed.

(** ** Deadlock *)

(** Two requests hold one lock each and wait for the other's. *)
Definition deadlocked (ts : list pc) : Prop := Resetting ∈ ts ∧ Tripping ∈ ts.

Section deadlock.
Variable failure_threshold : Z.

Notation step := (step failure_threshold).
Notation task_step := (task_step failure_threshold).

(** The requests that hold or need one of the two locks. *)
Definition needs_lock (p : pc) : bool :=
  match p with Entering | Succeeded | Resetting | FailedCall | Tripping => true | _ => false end.

Lemma deadlocked_blocks ts p prover_ok now b :
  deadlocked ts → needs_lock p = true → task_step ts p prover_ok now b = None.
Proof.
  intros [Hr Ht] Hp. unfold ProverHttp.task_step, state_locked, count_locked.
  rewrite !bool_decide_eq_true_2 by done. by destruct p.
Qed.

(** Once there, every such request stays where it is. *)
Lemma deadlock_persists sys sys' i p :
  rtc step sys sys' → deadlocked (tasks sys) → tasks sys !! i = Some p → needs_lock p = true →
  tasks sys' !! i = Some p ∧ deadlocked (tasks sys').
Proof.
  intros Hr. revert i p. induction Hr as [|x y z Hs _ IH]; intros i p Hd Hi Hp; [done|].
  assert (Hkeep : ∀ j q, tasks x !! j = Some q → needs_lock q = true → tasks y !! j = Some q).
  { intros j q Hj Hq. destruct Hs as [ts k q0 q1 ok now b b' c Hk _ E]; cbn in *.
    destruct (decide (k = j)) as [->|Hne]; [|by rewrite list_lookup_insert_ne].
    simplify_eq. by rewrite deadlocked_blocks in E. }
  apply IH; [|by apply Hkeep|done].
  destruct Hd as [[a Ha]%list_elem_of_lookup [c Hc]%list_elem_of_lookup].
  split; eapply list_elem_of_lookup_2, Hkeep; done.
Qed.

(** *** Reaching it *)

(** Requests that hold no lock. *)
Definition unlocked (ts : list pc) : Prop := Resetting ∉ ts ∧ Tripping ∉ ts.

Lemma unlocked_replicate n p : needs_lock p = false ∨ p = Entering → unlocked (replicate n p).
Proof. intros Hp. split; intros [Hx _]%elem_of_replicate; subst p; by destruct Hp. Qed.

Lemma step_between l1 l2 p p' prover_ok now b b' c :
  c ≤ now → task_step (l1 ++ p :: l2) p prover_ok now b = Some (p', b') →
  rtc step (mkSystem (l1 ++ p :: l2) b c) (mkSystem (l1 ++ p' :: l2) b' now).
Proof.
  intros Hc E.
  replace (l1 ++ p' :: l2) with (<[length l1 := p']> (l1 ++ p :: l2))
    by (by rewrite insert_app_r_alt, Nat.sub_diag by done).
  apply rtc_once. econstructor; [by apply list_lookup_middle|done|exact E].
Qed.

(** A step of the request between two groups that hold no lock. *)
Lemma step_mid l1 l2 p p' prover_ok now b b' c :
  unlocked l1 → unlocked l2 → c ≤ now → task_step [p] p prover_ok now b = Some (p', b') →
  rtc step (mkSystem (l1 ++ p :: l2) b c) (mkSystem (l1 ++ p' :: l2) b' now).
Proof.
  intros [Hr1 Ht1] [Hr2 Ht2] Hc E. apply step_between with prover_ok; [done|].
  rewrite <- E. unfold ProverHttp.task_step, state_locked, count_locked.
  assert (HR : bool_decide (Resetting ∈ l1 ++ p :: l2) = bool_decide (Resetting ∈ [p]))
    by (apply bool_decide_ext; rewrite elem_of_app, !elem_of_cons, elem_of_nil; naive_solver).
  assert (HT : bool_decide (Tripping ∈ l1 ++ p :: l2) = bool_decide (Tripping ∈ [p]))
    by (apply bool_decide_ext; rewrite elem_of_app, !elem_of_cons, elem_of_nil; naive_solver).
  by rewrite HR, HT.
Qed.

(** A request that is sent and fails without tripping the circuit. *)
Lemma failing_request l1 l2 n t c :
  unlocked l1 → unlocked l2 → 0 ≤ n → n + 1 < failure_threshold → n + 1 < 2 ^ 32 →
  rtc step (mkSystem (l1 ++ Entering :: l2) (mkBreaker Closed n t) c)
           (mkSystem (l1 ++ Answered false :: l2) (mkBreaker Closed (n + 1) c) c).
Proof.
  intros H1 H2 Hn Ht Hb.
  etrans; [apply step_mid with (p' := Requesting) (prover_ok := false) (now := c); done|].
  etrans; [apply step_mid with (p' := FailedCall) (prover_ok := false) (now := c); done|].
  apply step_mid with (prover_ok := false); [done..|].
  unfold ProverHttp.task_step, count_failure. cbn -[Z.pow Z.modulo Z.leb].
  rewrite Z.mod_small by lia. by destruct (Z.leb_spec failure_threshold (n + 1)); [lia|].
Qed.

(** One that trips it. *)
Lemma tripping_request l1 l2 n t c :
  unlocked l1 → unlocked l2 → 0 ≤ n → failure_threshold ≤ n + 1 → n + 1 < 2 ^ 32 →
  rtc step (mkSystem (l1 ++ Entering :: l2) (mkBreaker Closed n t) c)
           (mkSystem (l1 ++ Answered false :: l2) (mkBreaker Open (n + 1) c) c).
Proof.
  intros H1 H2 Hn Ht Hb.
  etrans; [apply step_mid with (p' := Requesting) (prover_ok := false) (now := c); done|].
  etrans; [apply step_mid with (p' := FailedCall) (prover_ok := false) (now := c); done|].
  etrans; [apply step_mid with (p' := Tripping) (prover_ok := false) (now := c); [done..|]|].
  { unfold ProverHttp.task_step, count_failure. cbn -[Z.pow Z.modulo Z.leb].
    rewrite Z.mod_small by lia. by destruct (Z.leb_spec failure_threshold (n + 1)); [|lia]. }
  by apply step_mid with (prover_ok := false).
Qed.

Lemma failing_requests k rest :
  unlocked rest → Z.of_nat k < failure_threshold → Z.of_nat k < 2 ^ 32 →
  rtc step (mkSystem (replicate k Entering ++ rest) (mkBreaker Closed 0 0) 0)
           (mkSystem (replicate k (Answered false) ++ rest) (mkBreaker Closed (Z.of_nat k) 0) 0).
Proof.
  revert rest. induction k as [|k IH]; intros rest Hr Ht Hb; [done|].
  rewrite !replicate_S_end, <- !(assoc_L app). cbn [app]. etrans.
  - apply (IH (Entering :: rest)); [|lia..].
    destruct Hr. split; rewrite elem_of_cons; naive_solver.
  - rewrite Nat2Z.inj_succ. unfold Z.succ. apply failing_request; [|done|lia..].
    apply unlocked_replicate. by left.
Qed.

(** Two requests let through by the half-open circuit, of which one succeeds
    and the other fails. *)
Lemma half_open_deadlock l1 l2 n t c :
  unlocked l1 → unlocked l2 → 0 ≤ n → failure_threshold ≤ n + 1 → n + 1 < 2 ^ 32 → 30000 < c - t →
  ∃ b, rtc step (mkSystem (l1 ++ Entering :: Entering :: l2) (mkBreaker Open n t) t)
                (mkSystem (l1 ++ Resetting :: Tripping :: l2) b c).
Proof.
  intros H1 H2 Hn Ht Hb Hc. eexists.
  assert (Hc' : (30000 <? c - t) = true) by lia.
  assert (Hl : ∀ p, p ≠ Resetting → p ≠ Tripping → unlocked (l1 ++ [p]) ∧ unlocked (p :: l2)).
  { intros p ??. destruct H1, H2.
    split; split; rewrite ?elem_of_app, ?elem_of_cons, ?elem_of_nil; naive_solver. }
  etrans; [apply step_mid with (p' := Requesting) (prover_ok := true) (now := c); [done|by apply Hl|lia|]|].
  { unfold ProverHttp.task_step, check_circuit. cbn -[Z.ltb Z.sub]. by rewrite Hc'. }
  etrans; [apply step_mid with (p' := Succeeded) (prover_ok := true) (now := c); [done|by apply Hl|done..]|].
  etrans.
  { rewrite (cons_middle Succeeded l1), (assoc_L app).
    apply step_mid with (p' := Requesting) (prover_ok := true) (now := c); [by apply Hl|done..]. }
  etrans.
  { apply step_mid with (p' := FailedCall) (prover_ok := false) (now := c); [by apply Hl|done..]. }
  rewrite <- (assoc_L app), <- cons_middle. etrans.
  { apply step_mid with (p' := Resetting) (prover_ok := true) (now := c); [done|by apply Hl|done..]. }
  rewrite !(cons_middle Resetting l1), !(assoc_L app).
  apply step_between with (prover_ok := false); [done|].
  unfold ProverHttp.task_step, count_failure, count_locked. cbn -[Z.pow Z.modulo Z.leb app].
  rewrite bool_decide_eq_false_2.
  - rewrite (Z.mod_small (n + 1)) by lia. by destruct (Z.leb_spec failure_threshold (n + 1)); [|lia].
  - destruct H1, H2. rewrite !elem_of_app, !elem_of_cons, elem_of_nil. naive_solver.
Qed.

End deadlock.

(** C36: The breaker can deadlock, whatever the threshold: [record_success] takes the
    lock of the state and then that of the counter, [record_failure] the other
    way round.  After enough failures and the pause of thirty seconds, two
    requests that the half-open circuit lets through, one answered and one not,
    stop each other for good, and so does every request that comes after them. *)
Theorem breaker_can_deadlock failure_threshold later :
  1 ≤ failure_threshold < 2 ^ 32 - 1 →
  ∃ sys, rtc (step failure_threshold) (start (Z.to_nat failure_threshold + 2 + later)) sys ∧
    deadlocked (tasks sys) ∧
    (later ≤ length (filter (λ p, p = Entering) (tasks sys)))%nat ∧
    ∀ sys' i p, rtc (step failure_threshold) sys sys' → tasks sys !! i = Some p →
      needs_lock p = true → tasks sys' !! i = Some p.
Proof.
  intros Ht.
  set (k := Z.to_nat (failure_threshold - 1)).
  set (answered := replicate k (Answered false) ++ [Answered false]).
  assert (Ha : unlocked answered).
  { subst answered. rewrite <- replicate_S_end. apply unlocked_replicate. by left. }
  assert (Hr : ∀ m, unlocked (replicate m Entering)) by (intros; apply unlocked_replicate; by right).
  destruct (half_open_deadlock failure_threshold answered (replicate later Entering)
              failure_threshold 0 30001) as [b Hb]; [done|apply Hr|lia..|].
  exists (mkSystem (answered ++ Resetting :: Tripping :: replicate later Entering) b 30001).
  assert (Hd : deadlocked (answered ++ Resetting :: Tripping :: replicate later Entering)).
  { split; rewrite elem_of_app, !elem_of_cons; naive_solver. }
  split_and!; [|exact Hd| |].
  - etrans; [|exact Hb]. unfold start, new_breaker.
    replace (replicate (Z.to_nat failure_threshold + 2 + later) Entering)
      with (replicate k Entering ++ Entering :: Entering :: Entering :: replicate later Entering).
    2: { change (Entering :: Entering :: Entering :: ?l) with (replicate 3 Entering ++ l).
         rewrite <- !replicate_add. f_equal. subst k. lia. }
    etrans; [apply failing_requests; [apply (Hr (3 + later)%nat)|lia..]|].
    subst answered. rewrite <- (assoc_L app). cbn [app].
    replace (mkBreaker Open failure_threshold 0) with (mkBreaker Open (Z.of_nat k + 1) 0)
      by (f_equal; lia).
    apply tripping_request; [|apply (Hr (2 + later)%nat)|lia..]. apply unlocked_replicate. by left.
  - cbn [tasks]. rewrite filter_app, length_app, !filter_cons_False by done.
    enough (length (filter (λ p, p = Entering) (replicate later Entering)) = later) by lia.
    rewrite filter_all; [by rewrite length_replicate|]. by intros x [-> _]%elem_of_replicate.
  - intros sys' i p Hs Hi Hp. by destruct (deadlock_persists _ _ _ _ _ Hs Hd Hi Hp).
Qed.

Module BreakerSamples.

(** Two failures trip a threshold of two; a request within thirty seconds is
    refused, one after them closes the circuit. *)
Definition sample_calls : list Call :=
  let p := mkProof "00" None None in
  [ mkCall 0 10 (Err "Status: 500"); mkCall 20 30 (Ok p); mkCall 40 50 (Err "Status: 500");
    mkCall 60 70 (Ok p); mkCall 40000 40025 (Ok p) ].

Lemma breaker_refines_witness :
  (get_proofs 2 sample_calls (new_breaker 0)).1 =
    [ Err "Status: 500"; Ok (mkProof "00" (Some 10) None); Err "Status: 500";
      Err "Circuit Breaker is OPEN"; Ok (mkProof "00" (Some 25) None) ] ∧
  let '(rs, b) := get_proofs 2 sample_calls (new_breaker 0) in
  let '(rs', k) := counter_calls 2 sample_calls (mkCounter 0 0) in
  rs = rs' ∧ failure_count b = failures k ∧ circuit_state b ≠ HalfOpen ∧
  (circuit_state b = Open ↔ 2 ≤ failures k).
Proof.
  split; [vm_compute; reflexivity|].
  apply (breaker_refines_counter 2 sample_calls 0); [lia|vm_compute; reflexivity|].
  by repeat constructor.
Defined.

Lemma breaker_deadlock_witness :
  ∃ sys, rtc (step 5) (start 8) sys ∧ deadlocked (tasks sys) ∧
    (1 ≤ length (filter (λ p, p = Entering) (tasks sys)))%nat ∧
    ∀ sys' i p, rtc (step 5) sys sys' → tasks sys !! i = Some p →
      needs_lock p = true → tasks sys' !! i = Some p.
Proof. apply (breaker_can_deadlock 5 1). lia. Defined.

End BreakerSamples.
