(* ===== verification/UpgradeChecker.v ===== *)
(** * The consistency check of an upgrade
      ([l1-contracts/scripts/upgrade-consistency-checker.ts])

    The script compares a deployed ecosystem with the compiled contracts, the
    environment and constants of its own, and throws at the first difference.
    What it reads through hardhat and ethers beyond [Chain] and [EthersOps] is
    the class [Inspect].  [UpgradeProofs] says what a run that returns has
    established. *)

From stdpp Require Import base gmap list strings pretty sorting.
From Stdlib Require Import ZArith Lia.
From S2P Require Import Prelude Js Rust Ethers DiamondCut Diamond DiamondUpgrade Utils World.

(** ** Data of the chain type manager *)

(** A facet cut as the ABI decoder returns it: the action is a number. *)
Record UsedFacetCut := mkUsedCut {
  uc_facet : string;
  uc_selectors : list string;
  uc_action : Z;
  uc_isFreezable : bool;
}.

(** [ChainTypeManagerInitializeData] with its [ChainCreationParams] and diamond
    cut, without the fields the script does not read. *)
Record ChainTypeManagerInitializeData := mkInitData {
  ci_owner : string;
  ci_validatorTimelock : string;
  ci_genesisUpgrade : string;
  ci_genesisBatchHash : string;
  ci_genesisIndexRepeatedStorageChanges : Z;
  ci_genesisBatchCommitment : string;
  ci_protocolVersion : Z;
  ci_facetCuts : list UsedFacetCut;
  ci_initAddress : string;
  ci_initCalldata : string;
}.

(** What the script reads: artifacts, the ABI coder on artifacts, transactions
    by their hash ([None]: unknown to the node), and the collation of texts. *)
Class Inspect := {
  (** [(await readArtifact(name)).deployedBytecode] and [.bytecode] *)
  deployedBytecode : string → outcome string;
  bytecode : string → outcome string;
  (** [contract.interface.encodeDeploy(params)] *)
  encodeDeploy : string → list val → outcome string;
  (** [(await getTransaction(hash)).data] *)
  transaction_data : string → option string;
  (** the arguments [_initCode] and [_salt] of a call of SingletonFactory *)
  parse_factory_call : string → outcome (string * string);
  (** the argument [_initializeData] of a call of ChainTypeManager, [None] when
      the call is to a function without it *)
  parse_ctm_call : string → outcome (option ChainTypeManagerInitializeData);
  (** [defaultAbiCoder.decode(types, data)] *)
  abi_decode : list string → string → outcome (list val);
  (** [a.localeCompare(b)] *)
  localeCompare : string → string → Z;
}.

(** ** Constants of the script *)

Definition validatorTimelockDeployTx := "0xde4ef2b77241b605acaa1658ff8815df0911bf81555a80c9cbdde42fbcaaea30".
Definition mailboxFacetDeployTx := "0x995b23564b30f1551a9705313128e282591b38a1fc9c981d3251a929b190780d".
Definition ctmImplDeployTx := "0xe01c0bb497017a25c92bfc712e370e8f900554b107fe0b6022976d05c349f2b6".
Definition ctmDeployTx := "0x514bbf46d227eee8567825bf5c8ee1855aa8a1916f7fee7b191e2e3d5ecba849".
Definition sharedBridgeImplDeployTx := "0x074204db79298c2f6beccae881c2ad7321c331e97fb4bd93adce2eb23bf17a17".
Definition legacyBridgeImplDeployTx := "0x234da786f098fa2e44b9abaf41b7045b4a25570e1a34fd01a101d23570e84d61".
Definition expectedL1WethAddress := "0xC02aaA39b223FE8D0A0e5C4F27eAD9083C756Cc2".
Definition initialOwner := "0x71d84c3404a6ae258E6471d4934B96a2033F9438".
Definition expectedOwner := "0x71d84c3404a6ae258E6471d4934B96a2033F9438".
Definition expectedDelay := "75600".
Definition expectedSalt := "0x0000000000000000000000000000000000000000000000000000000000000001".
Definition expectedZKChainAddr := "0x32400084c286cf3e17e7b677ea9583e60a000324".
Definition maxNumberOfZKChains : Z := 100.
Definition expectedStoredBatchHashZero := "0x1574fa776dec8da2071e5f20d71840bfcbd82c2bca9ad68680edfedde1710bc4".
Definition expectedL2BridgeAddress := "0x11f943b2c77b743AB90f4A0Ae7d5A4e7FCA3E102".
Definition expectedL1LegacyBridge := "0x57891966931Eb4Bb6FB81430E6cE0A03AAbDe063".
Definition expectedGenesisBatchCommitment :=
  "0x2d00e5f8d77afcebf58a6b82ae56ba967566fe7dfbcb6760319fb0d215d18ffd".
Definition expectedIndexRepeatedStorageChanges : Z := 54.
Definition expectedProtocolVersion : Z := 2 ^ 32 * 24.
Definition expectedGenesisRoot := "0xabdb766b18a479a5c783a4b80e12686bc8ea3cc2d8a3050491b701d72370ebb5".

(** The hashes of the initialisation calldata, in its order, with the error of each. *)
Definition expected_hashes : list (string * string) :=
  [ ("0xf520cd5b37e74e19fdb369c8d676a04dce8a19457497ac6686d2bb95d94109c8",
     "Recursion node level vk hash is not correct");
    ("0xf9664f4324c1400fa5c3822d667f30e873f53f1b8033180cd15fe41c1e2355c6",
     "Recursion leaf level vk hash is not correct");
    ("0x0000000000000000000000000000000000000000000000000000000000000000",
     "Recursion circuits set vks hash is not correct");
    ("0x010008e7894d0dd14681c76bdb4d5e4e7f6b51bfe40c957d50eed3fec829fdb0",
     "L2 bootloader bytecode hash is not correct");
    ("0x0100058deb36e1f2eeb48bf3846d0e8eb38e9176754b73116bb41a472459a4dd",
     "L2 default account bytecode hash is not correct");
    ("0x01000f197081a9906cc411d0698c4961aeb5c74877f37f7071681da6e8ef3f31",
     "L2 EVM emulator bytecode hash is not correct") ].

Definition ProxyAdmin := "@openzeppelin/contracts-v4/proxy/transparent/ProxyAdmin.sol:ProxyAdmin".
Definition TransparentUpgradeableProxy :=
  "@openzeppelin/contracts-v4/proxy/transparent/TransparentUpgradeableProxy.sol:TransparentUpgradeableProxy".

(** The number of an action in the Solidity enumeration. *)
Definition action_number (a : Action) : Z := match a with Add => 0 | Replace => 1 | Remove => 2 end.

Section checker.
Context `{EthersOps} `{Chain} `{Interfaces} `{Inspect}.

(** A variable of the environment, read when the script is loaded. *)
Definition env_value (name : string) : M val :=
  o ← get_env name; mret (match o with Some s => VStr s | None => VUndef end).

(** [new ethers.Contract(address, ...)], which refuses an address that is not set. *)
Definition env_address (name : string) : M string := v ← env_value name; as_address v.

(** [v.toLowerCase()] *)
Definition lower_of (v : val) : M string :=
  match v with
  | VStr s => mret (toLowerCase s)
  | VUndef => throw read_error
  | _ => throw (JsTypeError "toLowerCase is not a function")
  end.

(** [if (used.toLowerCase() != expected.toLowerCase()) throw new Error(msg)] *)
Definition same_text (used expected : val) (msg : string) : M unit :=
  u ← lower_of used;
  e ← lower_of expected;
  if String.eqb u e then mret tt else throw (JsError msg).

(** [if (!condition) throw new Error(msg)] *)
Definition ensure (condition : bool) (msg : string) : M unit :=
  if condition then mret tt else throw (JsError msg).

Definition truthy (v : val) : bool :=
  match v with
  | VUndef => false
  | VBool b => b
  | VNum n => negb (n =? 0)
  | VStr s => negb (String.eqb s "")
  | VArr _ | VObj _ => true
  end.

(** A view of a contract compared with a text. *)
Definition view_is (address contract method : string) (args : list val) (expected : val)
    (msg : string) : M unit :=
  v ← view address contract method args;
  same_text v expected msg.

Definition view_holds (address contract method : string) (args : list val) (msg : string) : M unit :=
  v ← view address contract method args;
  ensure (truthy v) msg.

(** A call whose promise is not awaited: its answer is not looked at and need
    not come, but a rejection nobody handles ends the process with an error. *)
Definition view_unawaited (address contract method : string) (args : list val) : M unit := λ w,
  (match view_call (w_mined w) address contract method args with Throw e => Throw e | _ => Done tt end, w).

(** [ethers.utils.keccak256(code)] *)
Definition keccak256 (code : string) : outcome string :=
  b ← or_throw invalid_hex (arrayify code); mret (hexlify (keccak b)).

(** ** Bytecode and init code *)

Definition checkIdenticalBytecode (addr : val) (contract : string) : M unit :=
  correctCode ← lift (deployedBytecode contract);
  a ← as_address addr;
  currentCode ← getCode a;
  current ← lift (keccak256 currentCode);
  correct ← lift (keccak256 correctCode);
  if String.eqb current correct then console_log (contract +:+ " bytecode is correct")
  else throw (JsError (contract +:+ " bytecode is not correct")).

Definition extractInitCode (data : string) : M string :=
  lift (bytecode "SingletonFactory");;
  call ← lift (parse_factory_call data);
  if String.eqb call.2 expectedSalt then mret call.1
  else throw (JsError ("Salt is not correct " +:+ call.2)).

(** [(await l1Provider.getTransaction(txHash)).data] *)
Definition getTransaction_data (txHash : string) : M string :=
  lift (or_throw read_error (transaction_data txHash)).

Definition checkCorrectInitCode (txHash contract : string) (code : string) (params : list val) : M unit :=
  data ← getTransaction_data txHash;
  usedInitCode ← extractInitCode data;
  correctConstructorData ← lift (encodeDeploy contract params);
  correctInitCode ← lift (hexConcat [code; correctConstructorData]);
  if String.eqb (toLowerCase usedInitCode) (toLowerCase correctInitCode) then mret tt
  else throw (JsError "Init code is not correct").

(** ** The facet cuts of a new chain *)

Definition by_locale {A} (key : A → string) (a b : A) : bool := localeCompare (key a) (key b) <=? 0.

(** One turn of the loop that compares the sorted cuts. *)
Definition compare_cut (i : nat) (used : UsedFacetCut) (expected : FacetCut) : M unit :=
  let wrong what := "Facet " +:+ pretty i +:+ what in
  ensure (String.eqb (uc_facet used) (facet expected)) (wrong " is not correct");;
  usedSelectors ← lift (hexConcat (sort_by String.leb (uc_selectors used)));
  expectedSelectors ← lift (hexConcat (sort_by String.leb (selectors expected)));
  ensure (String.eqb usedSelectors expectedSelectors) (wrong " selectors are not correct");;
  ensure (uc_action used =? action_number (action expected)) (wrong " action is not correct");;
  ensure (Bool.eqb (uc_isFreezable used) (isFreezable expected)) (wrong " isFreezable is not correct").

Fixpoint compare_cuts (i : nat) (used : list UsedFacetCut) (expected : list FacetCut) : M unit :=
  match used, expected with
  | u :: used, e :: expected => compare_cut i u e;; compare_cuts (S i) used expected
  | _, _ => mret tt
  end.

Definition check_facetCuts (usedFacetCuts : list UsedFacetCut) : M unit :=
  ad ← get_env "CONTRACTS_ADMIN_FACET_ADDR";
  ge ← get_env "CONTRACTS_GETTERS_FACET_ADDR";
  ma ← get_env "CONTRACTS_MAILBOX_FACET_ADDR";
  ex ← get_env "CONTRACTS_EXECUTOR_FACET_ADDR";
  cuts ← lift (getCurrentFacetCutsForAdd ad ge ma ex);
  let expected := sort_by (by_locale facet) (cuts.*2) in
  let used := sort_by (by_locale uc_facet) usedFacetCuts in
  ensure (length expected =? length used)%nat "Facet cuts length is not correct";;
  compare_cuts 0 used expected.

(** The values unpacked from the initialisation calldata: the verifier and the hashes. *)
Fixpoint check_hashes (used : list val) (expected : list (string * string)) : M unit :=
  match expected with
  | [] => mret tt
  | (e, msg) :: expected =>
      same_text (default VUndef (head used)) (VStr e) msg;;
      check_hashes (tail used) expected
  end.

Definition init_calldata_types : list string :=
  ["address"; "bytes32"; "bytes32"; "bytes32"; "bytes32"; "bytes32"; "bytes32"; "uint256"; "uint256";
   "uint256"; "uint256"; "uint256"; "uint256"; "uint256"].

Definition check_initCalldata (initCalldata : string) : M unit :=
  vs ← lift (abi_decode init_calldata_types initCalldata);
  verifier ← env_value "CONTRACTS_VERIFIER_ADDR";
  same_text (default VUndef (head vs)) verifier "Verifier is not correct";;
  check_hashes (tail vs) expected_hashes.

Definition check_initializeData (d : ChainTypeManagerInitializeData) : M unit :=
  validatorTimelock ← env_value "CONTRACTS_VALIDATOR_TIMELOCK_ADDR";
  genesisUpgrade ← env_value "CONTRACTS_GENESIS_UPGRADE_ADDR";
  diamondInit ← env_value "CONTRACTS_DIAMOND_INIT_ADDR";
  same_text (VStr (ci_owner d)) (VStr initialOwner) "Initial owner is not correct";;
  same_text (VStr (ci_validatorTimelock d)) validatorTimelock "Validator timelock is not correct";;
  same_text (VStr (ci_genesisUpgrade d)) genesisUpgrade "Genesis upgrade is not correct";;
  same_text (VStr (ci_genesisBatchHash d)) (VStr expectedGenesisRoot) "Genesis batch hash is not correct";;
  ensure (ci_genesisIndexRepeatedStorageChanges d =? expectedIndexRepeatedStorageChanges)
    "Genesis index repeated storage changes is not correct";;
  same_text (VStr (ci_genesisBatchCommitment d)) (VStr expectedGenesisBatchCommitment)
    "Genesis batch commitment is not correct";;
  ensure (ci_protocolVersion d =? expectedProtocolVersion) 
    ("Protocol version is not correct " +:+ pretty (ci_protocolVersion d));;
  same_text (VStr (ci_initAddress d)) diamondInit "Diamond init address is not correct";;
  check_facetCuts (ci_facetCuts d);;
  check_initCalldata (ci_initCalldata d);;
  console_log "CTM init data correct!".

(** The constructor data follow the bytecode of the proxy in the init code; the
    third constructor argument is the call that initialises the manager. *)
Definition extractProxyInitializationData (data : string) : M unit :=
  initCode ← extractInitCode data;
  proxy ← lift (bytecode TransparentUpgradeableProxy);
  let constructorData := "0x" +:+ js_slice (String.length proxy) initCode in
  vs ← lift (abi_decode ["address"; "address"; "bytes"] constructorData);
  initializeCode ← as_address (default VUndef (vs !! 2%nat));
  parsed ← lift (parse_ctm_call initializeCode);
  d ← lift (or_throw read_error parsed);
  check_initializeData d.

(** ** The contracts *)

Definition checkValidatorTimelock : M unit :=
  code ← lift (bytecode "ValidatorTimelock");
  contract ← env_address "CONTRACTS_VALIDATOR_TIMELOCK_ADDR";
  ctm ← env_value "CONTRACTS_STATE_TRANSITION_PROXY_ADDR";
  eraChainId ← env_value "CONTRACTS_ERA_CHAIN_ID";
  validatorOne ← env_value "ETH_SENDER_SENDER_OPERATOR_COMMIT_ETH_ADDR";
  validatorTwo ← env_value "ETH_SENDER_SENDER_OPERATOR_BLOBS_ETH_ADDR";
  let c := "ValidatorTimelock" in
  view_is contract c "owner" [] (VStr expectedOwner) "ValidatorTimelock owner is not correct";;
  view_is contract c "chainTypeManager" [] ctm "ValidatorTimelock chainTypeManager is not correct";;
  view_holds contract c "validators" [eraChainId; validatorOne]
    "ValidatorTimelock validatorOne is not correct";;
  view_holds contract c "validators" [eraChainId; validatorTwo]
    "ValidatorTimelock validatorTwo is not correct";;
  checkCorrectInitCode validatorTimelockDeployTx c code
    [VStr initialOwner; VStr expectedDelay; eraChainId];;
  console_log "ValidatorTimelock is correct!".

(** The promise of [assetIdIsRegistered] is not awaited, and a promise is
    truthy: only a call that fails is noticed. *)
Definition checkBridgehub : M unit :=
  lift (bytecode "Bridgehub");;
  contract ← env_address "CONTRACTS_BRIDGEHUB_PROXY_ADDR";
  eraChainId ← env_value "CONTRACTS_ERA_CHAIN_ID";
  sharedBridgeProxy ← env_value "CONTRACTS_L1_SHARED_BRIDGE_PROXY_ADDR";
  ctm ← env_value "CONTRACTS_STATE_TRANSITION_PROXY_ADDR";
  l1ChainId ← get_env "CONTRACTS_L1_CHAIN_ID";
  let c := "Bridgehub" in
  view_is contract c "owner" [] (VStr expectedOwner) "Bridgehub owner is not correct";;
  view_is contract c "baseToken" [eraChainId] (VStr ETH_ADDRESS_IN_CONTRACTS)
    "Bridgehub baseToken is not correct";;
  view_is contract c "getZKChain" [eraChainId] (VStr expectedZKChainAddr)
    "Bridgehub zkChain is not correct";;
  view_is contract c "sharedBridge" [] sharedBridgeProxy "Bridgehub sharedBridge is not correct";;
  usedCTM ← view contract c "chainTypeManager" [eraChainId];
  same_text usedCTM ctm "Bridgehub chainTypeManager is not correct";;
  view_holds contract c "chainTypeManagerIsRegistered" [usedCTM]
    "Bridgehub chainTypeManager is not registered";;
  l1 ← lift (or_throw invalid_hex (js_parseInt l1ChainId));
  token ← lift (or_throw invalid_hex (hexZeroPad ETH_ADDRESS_IN_CONTRACTS 32));
  baseTokenAssetId ← lift (encodeNTVAssetId l1 token);
  view_unawaited contract c "assetIdIsRegistered" [VStr baseTokenAssetId];;
  console_log "Bridgehub is correct!".

Definition checkMailbox : M unit :=
  code ← lift (bytecode "MailboxFacet");
  env_address "CONTRACTS_MAILBOX_FACET_ADDR";;
  eraChainId ← env_value "CONTRACTS_ERA_CHAIN_ID";
  checkCorrectInitCode mailboxFacetDeployTx "MailboxFacet" code [eraChainId];;
  console_log "Mailbox is correct!".

Definition checkCTMImpl : M unit :=
  code ← lift (bytecode "ChainTypeManager");
  env_address "CONTRACTS_STATE_TRANSITION_IMPL_ADDR";;
  bridgeHub ← env_value "CONTRACTS_BRIDGEHUB_PROXY_ADDR";
  checkCorrectInitCode ctmImplDeployTx "ChainTypeManager" code [bridgeHub; VNum maxNumberOfZKChains];;
  console_log "CTM impl correct!".

(** [v.toNumber()], which throws beyond the integers a number holds. *)
Definition toNumber (v : val) : M Z :=
  match v with
  | VNum n => if n <? 2 ^ 53 then mret n else throw (EthersError "NUMERIC_FAULT")
  | _ => throw read_error
  end.

Definition checkCTM : M unit :=
  lift (bytecode "ChainTypeManager");;
  contract ← env_address "CONTRACTS_STATE_TRANSITION_PROXY_ADDR";
  bridgeHub ← env_value "CONTRACTS_BRIDGEHUB_PROXY_ADDR";
  genesisUpgrade ← env_value "CONTRACTS_GENESIS_UPGRADE_ADDR";
  let c := "ChainTypeManager" in
  view_is contract c "BRIDGE_HUB" [] bridgeHub "CTM bridgeHub is not correct";;
  v ← view contract c "MAX_NUMBER_OF_ZK_CHAINS" [];
  n ← toNumber v;
  ensure (n =? maxNumberOfZKChains) "CTM maxNumberOfZKChains is not correct";;
  view_is contract c "genesisUpgrade" [] genesisUpgrade "CTM genesisUpgrade is not correct";;
  view_is contract c "storedBatchZero" [] (VStr expectedStoredBatchHashZero)
    "CTM storedBatchHashZero is not correct";;
  view_is contract c "owner" [] (VStr expectedOwner) "CTM owner is not correct";;
  console_log "CTM is correct!";;
  data ← getTransaction_data ctmDeployTx;
  extractProxyInitializationData data.

Definition checkL1AssetRouterImpl : M unit :=
  code ← lift (bytecode "L1AssetRouter");
  env_address "CONTRACTS_L1_SHARED_BRIDGE_IMPL_ADDR";;
  bridgeHub ← env_value "CONTRACTS_BRIDGEHUB_PROXY_ADDR";
  eraChainId ← env_value "CONTRACTS_ERA_CHAIN_ID";
  checkCorrectInitCode sharedBridgeImplDeployTx "L1AssetRouter" code
    [VStr expectedL1WethAddress; bridgeHub; eraChainId; VStr expectedZKChainAddr];;
  console_log "L1 shared bridge impl correct!".

Definition checkSharedBridge : M unit :=
  lift (bytecode "L1AssetRouter");;
  contract ← env_address "CONTRACTS_L1_SHARED_BRIDGE_PROXY_ADDR";
  eraChainId ← env_value "CONTRACTS_ERA_CHAIN_ID";
  let c := "L1AssetRouter" in
  view_is contract c "l2BridgeAddress" [eraChainId] (VStr expectedL2BridgeAddress)
    "Shared bridge l2BridgeAddress is not correct";;
  view_is contract c "legacyBridge" [] (VStr expectedL1LegacyBridge)
    "Shared bridge legacyBridge is not correct";;
  view_is contract c "owner" [] (VStr expectedOwner) "Shared bridge owner is not correct";;
  console_log "L1 shared bridge correct!".

Definition checkLegacyBridge : M unit :=
  code ← lift (bytecode "L1ERC20Bridge");
  env_address "CONTRACTS_L1_ERC20_BRIDGE_IMPL_ADDR";;
  sharedBridgeProxy ← env_value "CONTRACTS_L1_SHARED_BRIDGE_PROXY_ADDR";
  checkCorrectInitCode legacyBridgeImplDeployTx "L1ERC20Bridge" code [sharedBridgeProxy];;
  console_log "L1 legacy bridge impl correct!".

Definition checkProxyAdmin : M unit :=
  proxyAdmin ← env_value "CONTRACTS_TRANSPARENT_PROXY_ADMIN_ADDR";
  checkIdenticalBytecode proxyAdmin ProxyAdmin;;
  lift (bytecode ProxyAdmin);;
  contract ← as_address proxyAdmin;
  v ← view contract ProxyAdmin "owner" [];
  same_text v (VStr expectedOwner)
    ("ProxyAdmin owner is not correct " +:+ match v with VStr s => s | _ => "" end +:+ ", " +:+ expectedOwner);;
  console_log "ProxyAdmin is correct!".

(** The artifact of the verifier depends on the chain. *)
Definition verifier_artifact (eraChainId : val) : string :=
  match eraChainId with
  | VStr s => if String.eqb s "324" then "Verifier" else "TestnetVerifier"
  | _ => "TestnetVerifier"
  end.

(** The variables and artifacts whose bytecodes are compared first. *)
Definition identical_bytecodes (eraChainId : val) : list (string * string) :=
  [ ("CONTRACTS_GENESIS_UPGRADE_ADDR", "GenesisUpgrade"); ("CONTRACTS_ZK_CHAIN_UPGRADE_ADDR", "UpgradeZKChains");
    ("CONTRACTS_EXECUTOR_FACET_ADDR", "ExecutorFacet"); ("CONTRACTS_GETTERS_FACET_ADDR", "GettersFacet");
    ("CONTRACTS_ADMIN_FACET_ADDR", "AdminFacet"); ("CONTRACTS_BRIDGEHUB_IMPL_ADDR", "Bridgehub");
    ("CONTRACTS_VERIFIER_ADDR", verifier_artifact eraChainId); ("CONTRACTS_DIAMOND_INIT_ADDR", "DiamondInit") ].

(** The action of the script. *)
Definition upgrade_consistency_checker : M unit :=
  from_env web3Url;;
  eraChainId ← env_value "CONTRACTS_ERA_CHAIN_ID";
  for_each (identical_bytecodes eraChainId)
    (λ '(name, contract), addr ← env_value name; checkIdenticalBytecode addr contract);;
  checkMailbox;;
  checkProxyAdmin;;
  checkValidatorTimelock;;
  checkBridgehub;;
  checkL1AssetRouterImpl;;
  checkSharedBridge;;
  checkLegacyBridge;;
  checkCTMImpl;;
  checkCTM.

End checker.
