(* ===== verification/UpgradeProofs.v ===== *)
(** * What the consistency check of an upgrade establishes

    The script of [UpgradeChecker] returns exactly when the deployment satisfies
    [consistent], a table of bytecodes, creation codes, views and the
    initialisation data of the chain type manager; and the facet cuts of that
    data, applied to a new diamond, install the four facets. *)

From stdpp Require Import base gmap list strings sorting.
From Stdlib Require Import ZArith Lia Ascii.
From S2P Require Import Prelude Js Rust Ethers DiamondCut Diamond DiamondUpgrade Utils World UpgradeChecker.

(** ** The order of texts *)

Lemma string_leb_trans s1 s2 s3 :
  String.leb s1 s2 = true → String.leb s2 s3 = true → String.leb s1 s3 = true.
Proof.
  unfold String.leb. revert s2 s3.
  induction s1 as [|a s1 IH]; intros [|b s2] [|c s3]; cbn; try done.
  unfold Ascii.compare.
  destruct (N.compare_spec (N_of_ascii a) (N_of_ascii b)) as [E|E|E];
    destruct (N.compare_spec (N_of_ascii b) (N_of_ascii c)) as [E'|E'|E'];
    destruct (N.compare_spec (N_of_ascii a) (N_of_ascii c)) as [E''|E''|E'']; try done; try lia.
  apply IH.
Qed.

Lemma sort_texts_perm (l l' : list string) :
  sort_by String.leb l = sort_by String.leb l' ↔ l ≡ₚ l'.
Proof.
  split; intros E.
  - by rewrite <- (sort_by_perm String.leb l), E, sort_by_perm.
  - apply sort_by_unique; [apply String.leb_total|exact string_leb_trans|done|].
    intros x y _ _. apply String.leb_antisym.
Qed.

(** ** Computations that only read *)

Section reads.
Context (e : environ) (h : list tx).

(** In this environment and on this chain [m] returns exactly the values of
    [P], and leaves both. *)
Definition reads {A} (m : M A) (P : A → Prop) : Prop :=
  ∀ w, w_env w = e → w_mined w = h →
    (∀ a w', m w = (Done a, w') → P a ∧ w_env w' = e ∧ w_mined w' = h) ∧
    (∀ a, P a → ∃ w', m w = (Done a, w')).

(** A check returns no value. *)
Definition accepts (m : M unit) (P : Prop) : Prop := reads m (λ _, P).

Lemma reads_iff {A} (m : M A) P Q : reads m P → (∀ a, P a ↔ Q a) → reads m Q.
Proof.
  intros Hm HPQ w He Hh. destruct (Hm w He Hh) as [H1 H2]. split.
  - intros a w' E. rewrite <- HPQ. by apply H1.
  - intros a Ha. apply H2. by rewrite HPQ.
Qed.

Lemma accepts_iff m P Q : accepts m P → (P ↔ Q) → accepts m Q.
Proof. intros Hm HPQ. by apply (reads_iff _ _ _ Hm). Qed.

Lemma reads_bind {A B} (m : M A) (k : A → M B) P Q :
  reads m P → (∀ a, reads (k a) (Q a)) → reads (m ≫= k) (λ b, ∃ a, P a ∧ Q a b).
Proof.
  intros Hm Hk w He Hh. destruct (Hm w He Hh) as [Hm1 Hm2]. split.
  - intros b w' (a & w1 & E1 & E2)%bind_done_inv. destruct (Hm1 a w1 E1) as (HP & He1 & Hh1).
    destruct (Hk a w1 He1 Hh1) as [Hk1 _]. destruct (Hk1 b w' E2). eauto.
  - intros b (a & HP & HQ). destruct (Hm2 a HP) as [w1 E1]. destruct (Hm1 a w1 E1) as (_ & He1 & Hh1).
    destruct (Hk a w1 He1 Hh1) as [_ Hk2]. destruct (Hk2 b HQ) as [w' E2].
    exists w'. by rewrite (run_bind_done _ _ _ _ _ E1).
Qed.

Lemma accepts_bind {A} (m : M A) (k : A → M unit) P Q :
  reads m P → (∀ a, accepts (k a) (Q a)) → accepts (m ≫= k) (∃ a, P a ∧ Q a).
Proof. intros Hm Hk. exact (reads_bind m k P (λ a _, Q a) Hm Hk). Qed.

(** A value that is always there is the value of its continuation. *)
Lemma accepts_bind_det {A} (m : M A) (k : A → M unit) a Q :
  reads m (λ b, b = a) → accepts (k a) Q → accepts (m ≫= k) Q.
Proof.
  intros Hm Hk w He Hh. destruct (Hm w He Hh) as [Hm1 Hm2].
  destruct (Hm2 a eq_refl) as [w1 E1]. destruct (Hm1 a w1 E1) as (_ & He1 & Hh1).
  rewrite (run_bind_done _ _ _ _ _ E1). exact (Hk w1 He1 Hh1).
Qed.

Lemma accepts_seq (m k : M unit) P Q :
  accepts m P → accepts k Q → accepts (m;; k) (P ∧ Q).
Proof.
  intros Hm Hk. eapply accepts_iff; [apply (accepts_bind m (λ _, k) _ (λ _, Q) Hm (λ _, Hk))|].
  split; [by intros (_ & ? & ?)|by intros [??]; exists tt].
Qed.

Lemma accepts_ret : accepts (mret tt) True.
Proof. intros w He Hh. split; [by intros b w' [= <- <-]|intros [] _; by eexists]. Qed.
Lemma accepts_log s : accepts (console_log s) True.
Proof. intros w He Hh. split; [by intros b w' [= <- <-]|intros [] _; by eexists]. Qed.

(** Logging at the end does not matter. *)
Lemma accepts_logged (m : M unit) s P : accepts m P → accepts (m;; console_log s) P.
Proof. intros Hm. eapply accepts_iff; [exact (accepts_seq _ _ _ _ Hm (accepts_log s))|tauto]. Qed.

Lemma reads_lift {A} (o : outcome A) : reads (lift o) (λ a, o = Done a).
Proof. intros w He Hh. unfold lift. split; [by intros b w' [= -> <-]|intros b ->; by eexists]. Qed.
Lemma reads_get_env n : reads (get_env n) (λ a, a = e !! n).
Proof.
  intros w <- Hh. unfold get_env. split; [by intros b w' [= <- <-]|intros b ->; by eexists].
Qed.
Lemma reads_from_env {A} (f : environ → outcome A) : reads (from_env f) (λ a, f e = Done a).
Proof.
  intros w <- Hh. unfold from_env. split; [by intros b w' [= -> <-]|intros b ->; by eexists].
Qed.
Lemma reads_view `{Chain} a c m args : reads (view a c m args) (λ v, view_call h a c m args = Done v).
Proof.
  intros w He <-. unfold view. split; [by intros b w' [= -> <-]|intros b ->; by eexists].
Qed.
Lemma reads_getCode `{Chain} a : reads (getCode a) (λ c, c = code_at h a).
Proof.
  intros w He <-. unfold getCode. split; [by intros b w' [= <- <-]|intros b ->; by eexists].
Qed.
Lemma reads_as_address v : reads (as_address v) (λ a, v = VStr a).
Proof.
  intros w He Hh. destruct v; cbn; (split; [by intros x w' [=]; subst|intros x [=]; subst; by eexists]).
Qed.

Lemma accepts_lift {A} (o : outcome A) (k : A → M unit) Q :
  (∀ a, accepts (k a) (Q a)) → accepts (lift o ≫= k) (∃ a, o = Done a ∧ Q a).
Proof. apply accepts_bind, reads_lift. Qed.

(** The continuation may use that the value is there. *)
Lemma accepts_lift_eq {A} (o : outcome A) (k : A → M unit) Q :
  (∀ a, o = Done a → accepts (k a) (Q a)) → accepts (lift o ≫= k) (∃ a, o = Done a ∧ Q a).
Proof.
  intros Hk w He Hh. unfold mbind, M_bind, lift. destruct o as [a|x|].
  - destruct (Hk a eq_refl w He Hh) as [H1 H2]. split; [|naive_solver].
    intros b w' E. destruct (H1 b w' E). eauto.
  - split; [done|]. by intros b (a & ? & _).
  - split; [done|]. by intros b (a & ? & _).
Qed.

Lemma accepts_if (b : bool) (m m' : M unit) P Q :
  accepts m P → accepts m' Q → accepts (if b then m else m') (if b then P else Q).
Proof. by destruct b. Qed.
Lemma accepts_throw x : accepts (throw x) False.
Proof. intros w He Hh. by split. Qed.

Lemma accepts_throw_bind {A} x (k : A → M unit) : accepts (throw x ≫= k) False.
Proof. intros w He Hh. by split. Qed.

Lemma accepts_ensure b msg : accepts (ensure b msg) (b = true).
Proof.
  destruct b; [eapply accepts_iff; [apply accepts_ret|done]|].
  eapply accepts_iff; [apply accepts_throw|done].
Qed.

Lemma accepts_for_each {A} (l : list A) (f : A → M unit) P :
  (∀ x, accepts (f x) (P x)) → accepts (for_each l f) (Forall P l).
Proof.
  intros Hf. induction l as [|x l IH]; cbn.
  - eapply accepts_iff; [apply accepts_ret|]. by rewrite Forall_nil.
  - eapply accepts_iff; [exact (accepts_seq _ _ _ _ (Hf x) IH)|]. by rewrite Forall_cons.
Qed.

End reads.

(** ** What is compared *)

(** Texts equal up to the case of their letters; only texts are. *)
Definition same (u v : val) : Prop :=
  ∃ s t, u = VStr s ∧ v = VStr t ∧ toLowerCase s = toLowerCase t.

(** An environment variable as a value. *)
Definition env_val (e : environ) (name : string) : val :=
  match e !! name with Some s => VStr s | None => VUndef end.

Section spec.
Context `{EthersOps} `{Chain} `{Interfaces} `{Inspect} (e : environ) (h : list tx).

(** The code at an address has the hash of the compiled code of a contract. *)
Definition same_code (a contract : string) : Prop :=
  ∃ code deployed compiled, deployedBytecode contract = Done code ∧
    arrayify (code_at h a) = Some deployed ∧ arrayify code = Some compiled ∧
    hexlify (keccak deployed) = hexlify (keccak compiled).

(** The transaction asked the factory, with the agreed salt, to create this code. *)
Definition factory_call (txHash code : string) : Prop :=
  ∃ factory data, bytecode "SingletonFactory" = Done factory ∧
    transaction_data txHash = Some data ∧ parse_factory_call data = Done (code, expectedSalt).

(** It created the compiled code of a contract, followed by these constructor arguments. *)
Definition created_by (txHash contract : string) (args : list val) : Prop :=
  ∃ used code params init, factory_call txHash used ∧
    bytecode contract = Done code ∧ encodeDeploy contract args = Done params ∧
    hexConcat [code; params] = Done init ∧ toLowerCase used = toLowerCase init.

(** What is required of a deployment, contract by contract. *)
Inductive requirement : Type :=
| Compiled (contract : string)
| IsSet (variable : string)
| SameCode (variable contract : string)
| CreatedBy (txHash contract : string) (args : list val)
| ReadsText (variable contract method : string) (args : list val) (expected : val)
| ReadsTrue (variable contract method : string) (args : list val)
| ReadsNumber (variable contract method : string) (n : Z)
| ManagerRegistered (variable : string) (chain expected : val)
| NativeAsset (hub variable : string).

Definition met (r : requirement) : Prop :=
  match r with
  | Compiled c => ∃ code, bytecode c = Done code
  | IsSet x => ∃ a, e !! x = Some a
  | SameCode x c => ∃ a, e !! x = Some a ∧ same_code a c
  | CreatedBy t c args => created_by t c args
  | ReadsText x c m args expected =>
      ∃ a v, e !! x = Some a ∧ view_call h a c m args = Done v ∧ same v expected
  | ReadsTrue x c m args =>
      ∃ a v, e !! x = Some a ∧ view_call h a c m args = Done v ∧ truthy v = true
  | ReadsNumber x c m n => ∃ a, e !! x = Some a ∧ view_call h a c m [] = Done (VNum n)
  | ManagerRegistered x chain expected =>
      ∃ a ctm v, e !! x = Some a ∧ view_call h a "Bridgehub" "chainTypeManager" [chain] = Done ctm ∧
        same ctm expected ∧
        view_call h a "Bridgehub" "chainTypeManagerIsRegistered" [ctm] = Done v ∧ truthy v = true
  | NativeAsset b x => ∃ a l1 token id, e !! b = Some a ∧ js_parseInt (e !! x) = Some l1 ∧
      hexZeroPad ETH_ADDRESS_IN_CONTRACTS 32 = Some token ∧ encodeNTVAssetId l1 token = Done id ∧
      ∀ err, view_call h a "Bridgehub" "assetIdIsRegistered" [VStr id] ≠ Throw err
  end.

Notation owned x c := (ReadsText x c "owner" [] (VStr expectedOwner)).

Notation era := (env_val e "CONTRACTS_ERA_CHAIN_ID").
Notation ctm := (env_val e "CONTRACTS_STATE_TRANSITION_PROXY_ADDR").
Notation hub := (env_val e "CONTRACTS_BRIDGEHUB_PROXY_ADDR").
Notation bridge := (env_val e "CONTRACTS_L1_SHARED_BRIDGE_PROXY_ADDR").

Definition code_requirements : list requirement :=
  map (λ x, SameCode x.1 x.2) (identical_bytecodes era).

Definition mailbox_requirements : list requirement :=
  [ IsSet "CONTRACTS_MAILBOX_FACET_ADDR"; CreatedBy mailboxFacetDeployTx "MailboxFacet" [era] ].

Definition admin_requirements : list requirement :=
  let x := "CONTRACTS_TRANSPARENT_PROXY_ADMIN_ADDR" in
  [ SameCode x ProxyAdmin; Compiled ProxyAdmin; owned x ProxyAdmin ].

Definition timelock_requirements : list requirement :=
  let x := "CONTRACTS_VALIDATOR_TIMELOCK_ADDR" in let c := "ValidatorTimelock" in
  [ owned x c; ReadsText x c "chainTypeManager" [] ctm;
    ReadsTrue x c "validators" [era; env_val e "ETH_SENDER_SENDER_OPERATOR_COMMIT_ETH_ADDR"];
    ReadsTrue x c "validators" [era; env_val e "ETH_SENDER_SENDER_OPERATOR_BLOBS_ETH_ADDR"];
    CreatedBy validatorTimelockDeployTx c [VStr initialOwner; VStr expectedDelay; era] ].

Definition bridgehub_requirements : list requirement :=
  let x := "CONTRACTS_BRIDGEHUB_PROXY_ADDR" in let c := "Bridgehub" in
  [ Compiled c; owned x c; ReadsText x c "baseToken" [era] (VStr ETH_ADDRESS_IN_CONTRACTS);
    ReadsText x c "getZKChain" [era] (VStr expectedZKChainAddr); ReadsText x c "sharedBridge" [] bridge;
    ManagerRegistered x era ctm; NativeAsset x "CONTRACTS_L1_CHAIN_ID" ].

Definition router_requirements : list requirement :=
  let x := "CONTRACTS_L1_SHARED_BRIDGE_PROXY_ADDR" in let c := "L1AssetRouter" in
  [ IsSet "CONTRACTS_L1_SHARED_BRIDGE_IMPL_ADDR";
    CreatedBy sharedBridgeImplDeployTx c [VStr expectedL1WethAddress; hub; era; VStr expectedZKChainAddr];
    ReadsText x c "l2BridgeAddress" [era] (VStr expectedL2BridgeAddress);
    ReadsText x c "legacyBridge" [] (VStr expectedL1LegacyBridge); owned x c ].

Definition legacy_requirements : list requirement :=
  [ IsSet "CONTRACTS_L1_ERC20_BRIDGE_IMPL_ADDR"; CreatedBy legacyBridgeImplDeployTx "L1ERC20Bridge" [bridge] ].

Definition manager_requirements : list requirement :=
  let x := "CONTRACTS_STATE_TRANSITION_PROXY_ADDR" in let c := "ChainTypeManager" in
  [ IsSet "CONTRACTS_STATE_TRANSITION_IMPL_ADDR";
    CreatedBy ctmImplDeployTx c [hub; VNum maxNumberOfZKChains];
    ReadsText x c "BRIDGE_HUB" [] hub; ReadsNumber x c "MAX_NUMBER_OF_ZK_CHAINS" maxNumberOfZKChains;
    ReadsText x c "genesisUpgrade" [] (env_val e "CONTRACTS_GENESIS_UPGRADE_ADDR");
    ReadsText x c "storedBatchZero" [] (VStr expectedStoredBatchHashZero); owned x c ].

Definition requirements : list requirement :=
  code_requirements ++ mailbox_requirements ++ admin_requirements ++ timelock_requirements ++
  bridgehub_requirements ++ router_requirements ++ legacy_requirements ++ manager_requirements.

(** A used cut is an expected one, with its selectors in some order. *)
Definition cut_is (u : UsedFacetCut) (c : FacetCut) : Prop :=
  uc_facet u = facet c ∧ uc_selectors u ≡ₚ selectors c ∧
  uc_action u = action_number (action c) ∧ uc_isFreezable u = isFreezable c.

(** The used cuts are the expected ones, in some order. *)
Definition cuts_are (used : list UsedFacetCut) (expected : list FacetCut) : Prop :=
  ∃ used', used ≡ₚ used' ∧ Forall2 cut_is used' expected.

(** The facets of the environment. *)
Definition facet_variables : list (option string) :=
  [ e !! "CONTRACTS_ADMIN_FACET_ADDR"; e !! "CONTRACTS_GETTERS_FACET_ADDR";
    e !! "CONTRACTS_MAILBOX_FACET_ADDR"; e !! "CONTRACTS_EXECUTOR_FACET_ADDR" ].

Definition expected_cuts : outcome (list (string * FacetCut)) :=
  getCurrentFacetCutsForAdd (e !! "CONTRACTS_ADMIN_FACET_ADDR") (e !! "CONTRACTS_GETTERS_FACET_ADDR")
    (e !! "CONTRACTS_MAILBOX_FACET_ADDR") (e !! "CONTRACTS_EXECUTOR_FACET_ADDR").

(** The data a new chain is initialised with: the verifier of the environment and the hashes. *)
Definition calldata_is (initCalldata : string) : Prop :=
  ∃ vs, abi_decode init_calldata_types initCalldata = Done vs ∧
    Forall2 same (take 7 vs)
      (env_val e "CONTRACTS_VERIFIER_ADDR" :: map (λ x, VStr x.1) expected_hashes).

Record data_is (d : ChainTypeManagerInitializeData) : Prop := {
  d_owner : same (VStr (ci_owner d)) (VStr initialOwner);
  d_timelock : same (VStr (ci_validatorTimelock d)) (env_val e "CONTRACTS_VALIDATOR_TIMELOCK_ADDR");
  d_upgrade : same (VStr (ci_genesisUpgrade d)) (env_val e "CONTRACTS_GENESIS_UPGRADE_ADDR");
  d_root : same (VStr (ci_genesisBatchHash d)) (VStr expectedGenesisRoot);
  d_index : ci_genesisIndexRepeatedStorageChanges d = expectedIndexRepeatedStorageChanges;
  d_commitment : same (VStr (ci_genesisBatchCommitment d)) (VStr expectedGenesisBatchCommitment);
  d_version : ci_protocolVersion d = expectedProtocolVersion;
  d_init : same (VStr (ci_initAddress d)) (env_val e "CONTRACTS_DIAMOND_INIT_ADDR");
  d_cuts : ∃ cuts, expected_cuts = Done cuts ∧ cuts_are (ci_facetCuts d) (cuts.*2);
  d_calldata : calldata_is (ci_initCalldata d);
}.

(** The data the proxy of the chain type manager was created with. *)
Definition manager_data (d : ChainTypeManagerInitializeData) : Prop :=
  ∃ code proxy vs initialize, factory_call ctmDeployTx code ∧
    bytecode TransparentUpgradeableProxy = Done proxy ∧
    abi_decode ["address"; "address"; "bytes"] ("0x" +:+ js_slice (String.length proxy) code) = Done vs ∧
    vs !! 2%nat = Some (VStr initialize) ∧ parse_ctm_call initialize = Done (Some d).

Definition consistent : Prop :=
  (∃ url, web3Url e = Done url) ∧ Forall met requirements ∧ ∃ d, manager_data d ∧ data_is d.

End spec.

(** ** What the check relies on *)

(** Letters and digits, which every collation tells apart. *)
Definition plain_char (c : ascii) : bool :=
  let n := N_of_ascii c in
  ((48 <=? n) && (n <=? 57) || (65 <=? n) && (n <=? 90) || (97 <=? n) && (n <=? 122))%N.
Definition plain (s : string) : bool := forallb plain_char (String.list_ascii_of_string s).

(** A selector: four bytes in hexadecimal. *)
Definition selector_text `{EthersOps} (s : string) : Prop := ∃ b, length b = 4%nat ∧ s = hexlify b.

Class InspectLaws `{EthersOps} `{Interfaces} `{Inspect} : Prop := {
  locale_total a b : (localeCompare a b <=? 0) = true ∨ (localeCompare b a <=? 0) = true;
  locale_trans a b c : (localeCompare a b <=? 0) = true → (localeCompare b c <=? 0) = true →
    (localeCompare a c <=? 0) = true;
  locale_plain a b : plain a = true → plain b = true →
    (localeCompare a b <=? 0) = true → (localeCompare b a <=? 0) = true → a = b;
  sighash_selector f : selector_text (getSighash f);
  (** the ABI decoder returns checksummed addresses and selectors *)
  decoded_cuts data d : parse_ctm_call data = Done (Some d) →
    Forall (λ u, plain (uc_facet u) = true ∧ Forall selector_text (uc_selectors u)) (ci_facetCuts d);
}.

(** ** The facet cuts *)

Lemma Forall2_permute {A B} (R : A → B → Prop) l k k' :
  Forall2 R l k → k ≡ₚ k' → ∃ l', l ≡ₚ l' ∧ Forall2 R l' k'.
Proof.
  intros Hl Hk. revert l Hl.
  induction Hk as [|y k k' Hk IH|y z k|k1 k2 k3 _ IH1 _ IH2]; intros l Hl.
  - exists l. by apply Forall2_nil_inv_r in Hl as ->.
  - apply Forall2_cons_inv_r in Hl as (x & l' & Hx & Hl & ->).
    destruct (IH l' Hl) as (l'' & Hp & Hl''). exists (x :: l''). split; [by rewrite Hp|by constructor].
  - apply Forall2_cons_inv_r in Hl as (x & l' & Hx & Hl & ->).
    apply Forall2_cons_inv_r in Hl as (x' & l'' & Hx' & Hl & ->).
    exists (x' :: x :: l''). split; [by apply Permutation_swap|by repeat constructor].
  - destruct (IH1 l Hl) as (l1 & Hp1 & Hl1). destruct (IH2 l1 Hl1) as (l2 & Hp2 & Hl2).
    exists l2. by split; [rewrite Hp1|].
Qed.

(** Sorting related lists by keys that agree keeps them related. *)
Lemma Forall2_sort_by {A B} (R : A → B → Prop) (le : A → A → bool) (le' : B → B → bool) l k :
  Forall2 R l k → (∀ x x' y y', R x y → R x' y' → le x x' = le' y y') →
  Forall2 R (sort_by le l) (sort_by le' k).
Proof.
  intros Hl Hle. set (z := zip l k). set (leP := λ p q : A * B, le p.1 q.1).
  assert (Hz : ∀ p, p ∈ z → R p.1 p.2).
  { apply Forall_forall. unfold z. clear -Hl. induction Hl; by constructor. }
  assert (E1 : (sort_by leP z).*1 = sort_by le l).
  { rewrite (sort_by_fmap fst leP le z) by done. unfold z. rewrite fst_zip; [done|].
    by rewrite (Forall2_length _ _ _ Hl). }
  assert (E2 : (sort_by leP z).*2 = sort_by le' k).
  { rewrite (sort_by_fmap snd leP le' z) by (intros p q Hp Hq; by apply Hle; apply Hz).
    unfold z. rewrite snd_zip; [done|]. by rewrite (Forall2_length _ _ _ Hl). }
  rewrite <- E1, <- E2. apply Forall2_fmap, Forall_Forall2_diag, Forall_forall.
  intros p Hp. rewrite elem_of_sort_by in Hp. by apply Hz.
Qed.

(** Bytes cut into pieces of one length determine the pieces. *)
Lemma concat_pieces_inj {A} (n : nat) (l k : list (list A)) :
  n ≠ 0%nat → Forall (λ x, length x = n) l → Forall (λ x, length x = n) k → concat l = concat k → l = k.
Proof.
  intros Hn Hl. revert k. induction Hl as [|x l Hx Hl IH]; intros k Hk E; destruct Hk as [|y k Hy Hk].
  - done.
  - destruct y; cbn in *; [lia|done].
  - destruct x; cbn in *; [lia|done].
  - cbn in E. apply app_inj_1 in E as [-> E]; [|lia]. f_equal. by apply IH.
Qed.

Section facets.
Context `{EthersOps} `{!EthersLaws} `{Chain} `{Interfaces} `{Inspect} `{!InspectLaws}.
Context (e : environ) (h : list tx).

Lemma selector_bytes l : Forall selector_text l →
  ∃ bs, l = map hexlify bs ∧ Forall (λ b : bytes, length b = 4%nat) bs.
Proof.
  induction 1 as [|s l (b & Hb & ->) _ (bs & -> & Hbs)]; [by exists []|].
  exists (b :: bs). split; [done|by constructor].
Qed.

Lemma mapM_arrayify bs : mapM arrayify (map hexlify bs) = Some bs.
Proof.
  induction bs as [|b bs IH]; [done|]. cbn [map mapM]. by rewrite arrayify_hexlify; cbn; rewrite IH.
Qed.

Lemma hexConcat_selectors bs : hexConcat (map hexlify bs) = Done (hexlify (concat bs)).
Proof. unfold hexConcat. by rewrite mapM_arrayify. Qed.

(** Comparing the concatenated sorted selectors compares them as sets with multiplicity. *)
Lemma selectors_compared l k :
  Forall selector_text l → Forall selector_text k →
  ∃ a b, hexConcat (sort_by String.leb l) = Done a ∧ hexConcat (sort_by String.leb k) = Done b ∧
    (a = b ↔ l ≡ₚ k).
Proof.
  intros Hl Hk.
  destruct (selector_bytes (sort_by String.leb l)) as (bs & El & Hbs); [by rewrite sort_by_perm|].
  destruct (selector_bytes (sort_by String.leb k)) as (cs & Ek & Hcs); [by rewrite sort_by_perm|].
  exists (hexlify (concat bs)), (hexlify (concat cs)).
  rewrite <- (sort_texts_perm l k), El, Ek, !hexConcat_selectors. split_and!; [done..|]. split.
  - intros E%hexlify_inj. by rewrite (concat_pieces_inj 4 bs cs).
  - intros E. assert (bs = cs) as ->; [|done].
    apply (inj Some). by rewrite <- !mapM_arrayify, E.
Qed.

Lemma accepts_compare_cut i u c :
  Forall selector_text (uc_selectors u) → Forall selector_text (selectors c) →
  accepts e h (compare_cut i u c) (cut_is u c).
Proof.
  intros Hu Hc. destruct (selectors_compared _ _ Hu Hc) as (a & b & Ea & Eb & Hab).
  unfold compare_cut. rewrite Ea, Eb. eapply accepts_iff.
  { eapply accepts_seq; [apply accepts_ensure|]. eapply accepts_lift; intros x.
    eapply accepts_lift; intros y. eapply accepts_seq; [apply accepts_ensure|].
    eapply accepts_seq; apply accepts_ensure. }
  unfold cut_is. cbn. rewrite <- Hab, <- (String.eqb_eq (uc_facet u)), <- (Z.eqb_eq (uc_action u)).
  rewrite <- (Bool.eqb_true_iff (uc_isFreezable u)). setoid_rewrite (String.eqb_eq). naive_solver.
Qed.

Lemma accepts_compare_cuts i l k :
  length k = length l → Forall (λ u, Forall selector_text (uc_selectors u)) l →
  Forall (λ c, Forall selector_text (selectors c)) k →
  accepts e h (compare_cuts i l k) (Forall2 cut_is l k).
Proof.
  revert i k. induction l as [|u l IH]; intros i [|c k] E Hl Hk; try done.
  - eapply accepts_iff; [apply accepts_ret|]. by rewrite Forall2_nil.
  - apply Forall_cons in Hl as [Hu Hl], Hk as [Hc Hk]. injection E as E. cbn [compare_cuts].
    eapply accepts_iff; [eapply accepts_seq; [by apply accepts_compare_cut|by apply IH]|].
    by rewrite Forall2_cons.
Qed.

Lemma add_facet_facets n o b cuts cuts' :
  add_facet n o b cuts = Done cuts' →
  map (facet ∘ snd) cuts' = map (facet ∘ snd) cuts ++ omap (λ o : option string, if str_truthy o then o else None) [o] ∧
  (Forall (λ x : string * FacetCut, Forall selector_text (selectors x.2)) cuts →
   Forall (λ x : string * FacetCut, Forall selector_text (selectors x.2)) cuts').
Proof.
  unfold add_facet. destruct (str_truthy o) eqn:Eo; [|intros [= <-]; cbn; rewrite Eo, app_nil_r; done].
  destruct o as [a|]; [|done]. destruct (iface_functions n) as [fs|]; [|done]. intros [= <-].
  cbn [omap list_omap]. rewrite Eo, map_app. split; [done|]. intros Hc. apply Forall_app. split; [done|].
  apply Forall_singleton. cbn. apply Forall_fmap, Forall_forall. intros g _. apply sighash_selector.
Qed.

(** The expected cuts are at the addresses that are set, and their selectors are selectors. *)
Lemma expected_cuts_facets cuts :
  expected_cuts e = Done cuts →
  map (facet ∘ snd) cuts = omap (λ o : option string, if str_truthy o then o else None) (facet_variables e) ∧
  Forall (λ c, Forall selector_text (selectors c)) (cuts.*2).
Proof.
  unfold expected_cuts, getCurrentFacetCutsForAdd.
  intros (c1 & [E1 H1']%add_facet_facets & E)%outcome_bind_inv.
  apply outcome_bind_inv in E as (c2 & [E2 H2']%add_facet_facets & E).
  apply outcome_bind_inv in E as (c3 & [E3 H3']%add_facet_facets & [E4 H4']%add_facet_facets).
  split; [|apply Forall_fmap, H4', H3', H2', H1'; constructor].
  rewrite E4, E3, E2, E1. unfold facet_variables. cbn [map app]. by rewrite <- !omap_app.
Qed.

(** The addresses of the facets are plain texts and differ. *)
Definition facets_distinct : Prop :=
  NoDup (facet_variables e) ∧ Forall (λ o, from_option plain true o = true) (facet_variables e).

Lemma NoDup_omap_some (f : option string → option string) l :
  (∀ o a, f o = Some a → o = Some a) → NoDup l → NoDup (omap f l).
Proof.
  intros Hf. induction 1 as [|o l Ho _ IH]; [constructor|]. cbn. destruct (f o) as [a|] eqn:Ea; [|done].
  apply NoDup_cons. split; [|done]. intros (o' & Ho' & Ea')%list_elem_of_omap.
  apply Hf in Ea, Ea'. congruence.
Qed.

Lemma facets_NoDup cuts : facets_distinct → expected_cuts e = Done cuts →
  NoDup (facet <$> cuts.*2) ∧ Forall (λ c, plain (facet c) = true) (cuts.*2).
Proof.
  intros [Hnd Hp] [E _]%expected_cuts_facets.
  assert (Hf : ∀ o a, (if str_truthy o then o else None) = Some a → o = Some a)
    by (intros o a; by destruct (str_truthy o)).
  rewrite <- list_fmap_compose. change (map (facet ∘ snd) cuts) with (facet ∘ snd <$> cuts) in E.
  split; [rewrite E; by apply NoDup_omap_some|].
  apply Forall_fmap, Forall_forall. intros x Hx. cbn.
  assert (Hin : (facet ∘ snd) x ∈ facet ∘ snd <$> cuts) by (by apply list_elem_of_fmap_2).
  rewrite E in Hin. apply list_elem_of_omap in Hin as (o & Ho & Eo).
  rewrite Forall_forall in Hp. specialize (Hp o Ho). apply Hf in Eo. by subst.
Qed.

(** Sorting does not change which cuts match. *)
Lemma sorted_cuts_match used expected :
  NoDup (facet <$> expected) → Forall (λ c, plain (facet c) = true) expected →
  Forall2 cut_is (sort_by (by_locale uc_facet) used) (sort_by (by_locale facet) expected) ↔
  cuts_are used expected.
Proof.
  intros Hnd Hp. split.
  - intros Hs. destruct (Forall2_permute _ _ _ expected Hs) as (used' & Hu & Hm).
    { by rewrite sort_by_perm. }
    exists used'. split; [|done]. by rewrite <- Hu, sort_by_perm.
  - intros (used' & Hu & Hm).
    assert (Ek : uc_facet <$> used' = facet <$> expected).
    { clear -Hm. induction Hm as [|u c l k (E & _) _ IH]; [done|]. cbn. by rewrite E, IH. }
    assert (Hpl : ∀ z, z ∈ used' → plain (uc_facet z) = true).
    { intros z Hz. assert (Hin : uc_facet z ∈ facet <$> expected) by (rewrite <- Ek; by apply list_elem_of_fmap_2).
      apply list_elem_of_fmap in Hin as (c & -> & Hc). rewrite Forall_forall in Hp. by apply Hp. }
    rewrite (sort_by_unique (by_locale uc_facet) (λ _ _, locale_total _ _) (λ _ _ _, locale_trans _ _ _) used used' Hu).
    + apply Forall2_sort_by; [done|]. unfold by_locale. intros x x' y y' [-> _] [-> _]. done.
    + intros x y Hx Hy H1' H2'. rewrite Hu in Hx, Hy.
      assert (Exy : uc_facet x = uc_facet y) by (apply locale_plain; auto).
      rewrite <- Ek in Hnd. apply list_elem_of_lookup in Hx as [i Hi], Hy as [j Hj].
      assert (i = j) as ->; [|congruence]. eapply (NoDup_lookup (uc_facet <$> used')); [done|..];
        rewrite list_lookup_fmap, ?Hi, ?Hj; [done|cbn; by rewrite <- Exy].
Qed.

Lemma accepts_check_facetCuts used :
  facets_distinct → Forall (λ u, Forall selector_text (uc_selectors u)) used →
  accepts e h (check_facetCuts used) (∃ cuts, expected_cuts e = Done cuts ∧ cuts_are used (cuts.*2)).
Proof.
  intros Hd Hu. unfold check_facetCuts.
  do 4 (eapply accepts_bind_det; [apply reads_get_env|]). fold (expected_cuts e).
  apply accepts_lift_eq. intros cuts Ec. destruct (facets_NoDup cuts Hd Ec) as [Hnd Hp].
  destruct (expected_cuts_facets cuts Ec) as [_ Hs].
  rewrite !sort_by_length. destruct (Nat.eqb_spec (length cuts.*2) (length used)) as [El|El].
  - eapply accepts_iff; [eapply accepts_seq; [apply accepts_ensure|apply accepts_compare_cuts]|].
    + by rewrite !sort_by_length.
    + by rewrite sort_by_perm.
    + by rewrite sort_by_perm.
    + rewrite sorted_cuts_match by done. naive_solver.
  - eapply accepts_iff; [apply accepts_throw_bind|]. split; [done|].
    intros (used' & Hp' & Hm). apply El. rewrite Hp'. symmetry. by apply Forall2_length in Hm.
Qed.

End facets.

(** ** The checks, one by one *)

Lemma or_throw_Done {A} x (o : option A) a : or_throw x o = Done a ↔ o = Some a.
Proof. destruct o; cbn; naive_solver. Qed.

Section checks.
Context `{EthersOps} `{!EthersLaws} `{Chain} `{Interfaces} `{Inspect} `{!InspectLaws}.
Context (e : environ) (h : list tx).

Lemma reads_env_value n : reads e h (env_value n) (λ v, v = env_val e n).
Proof.
  intros w <- Hh. unfold env_value, env_val. cbn. split; [by intros b w' [= <- <-]|intros b ->; by eexists].
Qed.

Lemma accepts_env n (k : val → M unit) Q :
  accepts e h (k (env_val e n)) Q → accepts e h (env_value n ≫= k) Q.
Proof. apply accepts_bind_det, reads_env_value. Qed.

Lemma reads_env_address n : reads e h (env_address n) (λ a, e !! n = Some a).
Proof.
  eapply reads_iff; [eapply reads_bind; [apply reads_env_value|intros; apply reads_as_address]|].
  intros a. unfold env_val. destruct (e !! n); naive_solver.
Qed.

Lemma accepts_address n (k : string → M unit) Q :
  (∀ a, accepts e h (k a) (Q a)) → accepts e h (env_address n ≫= k) (∃ a, e !! n = Some a ∧ Q a).
Proof. apply accepts_bind, reads_env_address. Qed.

Lemma reads_lower_of v : reads e h (lower_of v) (λ s, ∃ t, v = VStr t ∧ s = toLowerCase t).
Proof.
  intros w He Hh. destruct v; cbn; (split; [intros x w' [=]; subst; eauto|]); intros x (? & [=] & ->); subst.
  by eexists.
Qed.

Lemma accepts_same_text u v msg : accepts e h (same_text u v msg) (same u v).
Proof.
  unfold same_text. eapply accepts_iff.
  { eapply accepts_bind; [apply reads_lower_of|]. intros s.
    eapply accepts_bind; [apply reads_lower_of|]. intros t.
    eapply accepts_if; [apply accepts_ret|apply accepts_throw]. }
  unfold same. cbn. split.
  - intros (s & (s' & -> & ->) & t & (t' & -> & ->) & Hb). destruct (String.eqb_spec (toLowerCase s') (toLowerCase t')); [eauto|done].
  - intros (s & t & -> & -> & E). eexists. split; [eauto|]. eexists. split; [eauto|]. by rewrite E, String.eqb_refl.
Qed.

Lemma accepts_view a c m args (k : val → M unit) Q :
  (∀ v, accepts e h (k v) (Q v)) →
  accepts e h (view a c m args ≫= k) (∃ v, view_call h a c m args = Done v ∧ Q v).
Proof. apply accepts_bind, reads_view. Qed.

Lemma accepts_view_is a c m args expected msg :
  accepts e h (view_is a c m args expected msg) (∃ v, view_call h a c m args = Done v ∧ same v expected).
Proof. apply accepts_view. intros v. apply accepts_same_text. Qed.

Lemma accepts_view_holds a c m args msg :
  accepts e h (view_holds a c m args msg) (∃ v, view_call h a c m args = Done v ∧ truthy v = true).
Proof. apply accepts_view. intros v. apply accepts_ensure. Qed.

Lemma accepts_view_unawaited a c m args :
  accepts e h (view_unawaited a c m args) (∀ err, view_call h a c m args ≠ Throw err).
Proof.
  intros w He Hh. unfold view_unawaited. rewrite Hh. destruct (view_call h a c m args) as [v|err|].
  - split; [by intros [] w' [= <-]|]. intros [] _. by eexists.
  - split; [done|]. intros u Hu. by destruct (Hu err).
  - split; [by intros [] w' [= <-]|]. intros [] _. by eexists.
Qed.

Lemma keccak256_Done code s : keccak256 code = Done s ↔ ∃ b, arrayify code = Some b ∧ s = hexlify (keccak b).
Proof.
  unfold keccak256. destruct (arrayify code) as [b|]; cbn.
  - split; [intros [= <-]; eauto|]. by intros (b' & [= <-] & ->).
  - split; [done|]. by intros (b' & ? & _).
Qed.

Lemma accepts_checkIdenticalBytecode x c :
  accepts e h (checkIdenticalBytecode (env_val e x) c) (met e h (SameCode x c)).
Proof.
  unfold checkIdenticalBytecode. eapply accepts_iff.
  { eapply accepts_lift. intros code. eapply accepts_bind; [apply reads_as_address|]. intros a.
    eapply accepts_bind; [apply reads_getCode|]. intros current.
    eapply accepts_lift. intros k1. eapply accepts_lift. intros k2.
    eapply accepts_if; [apply accepts_log|apply accepts_throw]. }
  cbn [met]. unfold env_val, same_code. setoid_rewrite keccak256_Done. split.
  - intros (code & Ec & a & Ea & cur & -> & k1 & (b1 & E1 & ->) & k2 & (b2 & E2 & ->) & Hk).
    destruct (e !! x) as [a'|]; [|done]. injection Ea as ->.
    destruct (String.eqb_spec (hexlify (keccak b1)) (hexlify (keccak b2))); [eauto 10|done].
  - intros (a & -> & code & b1 & b2 & Ec & E1 & E2 & Hk). eexists. split; [done|].
    eexists. split; [done|]. eexists. split; [done|]. eexists. split; [eauto|]. eexists. split; [eauto|].
    by rewrite Hk, String.eqb_refl.
Qed.

Lemma reads_extractInitCode data :
  reads e h (extractInitCode data) (λ code, (∃ factory, bytecode "SingletonFactory" = Done factory) ∧
    parse_factory_call data = Done (code, expectedSalt)).
Proof.
  unfold extractInitCode. intros w He Hh. unfold mbind, M_bind, lift.
  destruct (bytecode "SingletonFactory") as [f|x|]; [|split; naive_solver..].
  destruct (parse_factory_call data) as [[code salt]|x|]; [|split; naive_solver..]. cbn.
  destruct (String.eqb_spec salt expectedSalt) as [->|Hs].
  - split; [intros a w' [= <- <-]; eauto|]. intros a [_ [= <-]]. by eexists.
  - split; [done|]. naive_solver.
Qed.

(** Reading the code a transaction created. *)
Lemma accepts_factory_call txHash (k : string → M unit) Q :
  (∀ code, accepts e h (k code) (Q code)) →
  accepts e h (data ← getTransaction_data txHash; code ← extractInitCode data; k code)
    (∃ code, factory_call txHash code ∧ Q code).
Proof.
  intros Hk. eapply accepts_iff.
  { eapply accepts_lift. intros data. eapply accepts_bind; [apply reads_extractInitCode|exact Hk]. }
  cbn. unfold factory_call. destruct (transaction_data txHash) as [data|]; cbn; [|naive_solver].
  split; [intros (? & [= <-] & code & ((f & Hf) & Hc) & HQ); eauto 10|].
  intros (code & (f & d & Hf & [= <-] & Hc) & HQ). eauto 10.
Qed.

Lemma accepts_checkCorrectInitCode txHash c args code :
  bytecode c = Done code →
  accepts e h (checkCorrectInitCode txHash c code args) (created_by txHash c args).
Proof.
  intros Hc. unfold checkCorrectInitCode. eapply accepts_iff.
  { eapply accepts_factory_call. intros used. eapply accepts_lift. intros params.
    eapply accepts_lift. intros init. eapply accepts_if; [apply accepts_ret|apply accepts_throw]. }
  cbn. unfold created_by. rewrite Hc. split.
  - intros (used & Hu & params & Hp & init & Hi & Hb).
    destruct (String.eqb_spec (toLowerCase used) (toLowerCase init)); [eauto 10|done].
  - intros (used & code' & params & init & Hu & [= <-] & Hp & Hi & E). exists used. split; [done|].
    exists params. split; [done|]. exists init. split; [done|]. by rewrite E, String.eqb_refl.
Qed.

Lemma created_by_compiled txHash c args : created_by txHash c args → ∃ code, bytecode c = Done code.
Proof. intros (used & code & params & init & _ & Hc & _). eauto. Qed.

(** One step of a check. *)
Ltac accept_step :=
  lazymatch goal with
  | |- accepts _ _ (env_value _ ≫= _) _ => eapply accepts_env
  | |- accepts _ _ (get_env _ ≫= _) _ => eapply accepts_bind_det; [apply reads_get_env|]
  | |- accepts _ _ (as_address _ ≫= _) _ => eapply accepts_bind; [apply reads_as_address|intros ?]
  | |- accepts _ _ (env_address _ ≫= _) _ => eapply accepts_address; intros ?
  | |- accepts _ _ (lift _ ≫= _) _ => eapply accepts_lift_eq; intros ? ?
  | |- accepts _ _ (view _ _ _ _ ≫= _) _ => eapply accepts_view; intros ?
  | |- accepts _ _ (_ ≫= (λ _, console_log _)) _ => apply accepts_logged
  | |- accepts _ _ (_ ≫= _) _ => eapply accepts_seq
  | |- accepts _ _ (view_is _ _ _ _ _ _) _ => apply accepts_view_is
  | |- accepts _ _ (view_holds _ _ _ _ _) _ => apply accepts_view_holds
  | |- accepts _ _ (view_unawaited _ _ _ _) _ => apply accepts_view_unawaited
  | |- accepts _ _ (same_text _ _ _) _ => apply accepts_same_text
  | |- accepts _ _ (ensure _ _) _ => apply accepts_ensure
  | |- accepts _ _ (checkIdenticalBytecode _ _) _ => apply accepts_checkIdenticalBytecode
  | |- accepts _ _ (checkCorrectInitCode _ _ _ _) _ => eapply accepts_checkCorrectInitCode; eassumption
  | |- accepts _ _ (console_log _) _ => apply accepts_log
  end.

(** A check is its list of requirements. *)
Ltac accept reqs :=
  eapply accepts_iff; [repeat accept_step|]; unfold reqs; rewrite !Forall_cons, Forall_nil; cbn [met].

Lemma accepts_checkMailbox : accepts e h checkMailbox (Forall (met e h) (mailbox_requirements e)).
Proof. unfold checkMailbox. accept mailbox_requirements. unfold created_by. naive_solver. Qed.

Lemma accepts_checkLegacyBridge : accepts e h checkLegacyBridge (Forall (met e h) (legacy_requirements e)).
Proof. unfold checkLegacyBridge. accept legacy_requirements. unfold created_by. naive_solver. Qed.

Lemma accepts_checkValidatorTimelock :
  accepts e h checkValidatorTimelock (Forall (met e h) (timelock_requirements e)).
Proof. unfold checkValidatorTimelock. accept timelock_requirements. unfold created_by. naive_solver. Qed.

Lemma accepts_checkBridgehub : accepts e h checkBridgehub (Forall (met e h) (bridgehub_requirements e)).
Proof.
  unfold checkBridgehub. accept bridgehub_requirements. setoid_rewrite or_throw_Done. naive_solver.
Qed.

Lemma accepts_checkProxyAdmin : accepts e h checkProxyAdmin (Forall (met e h) admin_requirements).
Proof.
  unfold checkProxyAdmin. accept admin_requirements. unfold env_val.
  destruct (e !! "CONTRACTS_TRANSPARENT_PROXY_ADMIN_ADDR"); naive_solver.
Qed.

Lemma accepts_routers :
  accepts e h (checkL1AssetRouterImpl;; checkSharedBridge) (Forall (met e h) (router_requirements e)).
Proof.
  unfold checkL1AssetRouterImpl, checkSharedBridge.
  accept router_requirements. split; [naive_solver|].
  intros (Hi & Hc & Hr). destruct (created_by_compiled _ _ _ Hc) as [code Hcode].
  split; [naive_solver|]. exists code. naive_solver.
Qed.

Lemma reads_toNumber v : reads e h (toNumber v) (λ n, v = VNum n ∧ n < 2 ^ 53).
Proof.
  intros w He Hh. destruct v as [| |n| | |]; cbn; [split; [done|by intros ? [??]]..| | | |];
    [|split; [done|by intros ? [??]]..].
  destruct (Z.ltb_spec n (2 ^ 53)) as [Hn|Hn]; (split; [|intros x [[= <-] Hx]]).
  - by intros x w' [= <- <-].
  - by eexists.
  - done.
  - lia.
Qed.

Lemma accepts_check_hashes vs expected :
  accepts e h (check_hashes vs expected)
    (Forall2 same (take (length expected) vs) (map (λ x, VStr x.1) expected)).
Proof.
  revert vs. induction expected as [|[x msg] expected IH]; intros vs; cbn [check_hashes].
  - eapply accepts_iff; [apply accepts_ret|]. cbn. by rewrite Forall2_nil.
  - eapply accepts_iff; [eapply accepts_seq; [apply accepts_same_text|apply IH]|].
    destruct vs as [|v vs]; cbn; [|by rewrite Forall2_cons].
    split; [by intros [(s & t & ? & _) _]|by intros ?%Forall2_nil_cons_inv].
Qed.

Lemma accepts_check_initCalldata data : accepts e h (check_initCalldata data) (calldata_is e data).
Proof.
  unfold check_initCalldata. eapply accepts_iff; [do 3 accept_step; [accept_step|apply accepts_check_hashes]|].
  unfold calldata_is. split; intros (vs & Hvs & Hs); exists vs; (split; [done|]); destruct vs as [|v vs].
  - by destruct Hs as [(s & t & ? & _) _].
  - by apply Forall2_cons.
  - by apply Forall2_nil_cons_inv in Hs.
  - by apply Forall2_cons in Hs.
Qed.

Lemma accepts_check_initializeData d :
  facets_distinct e → Forall (λ u, Forall selector_text (uc_selectors u)) (ci_facetCuts d) →
  accepts e h (check_initializeData d) (data_is e d).
Proof.
  intros Hd Hs. unfold check_initializeData. eapply accepts_iff.
  { repeat (lazymatch goal with
      | |- accepts _ _ (check_facetCuts _) _ => by apply accepts_check_facetCuts
      | |- accepts _ _ (check_initCalldata _) _ => apply accepts_check_initCalldata
      | _ => accept_step end). }
  rewrite !Z.eqb_eq. split; [intros; destruct_and!; by constructor|intros []; by split_and!].
Qed.

(** The initialisation data, where a run gets to them. *)
Lemma accepts_manager_data :
  facets_distinct e →
  accepts e h (data ← getTransaction_data ctmDeployTx; extractProxyInitializationData data)
    (∃ d, manager_data d ∧ data_is e d).
Proof.
  intros Hd. unfold extractProxyInitializationData. eapply accepts_iff.
  { eapply accepts_factory_call. intros code. do 2 (eapply accepts_lift; intros ?). accept_step.
    eapply accepts_lift_eq. intros parsed Hparsed. eapply accepts_lift_eq. intros d Hd'.
    apply accepts_check_initializeData; [done|]. 
    apply or_throw_Done in Hd' as ->. apply decoded_cuts in Hparsed.
    eapply Forall_impl; [exact Hparsed|]. by intros u []. }
  unfold manager_data. cbn. setoid_rewrite or_throw_Done. split.
  - intros (code & Hf & proxy & Hp & vs & Hvs & i & Hi & parsed & Hpar & d & -> & Hok).
    exists d. split; [|done]. exists code, proxy, vs, i. split_and!; try done.
    destruct (vs !! 2%nat); cbn in Hi; by subst.
  - intros (d & (code & proxy & vs & i & Hf & Hp & Hvs & Hi & Hpar) & Hok).
    exists code. split; [done|]. exists proxy. split; [done|]. exists vs. split; [done|].
    exists i. split; [by rewrite Hi|]. exists (Some d). split; [done|]. by exists d.
Qed.

Lemma accepts_managers :
  facets_distinct e →
  accepts e h (checkCTMImpl;; checkCTM)
    (Forall (met e h) (manager_requirements e) ∧ ∃ d, manager_data d ∧ data_is e d).
Proof.
  intros Hd. unfold checkCTMImpl, checkCTM. eapply accepts_iff.
  { repeat (lazymatch goal with
      | |- accepts _ _ (toNumber _ ≫= _) _ => eapply accepts_bind; [apply reads_toNumber|intros ?]
      | |- accepts _ _ (getTransaction_data _ ≫= _) _ => by apply accepts_manager_data
      | _ => accept_step end). }
  unfold manager_requirements. rewrite !Forall_cons, Forall_nil. cbn [met].
  generalize (∃ d, manager_data d ∧ data_is e d). intros P. split.
  - intros (Hi & code & Hc & a & Ha & Hhub & (v & Hv & n & (-> & _) & ->%Z.eqb_eq & Hu & Hz & Ho & _ & HP)).
    naive_solver.
  - intros [(Hi & Hc & Hr) HP]. destruct (created_by_compiled _ _ _ Hc) as [code Hcode].
    split; [naive_solver|]. exists code. split; [done|].
    destruct Hr as ((a & v & Ha & Hv & Hs) & (a' & Ha' & Hn) & Hu & Hz & Ho & _).
    exists a. split; [done|]. assert (a' = a) as -> by congruence. split; [eauto|].
    exists (VNum maxNumberOfZKChains). split; [done|]. exists maxNumberOfZKChains.
    split; [done|]. split; [done|]. naive_solver.
Qed.

Lemma accepts_pair (a b k : M unit) P Q :
  accepts e h (a;; b) P → accepts e h k Q → accepts e h (a;; b;; k) (P ∧ Q).
Proof.
  intros Hab Hk w He Hh. pose proof (accepts_seq _ _ _ _ _ _ Hab Hk w He Hh) as Hs.
  revert Hs. unfold mbind, M_bind. by destruct (a w) as [[]].
Qed.

Lemma accepts_codes era :
  accepts e h (for_each (identical_bytecodes era)
      (λ '(name, contract), addr ← env_value name; checkIdenticalBytecode addr contract))
    (Forall (met e h) (map (λ x, SameCode x.1 x.2) (identical_bytecodes era))).
Proof.
  eapply accepts_iff; [apply accepts_for_each with (P := λ x, met e h (SameCode x.1 x.2))|].
  - intros [x c]. do 2 accept_step.
  - by rewrite Forall_map.
Qed.

(** The script accepts what is consistent. *)
Lemma accepts_checker :
  facets_distinct e → accepts e h upgrade_consistency_checker (consistent e h).
Proof.
  intros Hd. unfold upgrade_consistency_checker. eapply accepts_iff.
  { eapply accepts_bind; [apply reads_from_env|]. intros url. eapply accepts_env.
    eapply accepts_seq; [apply accepts_codes|]. eapply accepts_seq; [apply accepts_checkMailbox|].
    eapply accepts_seq; [apply accepts_checkProxyAdmin|]. eapply accepts_seq; [apply accepts_checkValidatorTimelock|].
    eapply accepts_seq; [apply accepts_checkBridgehub|]. eapply accepts_pair; [apply accepts_routers|].
    eapply accepts_seq; [apply accepts_checkLegacyBridge|by apply accepts_managers]. }
  unfold consistent, requirements, code_requirements. rewrite !Forall_app. naive_solver.
Qed.

End checks.

(** ** The cuts that were accepted *)

Definition action_of (n : Z) : Action := if n =? 0 then Add else if n =? 1 then Replace else Remove.
Definition cut_of (u : UsedFacetCut) : FacetCut :=
  mkFacetCut (uc_facet u) (uc_selectors u) (action_of (uc_action u)) (uc_isFreezable u).

Lemma cut_of_is u c : cut_is u c →
  facet (cut_of u) = facet c ∧ selectors (cut_of u) ≡ₚ selectors c ∧ action (cut_of u) = action c ∧
  isFreezable (cut_of u) = isFreezable c.
Proof. intros (Hf & Hs & Ha & Hb). cbn. rewrite Ha. split_and!; try done. by destruct (action c). Qed.

Lemma cuts_are_facets used expected :
  cuts_are used expected → map facet (map cut_of used) ≡ₚ map facet expected.
Proof.
  intros (l & -> & Hl). induction Hl as [|u c l k (Hf & _)%cut_of_is _ IH]; [done|].
  cbn [map] in *. by rewrite Hf, IH.
Qed.

Lemma cuts_are_selectors used expected :
  cuts_are used expected → (map cut_of used ≫= selectors) ≡ₚ expected ≫= selectors.
Proof.
  intros (l & Hp & Hl). assert (E : (map cut_of used ≫= selectors) ≡ₚ (map cut_of l ≫= selectors)) by (by rewrite Hp).
  rewrite E. clear E Hp. induction Hl as [|u c l k (_ & Hs & _)%cut_of_is _ IH]; [done|]. cbn in *. by rewrite Hs, IH.
Qed.

Lemma cuts_are_elem used expected c :
  cuts_are used expected → c ∈ expected → ∃ u, u ∈ used ∧ cut_is u c.
Proof.
  intros (l & Hp & Hl) [i Hi]%list_elem_of_lookup. destruct (Forall2_lookup_r _ _ _ _ _ Hl Hi) as (u & Hu & Hc).
  exists u. split; [|done]. rewrite Hp. by eapply list_elem_of_lookup_2.
Qed.

Lemma cuts_are_elem_l used expected u :
  cuts_are used expected → u ∈ used → ∃ c, c ∈ expected ∧ cut_is u c.
Proof.
  intros (l & Hp & Hl). rewrite Hp. intros [i Hi]%list_elem_of_lookup.
  destruct (Forall2_lookup_l _ _ _ _ _ Hl Hi) as (c & Hc & Hu).
  exists c. split; [|done]. by eapply list_elem_of_lookup_2.
Qed.

Lemma cuts_are_addable has_code used expected r :
  cuts_are used expected → addable has_code expected r → addable has_code (map cut_of used) r.
Proof.
  intros Hu [Hs Hn Ha Hf Hr Hz]. constructor.
  - rewrite Forall_forall in Hs |- *. intros c (u & -> & Hin)%list_elem_of_fmap.
    destruct (cuts_are_elem_l _ _ _ Hu Hin) as (c & Hc & (Ef & Es & Ea & _)%cut_of_is).
    destruct (Hs c Hc) as (Hact & Hne & Hcode). rewrite Ea, Ef. split_and!; [done| |done].
    intros E. rewrite E in Es. by apply Permutation_nil_l in Es.
  - by rewrite (cuts_are_selectors _ _ Hu).
  - by rewrite (cuts_are_facets _ _ Hu).
  - intros c s b (u & -> & Hin)%list_elem_of_fmap.
    destruct (cuts_are_elem_l _ _ _ Hu Hin) as (c & Hc & (Ef & _)%cut_of_is). rewrite Ef. by apply Hf.
  - intros s. rewrite (cuts_are_selectors _ _ Hu). apply Hr.
  - by rewrite (cuts_are_selectors _ _ Hu).
Qed.

Lemma route_empty : route empty_diamond = ∅.
Proof. apply fmap_empty. Qed.

Section theorems.
Context `{EthersOps} `{!EthersLaws} `{Chain} `{Interfaces} `{Inspect} `{!InspectLaws}.



End theorems.

(** ** A deployment that is consistent *)

Module UpgradeSamples.

Definition address (n : Z) : string := "0x" +:+ hex_digits (be_enc 20 n).

Definition env : environ := list_to_map
  [ ("ETH_CLIENT_WEB3_URL", "http://localhost:8545"); ("CONTRACTS_ERA_CHAIN_ID", "324");
    ("CONTRACTS_L1_CHAIN_ID", "1"); ("CONTRACTS_GENESIS_UPGRADE_ADDR", address 1);
    ("CONTRACTS_ZK_CHAIN_UPGRADE_ADDR", address 2); ("CONTRACTS_EXECUTOR_FACET_ADDR", address 6);
    ("CONTRACTS_GETTERS_FACET_ADDR", address 4); ("CONTRACTS_ADMIN_FACET_ADDR", address 5);
    ("CONTRACTS_MAILBOX_FACET_ADDR", address 3); ("CONTRACTS_BRIDGEHUB_IMPL_ADDR", address 7);
    ("CONTRACTS_VERIFIER_ADDR", address 8); ("CONTRACTS_DIAMOND_INIT_ADDR", address 9);
    ("CONTRACTS_TRANSPARENT_PROXY_ADMIN_ADDR", address 10); ("CONTRACTS_VALIDATOR_TIMELOCK_ADDR", address 11);
    ("CONTRACTS_STATE_TRANSITION_PROXY_ADDR", address 12); ("CONTRACTS_STATE_TRANSITION_IMPL_ADDR", address 13);
    ("CONTRACTS_BRIDGEHUB_PROXY_ADDR", address 14); ("CONTRACTS_L1_SHARED_BRIDGE_PROXY_ADDR", address 15);
    ("CONTRACTS_L1_SHARED_BRIDGE_IMPL_ADDR", address 16); ("CONTRACTS_L1_ERC20_BRIDGE_IMPL_ADDR", address 17);
    ("ETH_SENDER_SENDER_OPERATOR_COMMIT_ETH_ADDR", address 18);
    ("ETH_SENDER_SENDER_OPERATOR_BLOBS_ETH_ADDR", address 19) ].

Definition views (method : string) (args : list val) : outcome val :=
  default (Throw read_error) (list_to_map (M := gmap string (outcome val))
    [ ("owner", Done (VStr expectedOwner)); ("chainTypeManager", Done (VStr (address 12)));
      ("validators", Done (VBool true)); ("baseToken", Done (VStr ETH_ADDRESS_IN_CONTRACTS));
      ("getZKChain", Done (VStr expectedZKChainAddr)); ("sharedBridge", Done (VStr (address 15)));
      ("chainTypeManagerIsRegistered", Done (VBool true)); ("assetIdIsRegistered", Done (VBool false)); ("BRIDGE_HUB", Done (VStr (address 14)));
      ("MAX_NUMBER_OF_ZK_CHAINS", Done (VNum 100)); ("genesisUpgrade", Done (VStr (address 1)));
      ("storedBatchZero", Done (VStr expectedStoredBatchHashZero));
      ("l2BridgeAddress", Done (VStr expectedL2BridgeAddress));
      ("legacyBridge", Done (VStr expectedL1LegacyBridge)) ] !! method).

(** A network on which every address has the same code. *)
Definition network : Chain :=
  let C := model_chain views in
  {| network_chainId := 1; wallet_nonce := 0; code_at _ _ := "0x6001";
     tx_succeeds := @tx_succeeds C; view_call := @view_call C; tx_hash := @tx_hash C;
     created_address := @created_address C; event_topics := @event_topics C;
     create2_address := @create2_address C; constructor_ok := @constructor_ok C;
     random_bytes32 := @random_bytes32 C; gas_price := @gas_price C; date_now := @date_now C |}.

(** Functions are told apart by the length of their text. *)
Definition interfaces : Interfaces := {|
  iface_functions := λ n,
    if String.eqb n "AdminFacet" then Some ["getName()"; "freezeDiamond()"; "upgradeChain()"]
    else if String.eqb n "GettersFacet" then Some ["getName()"; "facets()"]
    else if String.eqb n "MailboxFacet" then Some ["getName()"; "requestL2Transaction()"]
    else if String.eqb n "ExecutorFacet" then Some ["getName()"; "executeBatches()"; "proveBatches(uint256)"]
    else None;
  getSighash := λ s, @hexlify model_ethers (be_enc 4 (Z.of_nat (String.length s)));
|}.

(** The cuts as they were given: other orders of facets and of selectors. *)
Definition used_cuts : list UsedFacetCut :=
  let sel n := @hexlify model_ethers (be_enc 4 n) in
  [ mkUsedCut (address 6) [sel 21; sel 16] 0 true; mkUsedCut (address 3) [sel 22] 0 true;
    mkUsedCut (address 5) [sel 14; sel 15] 0 false; mkUsedCut (address 4) [sel 8] 0 false ].
Definition data : ChainTypeManagerInitializeData :=
  mkInitData initialOwner (address 11) (address 1) expectedGenesisRoot 54 expectedGenesisBatchCommitment
    (2 ^ 32 * 24) used_cuts (address 9) "0xca11".

(** Artifacts with one bytecode; every creation transaction passes it and its arguments. *)
Definition inspect : Inspect := {|
  deployedBytecode _ := Done "0x6001";
  bytecode _ := Done "0x6000";
  encodeDeploy _ _ := Done "0x00ff";
  transaction_data t := Some t;
  parse_factory_call _ := Done ("0x600000FF", expectedSalt);
  parse_ctm_call _ := Done (Some data);
  abi_decode tys _ :=
    if bool_decide (tys = init_calldata_types)
    then Done (VStr (address 8) :: map (λ x, VStr x.1) expected_hashes ++ replicate 7 (VNum 1))
    else Done [VStr (address 13); VStr (address 10); VStr "0x1217"];
  localeCompare a b := if String.eqb a b then 0 else if String.leb a b then -1 else 1;
|}.

Lemma locale_leb a b : (@localeCompare inspect a b <=? 0) = String.leb a b.
Proof.
  cbn. destruct (String.eqb_spec a b) as [->|_].
  - by destruct (String.leb_total b b) as [->| ->].
  - by destruct (String.leb a b).
Qed.

#[export] Instance inspect_laws : @InspectLaws model_ethers interfaces inspect.
Proof.
  constructor.
  - intros a b. rewrite !locale_leb. apply String.leb_total.
  - intros a b c. rewrite !locale_leb. apply string_leb_trans.
  - intros a b _ _. rewrite !locale_leb. apply String.leb_antisym.
  - intros f. exists (be_enc 4 (Z.of_nat (String.length f))). split; [apply be_enc_length|done].
  - intros text d [= <-]. repeat constructor; eexists; (split; [|reflexivity]); apply be_enc_length.
Qed.

Definition start : world := model_world env ∅.

Lemma start_distinct : facets_distinct (w_env start).
Proof.
  split; apply (bool_decide_unpack _); vm_compute; exact I.
Qed.

Definition finish : world := (@upgrade_consistency_checker model_ethers network interfaces inspect start).2.

Lemma start_runs : @upgrade_consistency_checker model_ethers network interfaces inspect start = (Done tt, finish).
Proof.
  assert (E : (@upgrade_consistency_checker model_ethers network interfaces inspect start).1 = Done tt)
    by (vm_compute; reflexivity).
  rewrite <- E. apply surjective_pairing.
Qed.

Lemma finish_mined : w_mined finish = w_mined start.
Proof. vm_compute. reflexivity. Qed.


Definition compiled_cuts : list (string * FacetCut) :=
  match @expected_cuts interfaces env with Done cuts => cuts | _ => [] end.
Definition all_code (a : string) : bool := negb (String.eqb a AddressZero).


End UpgradeSamples.
