(* ===== verification/SyncLayer.v ===== *)
(** * The settlement-layer script ([l1-contracts/scripts/sync-layer.ts])

    The six commands that prepare, register and use a gateway chain.  They run
    on top of the deployer; the network their wallet is connected to is
    [Chain], the other one and what zksync-ethers answers about the gateway is
    the class [Gateway]. *)

From stdpp Require Import base gmap list strings pretty.
From Stdlib Require Import ZArith Lia.
From S2P Require Import Prelude Js Ethers DiamondCut Utils World DeployUtils Deployer.
From S2P Require Import DeployerContracts DeployerBridges DeployerChains DeployProcess Frames DeployerProofs CliScripts.

(** A log of a transaction receipt, the fields the script reads, and the receipt. *)
Record L2ToL1Log := mkLog { log_sender : string; log_key : string; log_value : string }.
Record L2Receipt := mkReceipt {
  l2ToL1Logs : list L2ToL1Log;
  l1BatchNumber : Z;
  l1BatchTxIndex : Z;
}.

(** [getLogProof]: the index of the message and the siblings. *)
Record LogProof := mkLogProof { proof_id : Z; proof_proof : list string }.

Class Gateway := {
  (** a view on the network the wallet is not connected to *)
  other_view : string → string → string → list val → outcome val;
  (** [provider.getTransactionReceipt(hash)], [null] for an unknown one *)
  getTransactionReceipt : string → outcome (option L2Receipt);
  getLogProof : string → Z → outcome LogProof;
  (** [zkUtils.getL2HashFromPriorityOp(receipt, zkChain)] *)
  getL2HashFromPriorityOp : tx_response → val → outcome string;
  (** waiting for the L2 transaction of a priority operation: the hash of its receipt *)
  wait_priority_op : tx_response → outcome string;
}.

Definition BOOTLOADER_FORMAL_ADDRESS : string := "0x0000000000000000000000000000000000008001".

(** Calldata of the proof of a failed transaction. *)
Record FailureProof := mkFailureProof {
  fp_l2BatchNumber : Z;
  fp_l2MessageIndex : Z;
  fp_l2TxNumberInBatch : Z;
  fp_merkleProof : list string;
}.

(** [{ chainId, mintValue, ... }] of [requestL2TransactionTwoBridges]. *)
Definition two_bridges (cfg : SystemConfig) (chainId : string) (value : Z) (l2GasLimit : val)
    (refund secondBridge calldata : string) : val :=
  VObj [ ("chainId", VStr chainId); ("mintValue", VNum value); ("l2Value", VNum 0);
         ("l2GasLimit", l2GasLimit);
         ("l2GasPerPubdataByteLimit", VNum (requiredL2GasPricePerPubdata cfg));
         ("refundRecipient", VStr refund); ("secondBridgeAddress", VStr secondBridge);
         ("secondBridgeValue", VNum 0); ("secondBridgeCalldata", VStr calldata) ].

Section sync_layer.
Context `{EthersOps} `{Chain} `{Artifacts} `{ZkArtifacts} `{Files} `{Interfaces} `{Gateway}.
Variable cfg : SystemConfig.
Variable key_address : string → outcome string.
Variable mnemonic_address : string → string → outcome string.
Variable file_mnemonic : string → outcome string.
Variable parse_gwei : string → outcome Z.
Variable format_gwei : Z → string.

(** ** Shared steps *)

(** [deployer.addresses.group.field = getAddressFromEnv(name)] *)
Definition set_from_env (group field name : string) : M unit :=
  a ← address_env name; set_address group field a.

(** [receipt.transactionHash] *)
Definition transactionHash (receipt : option tx_response) : M string :=
  r ← lift (or_throw read_error receipt); mret (tx_hash (response_tx r)).

Definition l2_hash (receipt : option tx_response) (zkChain : val) : M string :=
  r ← lift (or_throw read_error receipt); lift (getL2HashFromPriorityOp r zkChain).

Definition only_zksync : M unit :=
  v ← get_env "CONTRACTS_BASE_NETWORK_ZKSYNC";
  if bool_decide (v = Some "true") then mret tt
  else throw (JsError "This script is only for zkSync network").

(** ** compute-migrated-chain-address *)

(** [bytes32(x)] of a number and of an address *)
Definition bytes32_number (n : jsnum) : outcome string :=
  z ← or_throw invalid_hex n; or_throw invalid_hex (hexZeroPad (bignum_hex z) 32).
Definition bytes32_address (a : string) : outcome string :=
  b ← or_throw invalid_hex (arrayify a); or_throw invalid_hex (hexZeroPad (hexlify b) 32).

(** [hexConcat([...mandatoryInitData, diamondCut.initCalldata])] *)
Definition migrated_initCalldata (chainId : jsnum) (bridgehub ctm : string) (protocolVersion : Z)
    (admin timelock baseTokenAssetId sharedBridge storedBatchZero initCalldata : string) : outcome string :=
  chain ← bytes32_number chainId;
  hub ← bytes32_address bridgehub;
  manager ← bytes32_address ctm;
  version ← bytes32_number (Some protocolVersion);
  wallet ← bytes32_address admin;
  lock ← bytes32_address timelock;
  bridge ← bytes32_address sharedBridge;
  hexConcat [ hexlify (selector "DiamondInit" "initialize"); chain; hub; manager; version; wallet; lock;
              baseTokenAssetId; bridge; storedBatchZero; initCalldata ].

(** The wallet is connected to the gateway, [bridgehub] is on L1. *)
Definition migrated_chain_address (cmd : options) (d : Deployer) : M unit :=
  set_from_env "StateTransition" "AdminFacet" "GATEWAY_ADMIN_FACET_ADDR";;
  set_from_env "StateTransition" "MailboxFacet" "GATEWAY_MAILBOX_FACET_ADDR";;
  set_from_env "StateTransition" "ExecutorFacet" "GATEWAY_EXECUTOR_FACET_ADDR";;
  set_from_env "StateTransition" "GettersFacet" "GATEWAY_GETTERS_FACET_ADDR";;
  set_from_env "StateTransition" "DiamondInit" "GATEWAY_DIAMOND_INIT_ADDR";;
  set_from_env "StateTransition" "Verifier" "GATEWAY_VERIFIER_ADDR";;
  set_from_env "" "ValidatorTimeLock" "GATEWAY_VALIDATOR_TIMELOCK_ADDR";;
  set_from_env "Bridges" "SharedBridgeProxy" "CONTRACTS_L2_SHARED_BRIDGE_ADDR";;
  set_from_env "StateTransition" "StateTransitionProxy" "GATEWAY_STATE_TRANSITION_PROXY_ADDR";;
  stm ← contract_at "StateTransition" "StateTransitionProxy";
  bridgehub ← contract_at "Bridgehub" "BridgehubProxy";
  contract_at "StateTransition" "DiamondInit";;
  diamondCut ← initialZkSyncZKChainDiamondCut cfg (Some []) true;
  gatewayBridgehub ← address_env "GATEWAY_BRIDGEHUB_PROXY_ADDR";
  version ← view stm "ChainTypeManager" "protocolVersion" [];
  protocolVersion ← as_number version;
  timelock ← contract_at "" "ValidatorTimeLock";
  asset ← lift (other_view bridgehub "Bridgehub" "baseTokenAssetId"
                  [match cmd_chainId cmd with Some s => VStr s | None => VUndef end]);
  baseTokenAssetId ← as_address asset;
  sharedBridge ← contract_at "Bridges" "SharedBridgeProxy";
  zero ← view stm "ChainTypeManager" "storedBatchZero" [];
  storedBatchZero ← as_address zero;
  data ← lift (migrated_initCalldata (js_parseInt (cmd_chainId cmd)) gatewayBridgehub stm protocolVersion
                 (deployWallet d) timelock baseTokenAssetId sharedBridge storedBatchZero (initCalldata diamondCut));
  bytecode ← lift (or_throw artifact_missing (zk_bytecode "DiamondProxy"));
  constructorData ← lift (or_throw invalid_hex (abi_encode ["uint256"; DIAMOND_CUT_DATA_ABI_STRING]
    [VNum network_chainId; diamondCut_val (DiamondCut.diamondCut (facetCuts diamondCut) (initAddress diamondCut) data)]));
  address ← lift (computeL2Create2Address stm bytecode constructorData HashZero);
  console_log address.

Definition compute_migrated_chain_address (cmd : options) : M unit :=
  mnemonic ← ethTestConfig file_mnemonic;
  web3Provider;;
  only_zksync;;
  wallet ← choose_wallet key_address mnemonic_address cmd mnemonic "m/44'/60'/0'/0/1";
  a ← from_env deployedAddressesFromEnv;
  d ← script_Deployer wallet true (Some a) None None;
  migrated_chain_address cmd d.

(** ** deploy-sync-layer-contracts *)

Definition deploy_sync_layer_contracts (cmd : options) : M unit :=
  mnemonic ← ethTestConfig file_mnemonic;
  web3Provider;;
  only_zksync;;
  wallet ← choose_wallet key_address mnemonic_address cmd mnemonic "m/44'/60'/0'/0/1";
  log_wallet wallet;;
  let owner := truthy_or (cmd_ownerAddress cmd) wallet in
  console_log ("Using owner address: " +:+ owner);;
  gasPrice ← choose_gasPrice parse_gwei format_gwei cmd;
  nonce ← getTransactionCount;
  console_log ("Using nonce: " +:+ pretty nonce);;
  create2Salt ← (if str_truthy (cmd_create2Salt cmd) then mret (default "" (cmd_create2Salt cmd))
                 else random_salt);
  a ← from_env deployedAddressesFromEnv;
  d ← script_Deployer wallet true (Some a) (Some owner) None;
  when (isZkMode d) (console_log "Deploying on a zkSync network!");;
  set_from_env "Bridges" "SharedBridgeProxy" "CONTRACTS_L2_SHARED_BRIDGE_ADDR";;
  initialBridgehubDeployment cfg d (Some []) (Some gasPrice) true (Some create2Salt) None;;
  initialBridgehubDeployment cfg d (Some []) (Some gasPrice) false (Some create2Salt) None.

(** ** register-sync-layer *)

(** The body of [if (!ethIsBaseToken)]: it reads [this], which is undefined in
    a function of a module, before anything else. *)
Definition fund_base_token (baseTokenAddress : string) : M unit := throw read_error.

Definition registerSLContractsOnL1 (d : Deployer) : M unit :=
  chainId ← number_env "CHAIN_ETH_ZKSYNC_NETWORK_ID";
  console_log ("Gateway chain Id: " +:+ chainId);;
  l1Bridgehub ← contract_at "Bridgehub" "BridgehubProxy";
  l1CTM ← contract_at "StateTransition" "StateTransitionProxy";
  console_log l1CTM;;
  gatewayAddress ← view l1Bridgehub "Bridgehub" "getZKChain" [VStr chainId];
  console_log "Registering Gateway chain id on the CTM";;
  registration ← encode_call "Bridgehub" "registerSettlementLayer" [VStr chainId; VBool true];
  receipt1 ← executeUpgrade d (VStr l1Bridgehub) 0 registration no_opts false;
  hash1 ← transactionHash receipt1;
  console_log ("Registering Gateway as settlement layer on the L1 " +:+ hash1);;
  price ← getGasPrice;
  let gasPrice := price * GAS_MULTIPLIER in
  l2GasLimit ← priorityTxMaxGasLimit;
  cost ← view l1Bridgehub "Bridgehub" "l2TransactionBaseCost"
           [VStr chainId; VNum gasPrice; l2GasLimit; VNum (requiredL2GasPricePerPubdata cfg)];
  baseCost ← as_number cost;
  let value := baseCost * 10 in
  token ← view l1Bridgehub "Bridgehub" "baseToken" [VStr chainId];
  baseTokenAddress ← as_address token;
  let ethIsBaseToken := bool_decide (baseTokenAddress = ADDRESS_ONE) in
  when (negb ethIsBaseToken) (fund_base_token baseTokenAddress);;
  ctmDeploymentTracker ← contract_at "Bridgehub" "CTMDeploymentTrackerProxy";
  assetRouter ← contract_at "Bridges" "SharedBridgeProxy";
  assetId ← view l1Bridgehub "Bridgehub" "ctmAssetIdFromChainId" [VStr chainId];
  counterpart ← lift (or_throw invalid_hex
    (abi_encode ["bytes32"; "address"] [assetId; VStr L2_BRIDGEHUB_ADDRESS]));
  request2 ← encode_call "Bridgehub" "requestL2TransactionTwoBridges"
    [two_bridges cfg chainId value l2GasLimit (deployWallet d) assetRouter ("0x02" +:+ js_slice 2 counterpart)];
  receipt2 ← executeUpgrade d (VStr l1Bridgehub) (if ethIsBaseToken then value else 0) request2 no_opts false;
  l2TxHash ← l2_hash receipt2 gatewayAddress;
  hash2 ← transactionHash receipt2;
  console_log ("CTM asset registered in L2SharedBridge on SL tx hash: " +:+ hash2);;
  console_log ("CTM asset registered in L2SharedBridge on SL l2 tx hash: " +:+ l2TxHash);;
  l2CTMAddress ← address_env "GATEWAY_STATE_TRANSITION_PROXY_ADDR";
  whitelist ← encode_call "Bridgehub" "addChainTypeManager" [VStr l2CTMAddress];
  receipt3 ← executeUpgradeOnL2 cfg d (VStr chainId) (VStr L2_BRIDGEHUB_ADDRESS) (Some gasPrice) whitelist
               l2GasLimit no_opts false;
  l2TxHash2dot5 ← l2_hash receipt3 gatewayAddress;
  console_log ("L2 CTM ,l2 txHash: " +:+ l2TxHash2dot5);;
  hash3 ← transactionHash receipt3;
  console_log ("L2 CTM address " +:+ l2CTMAddress +:+ " registered on gateway, txHash: " +:+ hash3);;
  managers ← lift (or_throw invalid_hex (abi_encode ["address"; "address"] [VStr l1CTM; VStr l2CTMAddress]));
  request4 ← encode_call "Bridgehub" "requestL2TransactionTwoBridges"
    [two_bridges cfg chainId value l2GasLimit (deployWallet d) ctmDeploymentTracker
       ("0x01" +:+ js_slice 2 managers)];
  receipt4 ← executeUpgrade d (VStr l1Bridgehub) value request4 no_opts false;
  l2TxHash3 ← l2_hash receipt4 gatewayAddress;
  hash4 ← transactionHash receipt4;
  console_log ("CTM asset registered in L2 Bridgehub on SL " +:+ hash4);;
  console_log ("CTM asset registered in L2 Bridgehub on SL l2TxHash " +:+ l2TxHash3).

Definition register_sync_layer (cmd : options) : M unit :=
  mnemonic ← ethTestConfig file_mnemonic;
  web3Provider;;
  wallet ← choose_wallet key_address mnemonic_address cmd mnemonic "m/44'/60'/0'/0/1";
  let owner := truthy_or (cmd_ownerAddress cmd) wallet in
  console_log ("Using owner address: " +:+ owner);;
  a ← from_env deployedAddressesFromEnv;
  d ← script_Deployer wallet false (Some a) (Some owner) None;
  registerSLContractsOnL1 d.

(** ** migrate-to-sync-layer *)

(** The action after the deployer is constructed. *)
Definition migrate_chain (cmd : options) (d : Deployer) : M unit :=
  gatewayChainId ← number_env "GATEWAY_CHAIN_ID";
  gasPrice ← (if str_truthy (cmd_gasPrice cmd) then lift (parse_gwei (default "" (cmd_gasPrice cmd)))
              else p ← getGasPrice; mret (p * GAS_MULTIPLIER));
  currentChainId ← number_env "CHAIN_ETH_ZKSYNC_NETWORK_ID";
  ctm ← contract_at "StateTransition" "StateTransitionProxy";
  counterPart ← address_env "GATEWAY_STATE_TRANSITION_PROXY_ADDR";
  set_from_env "StateTransition" "AdminFacet" "GATEWAY_ADMIN_FACET_ADDR";;
  set_from_env "StateTransition" "MailboxFacet" "GATEWAY_MAILBOX_FACET_ADDR";;
  set_from_env "StateTransition" "ExecutorFacet" "GATEWAY_EXECUTOR_FACET_ADDR";;
  set_from_env "StateTransition" "GettersFacet" "GATEWAY_GETTERS_FACET_ADDR";;
  set_from_env "StateTransition" "Verifier" "GATEWAY_VERIFIER_ADDR";;
  set_from_env "StateTransition" "DiamondInit" "GATEWAY_DIAMOND_INIT_ADDR";;
  receipt ← moveChainToGateway cfg d gatewayChainId (Some gasPrice);
  gatewayAddress ← view ctm "ChainTypeManager" "getZKChain" [VStr gatewayChainId];
  l2TxHash ← lift (getL2HashFromPriorityOp receipt gatewayAddress);
  console_log ("Hash of the transaction on SL chain:  " +:+ l2TxHash);;
  finalized ← lift (wait_priority_op receipt);
  console_log ("Finalized on SL with hash: " +:+ finalized);;
  zkChain ← lift (other_view counterPart "ChainTypeManager" "getZKChain" [VStr currentChainId]);
  zkChainAddress ← as_address zkChain;
  console_log ("CONTRACTS_DIAMOND_PROXY_ADDR=" +:+ zkChainAddress);;
  console_log "Success!".

Definition migrate_to_sync_layer (cmd : options) : M unit :=
  mnemonic ← ethTestConfig file_mnemonic;
  web3Provider;;
  console_log "Starting migration of the current chain to sync layer";;
  wallet ← choose_wallet key_address mnemonic_address cmd mnemonic "m/44'/60'/0'/0/1";
  a ← from_env deployedAddressesFromEnv;
  d ← script_Deployer wallet false (Some a) (Some (truthy_or (cmd_ownerAddress cmd) wallet)) None;
  migrate_chain cmd d.

(** ** recover-from-failed-migration *)

(** [logs[findIndex(...)].value]: no such log is an undefined element. *)
Definition getTxFailureProof (l2TxHash : string) : outcome FailureProof :=
  hash ← or_throw invalid_hex (arrayify l2TxHash);
  found ← getTransactionReceipt (hexlify hash);
  receipt ← or_throw read_error found;
  match list_find (λ l, log_sender l = BOOTLOADER_FORMAL_ADDRESS ∧ log_key l = l2TxHash) (l2ToL1Logs receipt) with
  | None => Throw read_error
  | Some (i, l) =>
      if String.eqb (log_value l) HashZero then
        proof ← getLogProof l2TxHash (Z.of_nat i);
        mret (mkFailureProof (l1BatchNumber receipt) (proof_id proof) (l1BatchTxIndex receipt) (proof_proof proof))
      else Throw (JsError "The tx was successful")
  end.

Definition recover_chain (gatewayChainId : string) (proof : FailureProof) : M unit :=
  zkChain ← contract_at "StateTransition" "DiamondProxy";
  admin ← view zkChain "IZKChain" "getAdmin" [];
  console_log (match admin with VStr s => s | _ => "undefined" end);;
  console_log "Executing recovery...";;
  call_and_wait zkChain "IZKChain" "recoverFromFailedMigrationToGateway"
    [VStr gatewayChainId; VNum (fp_l2BatchNumber proof); VNum (fp_l2MessageIndex proof);
     VNum (fp_l2TxNumberInBatch proof); VArr (VStr <$> fp_merkleProof proof)] no_opts;;
  console_log "Success!".

Definition recover_from_failed_migration (failedTxL2Hash : string) (cmd : options) : M unit :=
  mnemonic ← ethTestConfig file_mnemonic;
  web3Provider;;
  gatewayChainId ← number_env "GATEWAY_CHAIN_ID";
  console_log "Obtaining proof...";;
  proof ← lift (getTxFailureProof failedTxL2Hash);
  wallet ← choose_wallet key_address mnemonic_address cmd mnemonic "m/44'/60'/0'/0/1";
  console_log wallet;;
  a ← from_env deployedAddressesFromEnv;
  script_Deployer wallet false (Some a) (Some (truthy_or (cmd_ownerAddress cmd) wallet)) None;;
  recover_chain gatewayChainId proof.

(** ** prepare-validators *)

Definition option_val (o : option string) : val := match o with Some s => VStr s | None => VUndef end.

(** The transfer is not waited for. *)
Definition enable_validator (timelock currentChainId : string) (operator : option string) : M unit :=
  known ← view timelock "ValidatorTimelock" "validators" [VStr currentChainId; option_val operator];
  match known with
  | VBool true => mret tt
  | _ =>
      sendTransaction operator "0x" (with_value (5 * 10 ^ 18) no_opts);;
      call_and_wait timelock "ValidatorTimelock" "addValidator" [VStr currentChainId; option_val operator] no_opts;;
      mret tt
  end.

Definition enable_validators (currentChainId : string) (operators : list (option string)) : M unit :=
  console_log "Enabling validators";;
  set_from_env "" "ValidatorTimeLock" "GATEWAY_VALIDATOR_TIMELOCK_ADDR";;
  timelock ← contract_at "" "ValidatorTimeLock";
  for_each operators (enable_validator timelock currentChainId);;
  set_from_env "StateTransition" "StateTransitionProxy" "GATEWAY_STATE_TRANSITION_PROXY_ADDR";;
  set_from_env "Bridgehub" "BridgehubProxy" "GATEWAY_BRIDGEHUB_PROXY_ADDR";;
  zkChain ← contract_at "StateTransition" "DiamondProxy";
  console_log "Setting SL DA validators";;
  l1DaValidator ← address_env "GATEWAY_L1_RELAYED_SL_DA_VALIDATOR";
  l2DaValidator ← address_env "CONTRACTS_L2_DA_VALIDATOR_ADDR";
  call_and_wait zkChain "IZKChain" "setDAValidatorPair" [VStr l1DaValidator; VStr l2DaValidator] no_opts;;
  console_log "Success!".

Definition prepare_validators (cmd : options) : M unit :=
  mnemonic ← ethTestConfig file_mnemonic;
  web3Provider;;
  currentChainId ← number_env "CHAIN_ETH_ZKSYNC_NETWORK_ID";
  wallet ← choose_wallet key_address mnemonic_address cmd mnemonic "m/44'/60'/0'/0/1";
  commit ← get_env "ETH_SENDER_SENDER_OPERATOR_COMMIT_ETH_ADDR";
  blobs ← get_env "ETH_SENDER_SENDER_OPERATOR_BLOBS_ETH_ADDR";
  a ← from_env deployedAddressesFromEnv;
  script_Deployer wallet true (Some a) (Some wallet) None;;
  enable_validators currentChainId [commit; blobs].

End sync_layer.

(** ** The address of a migrated chain *)

Section migrated_address.
Context `{EthersLaws}.

Lemma hexConcat_Done l s : hexConcat l = Done s ↔ ∃ bs, mapM arrayify l = Some bs ∧ s = hexlify (concat bs).
Proof.
  unfold hexConcat. destruct (mapM arrayify l) as [bs|]; cbn.
  - split; [intros [= <-]; eauto|]. by intros (bs' & [= <-] & ->).
  - split; [done|]. by intros (bs' & ? & _).
Qed.

Lemma padded_length s s' n b : hexZeroPad s n = Some s' → parse_hex s = Some b →
  ∃ b', parse_hex s' = Some b' ∧ length b' = n.
Proof.
  intros E Hs. destruct (decide (length b ≤ n)%nat) as [Hl|Hl].
  - destruct (hexZeroPad_spec s b n Hs Hl) as (s1 & E1 & Hp). rewrite E in E1. injection E1 as <-.
    eexists. split; [exact Hp|]. rewrite length_app, length_replicate. lia.
  - rewrite (hexZeroPad_long s b n Hs) in E by lia. done.
Qed.

Lemma bytes32_address_length a s : bytes32_address a = Done s → ∃ b, arrayify s = Some b ∧ length b = 32%nat.
Proof.
  unfold bytes32_address. destruct (arrayify a) as [b|]; [|done]. cbn. 
  destruct (hexZeroPad (hexlify b) 32) as [s'|] eqn:E; [|done]. intros [= <-].
  rewrite arrayify_spec. eapply padded_length; [exact E|]. apply parse_hex_hexlify.
Qed.
Lemma bytes32_number_length n s : 0 ≤ n → bytes32_number (Some n) = Done s →
  ∃ b, arrayify s = Some b ∧ length b = 32%nat.
Proof.
  intros Hn. unfold bytes32_number. cbn.
  destruct (hexZeroPad (bignum_hex n) 32) as [s'|] eqn:E; [|done]. intros [= <-].
  rewrite arrayify_spec. eapply padded_length; [exact E|]. rewrite bignum_hex_spec by done. apply parse_hex_digits.
Qed.

Lemma mapM_arrayify_cons s b l bs :
  arrayify s = Some b → mapM arrayify (s :: l) = Some bs → ∃ bs', bs = b :: bs' ∧ mapM arrayify l = Some bs'.
Proof.
  intros Hb. cbn [mapM]. rewrite Hb. cbn. destruct (mapM arrayify l) as [bs'|]; [|done].
  cbn. intros [= <-]. eauto.
Qed.

(** [compute-migrated-chain-address] never computes the address of the chain.
    The initialisation calldata it puts into the CREATE2 preimage has a word, the
    shared bridge, that the chain type manager does not write: whatever the chain,
    it is one word longer than the calldata [_deployNewChain] builds from the same
    diamond cut, so it is never that calldata. *)
Theorem migrated_calldata_differs chainId hub ctm version admin timelock asset bridge zero cut data
    manager chainId' assetId' admin' expected :
  0 ≤ chainId → 0 ≤ version →
  migrated_initCalldata (Some chainId) hub ctm version admin timelock asset bridge zero (initCalldata cut) =
    Done data →
  (∃ b, parse_hex asset = Some b ∧ length b = 32%nat) → (∃ b, parse_hex zero = Some b ∧ length b = 32%nat) →
  ctm_widths manager chainId' assetId' admin' → ctm_init_data manager chainId' assetId' admin' cut = Some expected →
  ∃ b, parse_hex data = Some b ∧ length b = (length expected + 32)%nat.
Proof.
  intros Hc Hv E (ba & Ha & Hla) (bz & Hz & Hlz) Hw Hx. unfold migrated_initCalldata in E.
  apply outcome_bind_inv in E as (s1 & (b1 & E1 & L1)%bytes32_number_length & E); [|done].
  apply outcome_bind_inv in E as (s2 & (b2 & E2 & L2)%bytes32_address_length & E).
  apply outcome_bind_inv in E as (s3 & (b3 & E3 & L3)%bytes32_address_length & E).
  apply outcome_bind_inv in E as (s4 & (b4 & E4 & L4)%bytes32_number_length & E); [|done].
  apply outcome_bind_inv in E as (s5 & (b5 & E5 & L5)%bytes32_address_length & E).
  apply outcome_bind_inv in E as (s6 & (b6 & E6 & L6)%bytes32_address_length & E).
  apply outcome_bind_inv in E as (s7 & (b7 & E7 & L7)%bytes32_address_length & E).
  apply hexConcat_Done in E as (bs & E & ->). exists (concat bs). split; [apply parse_hex_hexlify|].
  destruct (ctm_init_data_length _ _ _ _ _ _ Hw Hx) as (rest & Er & ->). rewrite <- arrayify_spec in Ha, Hz, Er.
  do 11 (eapply mapM_arrayify_cons in E as (? & -> & E); [|first [apply arrayify_hexlify|eassumption]]).
  injection E as <-. cbn [concat]. rewrite !length_app, !selector_length. cbn [length]. lia.
Qed.

End migrated_address.

(** ** Registering a gateway *)

(** An operation given to governance: its target, value, calldata and the options of its execution. *)
Record operation := mkOperation {
  op_target : val;
  op_value : Z;
  op_data : string;
  op_options : tx_options;
}.

(** The transactions of operations carried out one after the other: each is
    scheduled, then executed with its value. *)
Fixpoint governed `{EthersOps} `{Chain} (n : Z) (r : nat) (gov : string) (ops : list operation) : list tx :=
  match ops with
  | [] => []
  | o :: ops =>
      let op := operation_val (op_target o) (op_value o) (op_data o) (random_bytes32 r) in
      [ mkTx n (Some gov) (calldata "IGovernance" "scheduleTransparent" [op; VNum 0]) 0 None None [];
        mkTx (n + 1) (Some gov) (calldata "IGovernance" "execute" [op]) (op_value o)
          (o_gasPrice (op_options o)) (o_gasLimit (op_options o)) (o_factoryDeps (op_options o)) ] ++
      governed (n + 2) (S r) gov ops
  end.

(** The argument of [requestL2TransactionDirect]. *)
Definition direct_request (cfg : SystemConfig) (d : Deployer) (chainId target : val) (cost : Z) (data : string)
    (l2Gas : val) : val :=
  VObj [ ("chainId", chainId); ("l2Contract", target); ("mintValue", VNum cost);
         ("l2Value", VNum 0); ("l2Calldata", VStr data); ("l2GasLimit", l2Gas);
         ("l2GasPerPubdataByteLimit", VNum (requiredL2GasPricePerPubdata cfg));
         ("factoryDeps", VArr []); ("refundRecipient", VStr (deployWallet d)) ].

(** All of them go through, each on the history it is mined on. *)
Fixpoint goes_through `{EthersOps} `{Chain} `{Artifacts} (d : Deployer) (n : Z) (r : nat) (gov : string)
    (h : list tx) (ops : list operation) : Prop :=
  match ops with
  | [] => True
  | o :: ops =>
      let op := operation_val (op_target o) (op_value o) (op_data o) (random_bytes32 r) in
      let ts := governed n r gov [o] in
      (∀ t1 t2, ts = [t1; t2] → carried_out d gov h op t1 t2) ∧ goes_through d (n + 2) (S r) gov (h ++ ts) ops
  end.

(** The receipt of the execution of the operation [i]. *)
Definition receipt_of `{EthersOps} `{Chain} (w : world) (gov : string) (ops : list operation) (i : nat)
  : option tx_response :=
  let txs := governed (tx_count w) (w_random w) gov ops in
  Mined (w_mined w ++ take (2 * i + 1) txs) <$> txs !! (2 * i + 1)%nat.

Section registration.
Context `{EthersOps} `{Chain} `{Artifacts}.
Variables (d : Deployer) (w0 : world) (gov : string) (plan : list operation).
Hypothesis start_pool : w_pool w0 = [].
Hypothesis start_governance : w_addresses w0 !! "" ≫= (λ g, g !! "Governance") = Some gov.
Hypothesis plan_goes : goes_through d (tx_count w0) (w_random w0) gov (w_mined w0) plan.

(** The state after these operations, up to the console. *)
Record after (ops : list operation) (w : world) : Prop := {
  after_ran : ran w0 (governed (tx_count w0) (w_random w0) gov ops) (w_addresses w0) w;
  after_random : w_random w = (w_random w0 + length ops)%nat;
}.

(** From [ops] operations done to [ops'], with this outcome. *)
Definition leads {A} (ops : list operation) (m : M A) (o : outcome A) (ops' : list operation) : Prop :=
  ∀ w, after ops w → ∃ w', m w = (o, w') ∧ after ops' w'.

Lemma after_start : after [] w0.
Proof. split; [by apply ran_refl|cbn; lia]. Qed.

Lemma leads_bind {A B} ops ops1 ops2 (m : M A) (k : A → M B) a o :
  leads ops m (Done a) ops1 → leads ops1 (k a) o ops2 → leads ops (m ≫= k) o ops2.
Proof.
  intros Hm Hk w Hw. destruct (Hm w Hw) as (w1 & E1 & H1'). destruct (Hk w1 H1') as (w2 & E2 & H2').
  exists w2. by rewrite (run_bind_done _ _ _ _ _ E1).
Qed.

Lemma leads_throw {A B} ops (m : M A) (k : A → M B) x :
  leads ops m (Throw x) ops → leads ops (m ≫= k) (Throw x) ops.
Proof.
  intros Hm w Hw. destruct (Hm w Hw) as (w1 & E1 & H1'). exists w1.
  by rewrite (run_bind_throw _ _ _ _ _ E1).
Qed.

(** A step that only looks at the state. *)
Lemma leads_same {A} ops (m : M A) o : (∀ w, after ops w → m w = (o, w)) → leads ops m o ops.
Proof. intros Hm w Hw. exists w. by rewrite Hm. Qed.

Lemma leads_lift {A} ops (o : outcome A) : leads ops (lift o) o ops.
Proof. by apply leads_same. Qed.
Lemma leads_ret {A} ops (a : A) : leads ops (mret a) (Done a) ops.
Proof. by apply leads_same. Qed.
Lemma leads_log ops s : leads ops (console_log s) (Done tt) ops.
Proof. intros w [R Hr]. eexists. split; [done|]. split; [by apply ran_console|done]. Qed.
Lemma leads_env {A} ops (f : environ → outcome A) o : f (w_env w0) = o → leads ops (from_env f) o ops.
Proof. intros E. apply leads_same. intros w [R _]. unfold from_env. by rewrite (ran_env _ _ _ _ R), E. Qed.
Lemma leads_view ops a c m args v :
  (∀ h, view_call h a c m args = Done v) → leads ops (view a c m args) (Done v) ops.
Proof. intros E. apply leads_same. intros w _. unfold view. by rewrite E. Qed.
Lemma leads_gasPrice ops p : (∀ h, gas_price h = p) → leads ops getGasPrice (Done p) ops.
Proof. intros E. apply leads_same. intros w _. unfold getGasPrice. by rewrite E. Qed.
Lemma leads_encode ops c m args :
  encodable c m args → leads ops (encode_call c m args) (Done (calldata c m args)) ops.
Proof. intros He. apply leads_same. intros w _. by apply encode_encodable. Qed.
Lemma leads_contract ops group field a :
  w_addresses w0 !! group ≫= (λ g, g !! field) = Some a → leads ops (contract_at group field) (Done a) ops.
Proof.
  intros E. apply leads_same. intros w [R _]. apply contract_at_run. by rewrite (ran_addresses _ _ _ _ R).
Qed.

Lemma governed_app n r ops ops' :
  governed n r gov (ops ++ ops') =
  governed n r gov ops ++ governed (n + 2 * Z.of_nat (length ops)) (r + length ops)%nat gov ops'.
Proof.
  revert n r. induction ops as [|o ops IH]; intros n r; cbn [governed app length].
  - f_equal; lia.
  - rewrite IH. do 2 f_equal. replace (n + 2 + 2 * Z.of_nat (length ops)) with (n + 2 * Z.of_nat (S (length ops))) by lia.
    by replace (S r + length ops)%nat with (r + S (length ops))%nat by lia.
Qed.

Lemma governed_length n r ops : length (governed n r gov ops) = (2 * length ops)%nat.
Proof. revert n r. induction ops as [|o ops IH]; intros n r; cbn [governed length app]; [done|]. rewrite IH. lia. Qed.

Lemma goes_through_app n r h ops ops' :
  goes_through d n r gov h (ops ++ ops') ↔
  goes_through d n r gov h ops ∧
  goes_through d (n + 2 * Z.of_nat (length ops)) (r + length ops)%nat gov (h ++ governed n r gov ops) ops'.
Proof.
  revert n r h. induction ops as [|o ops IH]; intros n r h; cbn [goes_through app length].
  - rewrite Z.add_0_r, Nat.add_0_r, app_nil_r. naive_solver.
  - rewrite IH. cbn [governed]. rewrite app_nil_r, <- !(assoc_L (++)). cbn [app].
    replace (n + 2 + 2 * Z.of_nat (length ops)) with (n + 2 * Z.of_nat (S (length ops))) by lia.
    replace (S r + length ops)%nat with (r + S (length ops))%nat by lia. tauto.
Qed.

(** The receipt of an operation does not depend on those after it. *)
Lemma receipt_prefix ops o rest :
  plan = ops ++ o :: rest →
  let ts := governed (tx_count w0 + 2 * Z.of_nat (length ops)) (w_random w0 + length ops)%nat gov [o] in
  ∀ t1 t2, ts = [t1; t2] →
  receipt_of w0 gov plan (length ops) =
    Some (Mined ((w_mined w0 ++ governed (tx_count w0) (w_random w0) gov ops) ++ [t1]) t2).
Proof.
  intros -> ts t1 t2 Ets. unfold receipt_of. rewrite (cons_middle o), governed_app, (governed_app _ _ [o]). fold ts.
  rewrite Ets. set (g := governed _ _ gov ops).
  assert (Hl : length g = (2 * length ops)%nat) by apply governed_length.
  rewrite lookup_app_r, take_app by lia. rewrite Hl, take_ge by lia.
  replace (2 * length ops + 1 - 2 * length ops)%nat with 1%nat by lia. cbn. by rewrite <- !(assoc_L (++)).
Qed.

(** An operation of the plan through governance. *)
Lemma leads_executeUpgrade ops target value data o :
  o_nonce o = None → (∃ rest, plan = ops ++ mkOperation target value data o :: rest) →
  ∃ r, receipt_of w0 gov plan (length ops) = Some r ∧
    leads ops (executeUpgrade d target value data o false) (Done (Some r)) (ops ++ [mkOperation target value data o]).
Proof.
  intros Hn [rest Hplan].
  set (n := tx_count w0 + 2 * Z.of_nat (length ops)). set (k := (w_random w0 + length ops)%nat).
  set (h := w_mined w0 ++ governed (tx_count w0) (w_random w0) gov ops).
  set (op := operation_val target value data (random_bytes32 k)).
  set (t1 := mkTx n (Some gov) (calldata "IGovernance" "scheduleTransparent" [op; VNum 0]) 0 None None []).
  set (t2 := mkTx (n + 1) (Some gov) (calldata "IGovernance" "execute" [op]) value
    (o_gasPrice o) (o_gasLimit o) (o_factoryDeps o)).
  exists (Mined (h ++ [t1]) t2). split; [by eapply (receipt_prefix ops _ rest Hplan)|].
  intros w [R Hr].
  assert (Hc : tx_count w = n) by (rewrite (ran_count _ _ _ _ R), governed_length; unfold n; lia).
  assert (Hco : carried_out d gov h op t1 t2).
  { rewrite Hplan in plan_goes. apply goes_through_app in plan_goes as [_ [Hgo _]]. by apply Hgo. }
  destruct (executeUpgrade_carried d target value data o w gov) as (w' & E & R' & Hr');
    [apply R|done|by rewrite (ran_addresses _ _ _ _ R)| |].
  { unfold schedule_tx, execute_tx, next_tx. rewrite Hc, Hr, (ran_mined _ _ _ _ R). exact Hco. }
  unfold schedule_tx, execute_tx, next_tx in E, R'. rewrite Hc, Hr in E, R'. exists w'. split.
  - by rewrite E, (ran_mined _ _ _ _ R).
  - rewrite (ran_addresses _ _ _ _ R) in R'. split; [|rewrite Hr', Hr, length_app; cbn; lia].
    rewrite governed_app. exact (ran_trans _ _ _ _ _ _ _ R R').
Qed.

(** On a chain whose base token is ether, a call on L2 is one operation. *)
Lemma leads_executeUpgradeOnL2 cfg hub cost ops chainId target gasPrice data l2Gas :
  let request := [direct_request cfg d chainId target cost data l2Gas] in
  let o := mkOperation (VStr hub) cost (calldata "Bridgehub" "requestL2TransactionDirect" request)
             (with_gasPrice gasPrice no_opts) in
  w_addresses w0 !! "Bridgehub" ≫= (λ g, g !! "BridgehubProxy") = Some hub →
  (∀ h, view_call h hub "Bridgehub" "l2TransactionBaseCost"
     [chainId; num_val gasPrice; l2Gas; VNum (requiredL2GasPricePerPubdata cfg)] = Done (VNum cost)) →
  (∀ h, view_call h hub "Bridgehub" "baseToken" [chainId] = Done (VStr ADDRESS_ONE)) →
  encodable "Bridgehub" "requestL2TransactionDirect" request →
  (∃ rest, plan = ops ++ o :: rest) →
  ∃ r, receipt_of w0 gov plan (length ops) = Some r ∧
    leads ops (executeUpgradeOnL2 cfg d chainId target gasPrice data l2Gas no_opts false) (Done (Some r)) (ops ++ [o]).
Proof.
  intros request o Hhub Hcost Htok Henc Hplan.
  destruct (leads_executeUpgrade ops (VStr hub) cost (op_data o) (with_gasPrice gasPrice no_opts)
    eq_refl Hplan) as (r & Er & Hr).
  exists r. split; [done|]. unfold executeUpgradeOnL2.
  eapply leads_bind; [by apply leads_contract|].
  eapply leads_bind; [by apply leads_view|]. eapply leads_bind; [apply leads_ret|].
  eapply leads_bind; [by apply leads_view|]. eapply leads_bind; [apply leads_ret|].
  eapply leads_bind; [apply leads_ret|]. eapply leads_bind; [by apply leads_encode|]. exact Hr.
Qed.

End registration.

(** The calls of the bridgehub a registration encodes. *)
Definition registration_requests `{EthersOps} (cfg : SystemConfig) (d : Deployer)
    (tracker router chain gas l2ctm e1 e2 : string) (cost : Z) : list (string * list val) :=
  let two_bridges_call bridge data :=
    ("requestL2TransactionTwoBridges", [two_bridges cfg chain (cost * 10) (VStr gas) (deployWallet d) bridge data]) in
  [ ("registerSettlementLayer", [VStr chain; VBool true]);
    two_bridges_call router ("0x02" +:+ js_slice 2 e1);
    ("requestL2TransactionDirect",
       [direct_request cfg d (VStr chain) (VStr L2_BRIDGEHUB_ADDRESS) cost
          (calldata "Bridgehub" "addChainTypeManager" [VStr l2ctm]) (VStr gas)]);
    two_bridges_call tracker ("0x01" +:+ js_slice 2 e2) ].

(** The operations of a registration: the calls, the value of each and the gas price of its execution. *)
Definition registration_operations `{EthersOps} (cfg : SystemConfig) (d : Deployer)
    (hub tracker router chain gas l2ctm e1 e2 : string) (price cost : Z) : list operation :=
  zip_with (λ '(m, args) '(value, o), mkOperation (VStr hub) value (calldata "Bridgehub" m args) o)
    (registration_requests cfg d tracker router chain gas l2ctm e1 e2 cost)
    [ (0, no_opts); (cost * 10, no_opts); (cost, with_gasPrice (Some (price * GAS_MULTIPLIER)) no_opts);
      (cost * 10, no_opts) ].

(** What the registration reads: the environment, the address book, the views
    of the bridgehub at its arguments and the encodings; and that the
    operations of [plan] go through. *)
Record gateway_setting `{EthersOps} `{Chain} `{Artifacts} `{Gateway} (cfg : SystemConfig) (d : Deployer) (w : world)
    (gov hub ctm tracker router chain gas l2ctm token e1 e2 : string) (asset zk : val) (price cost : Z)
    (plan : list operation) : Prop := {
  set_pool : w_pool w = [];
  set_gov : w_addresses w !! "" ≫= (λ g, g !! "Governance") = Some gov;
  set_hub : w_addresses w !! "Bridgehub" ≫= (λ g, g !! "BridgehubProxy") = Some hub;
  set_ctm : w_addresses w !! "StateTransition" ≫= (λ g, g !! "StateTransitionProxy") = Some ctm;
  set_tracker : w_addresses w !! "Bridgehub" ≫= (λ g, g !! "CTMDeploymentTrackerProxy") = Some tracker;
  set_router : w_addresses w !! "Bridges" ≫= (λ g, g !! "SharedBridgeProxy") = Some router;
  set_chain : getNumberFromEnv (w_env w) "CHAIN_ETH_ZKSYNC_NETWORK_ID" = Done chain;
  set_gas : getNumberFromEnv (w_env w) "CONTRACTS_PRIORITY_TX_MAX_GAS_LIMIT" = Done gas;
  set_l2ctm : getAddressFromEnv (w_env w) "GATEWAY_STATE_TRANSITION_PROXY_ADDR" = Done l2ctm;
  set_price h : gas_price h = price;
  set_zk h : view_call h hub "Bridgehub" "getZKChain" [VStr chain] = Done zk;
  set_cost h : view_call h hub "Bridgehub" "l2TransactionBaseCost"
    [VStr chain; VNum (price * GAS_MULTIPLIER); VStr gas; VNum (requiredL2GasPricePerPubdata cfg)] = Done (VNum cost);
  set_token h : view_call h hub "Bridgehub" "baseToken" [VStr chain] = Done (VStr token);
  set_asset h : view_call h hub "Bridgehub" "ctmAssetIdFromChainId" [VStr chain] = Done asset;
  set_e1 : abi_encode ["bytes32"; "address"] [asset; VStr L2_BRIDGEHUB_ADDRESS] = Some e1;
  set_e2 : abi_encode ["address"; "address"] [VStr ctm; VStr l2ctm] = Some e2;
  set_whitelist : encodable "Bridgehub" "addChainTypeManager" [VStr l2ctm];
  set_requests : Forall (λ '(m, args), encodable "Bridgehub" m args)
    (registration_requests cfg d tracker router chain gas l2ctm e1 e2 cost);
  set_goes : goes_through d (tx_count w) (w_random w) gov (w_mined w) plan;
  set_hash i r : (1 ≤ i)%nat → receipt_of w gov plan i = Some r → ∃ s, getL2HashFromPriorityOp r zk = Done s;
}.

(** One step of a script through governance. *)
Ltac lead :=
  lazymatch goal with
  | |- leads _ _ _ (throw _ ≫= _) _ _ => apply leads_throw, leads_lift
  | |- leads _ _ _ (number_env _ ≫= _) _ _ => eapply leads_bind; [apply leads_env; eassumption|]
  | |- leads _ _ _ (address_env _ ≫= _) _ _ => eapply leads_bind; [apply leads_env; eassumption|]
  | |- leads _ _ _ (console_log _ ≫= _) _ _ => eapply leads_bind; [apply leads_log|]
  | |- leads _ _ _ (console_log _) _ _ => apply leads_log
  | |- leads _ _ _ (contract_at _ _ ≫= _) _ _ => eapply leads_bind; [apply leads_contract; eassumption|]
  | |- leads _ _ _ (view _ _ _ _ ≫= _) _ _ => eapply leads_bind; [apply leads_view; eauto|]
  | |- leads _ _ _ (encode_call _ _ _ ≫= _) _ _ => eapply leads_bind; [apply leads_encode; eassumption|]
  | |- leads _ _ _ (getGasPrice ≫= _) _ _ => eapply leads_bind; [apply leads_gasPrice; eassumption|]
  | |- leads _ _ _ (transactionHash (Some _) ≫= _) _ _ => eapply leads_bind; [apply leads_ret|]
  | |- leads _ _ _ (as_address (VStr _) ≫= _) _ _ => eapply leads_bind; [apply leads_ret|]
  | |- leads _ _ _ (as_number (VNum _) ≫= _) _ _ => eapply leads_bind; [apply leads_ret|]
  | |- leads _ _ _ (lift (or_throw _ ?o) ≫= _) _ _ =>
      match goal with E : o = Some ?x |- _ => rewrite E; eapply leads_bind; [apply leads_lift|] end
  end.

Section register.
Context `{EthersOps} `{Chain} `{Artifacts} `{Gateway}.
Variables (cfg : SystemConfig) (d : Deployer).

Lemma leads_l2_hash w gov ops r zk :
  (∃ s, getL2HashFromPriorityOp r zk = Done s) → ∃ s, leads w gov ops (l2_hash (Some r) zk) (Done s) ops.
Proof.
  intros [s E]. exists s. unfold l2_hash. cbn [or_throw].
  eapply leads_bind; [apply leads_lift|]. rewrite <- E. apply leads_lift.
Qed.

Lemma leads_priorityTxMaxGasLimit w gov ops gas :
  getNumberFromEnv (w_env w) "CONTRACTS_PRIORITY_TX_MAX_GAS_LIMIT" = Done gas →
  leads w gov ops priorityTxMaxGasLimit (Done (VStr gas)) ops.
Proof. intros E. unfold priorityTxMaxGasLimit. lead. apply leads_ret. Qed.

(** An operation whose receipt is then read for the hash of its L2 transaction. *)
Ltac lead_receipt e Hplan Hhash :=
  let r := fresh "r" in let Er := fresh "Er" in let Hr := fresh "Hr" in
  edestruct e as (r & Er & Hr);
  [..|eapply leads_bind; [exact Hr|]];
  [first [done|eassumption|rewrite Hplan; by eexists]..|];
  let s := fresh "s" in let Hs := fresh "Hs" in
  edestruct leads_l2_hash as [s Hs]; [apply (Hhash _ _) in Er; [exact Er|cbn; lia]|];
  eapply leads_bind; [exact Hs|].

Lemma registration_leads w gov hub ctm tracker router chain gas l2ctm token e1 e2 asset zk price cost plan :
  gateway_setting cfg d w gov hub ctm tracker router chain gas l2ctm token e1 e2 asset zk price cost plan →
  let ops := registration_operations cfg d hub tracker router chain gas l2ctm e1 e2 price cost in
  plan = (if bool_decide (token = ADDRESS_ONE) then ops else take 1 ops) →
  leads w gov [] (registerSLContractsOnL1 cfg d)
    (if bool_decide (token = ADDRESS_ONE) then Done tt else Throw read_error) plan.
Proof.
  intros [] ops Hplan.
  apply Forall_cons_1 in set_requests0 as [Q1 [Q2 [Q3 [Q4 _]%Forall_cons_1]%Forall_cons_1]%Forall_cons_1].
  unfold registerSLContractsOnL1. repeat lead.
  destruct (leads_executeUpgrade d w gov plan set_gov0 set_goes0 [] (VStr hub) 0
    (calldata "Bridgehub" "registerSettlementLayer" [VStr chain; VBool true]) no_opts eq_refl) as (r1 & _ & Hr1).
  { rewrite Hplan. case_bool_decide; by eexists. }
  eapply leads_bind; [exact Hr1|]. repeat lead.
  eapply leads_bind; [by apply leads_priorityTxMaxGasLimit|]. cbn zeta. repeat lead.
  revert Hplan. case_bool_decide as Ht; cbn [negb when]; intros Hplan;
    [subst token; rewrite Hplan|subst plan; unfold fund_base_token; apply leads_throw, leads_lift].
  eapply leads_bind; [apply leads_ret|]. repeat lead.
  lead_receipt (leads_executeUpgrade d w gov plan set_gov0 set_goes0) Hplan set_hash0. repeat lead.
  lead_receipt (leads_executeUpgradeOnL2 d w gov plan set_gov0 set_goes0 cfg) Hplan set_hash0. repeat lead.
  lead_receipt (leads_executeUpgrade d w gov plan set_gov0 set_goes0) Hplan set_hash0. repeat lead.
Qed.

End register.

(** ** No command gets past the construction of its deployer *)

Section commands.
Context `{EthersOps} `{Chain} `{Artifacts} `{ZkArtifacts} `{Files} `{Interfaces} `{Gateway}.
Variable cfg : SystemConfig.
Variable key_address : string → outcome string.
Variable mnemonic_address : string → string → outcome string.
Variable file_mnemonic : string → outcome string.
Variable parse_gwei : string → outcome Z.
Variable format_gwei : Z → string.
Variable failedTxL2Hash : string.

(** The commands of sync-layer.ts, and the other scripts. *)
Definition command_action (name : string) : option (options → M unit) :=
  if String.eqb name "compute-migrated-chain-address" then
    Some (compute_migrated_chain_address cfg key_address mnemonic_address file_mnemonic)
  else if String.eqb name "deploy-sync-layer-contracts" then
    Some (deploy_sync_layer_contracts cfg key_address mnemonic_address file_mnemonic parse_gwei format_gwei)
  else if String.eqb name "register-sync-layer" then
    Some (register_sync_layer cfg key_address mnemonic_address file_mnemonic)
  else if String.eqb name "migrate-to-sync-layer" then
    Some (migrate_to_sync_layer cfg key_address mnemonic_address file_mnemonic parse_gwei)
  else if String.eqb name "recover-from-failed-migration" then
    Some (recover_from_failed_migration key_address mnemonic_address file_mnemonic failedTxL2Hash)
  else if String.eqb name "prepare-validators" then
    Some (prepare_validators key_address mnemonic_address file_mnemonic)
  else script_action cfg key_address mnemonic_address file_mnemonic parse_gwei format_gwei name.

Lemma nothing_only_zksync : sends_nothing only_zksync.
Proof. unfold only_zksync, throw. sends. Qed.
Lemma nothing_number_env n : sends_nothing (number_env n).
Proof. apply nothing_from_env. Qed.

#[local] Hint Resolve nothing_only_zksync nothing_number_env : sends.

(** C39: No command-line script over the deployer does anything: whatever the
    options, the environment, the files and the networks, each of the eleven
    commands stops, with an error or pending, before it has sent a transaction,
    because none of them gives the constructor of the deployer the hash of the EVM
    emulator and the function that would read it does not exist. *)
Theorem commands_stop_before_sending name action cmd :
  command_action name = Some action → stops (action cmd).
Proof.
  intros E. unfold command_action in E.
  destruct (String.eqb name _); [injection E as <-; unfold compute_migrated_chain_address; stops_at_constructor|].
  destruct (String.eqb name _); [injection E as <-; unfold deploy_sync_layer_contracts; stops_at_constructor|].
  destruct (String.eqb name _); [injection E as <-; unfold register_sync_layer; stops_at_constructor|].
  destruct (String.eqb name _); [injection E as <-; unfold migrate_to_sync_layer; stops_at_constructor|].
  destruct (String.eqb name _); [injection E as <-; unfold recover_from_failed_migration; stops_at_constructor|].
  destruct (String.eqb name _); [injection E as <-; unfold prepare_validators; stops_at_constructor|].
  by eapply scripts_stop_before_sending.
Qed.

End commands.

(** ** Concrete runs *)

Module SyncSamples.

Definition gateway : Gateway := {|
  other_view _ _ _ _ := Done VUndef;
  getTransactionReceipt _ := Done None;
  getLogProof _ _ := Done (mkLogProof 0 []);
  getL2HashFromPriorityOp _ _ := Done "0x12";
  wait_priority_op _ := Done "0x12";
|}.

Definition word (n : Z) : string := "0x" +:+ hex_digits (be_enc 32 n).

Definition views (token : string) (method : string) (args : list val) : outcome val :=
  if decide (method = "l2TransactionBaseCost") then Done (VNum 1000)
  else if decide (method = "ctmAssetIdFromChainId") then Done (VStr (word 7))
  else Done (VStr token).

Lemma views_done token m args : is_done (views token m args) = true.
Proof. unfold views. by repeat case_decide. Qed.

Definition book : addresses :=
  <["" := <["Governance" := sample_address]> ∅]>
  (<["StateTransition" := <["StateTransitionProxy" := sample_address]> ∅]>
  (<["Bridgehub" := <["BridgehubProxy" := L2_BRIDGEHUB_ADDRESS]>
                   (<["CTMDeploymentTrackerProxy" := sample_address]> ∅)]>
  (<["Bridges" := <["SharedBridgeProxy" := L2_ASSET_ROUTER_ADDRESS]> ∅]> ∅))).

Definition start : world := model_world
  (<["CHAIN_ETH_ZKSYNC_NETWORK_ID" := "505"]> (<["CONTRACTS_PRIORITY_TX_MAX_GAS_LIMIT" := "72000000"]>
  (<["GATEWAY_STATE_TRANSITION_PROXY_ADDR" := sample_address]> ∅))) book.

Definition encoded (o : option string) : string := default "" o.
Definition e1 : string := encoded (@abi_encode model_ethers ["bytes32"; "address"] [VStr (word 7); VStr L2_BRIDGEHUB_ADDRESS]).
Definition e2 : string := encoded (@abi_encode model_ethers ["address"; "address"] [VStr sample_address; VStr sample_address]).

Definition sample_cut : DiamondCut := DiamondCut.diamondCut [] sample_address (word 1).
Definition sample_calldata : string :=
  match @migrated_initCalldata model_ethers (Some 271) sample_address sample_address 24 sample_address
    sample_address (word 2) sample_address (word 3) (initCalldata sample_cut) with Done s => s | _ => "" end.

Lemma migrated_calldata_witness :
  ∃ b, parse_hex sample_calldata = Some b ∧
    length b = (length (default [] (@ctm_init_data model_ethers sample_ctm 271 (be_enc 32 2) (replicate 20 Byte.x06) sample_cut)) + 32)%nat.
Proof.
  apply (@migrated_calldata_differs model_ethers _ 271 sample_address sample_address 24 sample_address sample_address
    (word 2) sample_address (word 3) sample_cut sample_calldata sample_ctm 271 (be_enc 32 2) (replicate 20 Byte.x06)).
  - lia.
  - lia.
  - vm_compute. reflexivity.
  - exists (be_enc 32 2). split; vm_compute; reflexivity.
  - exists (be_enc 32 3). split; vm_compute; reflexivity.
  - by split.
  - vm_compute. reflexivity.
Defined.

Definition run_prepare : M unit :=
  @prepare_validators model_ethers (model_chain (λ _ _, Done VUndef)) (model_artifacts (λ _, Some 0%nat))
    model_files (λ k, Done k) (λ _ _, Throw invalid_hex) (λ _, Done "mnemonic") cli_options.

(** With everything the command reads in place, it stops at the missing function. *)
Lemma commands_stop_witness :
  stops run_prepare ∧
  (run_prepare (model_world (<["CHAIN_ETH_ZKSYNC_NETWORK_ID" := "505"]> cli_env) ∅)).1 =
    Throw (JsTypeError "readEvmEmulatorbytecode is not a function").
Proof.
  split; [|vm_compute; reflexivity].
  exact (@commands_stop_before_sending model_ethers (model_chain (λ _ _, Done VUndef))
    (model_artifacts (λ _, Some 0%nat)) model_zk model_files model_interfaces gateway sample_config
    (λ k, Done k) (λ _ _, Throw invalid_hex) (λ _, Done "mnemonic") (λ _, Done 1000000000) (λ _, "1") "0x12"
    "prepare-validators" _ cli_options eq_refl).
Defined.

End SyncSamples.
