(* ===== verification/CostBreakdown.v ===== *)
(** * The cost breakdown of a submission ([submitter/src/domain/cost_breakdown.rs])

    Gas of a batch by component, estimated from constants and reconciled with
    the receipt when there is one.  [u64] arithmetic wraps as in a release
    build; floating-point numbers, used for the percentages only, are the class
    [Floats]. *)

From stdpp Require Import base list option.
From Stdlib Require Import ZArith Lia.
From S2P Require Import Prelude Rust.

(** [f64] and the operations the percentages use. *)
Class Floats := {
  f64 : Type;
  of_u64 : Z → f64;
  fdiv : f64 → f64 → f64;
  fmul : f64 → f64 → f64;
  fgt : f64 → f64 → bool;
  f_zero : f64;
  f_hundred : f64;
}.

Definition CALLDATA_NON_ZERO_GAS : Z := 16.
Definition BASE_TX_GAS : Z := 21000.
Definition BLOB_GAS_PER_BLOB : Z := 131072.
Definition GROTH16_VERIFY_GAS : Z := 250000.
Definition STATE_ROOT_UPDATE_GAS : Z := 10000.
Definition ABI_OVERHEAD_GAS : Z := 5000.

Section breakdown.
Context `{Floats}.

Record CostBreakdown := mkCost {
  proof_verify_gas : Z;
  state_root_update_gas : Z;
  da_posting_gas : Z;
  da_posting_blob_gas : Z;
  overhead_gas : Z;
  total_eip1559_gas : Z;
  blob_gas_used : option Z;
  blob_base_fee_wei : option Z;
  blob_fee_total_wei : option Z;
  proof_verify_pct : f64;
  da_pct : f64;
  overhead_pct : f64;
  is_estimated : bool;
}.

Definition build (proof root da blob overhead total : Z) (used fee feeTotal : option Z)
    (estimated : bool) : CostBreakdown :=
  let total_f := of_u64 total in
  let pct z := if fgt total_f f_zero then fmul (fdiv (of_u64 z) total_f) f_hundred else f_zero in
  mkCost proof root da blob overhead total used fee feeTotal (pct proof) (pct da) (pct overhead) estimated.

(** The total and the overhead, with the receipt's gas when it is known. *)
Definition reconcile (actual : option Z) (estimated_total overhead : Z) : Z * Z :=
  match actual with
  | Some a => (a, wrap64 (overhead + sat_sub a estimated_total))
  | None => (estimated_total, overhead)
  end.

Definition estimate_calldata (calldata_bytes proof_bytes : Z) (actual_gas : option Z) : CostBreakdown :=
  let da_gas := wrap64 (calldata_bytes * CALLDATA_NON_ZERO_GAS) in
  let proof_calldata_gas := wrap64 (proof_bytes * CALLDATA_NON_ZERO_GAS) in
  let proof_gas := wrap64 (GROTH16_VERIFY_GAS + proof_calldata_gas) in
  let root_gas := STATE_ROOT_UPDATE_GAS in
  let overhead := BASE_TX_GAS + ABI_OVERHEAD_GAS in
  let estimated_total := wrap64 (wrap64 (wrap64 (proof_gas + root_gas) + da_gas) + overhead) in
  let '(total, overhead_final) := reconcile actual_gas estimated_total overhead in
  build proof_gas root_gas da_gas 0 overhead_final total None None None (bool_decide (actual_gas = None)).

Definition estimate_blob (blob_count proof_bytes : Z) (actual_eip1559_gas used fee : option Z) : CostBreakdown :=
  let blob_gas := wrap64 (blob_count * BLOB_GAS_PER_BLOB) in
  let proof_calldata_gas := wrap64 (proof_bytes * CALLDATA_NON_ZERO_GAS) in
  let proof_gas := wrap64 (GROTH16_VERIFY_GAS + proof_calldata_gas) in
  let root_gas := STATE_ROOT_UPDATE_GAS in
  let overhead := BASE_TX_GAS + ABI_OVERHEAD_GAS in
  let estimated_total := wrap64 (wrap64 (wrap64 (proof_gas + root_gas) + 0) + overhead) in
  let '(total, overhead_final) := reconcile actual_eip1559_gas estimated_total overhead in
  let blob_fee_total :=
    match used, fee with Some g, Some f => Some (sat_mul u64_max g f) | _, _ => None end in
  build proof_gas root_gas 0 blob_gas overhead_final total used fee blob_fee_total
    (bool_decide (actual_eip1559_gas = None) || bool_decide (used = None) || bool_decide (fee = None)).

(** The components of the EIP-1559 gas. *)
Definition components (c : CostBreakdown) : Z :=
  proof_verify_gas c + state_root_update_gas c + da_posting_gas c + overhead_gas c.

Lemma wrap64_small z : 0 ≤ z ≤ u64_max → wrap64 z = z.
Proof. intros Hz. unfold wrap64. apply Z.mod_small. unfold u64_max in Hz. lia. Qed.

(** What a submission of this many bytes of calldata is estimated to cost. *)
Definition calldata_estimate (da proof : Z) : Z := 286000 + 16 * (da + proof).

Lemma reconcile_components actual est part total overhead :
  26000 ≤ est ≤ u64_max → part = est - 26000 → (∀ a, actual = Some a → is_u64 a) →
  reconcile actual est 26000 = (total, overhead) →
  part + overhead = Z.max est (default est actual) ∧ total = default est actual.
Proof.
  intros He -> Ha. unfold reconcile. destruct actual as [a|]; intros [= <- <-]; cbn.
  - specialize (Ha a eq_refl). unfold is_u64, sat_sub, u64_max in *. rewrite wrap64_small; unfold u64_max; lia.
  - lia.
Qed.

(** The gas components of a submission add up to the larger of the estimate
    and the gas of the receipt.  So for calldata and for blobs they sum to the
    recorded total when there is no receipt or the receipt is at least the
    estimate; a receipt below the estimate is recorded as total while the
    components keep summing to the estimate.  Nothing wraps for any payload below
    2^58 bytes. *)
Theorem breakdown_accounts (da proof blobs : Z) (actual used fee : option Z) :
  0 ≤ da < 2 ^ 58 → 0 ≤ proof < 2 ^ 58 → (∀ a, actual = Some a → is_u64 a) →
  let c := estimate_calldata da proof actual in
  let b := estimate_blob blobs proof actual used fee in
  let est := calldata_estimate da proof in
  let estb := calldata_estimate 0 proof in
  components c = Z.max est (default est actual) ∧ total_eip1559_gas c = default est actual ∧
  components b = Z.max estb (default estb actual) ∧ total_eip1559_gas b = default estb actual.
Proof.
  intros Hd Hp Ha. cbn zeta. unfold estimate_calldata, estimate_blob, calldata_estimate, CALLDATA_NON_ZERO_GAS,
    GROTH16_VERIFY_GAS, STATE_ROOT_UPDATE_GAS, BASE_TX_GAS, ABI_OVERHEAD_GAS.
  change (21000 + 5000) with 26000.
  rewrite !(wrap64_small (da * 16)), !(wrap64_small (proof * 16)) by (unfold u64_max; lia).
  rewrite !(wrap64_small (250000 + proof * 16)) by (unfold u64_max; lia).
  rewrite !(wrap64_small (250000 + proof * 16 + 10000)) by (unfold u64_max; lia).
  rewrite (wrap64_small (250000 + proof * 16 + 10000 + da * 16)),
    (wrap64_small (250000 + proof * 16 + 10000 + 0)) by (unfold u64_max; lia).
  rewrite (wrap64_small (250000 + proof * 16 + 10000 + da * 16 + 26000)),
    (wrap64_small (250000 + proof * 16 + 10000 + 0 + 26000)) by (unfold u64_max; lia).
  destruct (reconcile actual (250000 + proof * 16 + 10000 + da * 16 + 26000) 26000) as [t o] eqn:E.
  destruct (reconcile actual (250000 + proof * 16 + 10000 + 0 + 26000) 26000) as [t' o'] eqn:E'.
  eapply reconcile_components in E as [Hc Ht]; [|unfold u64_max; lia|reflexivity|exact Ha].
  eapply reconcile_components in E' as [Hc' Ht']; [|unfold u64_max; lia|reflexivity|exact Ha].
  unfold components. cbn. destruct actual; cbn in *; lia.
Qed.

End breakdown.

(** A receipt below the estimate: the components exceed the total. *)
Module CostSamples.

Definition floats : Floats :=
  {| f64 := Z; of_u64 z := z; fdiv := Z.div; fmul := Z.mul; fgt a b := b <? a; f_zero := 0; f_hundred := 100 |}.

Lemma breakdown_accounts_witness :
  let c := @estimate_calldata floats 1000 256 (Some 290000) in
  components c = 306096 ∧ total_eip1559_gas c = 290000.
Proof.
  destruct (@breakdown_accounts floats 1000 256 1 (Some 290000) None None) as (Hc & Ht & _); [lia|lia| |].
  - intros a [= <-]. unfold is_u64, u64_max. lia.
  - cbn zeta. rewrite Hc, Ht. split; reflexivity.
Defined.

End CostSamples.
