(* ===== verification/Governance.v ===== *)
(** * The governance contract ([l1-contracts/contracts/governance/Governance.sol])

    Operations are scheduled by the owner, become executable after their delay,
    and are executed once; the deployer sends its privileged calls through it.
    The calls of an operation are made to arbitrary contracts, which may call
    back: a message carries, for each of its external calls, whether the call
    succeeds and which messages to governance it leads to, by which senders, so
    that [run] is executable and covers every reentrant execution.

    [step] is the abstract machine of an operation's life.  Every message
    refines it, and the theorems are proved on it: an operation is executed at
    most once, not before its delay unless by the security council, and after
    its predecessor. *)

From stdpp Require Import base gmap list strings relations.
From Stdlib Require Import ZArith Lia.
From S2P Require Import Prelude Js Rust Ethers DiamondCut Utils.

(** ** Data *)

Record Call := mkCall { call_target : string; call_value : Z; call_data : string }.

Record Operation := mkOp {
  op_calls : list Call;
  op_predecessor : string;
  op_salt : string;
}.

Inductive OperationState := Unset | Waiting | Ready | OpDone.

#[export] Instance OperationState_eq_dec : EqDecision OperationState.
Proof. solve_decision. Defined.

Inductive gov_error :=
| Unauthorized (sender : string)
| OperationExists
| InvalidDelay
| OperationMustBePending
| OperationMustBeReady
| PreviousOperationNotExecuted
| ZeroAddress
| CallerIsNotTheOwner
| CallerIsNotTheNewOwner
| CallFailed.

(** What happened, oldest first: the events of the contract, with the block
    timestamp, and the calls it made, from their start to their return. *)
Inductive event :=
| Scheduled (id : string) (t delay minDelay : N)
| OperationCancelled (id : string)
| OperationExecuted (o : Operation) (t : N) (instant : bool)
| Performed (c : Call)
| Returned
| ChangeMinDelay (d : N)
| ChangeSecurityCouncil (a : string)
| OwnershipTransferred (a : string).

(** The storage, and the log. *)
Record gov := mkGov {
  owner : string;
  pendingOwner : string;
  securityCouncil : string;
  timestamps : gmap string N;
  minDelay : N;
  log : list event;
}.

(** A call of the contract by an account.  [Execute] and [ExecuteInstant] carry
    the reactions of the called contracts: success, and the messages they lead
    to with their senders; a reaction that is not given is a success without
    messages. *)
Inductive message :=
| ScheduleTransparent (o : Operation) (delay : N)
| ScheduleShadow (id : string) (delay : N)
| Cancel (id : string)
| Execute (o : Operation) (reactions : list (bool * list (string * message)))
| ExecuteInstant (o : Operation) (reactions : list (bool * list (string * message)))
| UpdateDelay (d : N)
| UpdateSecurityCouncil (a : string)
| TransferOwnership (a : string)
| AcceptOwnership
| RenounceOwnership.

Definition EXECUTED_PROPOSAL_TIMESTAMP : N := 1.

(** Updates of the storage. *)
Definition emit (e : event) (g : gov) : gov :=
  mkGov (owner g) (pendingOwner g) (securityCouncil g) (timestamps g) (minDelay g) (log g ++ [e]).
Definition set_timestamps (m : gmap string N) (g : gov) : gov :=
  mkGov (owner g) (pendingOwner g) (securityCouncil g) m (minDelay g) (log g).
Definition set_minDelay (d : N) (g : gov) : gov :=
  mkGov (owner g) (pendingOwner g) (securityCouncil g) (timestamps g) d (log g).
Definition set_securityCouncil (a : string) (g : gov) : gov :=
  mkGov (owner g) (pendingOwner g) a (timestamps g) (minDelay g) (log g).
Definition set_pendingOwner (a : string) (g : gov) : gov :=
  mkGov (owner g) a (securityCouncil g) (timestamps g) (minDelay g) (log g).

Section contract.
(** [address(this)] and [keccak256(abi.encode(operation))] *)
Context (this : string) (hashOperation : Operation → string).

(** ** Ownership ([Ownable2Step]) *)

Definition _transferOwnership (a : string) (g : gov) : gov :=
  emit (OwnershipTransferred a) (mkGov a AddressZero (securityCouncil g) (timestamps g) (minDelay g) (log g)).

Definition new_Governance (_admin _securityCouncil : string) (_minDelay : N) : result gov_error gov :=
  if String.eqb _admin AddressZero then Err ZeroAddress
  else
    let g := _transferOwnership _admin (mkGov AddressZero AddressZero AddressZero ∅ 0%N []) in
    let g := emit (ChangeSecurityCouncil _securityCouncil) (set_securityCouncil _securityCouncil g) in
    Ok (emit (ChangeMinDelay _minDelay) (set_minDelay _minDelay g)).

(** ** Getters *)

Definition getOperationState (t : N) (g : gov) (id : string) : OperationState :=
  let timestamp := default 0%N (timestamps g !! id) in
  if (timestamp =? 0)%N then Unset
  else if (timestamp =? EXECUTED_PROPOSAL_TIMESTAMP)%N then OpDone
  else if (t <? timestamp)%N then Waiting
  else Ready.

Definition isOperation t g id : bool := negb (bool_decide (getOperationState t g id = Unset)).
Definition isOperationPending t g id : bool :=
  bool_decide (getOperationState t g id = Waiting) || bool_decide (getOperationState t g id = Ready).
Definition isOperationReady t g id : bool := bool_decide (getOperationState t g id = Ready).
Definition isOperationDone t g id : bool := bool_decide (getOperationState t g id = OpDone).

(** ** Operations *)

Definition require (b : bool) (e : gov_error) : result gov_error unit := if b then Ok tt else Err e.

(** Checked addition on [uint256]. *)
Definition add256 (a b : N) : result gov_error N :=
  if (a + b <? 2 ^ 256)%N then Ok (a + b)%N else Panicked.

Definition _schedule (t : N) (id : string) (delay : N) (g : gov) : result gov_error gov :=
  require (negb (isOperation t g id)) OperationExists;;
  require (negb (delay <? minDelay g)%N) InvalidDelay;;
  at_time ← add256 t delay;
  Ok (emit (Scheduled id t delay (minDelay g)) (set_timestamps (<[id := at_time]> (timestamps g)) g)).

Definition _checkPredecessorDone (t : N) (id : string) (g : gov) : result gov_error unit :=
  require (String.eqb id HashZero || isOperationDone t g id) PreviousOperationNotExecuted.

Definition onlyOwner (sender : string) (g : gov) : result gov_error unit :=
  require (String.eqb (owner g) sender) CallerIsNotTheOwner.

(** The operation is done. *)
Definition finish (t : N) (o : Operation) (instant : bool) (g : gov) : gov :=
  emit (OperationExecuted o t instant)
    (set_timestamps (<[hashOperation o := EXECUTED_PROPOSAL_TIMESTAMP]> (timestamps g)) g).

(** The part of [execute] and [executeInstant] around the calls. *)
Definition guarded_execution (t : N) (o : Operation) (instant : bool) (acceptable : gov → bool)
    (error : gov_error) (calls : gov → result gov_error gov) (g : gov) : result gov_error gov :=
  _checkPredecessorDone t (op_predecessor o) g;;
  require (acceptable g) error;;
  g' ← calls g;
  require (acceptable g') error;;
  Ok (finish t o instant g').

(** The calls that are left when no reaction is given. *)
Definition perform_all (cs : list Call) (g : gov) : gov := fold_left (λ g c, emit Returned (emit (Performed c) g)) cs g.

(** [_execute], where [react] is what a call leads to. *)
Section calls.
Context (react : Call → list (string * message) → gov → gov).

Fixpoint _execute (reactions : list (bool * list (string * message))) (cs : list Call) (g : gov)
    : result gov_error gov :=
  match reactions with
  | [] => Ok (perform_all cs g)
  | (success, messages) :: reactions' =>
      match cs with
      | [] => Ok g
      | c :: cs' =>
          if success : bool then _execute reactions' cs' (emit Returned (react c messages (emit (Performed c) g)))
          else Err CallFailed
      end
  end.

End calls.

(** A caller may ignore that its message was reverted. *)
Definition keep (g : gov) (r : result gov_error gov) : gov := match r with Ok g' => g' | _ => g end.

Fixpoint run (t : N) (sender : string) (m : message) (g : gov) {struct m} : result gov_error gov :=
  (* only a call to the contract itself makes it its own caller *)
  let react c messages g :=
    fold_left (λ g x, match x with
                      | (s, m') => if String.eqb s this && negb (String.eqb (call_target c) this) then g
                                   else keep g (run t s m' g)
                      end) messages g in
  match m with
  | ScheduleTransparent o delay => onlyOwner sender g;; _schedule t (hashOperation o) delay g
  | ScheduleShadow id delay => onlyOwner sender g;; _schedule t id delay g
  | Cancel id =>
      onlyOwner sender g;;
      require (isOperationPending t g id) OperationMustBePending;;
      Ok (emit (OperationCancelled id) (set_timestamps (delete id (timestamps g)) g))
  | Execute o rs =>
      require (String.eqb sender (owner g) || String.eqb sender (securityCouncil g)) (Unauthorized sender);;
      guarded_execution t o false (λ g, isOperationReady t g (hashOperation o)) OperationMustBeReady
        (_execute react rs (op_calls o)) g
  | ExecuteInstant o rs =>
      require (String.eqb sender (securityCouncil g)) (Unauthorized sender);;
      guarded_execution t o true (λ g, isOperationPending t g (hashOperation o)) OperationMustBePending
        (_execute react rs (op_calls o)) g
  | UpdateDelay d =>
      require (String.eqb sender this) (Unauthorized sender);;
      Ok (set_minDelay d (emit (ChangeMinDelay d) g))
  | UpdateSecurityCouncil a =>
      require (String.eqb sender this) (Unauthorized sender);;
      Ok (set_securityCouncil a (emit (ChangeSecurityCouncil a) g))
  | TransferOwnership a => onlyOwner sender g;; Ok (set_pendingOwner a g)
  | AcceptOwnership =>
      require (String.eqb (pendingOwner g) sender) CallerIsNotTheNewOwner;;
      Ok (_transferOwnership sender g)
  | RenounceOwnership => onlyOwner sender g;; Ok (_transferOwnership AddressZero g)
  end.

(** A transaction: a message in a block; a revert changes nothing. *)
Record transaction := mkTransaction { tr_time : N; tr_sender : string; tr_message : message }.

Definition apply_transaction (g : gov) (x : transaction) : gov :=
  keep g (run (tr_time x) (tr_sender x) (tr_message x) g).

Definition apply_transactions (l : list transaction) (g : gov) : gov := fold_left apply_transaction l g.

(** ** The life of an operation *)

(** The calls that have not returned, innermost first. *)
Definition open_calls (l : list event) : list Call :=
  fold_left (λ st e, match e with Performed c => c :: st | Returned => tail st | _ => st end) l [].

#[local] Arguments open_calls : simpl never.

(** The innermost call in course is one of the contract to itself. *)
Definition self_call (l : list event) : Prop := ∃ c, head (open_calls l) = Some c ∧ call_target c = this.

(** What can happen in a block at time [t]. *)
Inductive step (t : N) : gov → gov → Prop :=
| StepSchedule g id delay :
    getOperationState t g id = Unset → (minDelay g ≤ delay)%N →
    step t g (emit (Scheduled id t delay (minDelay g)) (set_timestamps (<[id := (t + delay)%N]> (timestamps g)) g))
| StepCancel g id :
    isOperationPending t g id = true →
    step t g (emit (OperationCancelled id) (set_timestamps (delete id (timestamps g)) g))
| StepFinish g o instant :
    op_predecessor o = HashZero ∨ timestamps g !! op_predecessor o = Some EXECUTED_PROPOSAL_TIMESTAMP →
    isOperationPending t g (hashOperation o) = true →
    (instant = false → getOperationState t g (hashOperation o) = Ready) →
    step t g (finish t o instant g)
| StepPerform g c : step t g (emit (Performed c) g)
| StepReturn g : step t g (emit Returned g)
| StepDelay g d : self_call (log g) → step t g (set_minDelay d (emit (ChangeMinDelay d) g))
| StepCouncil g a : self_call (log g) → step t g (set_securityCouncil a (emit (ChangeSecurityCouncil a) g))
| StepPendingOwner g a : step t g (set_pendingOwner a g)
| StepOwner g a : step t g (_transferOwnership a g).

Lemma state_Unset t g id : getOperationState t g id = Unset ↔ default 0%N (timestamps g !! id) = 0%N.
Proof.
  unfold getOperationState. destruct (N.eqb_spec (default 0%N (timestamps g !! id)) 0); [done|].
  split; [|done]. repeat case_match; done.
Qed.

Lemma state_Done t g id :
  getOperationState t g id = OpDone ↔ timestamps g !! id = Some EXECUTED_PROPOSAL_TIMESTAMP.
Proof.
  unfold getOperationState. destruct (timestamps g !! id) as [ts|]; cbn; [|done].
  destruct (N.eqb_spec ts 0) as [->|]; [done|].
  destruct (N.eqb_spec ts EXECUTED_PROPOSAL_TIMESTAMP) as [->|]; [done|].
  split; [by destruct (t <? ts)%N|congruence].
Qed.

Lemma pending_spec t g id : isOperationPending t g id = true ↔
  ∃ ts, timestamps g !! id = Some ts ∧ ts ≠ 0%N ∧ ts ≠ EXECUTED_PROPOSAL_TIMESTAMP.
Proof.
  unfold isOperationPending, getOperationState. destruct (timestamps g !! id) as [ts|]; cbn; [|naive_solver].
  destruct (N.eqb_spec ts 0) as [->|H0]; [naive_solver|].
  destruct (N.eqb_spec ts EXECUTED_PROPOSAL_TIMESTAMP) as [->|H1]; [naive_solver|].
  split; [eauto|]. intros _. by destruct (t <? ts)%N.
Qed.

Lemma ready_spec t g id : getOperationState t g id = Ready ↔
  ∃ ts, timestamps g !! id = Some ts ∧ ts ≠ 0%N ∧ ts ≠ EXECUTED_PROPOSAL_TIMESTAMP ∧ (ts ≤ t)%N.
Proof.
  unfold getOperationState. destruct (timestamps g !! id) as [ts|]; cbn; [|naive_solver].
  destruct (N.eqb_spec ts 0) as [->|H0]; [naive_solver|].
  destruct (N.eqb_spec ts EXECUTED_PROPOSAL_TIMESTAMP) as [->|H1]; [naive_solver|].
  destruct (N.ltb_spec t ts) as [Ht|Ht]; split; [done| |eauto|done].
  intros (ts' & [= <-] & _ & _ & ?). lia.
Qed.

Lemma ready_pending t g id : getOperationState t g id = Ready → isOperationPending t g id = true.
Proof. rewrite ready_spec, pending_spec. naive_solver. Qed.

Lemma open_calls_app l e :
  open_calls (l ++ [e]) =
    match e with Performed c => c :: open_calls l | Returned => tail (open_calls l) | _ => open_calls l end.
Proof. unfold open_calls. by rewrite fold_left_app. Qed.

(** An executed operation stays executed. *)
Lemma step_done t g g' id :
  step t g g' → timestamps g !! id = Some EXECUTED_PROPOSAL_TIMESTAMP →
  timestamps g' !! id = Some EXECUTED_PROPOSAL_TIMESTAMP.
Proof.
  intros Hs Hd. destruct Hs as [g id' delay HU _|g id' HP|g o i _ _ _| | | | | | ]; cbn; try done.
  - rewrite lookup_insert_ne; [done|]. intros ->. apply state_Unset in HU. by rewrite Hd in HU.
  - rewrite lookup_delete_ne; [done|]. intros ->. apply pending_spec in HP as (ts & E & _ & ?). congruence.
  - destruct (decide (hashOperation o = id)) as [->|]; [by rewrite lookup_insert_eq|by rewrite lookup_insert_ne].
Qed.

Lemma steps_done t g g' id :
  rtc (step t) g g' → timestamps g !! id = Some EXECUTED_PROPOSAL_TIMESTAMP →
  timestamps g' !! id = Some EXECUTED_PROPOSAL_TIMESTAMP.
Proof. induction 1; eauto using step_done. Qed.

(** ** Messages refine the machine *)

(** Induction on messages, through the reactions they carry. *)
Section message_induction.
Context (P : message → Prop).
Hypothesis P_leaf : ∀ m, (∀ o rs, m ≠ Execute o rs) → (∀ o rs, m ≠ ExecuteInstant o rs) → P m.
Hypothesis P_execute : ∀ o rs, Forall (λ r, Forall (λ x : string * message, P x.2) r.2) rs → P (Execute o rs).
Hypothesis P_instant : ∀ o rs, Forall (λ r, Forall (λ x : string * message, P x.2) r.2) rs → P (ExecuteInstant o rs).

Fixpoint message_nested_ind (m : message) : P m :=
  let on_messages := fix on_messages (l : list (string * message)) : Forall (λ x, P x.2) l :=
    match l with
    | [] => Forall_nil_2 _
    | x :: l' => Forall_cons_2 _ x l' (match x as y return P y.2 with (s, m') => message_nested_ind m' end) (on_messages l')
    end in
  let on_reactions := fix on_reactions (l : list (bool * list (string * message)))
      : Forall (λ r, Forall (λ x : string * message, P x.2) r.2) l :=
    match l with
    | [] => Forall_nil_2 _
    | r :: l' => Forall_cons_2 _ r l' (match r as y return Forall (λ x : string * message, P x.2) y.2 with (b, ms) => on_messages ms end) (on_reactions l')
    end in
  match m with
  | Execute o rs => P_execute o rs (on_reactions rs)
  | ExecuteInstant o rs => P_instant o rs (on_reactions rs)
  | m => P_leaf m ltac:(done) ltac:(done)
  end.

End message_induction.

Lemma require_inv b e r : require b e = Ok r → b = true.
Proof. by destruct b. Qed.

(** Steps after which the calls in course are those before. *)
Definition performs (t : N) (g g' : gov) : Prop :=
  rtc (step t) g g' ∧ open_calls (log g') = open_calls (log g).

Lemma performs_refl t g : performs t g g.
Proof. done. Qed.

Lemma performs_trans t g1 g2 g3 : performs t g1 g2 → performs t g2 g3 → performs t g1 g3.
Proof. intros [H1 E1] [H2 E2]. split; [by etrans|congruence]. Qed.

Lemma performs_once t g g' : step t g g' → open_calls (log g') = open_calls (log g) → performs t g g'.
Proof. intros Hs E. split; [by apply rtc_once|done]. Qed.

(** A call and its return. *)
Lemma performs_call t c g g' : performs t (emit (Performed c) g) g' → performs t g (emit Returned g').
Proof.
  intros [Hs E]. split.
  - eapply rtc_l; [apply (StepPerform t g c)|]. eapply rtc_r; [exact Hs|apply StepReturn].
  - cbn in *. by rewrite open_calls_app, E, open_calls_app.
Qed.

Lemma perform_all_steps t cs g : performs t g (perform_all cs g).
Proof.
  revert g. induction cs as [|c cs IH]; intros g; [done|]. cbn.
  eapply performs_trans; [apply (performs_call t c), performs_refl|apply IH].
Qed.

Lemma _execute_steps t react rs cs g g' :
  (∀ c ms g, (∃ b, (b, ms) ∈ rs) → head (open_calls (log g)) = Some c → performs t g (react c ms g)) →
  _execute react rs cs g = Ok g' → performs t g g'.
Proof.
  revert cs g. induction rs as [|[b ms] rs IH]; intros cs g Hr; cbn.
  - intros [= <-]. apply perform_all_steps.
  - destruct cs as [|c cs]; [by intros [= <-]|]. destruct b; [|done]. intros E.
    eapply performs_trans; [apply (performs_call t c), (Hr c ms); [exists true; left|cbn; by rewrite open_calls_app]|].
    eapply IH; [|exact E]. intros c' ms' g1 [b' Hin]. apply Hr. exists b'. by right.
Qed.

Lemma react_steps t c (f : gov → string * message → gov) ms g :
  (∀ g x, x ∈ ms → head (open_calls (log g)) = Some c → performs t g (f g x)) →
  head (open_calls (log g)) = Some c → performs t g (fold_left f ms g).
Proof.
  revert g. induction ms as [|x ms IH]; intros g Hf Hc; [done|]. cbn.
  assert (Hx : performs t g (f g x)) by (apply Hf; [left|done]).
  eapply performs_trans; [exact Hx|]. apply IH; [intros g' y Hy; apply Hf; by right|].
  by rewrite (proj2 Hx).
Qed.

Lemma guarded_execution_steps t o instant acceptable error calls g g' :
  (∀ g, acceptable g = true → isOperationPending t g (hashOperation o) = true) →
  (∀ g, acceptable g = true → instant = false → getOperationState t g (hashOperation o) = Ready) →
  (∀ g g', calls g = Ok g' → performs t g g') →
  guarded_execution t o instant acceptable error calls g = Ok g' → performs t g g'.
Proof.
  intros Hp Hr Hc E. unfold guarded_execution in E.
  apply result_bind_inv in E as ([] & Hpre%require_inv & E).
  apply result_bind_inv in E as ([] & Ha%require_inv & E).
  apply result_bind_inv in E as (g1 & Hcalls & E).
  apply result_bind_inv in E as ([] & Ha1%require_inv & [= <-]).
  pose proof (Hc _ _ Hcalls) as H1. eapply performs_trans; [exact H1|].
  apply performs_once; [|cbn; by rewrite open_calls_app]. apply StepFinish; [|by apply Hp|by apply Hr].
  apply orb_prop in Hpre as [Hz%String.eqb_eq|Hd]; [by left|right].
  unfold isOperationDone in Hd. apply bool_decide_eq_true, state_Done in Hd. eapply steps_done; [apply H1|done].
Qed.

Lemma _schedule_steps t id delay g g' : _schedule t id delay g = Ok g' → performs t g g'.
Proof.
  intros E. unfold _schedule in E. apply result_bind_inv in E as ([] & Hu%require_inv & E).
  apply result_bind_inv in E as ([] & Hd%require_inv & E).
  apply result_bind_inv in E as (ts & Ht & [= <-]). unfold add256 in Ht.
  destruct (t + delay <? 2 ^ 256)%N; [|done]. injection Ht as <-.
  apply performs_once; [|cbn; by rewrite open_calls_app]. apply StepSchedule.
  - unfold isOperation in Hu. rewrite negb_involutive in Hu. by apply bool_decide_eq_true in Hu.
  - apply negb_true_iff, N.ltb_ge in Hd. done.
Qed.

(** The messages a call leads to. *)
Lemma reactions_steps t o (react : Call → list (string * message) → gov → gov) rs g g' :
  Forall (λ r : bool * list (string * message), Forall (λ x, ∀ s g g',
    (s = this → self_call (log g)) → run t s x.2 g = Ok g' → performs t g g') r.2) rs →
  react = (λ c messages g, fold_left (λ g x, match x with
      | (s, m') => if String.eqb s this && negb (String.eqb (call_target c) this) then g
                   else keep g (run t s m' g) end) messages g) →
  _execute react rs (op_calls o) g = Ok g' → performs t g g'.
Proof.
  intros IH ->. apply _execute_steps. intros c ms g1 [b Hin] Hc.
  rewrite Forall_forall in IH. specialize (IH _ Hin). cbn in IH. rewrite Forall_forall in IH.
  eapply react_steps; [|exact Hc]. intros g2 [s m] Hx Hc2.
  destruct (String.eqb s this && negb (String.eqb (call_target c) this)) eqn:Eb; [done|].
  destruct (run t s m g2) as [g3| |] eqn:Er; cbn; [|done|done].
  eapply (IH _ Hx); [|exact Er]. intros ->. exists c. split; [done|].
  rewrite String.eqb_refl in Eb. cbn in Eb. apply negb_false_iff in Eb. by apply String.eqb_eq.
Qed.

(** Every message that is not reverted is a sequence of steps. *)
Lemma run_refines t m : ∀ s g g',
  (s = this → self_call (log g)) → run t s m g = Ok g' → performs t g g'.
Proof.
  induction m as [m Hm1 Hm2|o rs IH|o rs IH] using message_nested_ind; intros s g g' Hs E.
  - destruct m as [o d|id d|id|o rs|o rs|d|a|a| |]; try (by edestruct Hm1); try (by edestruct Hm2);
      cbn [run] in E; apply result_bind_inv in E as ([] & Hg%require_inv & E);
      [by eapply _schedule_steps|by eapply _schedule_steps| |..];
      [|injection E as <-; (apply performs_once; [|cbn; by rewrite open_calls_app]); constructor;
        by apply Hs, String.eqb_eq..| | |];
      try (injection E as <-; (apply performs_once; [constructor|cbn; by rewrite ?open_calls_app])).
    apply result_bind_inv in E as ([] & Hp%require_inv & [= <-]).
    apply performs_once; [|cbn; by rewrite open_calls_app]. by apply StepCancel.
  - cbn [run] in E. apply result_bind_inv in E as ([] & _ & E).
    eapply guarded_execution_steps; [| | |exact E].
    + intros g1 Hr. apply ready_pending. exact (bool_decide_eq_true_1 _ Hr).
    + intros g1 Hr _. exact (bool_decide_eq_true_1 _ Hr).
    + intros g1 g2. by eapply reactions_steps.
  - cbn [run] in E. apply result_bind_inv in E as ([] & _ & E).
    eapply guarded_execution_steps; [| | |exact E].
    + done.
    + done.
    + intros g1 g2. by eapply reactions_steps.
Qed.

(** ** The law of the log *)

(** The identifiers of the operations executed so far. *)
Definition executed (l : list event) : list string :=
  omap (λ e, match e with OperationExecuted o _ _ => Some (hashOperation o) | _ => None end) l.

(** The operation was scheduled at [t0] with this delay, at least the minimum at
    the time, and not cancelled since. *)
Definition standing (l : list event) (id : string) (t0 delay : N) : Prop :=
  ∃ l1 l2 least, l = l1 ++ Scheduled id t0 delay least :: l2 ∧ (least ≤ delay)%N ∧ OperationCancelled id ∉ l2.

(** The minimal delay, the council and the owner that the log tells. *)
Definition logged_delay (l : list event) : option N :=
  last (omap (λ e, match e with ChangeMinDelay d => Some d | _ => None end) l).
Definition logged_council (l : list event) : option string :=
  last (omap (λ e, match e with ChangeSecurityCouncil a => Some a | _ => None end) l).
Definition logged_owner (l : list event) : option string :=
  last (omap (λ e, match e with OwnershipTransferred a => Some a | _ => None end) l).

(** When an event may follow a log: an execution, when the operation was not
    executed before, stands scheduled, is past its delay unless the council
    executes it, and its predecessor was executed; a scheduling or a cancelling,
    when the operation was not executed, the former with at least the minimal
    delay in force; a change of the minimal delay or of the council, while the
    innermost call in course is one of the contract to itself. *)
Definition allowed (l : list event) (e : event) : Prop :=
  match e with
  | Scheduled id _ delay least => id ∉ executed l ∧ logged_delay l = Some least ∧ (least ≤ delay)%N
  | OperationCancelled id => id ∉ executed l
  | OperationExecuted o t instant =>
      hashOperation o ∉ executed l ∧
      (∃ t0 delay, standing l (hashOperation o) t0 delay ∧ (instant = false → t0 + delay ≤ t)%N) ∧
      (op_predecessor o = HashZero ∨ op_predecessor o ∈ executed l)
  | ChangeMinDelay _ | ChangeSecurityCouncil _ => self_call l
  | _ => True
  end.

Inductive lawful (start : list event) : list event → Prop :=
| lawful_start : lawful start start
| lawful_event l e : lawful start l → allowed l e → lawful start (l ++ [e]).

(** The storage agrees with the log: operations, and settings. *)
Record consistent_storage (g : gov) : Prop := {
  cs_done id : timestamps g !! id = Some EXECUTED_PROPOSAL_TIMESTAMP ↔ id ∈ executed (log g);
  cs_pending id ts : timestamps g !! id = Some ts → ts ≠ EXECUTED_PROPOSAL_TIMESTAMP →
    ∃ t0 delay, ts = (t0 + delay)%N ∧ standing (log g) id t0 delay;
}.

Record consistent_settings (g : gov) : Prop := {
  cs_delay : logged_delay (log g) = Some (minDelay g);
  cs_council : logged_council (log g) = Some (securityCouncil g);
  cs_owner : logged_owner (log g) = Some (owner g);
}.

Lemma executed_app l l' : executed (l ++ l') = executed l ++ executed l'.
Proof. apply omap_app. Qed.

Lemma standing_app l e id t0 delay :
  e ≠ OperationCancelled id → standing l id t0 delay → standing (l ++ [e]) id t0 delay.
Proof.
  intros He (l1 & l2 & least & -> & Hl & Hc). exists l1, (l2 ++ [e]), least.
  split; [by rewrite <- (assoc_L (++))|]. split; [done|]. rewrite not_elem_of_app, list_elem_of_singleton. naive_solver.
Qed.

(** An event that concerns no operation. *)
Lemma storage_other g e :
  consistent_storage g → executed [e] = [] → (∀ id, e ≠ OperationCancelled id) →
  consistent_storage (emit e g).
Proof.
  intros [Hd Hp] He Hc. split; cbn.
  - intros id. by rewrite executed_app, He, app_nil_r.
  - intros id ts Hts Hne. destruct (Hp id ts Hts Hne) as (t0 & d & E & Hs). exists t0, d.
    split; [done|]. by apply standing_app.
Qed.

Lemma storage_ext g g' :
  timestamps g' = timestamps g → log g' = log g → consistent_storage g → consistent_storage g'.
Proof. intros Et El [Hd Hp]. split; rewrite Et, El; done. Qed.

Lemma storage_schedule t g id delay :
  (2 ≤ t)%N → getOperationState t g id = Unset → (minDelay g ≤ delay)%N → consistent_storage g →
  consistent_storage (emit (Scheduled id t delay (minDelay g))
    (set_timestamps (<[id := (t + delay)%N]> (timestamps g)) g)).
Proof.
  intros Ht HU Hm [Hd Hp]. apply state_Unset in HU. split; cbn.
  - intros id'. rewrite executed_app. cbn. rewrite app_nil_r.
    destruct (decide (id = id')) as [<-|Hne]; [|by rewrite lookup_insert_ne].
    rewrite lookup_insert_eq, <- Hd. unfold EXECUTED_PROPOSAL_TIMESTAMP in *. split; [intros [= E]; lia|].
    intros E. rewrite E in HU. done.
  - intros id' ts. destruct (decide (id = id')) as [<-|Hne].
    + rewrite lookup_insert_eq. intros [= <-] _. exists t, delay. split; [done|].
      exists (log g), [], (minDelay g). split_and!; [done..|]. apply not_elem_of_nil.
    + rewrite lookup_insert_ne by done. intros Hts Hn. destruct (Hp id' ts Hts Hn) as (t0 & d & E & Hs).
      exists t0, d. split; [done|]. by apply standing_app.
Qed.

Lemma storage_cancel t g id :
  isOperationPending t g id = true → consistent_storage g →
  consistent_storage (emit (OperationCancelled id) (set_timestamps (delete id (timestamps g)) g)).
Proof.
  intros (ts0 & Hts0 & H0 & H1)%pending_spec [Hd Hp]. split; cbn.
  - intros id'. rewrite executed_app. cbn. rewrite app_nil_r.
    destruct (decide (id = id')) as [<-|Hne]; [|by rewrite lookup_delete_ne].
    rewrite lookup_delete_eq, <- Hd. split; [done|]. intros E. congruence.
  - intros id' ts. destruct (decide (id = id')) as [<-|Hne]; [by rewrite lookup_delete_eq|].
    rewrite lookup_delete_ne by done. intros Hts Hn. destruct (Hp id' ts Hts Hn) as (t0 & d & E & Hs).
    exists t0, d. split; [done|]. apply standing_app; [congruence|done].
Qed.

Lemma storage_finish t g o instant :
  consistent_storage g → consistent_storage (finish t o instant g).
Proof.
  intros [Hd Hp]. split; cbn.
  - intros id. rewrite executed_app, elem_of_app. cbn. rewrite list_elem_of_singleton.
    destruct (decide (hashOperation o = id)) as [<-|Hne]; [rewrite lookup_insert_eq; naive_solver|].
    rewrite lookup_insert_ne, Hd by done. naive_solver.
  - intros id ts. destruct (decide (hashOperation o = id)) as [<-|Hne]; [rewrite lookup_insert_eq; congruence|].
    rewrite lookup_insert_ne by done. intros Hts Hn. destruct (Hp id ts Hts Hn) as (t0 & d & E & Hs).
    exists t0, d. split; [done|]. by apply standing_app.
Qed.

Lemma logged_app {A} (f : event → option A) l e :
  last (omap f (l ++ [e])) = match f e with Some a => Some a | None => last (omap f l) end.
Proof. rewrite omap_app. cbn. destruct (f e); [by rewrite last_snoc|by rewrite app_nil_r]. Qed.

(** Every change of a setting is logged. *)
Lemma step_settings t g g' : step t g g' → consistent_settings g → consistent_settings g'.
Proof.
  intros Hs [Hd Hc Ho]. unfold logged_delay, logged_council, logged_owner in *.
  destruct Hs; (split; unfold logged_delay, logged_council, logged_owner; cbn;
    rewrite ?logged_app; done).
Qed.

(** The law is kept by every step. *)
Lemma step_lawful t start g g' :
  (2 ≤ t)%N → step t g g' → consistent_settings g → consistent_storage g → lawful start (log g) →
  consistent_storage g' ∧ lawful start (log g').
Proof.
  intros Ht Hs Hset Hc Hl.
  destruct Hs as [g id d HU Hm|g id HP|g o i Hpre HP HR|g c|g|g d Hself|g a Hself|g a|g a]; cbn.
  - split; [by apply storage_schedule|]. apply lawful_event; [done|]. split_and!; [|apply Hset|done].
    rewrite <- (cs_done _ Hc). intros E. apply state_Unset in HU. by rewrite E in HU.
  - split; [by eapply storage_cancel|]. apply lawful_event; [done|]. cbn. rewrite <- (cs_done _ Hc).
    apply pending_spec in HP as (ts & E & _ & ?). congruence.
  - split; [by apply storage_finish|]. apply lawful_event; [done|]. cbn.
    pose proof HP as HP'. apply pending_spec in HP' as (ts & Hts & H0 & H1).
    destruct Hc as [Hd Hp]. destruct (Hp _ _ Hts H1) as (t0 & delay & -> & Hst). split_and!.
    + rewrite <- Hd. congruence.
    + exists t0, delay. split; [done|]. intros Hi. destruct (proj1 (ready_spec _ _ _) (HR Hi)) as (ts' & E & _ & _ & ?).
      rewrite Hts in E. by injection E as <-.
    + rewrite <- Hd. done.
  - split; [by apply storage_other|by apply lawful_event].
  - split; [by apply storage_other|by apply lawful_event].
  - split; [apply (storage_ext (emit (ChangeMinDelay d) g)); [done..|by apply storage_other]|by apply lawful_event].
  - split; [apply (storage_ext (emit (ChangeSecurityCouncil a) g)); [done..|by apply storage_other]|by apply lawful_event].
  - split; [|done]. by apply (storage_ext g).
  - split; [|by apply lawful_event]. apply (storage_ext (emit (OwnershipTransferred a) g)); [done..|]. by apply storage_other.
Qed.

(** What holds between transactions. *)
Definition kept_lawful (start : list event) (g : gov) : Prop :=
  consistent_settings g ∧ consistent_storage g ∧ lawful start (log g).

Lemma transaction_kept_lawful start g x :
  (2 ≤ tr_time x)%N → tr_sender x ≠ this → kept_lawful start g → kept_lawful start (apply_transaction g x).
Proof.
  intros Ht Hx Hg. unfold apply_transaction.
  destruct (run (tr_time x) (tr_sender x) (tr_message x) g) as [g'| |] eqn:E; cbn; [|done|done].
  apply run_refines in E as [E _]; [|done]. induction E as [|g1 g2 g3 Hs _ IH]; [done|]. apply IH.
  destruct Hg as (Hset & Hc & Hl). destruct (step_lawful _ _ _ _ Ht Hs Hset Hc Hl).
  split_and!; [by eapply step_settings|done..].
Qed.

Lemma transactions_kept_lawful start l g :
  Forall (λ x, (2 ≤ tr_time x)%N ∧ tr_sender x ≠ this) l → kept_lawful start g →
  kept_lawful start (apply_transactions l g).
Proof.
  intros Hl. revert g. induction Hl as [|x l [Ht Hx] _ IH]; intros g Hg; [done|].
  apply IH. by apply transaction_kept_lawful.
Qed.

Lemma new_kept_lawful admin council delay g :
  new_Governance admin council delay = Ok g → kept_lawful (log g) g ∧ executed (log g) = [].
Proof.
  unfold new_Governance. destruct (String.eqb admin AddressZero); [done|]. intros [= <-].
  split; [|done]. split_and!; [done| |constructor]. split; cbn; [|done].
  intros id. split; [done|]. by intros ?%not_elem_of_nil.
Qed.

Lemma lawful_NoDup start l : lawful start l → executed start = [] → NoDup (executed l).
Proof.
  intros Hl H0. induction Hl as [|l' e Hl' IH Ha]; [rewrite H0; constructor|].
  rewrite executed_app. destruct e as [| |o t i| | | | |]; cbn; rewrite ?app_nil_r; try done.
  apply NoDup_app. split_and!; [done| |apply NoDup_singleton].
  intros id Hid ->%list_elem_of_singleton. by destruct Ha.
Qed.


End contract.

(** ** A contract with a reentrant owner *)

Module GovernanceSamples.

Definition this : string := "0xgovernance".
Definition hash (o : Operation) : string := op_salt o.

Definition op_a : Operation := mkOp [mkCall "0xowner" 0 "0x"] HashZero "a".
Definition op_b : Operation := mkOp [mkCall this 0 "0x"] "a" "b".

Definition start : gov :=
  match new_Governance "0xowner" AddressZero 10 with Ok g => g | _ => mkGov "" "" "" ∅ 0 [] end.

(** [op_a] is executed too early, then by a call that executes it again from
    inside, then properly, then once more; [op_b] comes after it and lowers the
    minimal delay. *)
Definition history : list transaction :=
  [ mkTransaction 100 "0xowner" (ScheduleTransparent op_a 50);
    mkTransaction 120 "0xowner" (Execute op_a []);
    mkTransaction 160 "0xowner" (Execute op_a [(true, [("0xowner", Execute op_a [])])]);
    mkTransaction 170 "0xowner" (Execute op_a []);
    mkTransaction 180 "0xowner" (Execute op_a []);
    mkTransaction 181 "0xowner" (ScheduleShadow "b" 10);
    mkTransaction 191 "0xowner" (Execute op_b [(true, [(this, UpdateDelay 5)])]) ].


End GovernanceSamples.
