(* ===== verification/GovernedDeploy.v ===== *)
(** * The deployer's operations in the governance contract

    [executeUpgrade] sends two transactions for every privileged call.  Here
    they reach the contract of [Governance]: each schedules an operation without
    delay and then executes it.  The ABI decoder of the contract is an
    interface; what is assumed of it is that it reads what the deployer
    encoded. *)

From stdpp Require Import base gmap list strings.
From Stdlib Require Import ZArith Lia Ascii.
From S2P Require Import Prelude Js Rust Ethers DiamondCut Utils World DeployUtils Deployer.
From S2P Require Import DeployerContracts DeployerChains DeployerProofs SyncLayer Governance.

(** The operation of [executeUpgrade]: one call, no predecessor, a random salt. *)
Definition gov_operation (target : string) (value : Z) (data salt : string) : Operation :=
  mkOp [mkCall target value data] HashZero salt.

(** The dispatcher of the contract: the function and the arguments of a call.
    [canonical] texts are those a decoder writes: checksummed addresses and lower-case data. *)
Class Dispatcher := {
  dispatch : string → option message;
  canonical : string → bool;
}.

Class DispatcherLaws `{EthersOps} `{Chain} `{Dispatcher} : Prop := {
  encode_canonical c m args s : encodeFunctionData c m args = Some s → canonical s = true;
  random_canonical n : canonical (random_bytes32 n) = true;
  dispatch_schedule target value data salt (n : N) s :
    canonical target = true → canonical data = true → canonical salt = true →
    encodeFunctionData "IGovernance" "scheduleTransparent"
      [operation_val (VStr target) value data salt; VNum (Z.of_N n)] = Some s →
    dispatch s = Some (ScheduleTransparent (gov_operation target value data salt) n);
  dispatch_execute target value data salt s :
    canonical target = true → canonical data = true → canonical salt = true →
    encodeFunctionData "IGovernance" "execute" [operation_val (VStr target) value data salt] = Some s →
    dispatch s = Some (Execute (gov_operation target value data salt) []);
}.

Section delivery.
Context `{EthersOps} `{Chain} `{Artifacts} `{Dispatcher} `{!DispatcherLaws}.
(** The address of the contract, the wallet that sends, the hash of operations,
    and the time of the block of a transaction. *)
Context (address wallet : string) (hashOperation : Operation → string) (clock : Z → N).

(** A mined transaction reaches the contract. *)
Definition deliver (x : tx) (g : gov) : result gov_error gov :=
  m ← ok_or CallFailed (dispatch (tx_data x));
  run address hashOperation (clock (tx_nonce x)) wallet m g.

Fixpoint deliver_all (l : list tx) (g : gov) : result gov_error gov :=
  match l with
  | [] => Ok g
  | x :: l' => g' ← deliver x g; deliver_all l' g'
  end.

(** What an operation leaves in the log. *)
Definition op_events (n : Z) (r : nat) (target : string) (value : Z) (data : string) : list event :=
  let o := gov_operation target value data (random_bytes32 r) in
  [ Scheduled (hashOperation o) (clock n) 0 0; Performed (mkCall target value data); Returned;
    OperationExecuted o (clock (n + 1)) false ].

Fixpoint all_events (n : Z) (r : nat) (ops : list (string * Z * string)) : list event :=
  match ops with
  | [] => []
  | (target, value, data) :: ops => op_events n r target value data ++ all_events (n + 2) (S r) ops
  end.

(** The calls that were made. *)
Definition performed (l : list event) : list Call :=
  omap (λ e, match e with Performed c => Some c | _ => None end) l.

Lemma performed_all n r ops :
  performed (all_events n r ops) = map (λ '(target, value, data), mkCall target value data) ops.
Proof.
  revert n r. induction ops as [|[[a v] s] ops IH]; intros n r; [done|]. cbn [all_events map].
  unfold performed. rewrite omap_app. cbn. f_equal. apply IH.
Qed.

Hypothesis clock_start : ∀ n, (2 ≤ clock n)%N.
Hypothesis clock_bound : ∀ n, (clock n < 2 ^ 256)%N.
Hypothesis clock_mono : ∀ n, (clock n ≤ clock (n + 1))%N.

(** The identifiers of operations with salts from [r] on. *)
Fixpoint operation_ids (r : nat) (ops : list (string * Z * string)) : list string :=
  match ops with
  | [] => []
  | (target, value, data) :: ops =>
      hashOperation (gov_operation target value data (random_bytes32 r)) :: operation_ids (S r) ops
  end.

(** Governance as the deployer sets it up: owned by the wallet, without delay,
    and not yet aware of operations with these identifiers, which differ. *)
Record ready_for (ids : list string) (g : gov) : Prop := {
  rf_owner : owner g = wallet;
  rf_delay : minDelay g = 0%N;
  rf_distinct : NoDup ids;
  rf_fresh : Forall (λ id, timestamps g !! id = None) ids;
}.

Lemma schedule_run t o delay g :
  getOperationState t g (hashOperation o) = Unset → (minDelay g ≤ delay)%N → (t + delay < 2 ^ 256)%N →
  run address hashOperation t (owner g) (ScheduleTransparent o delay) g =
    Ok (emit (Scheduled (hashOperation o) t delay (minDelay g))
          (set_timestamps (<[hashOperation o := (t + delay)%N]> (timestamps g)) g)).
Proof.
  intros HU Hd Ht. cbn [run]. unfold onlyOwner, _schedule, isOperation, add256.
  rewrite String.eqb_refl, HU, bool_decide_true, (proj2 (N.ltb_ge _ _) Hd), (proj2 (N.ltb_lt _ _) Ht) by done. done.
Qed.

Lemma perform_all_timestamps cs g : timestamps (perform_all cs g) = timestamps g.
Proof. unfold perform_all. revert g. induction cs as [|c cs IH]; intros g; [done|]. cbn. by rewrite IH. Qed.

Lemma execute_run t o g :
  op_predecessor o = HashZero → getOperationState t g (hashOperation o) = Ready →
  run address hashOperation t (owner g) (Execute o []) g = Ok (finish hashOperation t o false (perform_all (op_calls o) g)).
Proof.
  intros Hp HR. cbn [run]. unfold guarded_execution, _checkPredecessorDone, isOperationReady.
  rewrite String.eqb_refl, Hp, String.eqb_refl, HR, bool_decide_true by done. cbn [orb require mbind result_bind _execute].
  rewrite bool_decide_true; [done|]. rewrite ready_spec in HR |- *. by rewrite perform_all_timestamps.
Qed.

(** One operation: scheduled, then executed. *)
Lemma deliver_operation d h t1 t2 r target value data ids g :
  let op := operation_val (VStr target) value data (random_bytes32 r) in
  let o := gov_operation target value data (random_bytes32 r) in
  carried_out d address h op t1 t2 → canonical target = true → canonical data = true →
  tx_data t1 = calldata "IGovernance" "scheduleTransparent" [op; VNum 0] →
  tx_data t2 = calldata "IGovernance" "execute" [op] → tx_nonce t2 = tx_nonce t1 + 1 →
  ready_for (hashOperation o :: ids) g →
  ∃ g1 g', deliver t1 g = Ok g1 ∧ deliver t2 g1 = Ok g' ∧
    log g' = log g ++ op_events (tx_nonce t1) r target value data ∧ ready_for ids g'.
Proof.
  intros op o [[_ [s1 E1]] [_ [s2 E2]] _ _ _] Ct Cd D1 D2 En [Ho Hm [Hni Hnd]%NoDup_cons [Hid Hf]%Forall_cons].
  set (n := tx_nonce t1) in *. pose proof (clock_start n) as Ht2. pose proof (clock_mono n) as Ht3.
  set (g1 := emit (Scheduled (hashOperation o) (clock n) 0 (minDelay g))
               (set_timestamps (<[hashOperation o := (clock n + 0)%N]> (timestamps g)) g)).
  exists g1, (finish hashOperation (clock (n + 1)) o false (perform_all (op_calls o) g1)). split_and!.
  - unfold deliver. rewrite D1. unfold calldata. change (VNum 0) with (VNum (Z.of_N 0)) in *. rewrite E1. cbn [from_option id].
    rewrite (dispatch_schedule target value data (random_bytes32 r) 0 s1 Ct Cd (random_canonical r) E1).
    cbn [ok_or mbind result_bind]. rewrite <- Ho. apply schedule_run.
    + apply state_Unset. by fold o; rewrite Hid.
    + rewrite Hm. done.
    + rewrite N.add_0_r. apply clock_bound.
  - unfold deliver. rewrite D2, En. unfold calldata. rewrite E2. cbn [from_option id].
    rewrite (dispatch_execute target value data (random_bytes32 r) s2 Ct Cd (random_canonical r) E2).
    cbn [ok_or mbind result_bind]. rewrite <- Ho. change (owner g) with (owner g1).
    apply execute_run; [done|]. apply ready_spec. exists (clock n). fold o. unfold g1, EXECUTED_PROPOSAL_TIMESTAMP. cbn.
    rewrite lookup_insert_eq, N.add_0_r. split_and!; [done|lia|lia|done].
  - cbn. rewrite Hm. by rewrite <- !(assoc_L (++)).
  - split; [done|done|done|]. apply Forall_forall. intros id Hin. rewrite Forall_forall in Hf. cbn.
    assert (Hne : hashOperation o ≠ id) by (by intros E; rewrite E in Hni).
    rewrite !lookup_insert_ne by exact Hne. by apply Hf.
Qed.

(** The operations of a script, sent as the deployer sends them. *)
Definition operation_of (x : string * Z * string * tx_options) : operation :=
  mkOperation (VStr x.1.1.1) x.1.1.2 x.1.2 x.2.

Lemma deliver_operations d h n r ops g :
  goes_through d n r address h (map operation_of ops) →
  Forall (λ x, canonical x.1.1.1 = true ∧ canonical x.1.2 = true) ops →
  ready_for (operation_ids r (map fst ops)) g →
  ∃ g', deliver_all (governed n r address (map operation_of ops)) g = Ok g' ∧
    log g' = log g ++ all_events n r (map fst ops).
Proof.
  revert h n r g. induction ops as [|[[[a v] s] o] ops IH]; intros h n r g Hgo Hc Hg.
  - exists g. cbn. by rewrite app_nil_r.
  - destruct Hgo as [Ho Hgo]. apply Forall_cons in Hc as [[Ca Cs] Hc].
    edestruct deliver_operation as (g1 & g2 & E1 & E2 & El & Hg2); [apply Ho; reflexivity|done|done|done..|exact Hg|].
    destruct (IH _ (n + 2) (S r) g2 Hgo Hc Hg2) as (g' & E & El'). exists g'.
    cbn [map governed operation_of op_target op_value op_data op_options app deliver_all fst snd] in *.
    rewrite E1. cbn [mbind result_bind]. rewrite E2. cbn [mbind result_bind]. split; [exact E|].
    rewrite El', El. cbn [all_events]. by rewrite <- (assoc_L (++)).
Qed.

End delivery.

(** A contract as [deployGovernance] deploys it. *)
Lemma new_ready wallet council ids g :
  new_Governance wallet council 0 = Ok g → NoDup ids → ready_for wallet ids g.
Proof.
  unfold new_Governance. destruct (String.eqb wallet AddressZero); [done|]. intros [= <-] Hn.
  split; [done..|]. apply Forall_forall. intros id _. apply lookup_empty.
Qed.

Section registration.
Context `{EthersOps} `{Chain} `{Artifacts} `{Gateway} `{Dispatcher} `{!DispatcherLaws}.
Context (hashOperation : Operation → string) (clock : Z → N).
Hypothesis clock_start : ∀ n, (2 ≤ clock n)%N.
Hypothesis clock_bound : ∀ n, (clock n < 2 ^ 256)%N.
Hypothesis clock_mono : ∀ n, (clock n ≤ clock (n + 1))%N.

(** The calls of a registration. *)
Definition registration_calls (cfg : SystemConfig) (d : Deployer)
    (hub tracker router chain gas l2ctm e1 e2 : string) (price cost : Z) : list Call :=
  map (λ o, mkCall hub (SyncLayer.op_value o) (op_data o))
    (registration_operations cfg d hub tracker router chain gas l2ctm e1 e2 price cost).

(** A call, as the operation that makes it is given. *)
Definition call_parts (c : Call) : string * Z * string := (call_target c, call_value c, call_data c).

Lemma governed_to n r gov ops : Forall (λ x, tx_to x = Some gov) (governed n r gov ops).
Proof. revert n r. induction ops as [|o ops IH]; intros n r; [done|]. cbn. repeat (constructor; [done|]). apply IH. Qed.

Lemma calldata_canonical c m args : encodable c m args → canonical (calldata c m args) = true.
Proof. intros [_ [s E]]. unfold calldata. rewrite E. by eapply encode_canonical. Qed.

(** The data of the operations comes from the encoder. *)
Lemma made_canonical cfg d hub tracker router chain gas l2ctm e1 e2 price cost (eth : bool) :
  let ops := registration_operations cfg d hub tracker router chain gas l2ctm e1 e2 price cost in
  Forall (λ '(m, args), encodable "Bridgehub" m args)
    (registration_requests cfg d tracker router chain gas l2ctm e1 e2 cost) →
  Forall (λ o, canonical (op_data o) = true) (if eth then ops else take 1 ops).
Proof.
  intros ops Hr. assert (Ho : Forall (λ o, canonical (op_data o) = true) ops).
  { repeat (apply Forall_cons in Hr as [? Hr]). by repeat (constructor; [by apply calldata_canonical|]). }
  destruct eth; [done|by apply Forall_take].
Qed.

(** C20: Registering a gateway, down to the governance contract.  Where governance
    is owned by the deployer's wallet, has no minimum delay and does not know the
    identifiers of the operations of this run, which differ from one another, and
    where the calls of the run can be encoded, its transactions succeed, at block
    times from 2 on that do not decrease, and the bridgehub, which does not call
    governance back, answers the questions asked of it alike throughout, and the
    priority queue with it: if the base token of the gateway is ether, [registerSLContractsOnL1] returns, and governance executes exactly four
    calls of the bridgehub, in order: the gateway becomes a settlement layer, the L2
    bridgehub the counterpart of the chain type manager asset, the manager of the
    gateway is whitelisted, and the two managers are linked; the requests carry the
    value they mint.  With any other base token the function stops with a type
    error when only the first call has been made: the gateway is a settlement layer
    on L1 and nothing is set up on L2. *)
Theorem registration_performed cfg d w g gov hub ctm tracker router chain gas l2ctm token e1 e2 asset zk price cost :
  let eth := bool_decide (token = ADDRESS_ONE) in
  let ops := registration_operations cfg d hub tracker router chain gas l2ctm e1 e2 price cost in
  let made := if eth then ops else take 1 ops in
  let calls := registration_calls cfg d hub tracker router chain gas l2ctm e1 e2 price cost in
  let made_calls := if eth then calls else take 1 calls in
  gateway_setting cfg d w gov hub ctm tracker router chain gas l2ctm token e1 e2 asset zk price cost made →
  canonical hub = true →
  ready_for (deployWallet d) (operation_ids hashOperation (w_random w) (map call_parts made_calls)) g →
  ∃ w' g' txs events,
    registerSLContractsOnL1 cfg d w = (if eth then Done tt else Throw read_error, w') ∧
    w_mined w' = w_mined w ++ txs ∧ Forall (λ x, tx_to x = Some gov) txs ∧
    deliver_all gov (deployWallet d) hashOperation clock txs g = Ok g' ∧ log g' = log g ++ events ∧
    performed events = made_calls.
Proof.
  intros eth ops made calls made_calls Hs Hc Hg.
  destruct (registration_leads cfg d _ _ _ _ _ _ _ _ _ _ _ _ _ _ _ _ _ Hs eq_refl w) as (w' & E & [R _]);
    [by apply after_start, Hs|].
  set (l := map (λ o, (hub, SyncLayer.op_value o, op_data o, op_options o)) made).
  assert (El : map operation_of l = made) by (unfold l, made; by destruct eth).
  assert (Ef : map fst l = map call_parts made_calls) by (unfold l, made, made_calls; by destruct eth).
  destruct (deliver_operations gov (deployWallet d) hashOperation clock clock_start clock_bound
    clock_mono d (w_mined w) (tx_count w) (w_random w) l g) as (g' & E' & Elog).
  { rewrite El. apply Hs. }
  { apply Forall_map, Forall_impl with (λ o, canonical (op_data o) = true); [|by intros o ?].
    apply made_canonical, Hs. }
  { by rewrite Ef. }
  rewrite El in E'. eexists w', g', _, _.
  split_and!; [exact E|exact (ran_mined _ _ _ _ R)| |exact E'|exact Elog|].
  - apply governed_to.
  - rewrite performed_all, Ef, map_map. unfold made_calls. by destruct eth.
Qed.

End registration.

(** ** A registration on a concrete network *)

Module GovernedSamples.

(** Any value as a text, and back. *)
Fixpoint text_of (p : positive) : string :=
  match p with
  | xH => ""
  | xO p => String "0"%char (text_of p)
  | xI p => String "1"%char (text_of p)
  end.

Fixpoint of_text (s : string) : positive :=
  match s with
  | "" => xH
  | String "0"%char s => xO (of_text s)
  | String _ s => xI (of_text s)
  end.

Lemma of_text_of p : of_text (text_of p) = p.
Proof. induction p as [p IH|p IH|]; cbn; by rewrite ?IH. Qed.

Definition to_text {A} `{Countable A} (a : A) : string := text_of (encode a).
Definition from_text {A} `{Countable A} (s : string) : option A := decode (of_text s).

Lemma from_to_text {A} `{Countable A} (a : A) : from_text (to_text a) = Some a.
Proof. unfold from_text, to_text. by rewrite of_text_of, decode_encode. Qed.

(** Calls of governance are encoded by their arguments: the target, the value,
    the data and the salt, and the delay of a scheduling. *)
Definition arguments : Type := (string * Z * string * string * option N)%type.

Definition governance_call (m : string) (args : list val) : option arguments :=
  match args with
  | VObj [(_, VArr [VObj [(_, VStr t); (_, VNum v); (_, VStr s)]]); _; (_, VStr salt)] :: rest =>
      match rest with
      | [VNum n] => if String.eqb m "scheduleTransparent" then Some (t, v, s, salt, Some (Z.to_N n)) else None
      | [] => if String.eqb m "execute" then Some (t, v, s, salt, None) else None
      | _ => None
      end
  | _ => None
  end.

Definition ethers : EthersOps :=
  let E := model_ethers in
  {| arrayify := @arrayify E; hexlify := @hexlify E; number_bytes := @number_bytes E;
     bignum_from := @bignum_from E; bignum_hex := @bignum_hex E; zeroPad := @zeroPad E;
     hexZeroPad := @hexZeroPad E; keccak := @keccak E; sha256 := @sha256 E; abi_word := @abi_word E;
     abi_encode := @abi_encode E;
     encodeFunctionData c m args := Some (to_text (governance_call m args));
     selector := @selector E; struct_abi := @struct_abi E |}.

Definition dispatcher : Dispatcher := {|
  dispatch s :=
    match from_text (A := option arguments) s with
    | Some (Some (t, v, d, salt, Some n)) => Some (ScheduleTransparent (gov_operation t v d salt) n)
    | Some (Some (t, v, d, salt, None)) => Some (Execute (gov_operation t v d salt) [])
    | _ => None
    end;
  canonical _ := true;
|}.

(** The network of the settlement-layer samples, with salts that differ. *)
Definition network (token : string) : Chain :=
  let C := model_chain (SyncSamples.views token) in
  {| network_chainId := 1; wallet_nonce := 0; code_at := @code_at C; tx_succeeds := @tx_succeeds C;
     view_call := @view_call C; tx_hash := @tx_hash C; created_address := @created_address C;
     event_topics := @event_topics C; create2_address := @create2_address C;
     constructor_ok := @constructor_ok C; random_bytes32 n := to_text n; gas_price := @gas_price C;
     date_now := @date_now C |}.

#[export] Instance network_cooperative token :
  @Cooperative ethers (network token) (model_artifacts facet_ctor).
Proof.
  split; try done. intros h a m args. cbn.
  pose proof (SyncSamples.views_done token m args) as Hd.
  destruct (SyncSamples.views token m args) as [v| |]; [by exists v|done|done].
Qed.

#[export] Instance dispatcher_laws token : @DispatcherLaws ethers (network token) dispatcher.
Proof.
  split; try done; intros * _ _ _ [= <-]; unfold dispatch, dispatcher; rewrite from_to_text; cbn; [by rewrite N2Z.id|done].
Qed.

(** Every operation goes through. *)
Lemma all_go token n r gov h ops :
  @goes_through ethers (network token) (model_artifacts facet_ctor) sample_deployer n r gov h ops.
Proof.
  revert n r h. induction ops as [|o ops IH]; intros n r h; [done|]. split; [|apply IH]. intros t1 t2 _.
  apply coop_carried.
Qed.

Lemma setting token plan :
  @gateway_setting ethers (network token) (model_artifacts facet_ctor) SyncSamples.gateway sample_config
    sample_deployer SyncSamples.start sample_address
    L2_BRIDGEHUB_ADDRESS sample_address sample_address L2_ASSET_ROUTER_ADDRESS "505" "72000000" sample_address
    token SyncSamples.e1 SyncSamples.e2 (VStr (SyncSamples.word 7)) (VStr token) 1 1000 plan.
Proof.
  constructor; [first [vm_compute; reflexivity|done]..| | | |].
  - split; [reflexivity|by eexists].
  - repeat (constructor; [split; [reflexivity|by eexists]|]). constructor.
  - apply all_go.
  - intros i r _ _. exists "0x12". reflexivity.
Qed.

Definition hash (o : Operation) : string :=
  to_text (map (λ c, (call_target c, call_value c, call_data c)) (op_calls o), op_predecessor o, op_salt o).

Definition fresh_governance : gov :=
  match new_Governance sample_address AddressZero 0 with Ok g => g | _ => mkGov "" "" "" ∅ 0 [] end.

Definition ids (token : string) : list string :=
  let calls := @registration_calls ethers sample_config sample_deployer L2_BRIDGEHUB_ADDRESS sample_address
    L2_ASSET_ROUTER_ADDRESS "505" "72000000" sample_address SyncSamples.e1 SyncSamples.e2 1 1000 in
  @operation_ids (network token) hash 0
    (map call_parts (if bool_decide (token = ADDRESS_ONE) then calls else take 1 calls)).

Lemma fresh_ready token : bool_decide (NoDup (ids token)) = true → ready_for sample_address (ids token) fresh_governance.
Proof. intros Hn. apply (new_ready _ AddressZero); [vm_compute; reflexivity|by apply bool_decide_eq_true in Hn]. Qed.

(** Four calls of the bridgehub are made where the base token is ether, one where it is another token. *)
Lemma registration_performed_witness :
  (∃ w' g' events,
    @registerSLContractsOnL1 ethers (network ADDRESS_ONE) (model_artifacts facet_ctor) SyncSamples.gateway
      sample_config sample_deployer SyncSamples.start = (Done tt, w') ∧
    log g' = log fresh_governance ++ events ∧ map call_value (performed events) = [0; 10000; 1000; 10000]) ∧
  ∃ w' g' events,
    @registerSLContractsOnL1 ethers (network sample_address) (model_artifacts facet_ctor) SyncSamples.gateway
      sample_config sample_deployer SyncSamples.start = (Throw read_error, w') ∧
    log g' = log fresh_governance ++ events ∧ map call_value (performed events) = [0].
Proof.
  split.
  - destruct (@registration_performed ethers (network ADDRESS_ONE) (model_artifacts facet_ctor) SyncSamples.gateway
      dispatcher _ hash (λ _, 1700000000%N) ltac:(done) ltac:(done) ltac:(done)
      sample_config sample_deployer _ fresh_governance _ _ _ _ _ _ _ _ _ _ _ _ _ _ _
      (setting ADDRESS_ONE _) eq_refl (fresh_ready ADDRESS_ONE ltac:(vm_compute; reflexivity)))
      as (w' & g' & txs & events & E & _ & _ & _ & El & Hp).
    exists w', g', events. split_and!; [exact E|exact El|]. by rewrite Hp.
  - destruct (@registration_performed ethers (network sample_address) (model_artifacts facet_ctor) SyncSamples.gateway
      dispatcher _ hash (λ _, 1700000000%N) ltac:(done) ltac:(done) ltac:(done)
      sample_config sample_deployer _ fresh_governance _ _ _ _ _ _ _ _ _ _ _ _ _ _ _
      (setting sample_address _) eq_refl (fresh_ready sample_address ltac:(vm_compute; reflexivity)))
      as (w' & g' & txs & events & E & _ & _ & _ & El & Hp).
    exists w', g', events. split_and!; [exact E|exact El|]. by rewrite Hp.
Defined.

End GovernedSamples.
